(* ===== verification/_CoqProject ===== *)
-Q . S2P
Prelude.v
Lib.v
Codec.v
RefLib.v
Wire.v
PbClients.v
WireSpec.v
Bounds.v
PbRef.v
PbSpec.v
ProxyClient.v
Multiv.v
Dispatch.v
Keys.v
Commitment.v
Verify.v
Connection.v
Channel.v
PacketFlow.v
Msgs.v
PbTx.v
PbTxSpec.v
Merge.v
Server.v
Module.v
Scenario.v
ModuleSpec.v
Claims.v
ProxySpec.v
MultivSpec.v
Paths.v
Soundness.v
Requests.v
ConnSpec.v
ChanSpec.v
Order.v
Handshake.v
ChannelInv.v
Locality.v
Typed.v
Progress.v
EndToEnd.v
MsgsSpec.v
