(* ===== verification/Prelude.v ===== *)
(** * The IBC proxy: model and theorems

    An IBC proxy stands between an upstream and a downstream chain.  It runs a
    light client of the upstream, verifies what the upstream committed
    (clients, connections, channels, packets, acknowledgements) and commits the
    same values in its own store, under a path that names the upstream client
    and the upstream's prefix.  The downstream runs a "proxy client", a light
    client of the proxy chain that pretends to be a light client of the
    upstream: it asks its inner client for the path where the proxy put the
    value.  A "multiv" client verifies a client or a consensus state through a
    chain of such proxies.

    The development translates the Go code of the repository into executable
    definitions and proves that what a downstream accepts was verified on the
    proxy.  Everything is parametrised by the libraries (ibc-go and the Cosmos
    SDK are not part of the repository): Lib.v names what is used of them and
    which documented facts the theorems rely on; RefLib.v is one implementation
    on which these facts hold and on which every witness is evaluated.

    ** Conventions

    A Go call that returns an error or may panic gives an [outcome]; a call with
    effects is a function of the state ([M] below) that returns the state
    reached on every branch, so that the writes made before a failure stay.
    Strings and byte slices are both [string]; a [uint64] is an [N], an [int]
    or an int32 enumeration is a [Z] (the widths are written out in Wire.v,
    where overflow can happen).  Definitions keep the names of the Go functions;
    where two types of one package have a method of the same name, one gets a
    prefix.  The state of the keeper ([World], Commitment.v) is the store of
    the proxy module and the state of everything else on the chain ([ExtState]).

    ** Files

    Foundations
    - Prelude.v: values, errors, the monad, its tactics and generic lemmas.
    - Lib.v: data and interfaces of ibc-go, the structs of the light clients,
      the library functions (class Lib) and their documented laws (LibLaws).
    - Codec.v, RefLib.v: the reference implementation of the libraries.

    Generated codecs
    - Wire.v: the code gogoproto writes (sizes, writing backwards, the decoding
      loop, skipping of unknown fields); PbClients.v: the messages of
      xx-proxy/types/proxy.pb.go and xx-multiv/types/multiv.pb.go; PbTx.v: those
      of proxy/types/tx.pb.go and proxy.pb.go.
    - WireSpec.v, PbSpec.v, PbTxSpec.v: decoding inverts encoding, Size is exact,
      decoding is total; Merge.v: decoding a concatenation, and an encoding into
      a message that is not empty; Bounds.v: machine integers and overflow
      tests.  The
      class PbLaws is the contract between a message and the messages that
      contain it; PbRef.v has reference instances.

    Light clients
    - ProxyClient.v: xx-proxy/types client_state.go, consensus_state.go,
      store.go, update.go.
    - Multiv.v: xx-multiv/types client_state.go, update.go, commitment.go.
    - Dispatch.v: calls through the interface exported.ClientState, when the
      wrapped state is itself a wrapper.
    - ProxySpec.v, MultivSpec.v: the specifications of the two clients.

    The proxy module
    - Keys.v: types/keys.go.  Commitment.v: keeper/keeper.go, commitment.go.
      Verify.v: keeper/proxy.go, client.go, client_keeper.go.
      Connection.v, Channel.v, PacketFlow.v: keeper/connection.go, channel.go,
      packet.go.  Msgs.v: types/msgs.go and the structs of tx.pb.go.
      Server.v: keeper/msg_server.go and the histories of the chain
      ([step], [reachable]).
    - Module.v: the wiring: types/codec.go and xx-multiv/types/codec.go
      (registration), the service of tx.pb.go (stubs, handlers with their decoder
      and interceptor, description) and its registration on the router of messages,
      genesis and parameters, module.go, client/cli/cli.go; ModuleSpec.v: its
      theorems.
    - Scenario.v: a concrete deployment for the witnesses.
    - Claims.v: the abstract machine.  A claim is a fact about the upstream with
      its path, its value and its proof obligation; the only transition commits
      a claim that the upstream's light client accepted.
    - Paths.v, Soundness.v, ConnSpec.v, ChanSpec.v, Order.v, Handshake.v,
      ChannelInv.v, Locality.v, Typed.v, Progress.v, EndToEnd.v, MsgsSpec.v: the
      theorems about the handlers and their histories.  Requests.v: the same
      histories at the level of transactions and bytes.

    A message of a transaction is resolved by the interface registry, decoded with
    the codecs of PbTx.v, checked, and routed by its type URL to the generated
    handler of Module.v, which the router calls with an interceptor and which ends
    in [handle]; Requests.v has this path as [deliver_tx], over the interfaces of
    the registry and the router, and shows that histories of transactions are
    histories of messages.  The handlers call the keeper's VerifyAndProxy functions, which call the
    upstream's light client through Dispatch.v and write through Commitment.v;
    ConnOpenTry and ConnOpenAck also look at the downstream's multiv and proxy
    client states.

    ** What the theorems show

    - Soundness: every pair of the proxy store is the path and value of an
      accepted claim, over every history of messages; each message refines the
      abstract machine; a message about one upstream and prefix leaves the rest
      of the store alone (Soundness.v).  The application module as a whole, registered on a
      node and given any transactions, blocks and genesis data, refines the
      message server (Requests.v).
    - Non-interference: messages about other upstreams, of every kind, can be left
      out of a history of messages and environment steps without a difference for
      the remaining ones, in their results and in what they store, when the
      libraries do not remember verifications: the hypothesis [unobserved] states
      this with an equivalence on their state (Locality.v).
    - End to end: what the downstream's proxy client accepts as being there was
      accepted on the proxy by the upstream's client, with the same path, value and
      prefix (EndToEnd.v); of the absence of a receipt this is false.  It needs
      client identifiers and prefixes without "/", without
      which two commitments can share a path (Paths.proxy_key_collision).
    - Handlers: for each of the eleven messages, the exact condition of success
      and the effect (ConnSpec.v, ChanSpec.v); a message that fails, in whatever
      way, leaves a strict initial part of its claims behind, in order, which is
      nothing for the messages with a single claim (Order.v).
    - Histories: connections only go from INIT or TRYOPEN to OPEN, OPEN is final
      (Handshake.v); channels beyond INIT sit on OPEN connections (ChannelInv.v);
      the store stays well typed, so that the messages with a single claim only
      panic when a call into the libraries does (Typed.v).
    - Progress: a handshake opened through the proxy, from either side, can be
      completed up to a packet or an acknowledgement, as long as the upstream's
      client accepts the claims.  Any messages may come in between, except that no
      other handshake message names the channel once it is begun (Progress.v).
    - Paths: the writes of the keeper and the key functions agree, what is
      written is read back, keys determine commitments (Paths.v).
    - Clients: the extractor store, header updates, initialisation (ProxySpec.v);
      multi-stage verification is equivalent to a chain of verified proxies, and
      carries trust along it (MultivSpec.v).
    - Codecs: round trip, exact sizes, total decoding, where a slice out of range
      would be a panic (PbTxSpec.v); decoding a concatenation is decoding its parts
      in turn, decoding an encoding into a message merges it field by field, and
      unknown fields are passed over (Merge.v); values and lengths in bounds, overflow tests exact (Bounds.v).
    - Wiring: registration is complete; a stub names the method that serves its
      message, and every generated handler serves its type of message, for any
      decoder and with or without an interceptor (ModuleSpec.v); messages built by their constructors pass the checks in
      front of the handler and reach the keeper with the same arguments
      (MsgsSpec.v).
    - Deviations, each a theorem about the code as it is: the recorded absence of
      a receipt makes its proof of absence fail; ChanOpenTry can reset an OPEN
      channel; packets and acknowledgements are proxied for connections and channels that
      are not OPEN; misbehaviour
      is checked on the raw store; errors of substitution are dropped; the
      constructor of ClientState messages cannot name the counterparty client;
      exported genesis data restores nothing of the proxy store.

    ** Bounds and fuel

    - [dispatch depth] follows at most [depth] nested wrapped clients and is
      [Panic PStackOverflow] beyond.  dispatch_terminates shows that the number of
      wrappers, and of the proofs nested in a proof, bounds the depth of calls:
      whatever is put under that depth is not reached.  The theorems on the module hold for
      any interface of client methods, whatever its depth.
    - Decoding loops carry the index into the slice, as the code does, and take the
      length of the slice as fuel; every turn consumes a byte, and unmarshal_total
      shows that the fuel never runs out and no index leaves the slice.
    - Varints of 64 bits take at most ten turns (WireSpec.uvarint_varint).

    ** Not modelled

    Gas, events, logging and telemetry; roll-back of failed transactions in the
    histories of [reachable] (the theorems hold without it; [deliver_tx] has it); the codec ModuleCdc, which only tests use;
    descriptors, String methods and XXX methods of the generated files; the Go
    declarations that a type implements an interface; the test framework and
    simapp.  A nil slice and an empty slice are one value; Go
    slices are shorter than 2^63 bytes (the predicate [fits] of WireSpec.v). *)
From Stdlib Require Export Ascii String ZArith NArith ZifyN Lia.
From stdpp Require Export base tactics strings list gmap relations.

(** * Go values used everywhere

    A Go [string] and a Go [[]byte] are both finite sequences of bytes; both are
    modelled by [String.string], so that the conversions [[]byte(s)] and
    [string(b)] are the identity.  Concatenation is stdpp's [+:+]. *)
Abbreviation bytes := string (only parsing).

(** Sentinel errors of ibc-go that the source names. *)
Inductive sdk_error :=
| ErrClientNotFound
| ErrInvalidClient
| ErrConsensusStateNotFound
| ErrInvalidConsensus
| ErrConnectionNotFound
| ErrInvalidConnectionState
| ErrInvalidVersion
| ErrChannelNotFound
| ErrInvalidPacket.

(** Go [error] values.  [Wrap]/[Wrapf] are sdkerrors.Wrap/Wrapf, [Errorf] is
    fmt.Errorf and [ErrorNew] is errors.New; the operands kept are the string
    operands.  [ExtError] is an error made by code outside the repository. *)
Inductive error :=
| Sdk (e : sdk_error)
| Wrap (e : error) (description : string)
| Wrapf (e : error) (format : string) (args : list string)
| Errorf (format : string) (args : list string)
| ErrorNew (msg : string)
| ExtError (code : string).

(** The sentinel an error wraps, if any ([errors.Is] on the wrapped chain). *)
Fixpoint error_root (e : error) : error :=
  match e with
  | Wrap e _ | Wrapf e _ _ => error_root e
  | _ => e
  end.

(** Run-time panics.  [PStackOverflow] is the end of the stack in a recursion
    through interface values (see Dispatch.v). *)
Inductive panic :=
| PError (e : error)          (* panic(err) *)
| PNilDeref                   (* nil pointer dereference *)
| PIndexOutOfRange            (* slice index out of range *)
| PTypeAssertion              (* x.(T) on a value of another type *)
| PNotImplemented (msg : string)
| PExt (code : string)        (* raised by code outside the repository *)
| PStackOverflow.

(** The ways a Go call returning [(A, error)] ends. *)
Inductive outcome (A : Type) : Type :=
| Ok (a : A)
| Err (e : error)
| Panic (p : panic).
Arguments Ok {A} a.
Arguments Err {A} e.
Arguments Panic {A} p.

Definition is_ok {A} (o : outcome A) : bool :=
  match o with Ok _ => true | _ => false end.

Definition obind {A B} (o : outcome A) (f : A -> outcome B) : outcome B :=
  match o with Ok a => f a | Err e => Err e | Panic p => Panic p end.

(** [if err != nil { panic(err) }] *)
Definition must {A} (o : outcome A) : outcome A :=
  match o with Ok a => Ok a | Err e => Panic (PError e) | Panic p => Panic p end.

(** [if err != nil { return f(err) }] *)
Definition omap_err {A} (f : error -> error) (o : outcome A) : outcome A :=
  match o with Ok a => Ok a | Err e => Err (f e) | Panic p => Panic p end.

(** * Stateful calls: explicit state passing.  The state reached is returned
    whatever the outcome is: a Go function that fails after a write leaves the
    write in place. *)
Definition M (S A : Type) : Type := S -> outcome A * S.

Definition mret {S A} (a : A) : M S A := fun s => (Ok a, s).
Definition mfail {S A} (e : error) : M S A := fun s => (Err e, s).
Definition mpanic {S A} (p : panic) : M S A := fun s => (Panic p, s).
Definition mlift {S A} (o : outcome A) : M S A := fun s => (o, s).
Definition mget {S A} (f : S -> A) : M S A := fun s => (Ok (f s), s).
Definition mput {S} (f : S -> S) : M S unit := fun s => (Ok tt, f s).

Definition mbind {S A B} (m : M S A) (f : A -> M S B) : M S B := fun s =>
  match m s with
  | (Ok a, s') => f a s'
  | (Err e, s') => (Err e, s')
  | (Panic p, s') => (Panic p, s')
  end.

(** [if err != nil { return f(err) }] for a stateful call. *)
Definition mmap_err {S A} (f : error -> error) (m : M S A) : M S A := fun s =>
  let '(o, s') := m s in (omap_err f o, s').

(** Run a call on a part of the state. *)
Definition mzoom {S T A} (get : S -> T) (put : T -> S -> S) (m : M T A) : M S A :=
  fun s => let '(o, t) := m (get s) in (o, put t s).

Declare Scope go_scope.
Delimit Scope go_scope with go.
Open Scope go_scope.

Notation "'let*' x ':=' m 'in' k" := (mbind m (fun x => k))
  (at level 10, x pattern, m at level 100, k at level 200) : go_scope.
Notation "m ';;*' k" := (mbind m (fun _ => k))
  (at level 100, k at level 200, right associativity) : go_scope.
Notation "'let?' x ':=' o 'in' k" := (obind o (fun x => k))
  (at level 10, x pattern, o at level 100, k at level 200) : go_scope.
Notation "o ';;?' k" := (obind o (fun _ => k))
  (at level 100, k at level 200, right associativity) : go_scope.

(** * Reasoning about outcomes and calls *)

Lemma obind_Ok {A B} (o : outcome A) (f : A -> outcome B) (b : B) :
  obind o f = Ok b <-> exists a, o = Ok a /\ f a = Ok b.
Proof. destruct o; simpl; split; try intros (? & ? & ?); intros; simplify_eq; eauto. Qed.

Lemma must_Ok {A} (o : outcome A) (a : A) : must o = Ok a <-> o = Ok a.
Proof. destruct o; simpl; naive_solver. Qed.

Lemma omap_err_Ok {A} f (o : outcome A) (a : A) : omap_err f o = Ok a <-> o = Ok a.
Proof. destruct o; simpl; naive_solver. Qed.

Section MonadLemmas.
Context {S : Type}.
Implicit Types s : S.

Lemma mbind_Ok {A B} (m : M S A) (f : A -> M S B) s b s2 :
  mbind m f s = (Ok b, s2) <-> exists a s1, m s = (Ok a, s1) /\ f a s1 = (Ok b, s2).
Proof.
  unfold mbind. destruct (m s) as [[a|e|p] s1]; split.
  all: try (intros (? & ? & ? & ?)); try intros ?; simplify_eq; eauto.
Qed.

Lemma mbind_run {A B} (m : M S A) (f : A -> M S B) s a s1 :
  m s = (Ok a, s1) -> mbind m f s = f a s1.
Proof. unfold mbind. by intros ->. Qed.

Lemma mbind_run_Err {A B} (m : M S A) (f : A -> M S B) s e s1 :
  m s = (Err e, s1) -> mbind m f s = (Err e, s1).
Proof. unfold mbind. by intros ->. Qed.

Lemma mbind_run_Panic {A B} (m : M S A) (f : A -> M S B) s p s1 :
  m s = (Panic p, s1) -> mbind m f s = (Panic p, s1).
Proof. unfold mbind. by intros ->. Qed.

Lemma mbind_assoc {A B C} (m : M S A) (f : A -> M S B) (g : B -> M S C) s :
  mbind (mbind m f) g s = mbind m (fun a => mbind (f a) g) s.
Proof. unfold mbind. by destruct (m s) as [[a|e|p] s1]. Qed.

Lemma mlift_Ok {A} (o r : outcome A) s s' : mlift o s = (r, s') <-> o = r /\ s' = s.
Proof. unfold mlift. naive_solver. Qed.

Lemma mlift_bind_Ok {A B} (o : outcome A) (f : A -> M S B) s b s' :
  mbind (mlift o) f s = (Ok b, s') <-> exists a, o = Ok a /\ f a s = (Ok b, s').
Proof.
  rewrite mbind_Ok. split.
  - intros (a & s1 & [-> ->]%mlift_Ok & H). eauto.
  - intros (a & -> & H). by exists a, s.
Qed.

Lemma mlift_bind_run {A B} (o : outcome A) (f : A -> M S B) s r s' :
  mbind (mlift o) f s = (r, s') ->
  (is_ok r = false /\ s' = s) \/ exists a, o = Ok a /\ f a s = (r, s').
Proof. unfold mbind, mlift. destruct o; simpl; intros H; simplify_eq/=; eauto. Qed.

(** [if !b { return err }] *)
Lemma guard_Ok {A} (b : bool) e (m : M S A) s a s' :
  (if negb b then mfail e else m) s = (Ok a, s') <-> b = true /\ m s = (Ok a, s').
Proof. destruct b; simpl; naive_solver. Qed.

Lemma mret_bind {A B} (a : A) (f : A -> M S B) s : mbind (mret a) f s = f a s.
Proof. done. Qed.

Lemma mbind_mret {A} (m : M S A) s : mbind m mret s = m s.
Proof. unfold mbind. by destruct (m s) as [[a|e|p] s1]. Qed.

Lemma mmap_err_Ok {A} f (m : M S A) s a s1 :
  mmap_err f m s = (Ok a, s1) <-> m s = (Ok a, s1).
Proof. unfold mmap_err. destruct (m s) as [[b|e|p] s']; simpl; naive_solver. Qed.

(** ** Relations kept by a call, whatever its outcome *)

Definition steps {A} (R : relation S) (m : M S A) : Prop := forall s, R s (m s).2.

Context (R : relation S) `{!PreOrder R}.

Lemma steps_mret {A} (a : A) : steps R (mret a).
Proof. intros s. simpl. reflexivity. Qed.

Lemma steps_mfail {A} e : steps R (@mfail S A e).
Proof. intros s. simpl. reflexivity. Qed.

Lemma steps_mpanic {A} p : steps R (@mpanic S A p).
Proof. intros s. simpl. reflexivity. Qed.

Lemma steps_mlift {A} (o : outcome A) : steps R (@mlift S A o).
Proof. intros s. simpl. reflexivity. Qed.

Lemma steps_mget {A} (f : S -> A) : steps R (mget f).
Proof. intros s. simpl. reflexivity. Qed.

Lemma steps_mmap_err {A} f (m : M S A) : steps R m -> steps R (mmap_err f m).
Proof. intros H s. specialize (H s). unfold mmap_err. by destruct (m s). Qed.

Lemma steps_mbind {A B} (m : M S A) (f : A -> M S B) :
  steps R m -> (forall a, steps R (f a)) -> steps R (mbind m f).
Proof.
  intros Hm Hf s. specialize (Hm s). unfold mbind.
  destruct (m s) as [[a|e|p] s1]; simpl in *; [|done..].
  etransitivity; [exact Hm | apply Hf].
Qed.

(** The continuation may use that the first call succeeded. *)
Lemma steps_mbind_run {A B} (m : M S A) (f : A -> M S B) s :
  R s (m s).2 ->
  (forall a s1, m s = (Ok a, s1) -> R s1 (f a s1).2) ->
  R s (mbind m f s).2.
Proof.
  intros Hm Hf. unfold mbind.
  destruct (m s) as [[a|e|p] s1]; simpl in *; [|done..].
  etransitivity; [exact Hm | by apply Hf].
Qed.

(** A first call that stays within a finer relation [F], then the rest. *)
Lemma steps_frame_bind (F : relation S) `{!Transitive F} {A B} (m : M S A) (f : A -> M S B) s0 s :
  F s0 s -> steps F m -> (forall s1, F s0 s1 -> R s0 s1) ->
  (forall a s1, F s0 s1 -> R s0 (f a s1).2) ->
  R s0 (mbind m f s).2.
Proof.
  intros H0 Hm HFR Hf. specialize (Hm s). unfold mbind.
  destruct (m s) as [[a|e|p] s1]; simpl in *; [apply Hf|apply HFR..]; by etransitivity.
Qed.

End MonadLemmas.

Create HintDb go_steps discriminated.
#[export] Hint Resolve steps_mret steps_mfail steps_mpanic steps_mlift steps_mget
  steps_mmap_err : go_steps.

(** Decompose a successful run into its successful steps. *)
Ltac run_ok H :=
  repeat match type of H with
  | mbind _ _ _ = (Ok _, _) =>
      let a := fresh "a" in let s := fresh "s" in let H1 := fresh "Hrun" in
      apply mbind_Ok in H as (a & s & H1 & H)
  | mmap_err _ _ _ = (Ok _, _) => apply mmap_err_Ok in H
  | mret _ _ = _ => unfold mret in H; simplify_eq/=
  | mlift _ _ = _ => unfold mlift in H; simplify_eq/=
  | mfail _ _ = (Ok _, _) => by unfold mfail in H
  | mpanic _ _ = (Ok _, _) => by unfold mpanic in H
  end.

(** The pure calls among the hypotheses. *)
Ltac lift_ok :=
  repeat match goal with
  | H : mlift _ _ = (Ok _, _) |- _ => apply mlift_Ok in H as [H ->]
  | H : must _ = Ok _ |- _ => apply must_Ok in H
  end.

(** Walk a call made of binds and branches, keeping a relation. *)
Ltac steps_auto :=
  repeat first
    [ progress intros
    | solve [eauto with go_steps]
    | match goal with
      | |- steps _ (mbind _ _) => apply steps_mbind; [typeclasses eauto | | intros ?]
      end
    | case_match ].

(** * Byte strings *)

Lemma app_str_nil (b : string) : EmptyString +:+ b = b.
Proof. done. Qed.

Lemma app_str_cons x (a b : string) : String x a +:+ b = String x (a +:+ b).
Proof. done. Qed.

Lemma app_str_assoc (a b c : string) : (a +:+ b) +:+ c = a +:+ (b +:+ c).
Proof. induction a as [|x a IH]; [done|]. by rewrite !app_str_cons, IH. Qed.

Lemma app_str_inj_l (p a b : string) : p +:+ a = p +:+ b -> a = b.
Proof.
  induction p as [|x p IH]; [done|]. rewrite !app_str_cons. intros [= H]. by apply IH.
Qed.

Lemma app_str_nil_r (a : string) : a +:+ "" = a.
Proof. induction a as [|x a IH]; [done|]. by rewrite app_str_cons, IH. Qed.

(** [no_char c s]: the byte [c] does not occur in [s]. *)
Fixpoint no_char (c : ascii) (s : string) : bool :=
  match s with
  | EmptyString => true
  | String x s' => negb (bool_decide (x = c)) && no_char c s'
  end.

(** A string is cut in one way only at the first occurrence of a byte. *)
Lemma cut_inj (c : ascii) (a a' r r' : string) :
  no_char c a = true -> no_char c a' = true ->
  a +:+ String c r = a' +:+ String c r' -> a = a' /\ r = r'.
Proof.
  revert a'. induction a as [|x a IH]; intros [|y a'] Ha Ha' H;
    rewrite ?app_str_nil, ?app_str_cons in H; simpl in Ha, Ha'.
  - by simplify_eq.
  - injection H as -> _. by rewrite bool_decide_eq_true_2 in Ha'.
  - injection H as -> _. by rewrite bool_decide_eq_true_2 in Ha.
  - apply andb_prop in Ha as [_ Ha]. apply andb_prop in Ha' as [_ Ha'].
    injection H as -> H. by destruct (IH a' Ha Ha' H) as [-> ->].
Qed.

Lemma no_char_app c a b : no_char c (a +:+ b) = no_char c a && no_char c b.
Proof.
  induction a as [|x a IH]; [done|]. rewrite app_str_cons. simpl.
  by rewrite IH, andb_assoc.
Qed.
