(* ===== verification/Lib.v ===== *)
(** The world around the repository: the ibc-go data the code manipulates
    (messages of third_party/proto), the interfaces the code is written against
    ([exported.ClientState], [exported.ConsensusState], [sdk.KVStore],
    [types.ClientKeeper]) as type classes or records of operations, the library
    functions it calls as the parameters of the class [Lib], and, in the class
    [LibLaws], what the documentation of these libraries says of them and the
    theorems rely on.  Nothing here is specific to one light client: the
    client states of ibc-go are the abstract type [ExtClientState]. *)
From S2P Require Import Prelude.

(** * ibc-go data *)

(** clienttypes.Height (uint64 components). *)
Record Height := mkHeight { RevisionNumber : N; RevisionHeight : N }.

(** commitmenttypes.MerklePrefix *)
Record MerklePrefix := mkMerklePrefix { KeyPrefix : bytes }.

(** exported.Prefix values: a pointer to a MerklePrefix (possibly nil) or a
    commitmenttypes.MultiPrefix. *)
Inductive Prefix :=
| MerklePfx (p : option MerklePrefix)
| MultiPfx (pfx : Prefix) (path_prefix : bytes).

(** codectypes.Any *)
Record AnyT := mkAny { TypeUrl : string; Value : bytes }.

(** connectiontypes.State, an int32 enumeration *)
Definition conn_UNINITIALIZED : Z := 0.
Definition conn_INIT : Z := 1.
Definition conn_TRYOPEN : Z := 2.
Definition conn_OPEN : Z := 3.

Record Version := mkVersion { Identifier : string; Features : list string }.

Record ConnCounterparty := mkConnCounterparty {
  cc_ClientId : string;
  cc_ConnectionId : string;
  cc_Prefix : MerklePrefix
}.

Record ConnectionEnd := mkConnectionEnd {
  conn_ClientId : string;
  conn_Versions : list Version;
  conn_State : Z;
  conn_Counterparty : ConnCounterparty;
  conn_DelayPeriod : N
}.

(** channeltypes.State and Order, int32 enumerations *)
Definition chan_UNINITIALIZED : Z := 0.
Definition chan_INIT : Z := 1.
Definition chan_TRYOPEN : Z := 2.
Definition chan_OPEN : Z := 3.
Definition chan_CLOSED : Z := 4.

Record ChanCounterparty := mkChanCounterparty {
  chc_PortId : string;
  chc_ChannelId : string
}.

Record Channel := mkChannel {
  chan_State : Z;
  chan_Ordering : Z;
  chan_Counterparty : ChanCounterparty;
  chan_ConnectionHops : list string;
  chan_Version : string
}.

Record Packet := mkPacket {
  pkt_Sequence : N;
  pkt_SourcePort : string;
  pkt_SourceChannel : string;
  pkt_DestinationPort : string;
  pkt_DestinationChannel : string;
  pkt_Data : bytes;
  pkt_TimeoutHeight : Height;
  pkt_TimeoutTimestamp : N
}.

(** * The repository's own light-client data *)

(** xx-proxy ClientState *)
Record ProxyCS := mkProxyCS {
  pcs_ProxyClientState : option AnyT;
  pcs_UpstreamClientId : string;
  pcs_ProxyPrefix : option MerklePrefix;
  pcs_IbcPrefix : option MerklePrefix
}.

(** xx-proxy ConsensusState *)
Record ProxyConsS := mkProxyConsS { pcons_ProxyConsensusState : option AnyT }.

(** xx-multiv ClientState (Depth is a uint32) *)
Record MultivCS := mkMultivCS {
  mcs_UnderlyingClientState : option AnyT;
  mcs_Depth : N
}.

(** xx-multiv Proof, LeafProof and MultiProof *)
Record Proof := mkProof {
  ClientProof : bytes;
  Proof_ClientState : option AnyT;
  ConsensusProof : bytes;
  Proof_ConsensusState : option AnyT;
  ProofHeight : Height;
  ConsensusHeight : Height
}.

Record LeafProof := mkLeafProof { Leaf_Proof : bytes; Leaf_ProofHeight : Height }.

Record MultiProof := mkMultiProof {
  Head : Proof;
  Branches : list Proof;
  Leaf : LeafProof
}.

(** * Types owned by the libraries *)

Class LibTypes := {
  (** Everything the libraries keep behind [sdk.Context] and in memory
      databases, the proxy module's own store excepted. *)
  ExtState : Type;
  (** Implementations of exported.ClientState, exported.ConsensusState and
      exported.Proof outside this repository. *)
  ExtClientState : Type;
  ExtConsensusState : Type;
  ExtProof : Type;
  Header : Type;
  Misbehaviour : Type;
  ProofSpec : Type;
  GenesisMetadata : Type;
  Root : Type;
  (** The key-value pairs of the proxy module's store. *)
  ProxyKV : Type
}.

Section Interfaces.
Context `{T : LibTypes}.

(** Values of the interface type exported.ClientState: a pointer to one of the
    repository's two implementations, or one of ibc-go's. *)
Inductive ClientState :=
| CSProxy (cs : ProxyCS)
| CSMultiv (cs : MultivCS)
| CSExt (cs : ExtClientState).

(** Values of exported.ConsensusState. *)
Inductive ConsensusState :=
| ConsProxy (cs : ProxyConsS)
| ConsExt (cs : ExtConsensusState).

(** Values of exported.Proof. *)
Inductive ProofI :=
| PfMulti (p : MultiProof)
| PfExt (p : ExtProof).

(** sdk.KVStore values: the operations of a store handle. *)
Record KVStore := mkKVStore {
  st_Get : bytes -> M ExtState (option bytes);
  st_Has : bytes -> M ExtState bool;
  st_Set : bytes -> bytes -> M ExtState unit;
  st_Delete : bytes -> M ExtState unit;
  st_Iterator : option bytes -> option bytes -> M ExtState (list (bytes * bytes))
}.

(** The interface exported.ClientState, for an implementation type [Self].
    [ctx] and [cdc] are implicit: they only give access to [ExtState]. *)
Class ClientMethods (Self : Type) := {
  cs_ClientType : Self -> outcome string;
  cs_GetLatestHeight : Self -> outcome Height;
  cs_Status : Self -> KVStore -> M ExtState string;
  cs_Validate : Self -> outcome unit;
  cs_GetProofSpecs : Self -> outcome (list ProofSpec);
  cs_Initialize : Self -> KVStore -> option ConsensusState -> M ExtState unit;
  cs_ExportMetadata : Self -> KVStore -> M ExtState (list GenesisMetadata);
  cs_VerifyUpgradeAndUpdateState : Self -> KVStore -> ClientState -> ConsensusState ->
    bytes -> bytes -> M ExtState (ClientState * ConsensusState);
  cs_ZeroCustomFields : Self -> outcome ClientState;
  cs_CheckHeaderAndUpdateState : Self -> KVStore -> Header ->
    M ExtState (ClientState * ConsensusState);
  cs_CheckMisbehaviourAndUpdateState : Self -> KVStore -> Misbehaviour ->
    M ExtState ClientState;
  (** Both results of the Go method are kept: one caller reads the first
      without testing the second. *)
  cs_CheckSubstituteAndUpdateState : Self -> KVStore -> KVStore -> ClientState ->
    M ExtState (option ClientState * option error);
  cs_VerifyClientState : Self -> KVStore -> Height -> Prefix -> string -> bytes ->
    ClientState -> M ExtState unit;
  cs_VerifyClientConsensusState : Self -> KVStore -> Height -> string -> Height ->
    Prefix -> bytes -> ConsensusState -> M ExtState unit;
  cs_VerifyConnectionState : Self -> KVStore -> Height -> Prefix -> bytes -> string ->
    ConnectionEnd -> M ExtState unit;
  cs_VerifyChannelState : Self -> KVStore -> Height -> Prefix -> bytes -> string ->
    string -> Channel -> M ExtState unit;
  cs_VerifyPacketCommitment : Self -> KVStore -> Height -> N -> N -> Prefix -> bytes ->
    string -> string -> N -> bytes -> M ExtState unit;
  cs_VerifyPacketAcknowledgement : Self -> KVStore -> Height -> N -> N -> Prefix ->
    bytes -> string -> string -> N -> bytes -> M ExtState unit;
  cs_VerifyPacketReceiptAbsence : Self -> KVStore -> Height -> N -> N -> Prefix ->
    bytes -> string -> string -> N -> M ExtState unit;
  cs_VerifyNextSequenceRecv : Self -> KVStore -> Height -> N -> N -> Prefix -> bytes ->
    string -> string -> N -> M ExtState unit
}.

(** The interface exported.ConsensusState. *)
Class ConsensusMethods (Self : Type) := {
  cons_ClientType : Self -> outcome string;
  cons_GetRoot : Self -> outcome Root;
  cons_GetTimestamp : Self -> outcome N;
  cons_ValidateBasic : Self -> outcome unit
}.

(** types.ClientKeeper of modules/proxy/types/expected_keepers.go. *)
Class ClientKeeperI := {
  ck_ClientStore : string -> KVStore;
  ck_GetClientState : string -> ExtState -> outcome (option ClientState);
  ck_GetSelfConsensusState : Height -> ExtState -> outcome (option ConsensusState);
  ck_ValidateSelfClient : ClientState -> M ExtState unit
}.

(** * Library functions *)

Class Lib := {
  (** commitmenttypes *)
  Prefix_Bytes : Prefix -> outcome bytes;
  NewMerklePrefix : bytes -> MerklePrefix;
  Height_EQ : Height -> Height -> bool;
  (** clienttypes: packing, and the codec at the interface types *)
  UnpackClientState : option AnyT -> outcome ClientState;
  PackClientState : option ClientState -> outcome AnyT;
  UnpackConsensusState : option AnyT -> outcome ConsensusState;
  PackConsensusState : option ConsensusState -> outcome AnyT;
  MarshalClientState : ClientState -> outcome bytes;
  UnmarshalClientState : bytes -> outcome ClientState;
  MarshalConsensusState : ConsensusState -> outcome bytes;
  UnmarshalConsensusState : bytes -> outcome ConsensusState;
  (** cdc.UnpackAny: a nil Any leaves the interface variable nil *)
  cdc_UnpackAnyClientState : option AnyT -> outcome (option ClientState);
  cdc_UnpackAnyConsensusState : option AnyT -> outcome (option ConsensusState);
  cdc_UnmarshalProof : bytes -> outcome (option ProofI);
  (** cdc at the message types *)
  cdc_MarshalConnection : ConnectionEnd -> outcome bytes;
  cdc_UnmarshalConnection : bytes -> outcome ConnectionEnd;
  cdc_MarshalChannel : Channel -> outcome bytes;
  cdc_UnmarshalChannel : bytes -> outcome Channel;
  (** host: ICS-24 keys *)
  KeyConsensusStatePrefix : string;
  ClientStateKey : bytes;
  ConsensusStateKey : Height -> bytes;
  FullClientStateKey : string -> bytes;
  FullConsensusStateKey : string -> Height -> bytes;
  ConnectionKey : string -> bytes;
  ChannelKey : string -> string -> bytes;
  PacketCommitmentKey : string -> string -> N -> bytes;
  PacketAcknowledgementKey : string -> string -> N -> bytes;
  PacketReceiptKey : string -> string -> N -> bytes;
  NextSequenceRecvKey : string -> string -> bytes;
  (** channeltypes, connectiontypes, sdk *)
  CommitPacket : Packet -> bytes;
  CommitAcknowledgement : bytes -> bytes;
  Uint64ToBigEndian : N -> bytes;
  Order_String : Z -> string;
  VerifySupportedFeature : Version -> string -> bool;
  AccAddressFromBech32 : string -> outcome bytes;
  (** dbadapter.Store{DB: dbm.NewMemDB()} *)
  NewMemStore : M ExtState KVStore;
  (** The proxy module's KVStore, and the key a prefix store hands to its
      parent (storeprefix.NewStore). *)
  kv_get : ProxyKV -> bytes -> option bytes;
  kv_set : bytes -> bytes -> ProxyKV -> ProxyKV;
  prefix_key : bytes -> bytes -> bytes
}.

End Interfaces.

Arguments ClientMethods {T} Self.
Arguments ConsensusMethods {T} Self.

(** A non-empty string of decimal digits. *)
Definition is_digit (c : ascii) : bool :=
  let n := N_of_ascii c in (48 <=? n)%N && (n <=? 57)%N.

Fixpoint all_digits (s : string) : bool :=
  match s with String c s' => is_digit c && all_digits s' | EmptyString => true end.

Definition digits (s : string) : bool := all_digits s && negb (bool_decide (s = "")).

(** * Documented behaviour of the libraries

    Facts the theorems rely on.  Each is a sentence of the libraries'
    documentation: key-value store semantics, ICS-24 paths, inverse codecs. *)
Class LibLaws `{T : LibTypes, L : !Lib, CK : !ClientKeeperI} : Prop := {
  (** sdk.KVStore *)
  law_get_set_eq k v st : kv_get (kv_set k v st) k = Some v;
  law_get_set_ne k k' v st : k <> k' -> kv_get (kv_set k v st) k' = kv_get st k';
  (** storeprefix: keys are prepended with the prefix *)
  law_prefix_key p k : prefix_key p k = p +:+ k;
  (** cdc.MustUnmarshal is the inverse of cdc.MustMarshal on these messages,
      whose encodings are never empty (they have non-nullable fields) *)
  law_connection_codec c bz :
    cdc_MarshalConnection c = Ok bz -> cdc_UnmarshalConnection bz = Ok c /\ bz <> "";
  law_channel_codec c bz :
    cdc_MarshalChannel c = Ok bz -> cdc_UnmarshalChannel bz = Ok c /\ bz <> "";
  (** the same for consensus states and client states; packing in an Any is
      inverted by unpacking *)
  law_consensus_codec c bz :
    MarshalConsensusState c = Ok bz -> UnmarshalConsensusState bz = Ok c /\ bz <> "";
  law_client_codec c bz :
    MarshalClientState c = Ok bz -> UnmarshalClientState bz = Ok c /\ bz <> "";
  law_pack_client c any :
    PackClientState (Some c) = Ok any -> UnpackClientState (Some any) = Ok c;
  law_pack_consensus c any :
    PackConsensusState (Some c) = Ok any -> UnpackConsensusState (Some any) = Ok c;
  (** prefixes: the bytes of a MerklePrefix are its key prefix *)
  law_merkle_bytes p : Prefix_Bytes (MerklePfx (Some p)) = Ok (KeyPrefix p);
  (** ICS-24 paths *)
  law_ConnectionKey id : ConnectionKey id = "connections/" +:+ id;
  law_ChannelKey p c :
    ChannelKey p c = "channelEnds/ports/" +:+ p +:+ "/channels/" +:+ c;
  law_PacketCommitmentKey p c n : exists r, PacketCommitmentKey p c n = "commitments/" +:+ r;
  law_PacketAcknowledgementKey p c n :
    exists r, PacketAcknowledgementKey p c n = "acks/" +:+ r;
  law_PacketReceiptKey p c n : exists r, PacketReceiptKey p c n = "receipts/" +:+ r;
  law_NextSequenceRecvKey p c :
    exists r, NextSequenceRecvKey p c = "nextSequenceRecv/" +:+ r;
  law_FullClientStateKey id :
    FullClientStateKey id = "clients/" +:+ id +:+ "/" +:+ ClientStateKey;
  law_FullConsensusStateKey id h :
    FullConsensusStateKey id h = "clients/" +:+ id +:+ "/" +:+ ConsensusStateKey h;
  (** ICS-24 identifiers: the client keeper only holds identifiers without "/" *)
  law_ConsensusStateKey h :
    exists a b, ConsensusStateKey h = KeyConsensusStatePrefix +:+ "/" +:+ a +:+ "-" +:+ b /\
      digits a = true /\ digits b = true;
  law_client_id id e cs : ck_GetClientState id e = Ok (Some cs) -> no_char "/" id = true
}.
