(* ===== verification/Codec.v ===== *)
(** Self-delimiting encodings of data as byte strings: base-128 varints,
    length-delimited strings, lists, options, pairs and records.  The class
    [Codec] states the round trip with a rest, so that encodings compose.  It
    is the encoding the reference instance of the libraries (RefLib.v) uses. *)
From S2P Require Import Prelude.

#[local] Unset Program Cases.

(** ** Varints: 7 bits per byte, least significant group first. *)

Fixpoint put_varint (fuel : nat) (n : N) : string :=
  match fuel with
  | O => EmptyString
  | S fuel =>
      if (n <? 128)%N then String (ascii_of_N n) EmptyString
      else String (ascii_of_N (n mod 128 + 128)) (put_varint fuel (n / 128))
  end.

(** A number of b bits needs at most b + 1 groups. *)
Definition varint_fuel (n : N) : nat := S (N.to_nat (N.size n)).

Definition put_N (n : N) : string := put_varint (varint_fuel n) n.

Fixpoint take_N (s : string) : option (N * string) :=
  match s with
  | EmptyString => None
  | String c s' =>
      let b := N_of_ascii c in
      if (b <? 128)%N then Some (b, s')
      else match take_N s' with
           | Some (m, r) => Some ((b - 128) + 128 * m, r)%N
           | None => None
           end
  end.

Lemma size_div128 n : (128 <= n)%N -> (N.size (n / 128) < N.size n)%N.
Proof.
  intros H. assert (0 < n / 128)%N as H0 by (apply N.div_str_pos; lia).
  pose proof (N.Div0.mul_div_le n 128) as Hle.
  assert (N.log2 (n / 128) + 7 <= N.log2 n)%N as Hlog.
  { rewrite N.add_comm, <- N.log2_mul_pow2 by lia. apply N.log2_le_mono.
    change (2 ^ 7)%N with 128%N. lia. }
  rewrite !N.size_log2 by lia. lia.
Qed.

Lemma N_ascii_small n : (n < 256)%N -> N_of_ascii (ascii_of_N n) = n.
Proof. intros. by apply N_ascii_embedding. Qed.

Lemma take_put_varint fuel n r :
  (N.size n < N.of_nat fuel)%N -> take_N (put_varint fuel n +:+ r) = Some (n, r).
Proof.
  revert n. induction fuel as [|fuel IH]; intros n Hf; [lia|].
  simpl put_varint. destruct (N.ltb_spec n 128) as [Hn|Hn].
  - rewrite app_str_cons. simpl. rewrite N_ascii_small by lia.
    by rewrite (proj2 (N.ltb_lt _ _) Hn).
  - rewrite app_str_cons. simpl.
    pose proof (N.mod_lt n 128 ltac:(lia)) as Hm.
    rewrite N_ascii_small by lia.
    rewrite (proj2 (N.ltb_ge (n mod 128 + 128) 128)) by (apply N.le_add_l).
    pose proof (size_div128 n Hn) as Hs. rewrite IH by lia.
    f_equal. f_equal. pose proof (N.div_mod n 128 ltac:(lia)). lia.
Qed.

Lemma take_put_N n r : take_N (put_N n +:+ r) = Some (n, r).
Proof. apply take_put_varint. unfold varint_fuel. lia. Qed.

(** ** The class *)

Class Codec (A : Type) := {
  put : A -> string;
  take : string -> option (A * string);
  take_put : forall a r, take (put a +:+ r) = Some (a, r)
}.

Definition encode {A} `{Codec A} (a : A) : string := put a.

Definition decode {A} `{Codec A} (s : string) : option A :=
  match take s with Some (a, EmptyString) => Some a | _ => None end.

Lemma decode_encode {A} `{Codec A} (a : A) : decode (encode a) = Some a.
Proof.
  unfold decode, encode. rewrite <- (app_str_nil_r (put a)).
  by rewrite take_put.
Qed.

#[export] Program Instance N_codec : Codec N := {| put := put_N; take := take_N |}.
Next Obligation. apply take_put_N. Qed.

(** Signed integers, zig-zag. *)
Definition zigzag (z : Z) : N :=
  if (z <? 0)%Z then Z.to_N (- 2 * z - 1) else Z.to_N (2 * z).
Definition unzigzag (n : N) : Z :=
  if N.odd n then (- ((Z.of_N n + 1) / 2))%Z else (Z.of_N n / 2)%Z.

Lemma unzigzag_zigzag z : unzigzag (zigzag z) = z.
Proof.
  unfold unzigzag, zigzag. destruct (Z.ltb_spec z 0).
  - assert (N.odd (Z.to_N (-2 * z - 1)) = true) as ->.
    { apply N.odd_spec. exists (Z.to_N (- z - 1)). lia. }
    rewrite Z2N.id by lia. replace (-2 * z - 1 + 1)%Z with ((- z) * 2)%Z by lia.
    rewrite Z.div_mul by lia. lia.
  - assert (N.odd (Z.to_N (2 * z)) = false) as ->.
    { rewrite <- N.negb_even. apply negb_false_iff, N.even_spec.
      exists (Z.to_N z). lia. }
    rewrite Z2N.id by lia. rewrite Z.mul_comm. by rewrite Z.div_mul by lia.
Qed.

#[export] Program Instance Z_codec : Codec Z := {|
  put z := put_N (zigzag z);
  take s := match take_N s with Some (n, r) => Some (unzigzag n, r) | None => None end
|}.
Next Obligation. intros z r. cbv beta. by rewrite take_put_N, unzigzag_zigzag. Qed.

(** Length-delimited strings. *)
Fixpoint split_at (n : nat) (s : string) : option (string * string) :=
  match n, s with
  | O, _ => Some (EmptyString, s)
  | S n, String c s' =>
      match split_at n s' with Some (a, r) => Some (String c a, r) | None => None end
  | S _, EmptyString => None
  end.

Lemma split_at_app a r : split_at (String.length a) (a +:+ r) = Some (a, r).
Proof. induction a as [|c a IH]; [done|]. rewrite app_str_cons. simpl. by rewrite IH. Qed.

#[export] Program Instance string_codec : Codec string := {|
  put s := put_N (N.of_nat (String.length s)) +:+ s;
  take s := match take_N s with
            | Some (n, r) => split_at (N.to_nat n) r
            | None => None
            end
|}.
Next Obligation.
  intros s r. cbv beta. rewrite app_str_assoc, take_put_N, Nat2N.id. apply split_at_app.
Qed.

#[export] Program Instance prod_codec {A B} `{Codec A, Codec B} : Codec (A * B) := {|
  put p := put p.1 +:+ put p.2;
  take s := match take s with
            | Some (a, r) => match take r with Some (b, r') => Some ((a, b), r') | None => None end
            | None => None
            end
|}.
Next Obligation. intros A B ? ? [a b] r. simpl. by rewrite app_str_assoc, !take_put. Qed.

#[export] Program Instance sum_codec {A B} `{Codec A, Codec B} : Codec (A + B) := {|
  put x := match x with inl a => String "000" (put a) | inr b => String "001" (put b) end;
  take s := match s with
            | String c r =>
                if bool_decide (c = "000"%char)
                then match take r with Some (a, r') => Some (inl a, r') | None => None end
                else match take r with Some (b, r') => Some (inr b, r') | None => None end
            | EmptyString => None
            end
|}.
Next Obligation. intros A B ? ? [a|b] r; rewrite app_str_cons; simpl; by rewrite take_put. Qed.

#[export] Program Instance unit_codec : Codec unit := {|
  put _ := EmptyString; take s := Some (tt, s) |}.
Next Obligation. by intros [] r. Qed.

(** Records and enumerations through a bijection onto an encoded type. *)
Program Definition iso_codec {A B} `{Codec B} (f : A -> B) (g : B -> A)
    (Hgf : forall a, g (f a) = a) : Codec A := {|
  put a := put (f a);
  take s := match take s with Some (b, r) => Some (g b, r) | None => None end
|}.
Next Obligation. intros A B ? f g Hgf a r. cbv beta. by rewrite take_put, Hgf. Qed.

#[export] Instance option_codec {A} `{Codec A} : Codec (option A) :=
  iso_codec (fun o : option A => match o with None => inl tt | Some a => inr a end)
    (fun x : unit + A => match x with inl _ => None | inr a => Some a end)
    ltac:(by intros [?|]).

(** Lists: the length, then the elements. *)
Fixpoint take_list {A} `{Codec A} (n : nat) (s : string) : option (list A * string) :=
  match n with
  | O => Some ([], s)
  | S n => match take s with
           | Some (a, r) =>
               match take_list n r with Some (l, r') => Some (a :: l, r') | None => None end
           | None => None
           end
  end.

Fixpoint put_list {A} `{Codec A} (l : list A) : string :=
  match l with [] => EmptyString | a :: l' => put a +:+ put_list l' end.

Lemma take_put_list {A} `{Codec A} (l : list A) r :
  take_list (length l) (put_list l +:+ r) = Some (l, r).
Proof. induction l as [|a l IH]; [done|]. simpl. by rewrite app_str_assoc, take_put, IH. Qed.

#[export] Program Instance list_codec {A} `{Codec A} : Codec (list A) := {|
  put l := put_N (N.of_nat (length l)) +:+ put_list l;
  take s := match take_N s with
            | Some (n, r) => take_list (N.to_nat n) r
            | None => None
            end
|}.
Next Obligation.
  intros A ? l r. cbv beta. rewrite app_str_assoc, take_put_N, Nat2N.id. apply take_put_list.
Qed.
