(* ===== verification/RefLib.v ===== *)
(** A reference instance of the libraries (Lib.v): finite maps for stores,
    encodings of Codec.v for the codec, and a light client whose consensus
    states are the key-value pairs of the tracked chain, so that verifying a
    proof is looking the path up in the consensus state of the proof height.
    The witnesses of the development are evaluated on it, and [ref_laws]
    shows that the hypotheses of [LibLaws] hold together. *)
From stdpp Require Import pretty.
From S2P Require Import Prelude.
From S2P Require Import Codec.
From S2P Require Import Lib.

(** ** Encodings of the data *)

Definition Height_codec : Codec Height :=
  iso_codec (fun h => (RevisionNumber h, RevisionHeight h))
    (fun p => mkHeight p.1 p.2) ltac:(by intros []).
#[local] Existing Instance Height_codec.

Definition MerklePrefix_codec : Codec MerklePrefix :=
  iso_codec KeyPrefix mkMerklePrefix ltac:(by intros []).
#[local] Existing Instance MerklePrefix_codec.

Definition AnyT_codec : Codec AnyT :=
  iso_codec (fun a => (TypeUrl a, Value a)) (fun p => mkAny p.1 p.2) ltac:(by intros []).
#[local] Existing Instance AnyT_codec.

Definition Version_codec : Codec Version :=
  iso_codec (fun v => (Identifier v, Features v)) (fun p => mkVersion p.1 p.2)
    ltac:(by intros []).
#[local] Existing Instance Version_codec.

Definition ConnCounterparty_codec : Codec ConnCounterparty :=
  iso_codec (fun c => (cc_ClientId c, cc_ConnectionId c, cc_Prefix c))
    (fun '(a, b, c) => mkConnCounterparty a b c) ltac:(by intros []).
#[local] Existing Instance ConnCounterparty_codec.

Definition ConnectionEnd_codec : Codec ConnectionEnd :=
  iso_codec
    (fun c => (conn_ClientId c, conn_Versions c, conn_State c, conn_Counterparty c,
               conn_DelayPeriod c))
    (fun '(a, b, c, d, e) => mkConnectionEnd a b c d e) ltac:(by intros []).
#[local] Existing Instance ConnectionEnd_codec.

Definition ChanCounterparty_codec : Codec ChanCounterparty :=
  iso_codec (fun c => (chc_PortId c, chc_ChannelId c)) (fun p => mkChanCounterparty p.1 p.2)
    ltac:(by intros []).
#[local] Existing Instance ChanCounterparty_codec.

Definition Channel_codec : Codec Channel :=
  iso_codec
    (fun c => (chan_State c, chan_Ordering c, chan_Counterparty c, chan_ConnectionHops c,
               chan_Version c))
    (fun '(a, b, c, d, e) => mkChannel a b c d e) ltac:(by intros []).
#[local] Existing Instance Channel_codec.

Definition ProxyCS_codec : Codec ProxyCS :=
  iso_codec
    (fun c => (pcs_ProxyClientState c, pcs_UpstreamClientId c, pcs_ProxyPrefix c,
               pcs_IbcPrefix c))
    (fun '(a, b, c, d) => mkProxyCS a b c d) ltac:(by intros []).
#[local] Existing Instance ProxyCS_codec.

Definition ProxyConsS_codec : Codec ProxyConsS :=
  iso_codec pcons_ProxyConsensusState mkProxyConsS ltac:(by intros []).
#[local] Existing Instance ProxyConsS_codec.

Definition MultivCS_codec : Codec MultivCS :=
  iso_codec (fun c => (mcs_UnderlyingClientState c, mcs_Depth c))
    (fun p => mkMultivCS p.1 p.2) ltac:(by intros []).
#[local] Existing Instance MultivCS_codec.

Definition Proof_codec : Codec Proof :=
  iso_codec
    (fun p => (ClientProof p, Proof_ClientState p, ConsensusProof p, Proof_ConsensusState p,
               ProofHeight p, ConsensusHeight p))
    (fun '(a, b, c, d, e, f) => mkProof a b c d e f) ltac:(by intros []).
#[local] Existing Instance Proof_codec.

Definition LeafProof_codec : Codec LeafProof :=
  iso_codec (fun p => (Leaf_Proof p, Leaf_ProofHeight p)) (fun p => mkLeafProof p.1 p.2)
    ltac:(by intros []).
#[local] Existing Instance LeafProof_codec.

Definition MultiProof_codec : Codec MultiProof :=
  iso_codec (fun p => (Head p, Branches p, Leaf p)) (fun '(a, b, c) => mkMultiProof a b c)
    ltac:(by intros []).
#[local] Existing Instance MultiProof_codec.

(** ** Types *)

(** A light client: the latest height it tracks.  The consensus states are in
    its store. *)
Record RefClient := mkRefClient { rc_LatestHeight : Height }.

(** The committed key-value pairs of a chain at a height. *)
Abbreviation RefRoot := (list (string * string)).

Record RefHeader := mkRefHeader {
  rh_Trusted : Height;
  rh_Height : Height;
  rh_Root : list (string * string)
}.

Record RefState := mkRefState {
  rs_clients : gmap string string;               (* client id -> encoded state *)
  rs_stores : gmap string (gmap string string);  (* store name -> contents *)
  rs_self : gmap string string;                  (* height -> own consensus state *)
  rs_next : nat                                  (* memory databases made so far *)
}.

Definition ref_types : LibTypes := {|
  ExtState := RefState;
  ExtClientState := RefClient;
  ExtConsensusState := list (string * string);
  ExtProof := unit;
  Header := RefHeader;
  Misbehaviour := unit;
  ProofSpec := unit;
  GenesisMetadata := unit;
  Root := list (string * string);
  ProxyKV := gmap string string
|}.
#[local] Existing Instance ref_types.

Definition ClientState_codec : Codec ClientState :=
  iso_codec (B := ProxyCS + MultivCS + Height)
    (fun c => match c with
              | CSProxy p => inl (inl p)
              | CSMultiv m => inl (inr m)
              | CSExt e => inr (rc_LatestHeight e)
              end)
    (fun x => match x with
              | inl (inl p) => CSProxy p
              | inl (inr m) => CSMultiv m
              | inr h => CSExt (T := ref_types) (mkRefClient h)
              end)
    ltac:(by intros [?|?|[]]).
#[local] Existing Instance ClientState_codec.

Definition ConsensusState_codec : Codec ConsensusState :=
  iso_codec (B := ProxyConsS + list (string * string))
    (fun c => match c with ConsProxy p => inl p | ConsExt e => inr (e : RefRoot) end)
    (fun x => match x with inl p => ConsProxy p | inr e => ConsExt (T := ref_types) e end)
    ltac:(by intros []).
#[local] Existing Instance ConsensusState_codec.

(** ** Stores *)

Definition ref_contents (name : string) (e : RefState) : gmap string string :=
  default ∅ (rs_stores e !! name).

Definition ref_write (name : string) (f : gmap string string -> gmap string string)
    (e : RefState) : RefState :=
  mkRefState (rs_clients e) (<[name := f (ref_contents name e)]> (rs_stores e))
    (rs_self e) (rs_next e).

Definition ref_store (name : string) : KVStore := {|
  st_Get k := fun e => (Ok (ref_contents name e !! k), e);
  st_Has k := fun e => (Ok (bool_decide (is_Some (ref_contents name e !! k))), e);
  st_Set k v := fun e => (Ok tt, ref_write name <[k := v]> e);
  st_Delete k := fun e => (Ok tt, ref_write name (delete k) e);
  st_Iterator _ _ := mpanic (PNotImplemented "iterator")
|}.

Definition ref_NewMemStore : M RefState KVStore := fun e =>
  let name := "mem/" +:+ pretty (N.of_nat (rs_next e)) in
  (Ok (ref_store name),
   mkRefState (rs_clients e) (<[name := ∅]> (rs_stores e)) (rs_self e) (S (rs_next e))).

(** ** Library functions *)

Definition ref_decode {A} `{Codec A} (s : string) : outcome A :=
  match decode s with Some a => Ok a | None => Err (ExtError "cannot unmarshal") end.

Lemma ref_decode_encode {A} `{Codec A} (a : A) : ref_decode (encode a) = Ok a.
Proof. unfold ref_decode. by rewrite decode_encode. Qed.

Definition ref_unpack {A} `{Codec A} (url : string) (any : option AnyT) : outcome A :=
  match any with
  | None => Err (ExtError "Any cannot be nil")
  | Some any =>
      if bool_decide (TypeUrl any = url) then ref_decode (Value any)
      else Err (ExtError "cannot unpack Any")
  end.

Definition ref_pack {A} `{Codec A} (url : string) (a : option A) : outcome AnyT :=
  match a with
  | None => Err (ExtError "cannot proto marshal nil")
  | Some a => Ok (mkAny url (encode a))
  end.

Definition ref_unpack_opt {A} `{Codec A} (url : string) (any : option AnyT) :
    outcome (option A) :=
  match any with
  | None => Ok None
  | Some _ => let? a := ref_unpack url any in Ok (Some a)
  end.

Fixpoint ref_Prefix_Bytes (p : Prefix) : outcome bytes :=
  match p with
  | MerklePfx None => Panic PNilDeref
  | MerklePfx (Some m) => Ok (KeyPrefix m)
  | MultiPfx p path => let? b := ref_Prefix_Bytes p in Ok (b +:+ "/" +:+ path)
  end.

Definition tag (s : string) : string := String "#" s.
Definition untag (s : string) : string := match s with String _ s' => s' | _ => s end.

Fixpoint big_endian (n : nat) (x : N) : string :=
  match n with
  | O => EmptyString
  | S n => big_endian n (x / 256) +:+ String (ascii_of_N (x mod 256)) EmptyString
  end.

Definition ref_lib : Lib (T := ref_types) := {|
  Prefix_Bytes := ref_Prefix_Bytes;
  NewMerklePrefix := mkMerklePrefix;
  Height_EQ h h' := (RevisionNumber h =? RevisionNumber h')%N &&
                    (RevisionHeight h =? RevisionHeight h')%N;
  UnpackClientState := ref_unpack "client";
  PackClientState := ref_pack "client";
  UnpackConsensusState := ref_unpack "consensus";
  PackConsensusState := ref_pack "consensus";
  MarshalClientState cs := Ok (encode cs);
  UnmarshalClientState := ref_decode;
  MarshalConsensusState cs := Ok (encode cs);
  UnmarshalConsensusState := ref_decode;
  cdc_UnpackAnyClientState := ref_unpack_opt "client";
  cdc_UnpackAnyConsensusState := ref_unpack_opt "consensus";
  cdc_UnmarshalProof bz :=
    let? p := ref_decode (A := MultiProof) bz in Ok (Some (PfMulti p));
  cdc_MarshalConnection c := Ok (tag (encode c));
  cdc_UnmarshalConnection bz := ref_decode (untag bz);
  cdc_MarshalChannel c := Ok (tag (encode c));
  cdc_UnmarshalChannel bz := ref_decode (untag bz);
  KeyConsensusStatePrefix := "consensusStates";
  ClientStateKey := "clientState";
  ConsensusStateKey h :=
    "consensusStates/" +:+ pretty (RevisionNumber h) +:+ "-" +:+ pretty (RevisionHeight h);
  FullClientStateKey id := "clients/" +:+ id +:+ "/clientState";
  FullConsensusStateKey id h :=
    "clients/" +:+ id +:+ "/consensusStates/" +:+ pretty (RevisionNumber h) +:+ "-" +:+
    pretty (RevisionHeight h);
  ConnectionKey id := "connections/" +:+ id;
  ChannelKey p c := "channelEnds/ports/" +:+ p +:+ "/channels/" +:+ c;
  PacketCommitmentKey p c n :=
    "commitments/ports/" +:+ p +:+ "/channels/" +:+ c +:+ "/sequences/" +:+ pretty n;
  PacketAcknowledgementKey p c n :=
    "acks/ports/" +:+ p +:+ "/channels/" +:+ c +:+ "/sequences/" +:+ pretty n;
  PacketReceiptKey p c n :=
    "receipts/ports/" +:+ p +:+ "/channels/" +:+ c +:+ "/sequences/" +:+ pretty n;
  NextSequenceRecvKey p c := "nextSequenceRecv/ports/" +:+ p +:+ "/channels/" +:+ c;
  CommitPacket p := "commit:" +:+ pkt_Data p;
  CommitAcknowledgement a := "ack:" +:+ a;
  Uint64ToBigEndian := big_endian 8;
  Order_String o := if (o =? 2)%Z then "ORDER_ORDERED"
                    else if (o =? 1)%Z then "ORDER_UNORDERED" else "ORDER_NONE_UNSPECIFIED";
  VerifySupportedFeature v f := bool_decide (f ∈ Features v);
  AccAddressFromBech32 s :=
    if bool_decide (s = "") then Err (ExtError "empty address string is not allowed") else Ok s;
  NewMemStore := ref_NewMemStore;
  kv_get st k := (st : gmap string string) !! k;
  kv_set k v st := <[k := v]> (st : gmap string string);
  prefix_key p k := p +:+ k
|}.
#[local] Existing Instance ref_lib.

(** ** The light client *)

Fixpoint apply_prefix (p : Prefix) (key : bytes) : bytes :=
  match p with
  | MerklePfx None => "/" +:+ key
  | MerklePfx (Some m) => KeyPrefix m +:+ "/" +:+ key
  | MultiPfx p path => apply_prefix p (path +:+ "/" +:+ key)
  end.

Definition ref_root (store : KVStore) (h : Height) : M RefState RefRoot :=
  let* bz := st_Get store (ConsensusStateKey h) in
  match bz with
  | None => mfail (ExtError "consensus state not found")
  | Some bz =>
      let* cs := mlift (UnmarshalConsensusState bz) in
      match cs with
      | ConsExt root => mret root
      | ConsProxy _ => mfail (ExtError "invalid consensus type")
      end
  end.

Definition ref_lookup (store : KVStore) (h : Height) (p : Prefix) (key : bytes) :
    M RefState (option bytes) :=
  let* root := ref_root store h in
  mret ((list_to_map root : gmap string string) !! apply_prefix p key).

Definition ref_member (store : KVStore) (h : Height) (p : Prefix) (key value : bytes) :
    M RefState unit :=
  let* v := ref_lookup store h p key in
  if bool_decide (v = Some value) then mret tt else mfail (ExtError "membership proof").

Definition ref_absent (store : KVStore) (h : Height) (p : Prefix) (key : bytes) :
    M RefState unit :=
  let* v := ref_lookup store h p key in
  if bool_decide (v = None) then mret tt else mfail (ExtError "non-membership proof").

Definition ref_update (cs : RefClient) (store : KVStore) (h : RefHeader) :
    M RefState (ClientState * ConsensusState) :=
  ref_root store (rh_Trusted h) ;;*
  mret (CSExt (T := ref_types) (mkRefClient (rh_Height h)),
        ConsExt (T := ref_types) (rh_Root h)).

Definition ref_client : ClientMethods (T := ref_types) RefClient := {|
  cs_ClientType _ := Ok "reference";
  cs_GetLatestHeight cs := Ok (rc_LatestHeight cs);
  cs_Status cs store := ref_root store (rc_LatestHeight cs) ;;* mret "Active";
  cs_Validate _ := Ok tt;
  cs_GetProofSpecs _ := Ok [];
  cs_Initialize _ _ _ := mret tt;
  cs_ExportMetadata _ _ := mret [];
  cs_VerifyUpgradeAndUpdateState _ _ cs cons _ _ := mret (cs, cons);
  cs_ZeroCustomFields cs := Ok (CSExt (T := ref_types) cs);
  cs_CheckHeaderAndUpdateState := ref_update;
  cs_CheckMisbehaviourAndUpdateState cs store _ :=
    ref_root store (rc_LatestHeight cs) ;;* mret (CSExt (T := ref_types) cs);
  cs_CheckSubstituteAndUpdateState _ _ _ sub :=
    match sub with
    | CSExt _ => mret (Some sub, None)
    | _ => mret (None, Some (ExtError "substitute client type"))
    end;
  cs_VerifyClientState _ store h p id _ cs :=
    let* bz := mlift (MarshalClientState cs) in
    ref_member store h p (FullClientStateKey id) bz;
  cs_VerifyClientConsensusState _ store h id ch p _ cons :=
    let* bz := mlift (MarshalConsensusState cons) in
    ref_member store h p (FullConsensusStateKey id ch) bz;
  cs_VerifyConnectionState _ store h p _ id c :=
    let* bz := mlift (cdc_MarshalConnection c) in ref_member store h p (ConnectionKey id) bz;
  cs_VerifyChannelState _ store h p _ port id c :=
    let* bz := mlift (cdc_MarshalChannel c) in ref_member store h p (ChannelKey port id) bz;
  cs_VerifyPacketCommitment _ store h _ _ p _ port id n c :=
    ref_member store h p (PacketCommitmentKey port id n) c;
  cs_VerifyPacketAcknowledgement _ store h _ _ p _ port id n a :=
    ref_member store h p (PacketAcknowledgementKey port id n) (CommitAcknowledgement a);
  cs_VerifyPacketReceiptAbsence _ store h _ _ p _ port id n :=
    ref_absent store h p (PacketReceiptKey port id n);
  cs_VerifyNextSequenceRecv _ store h _ _ p _ port id n :=
    ref_member store h p (NextSequenceRecvKey port id) (Uint64ToBigEndian n)
|}.

(** ** The client keeper *)

Definition client_store_name (id : string) : string := "client/" +:+ id.

Definition ref_keeper : ClientKeeperI (T := ref_types) := {|
  ck_ClientStore id := ref_store (client_store_name id);
  ck_GetClientState id e :=
    if no_char "/" id
    then match rs_clients e !! id with
         | None => Ok None
         | Some bz => let? cs := must (UnmarshalClientState bz) in Ok (Some cs)
         end
    else Ok None;
  ck_GetSelfConsensusState h e :=
    match rs_self e !! ConsensusStateKey h with
    | None => Ok None
    | Some bz => let? cs := must (UnmarshalConsensusState bz) in Ok (Some cs)
    end;
  ck_ValidateSelfClient cs :=
    match cs with
    | CSExt _ => mret tt
    | _ => mfail (ExtError "client must be a reference client")
    end
|}.

Lemma pretty_N_digits (n : N) : digits (pretty n) = true.
Proof.
  assert (forall n s, all_digits s = true -> all_digits (pretty_N_go n s) = true) as Hgo.
  { intros m. induction (N.lt_wf_0 m) as [m _ IH]. intros s Hs.
    destruct (decide (0 < m)%N) as [Hm|Hm].
    - rewrite pretty_N_go_step by done. apply IH; [apply N.div_lt; lia|].
      simpl. rewrite Hs, andb_true_r.
      assert (m mod 10 < 10)%N as Hd by (apply N.mod_lt; lia).
      unfold pretty_N_char, is_digit. clear -Hd.
      repeat case_match; by vm_compute.
    - assert (m = 0%N) as -> by lia. by rewrite pretty_N_go_0. }
  unfold digits. apply andb_true_intro. split.
  - unfold pretty, pretty_N. case_decide; [done|]. by apply Hgo.
  - apply negb_true_iff, bool_decide_eq_false_2.
    unfold pretty, pretty_N. case_decide as Hn; [done|].
    rewrite pretty_N_go_step by lia. intros H.
    assert (forall m s, s <> "" -> pretty_N_go m s <> "") as Hne; [|by eapply Hne, H].
    clear. intros m. induction (N.lt_wf_0 m) as [m _ IH]. intros s Hs.
    destruct (decide (0 < m)%N) as [Hm|Hm].
    + rewrite pretty_N_go_step by done. apply IH; [apply N.div_lt; lia | done].
    + assert (m = 0%N) as -> by lia. by rewrite pretty_N_go_0.
Qed.

Lemma ref_unpack_pack {A} `{Codec A} url (a : A) any :
  ref_pack url (Some a) = Ok any -> ref_unpack url (Some any) = Ok a.
Proof.
  intros [= <-]. unfold ref_unpack. rewrite bool_decide_eq_true_2 by done.
  apply ref_decode_encode.
Qed.

(** The hypotheses on the libraries hold of the reference instance. *)
Lemma ref_laws : LibLaws (T := ref_types) (L := ref_lib) (CK := ref_keeper).
Proof.
  split; try done.
  - intros k v st. apply lookup_insert_eq.
  - intros k k' v st Hne. by apply lookup_insert_ne.
  - intros c bz [= <-]. split; [exact (ref_decode_encode c) | done].
  - intros c bz [= <-]. split; [exact (ref_decode_encode c) | done].
  - intros c bz [= <-]. split; [exact (ref_decode_encode c) | by destruct c].
  - intros c bz [= <-]. split; [exact (ref_decode_encode c) | by destruct c as [| |[]]].
  - intros c any. exact (ref_unpack_pack "client" c any).
  - intros c any. exact (ref_unpack_pack "consensus" c any).
  - intros p c n. by eexists.
  - intros p c n. by eexists.
  - intros p c n. by eexists.
  - intros p c. by eexists.
  - intros h. exists (pretty (RevisionNumber h)), (pretty (RevisionHeight h)).
    split; [done|]. split; apply pretty_N_digits.
  - intros id e cs. simpl. by destruct (no_char "/" id).
Qed.
