(* ===== verification/Wire.v ===== *)
(** The protocol-buffer code that gogoproto generated for the repository's
    messages (the .pb.go files): variable-length integers, messages written
    backwards into a buffer of the size announced by Size, the decoding loop
    over fields, and the skipping of unknown fields.  PbClients.v and
    PbTx.v instantiate it for the messages of the light clients and of the proxy
    module. *)
From S2P Require Import Prelude.

(** * Machine integers *)

(** int64(n) and int32(n) of an unsigned integer, uint64(n) of a signed one *)
Definition to_int64 (n : N) : Z := ((Z.of_N n + 2 ^ 63) mod 2 ^ 64 - 2 ^ 63)%Z.
Definition to_int32 (n : N) : Z := ((Z.of_N n + 2 ^ 31) mod 2 ^ 32 - 2 ^ 31)%Z.
Definition to_uint64 (z : Z) : N := Z.to_N (z mod 2 ^ 64).
(** a sum of int64s *)
Definition wrap_int64 (z : Z) : Z := ((z + 2 ^ 63) mod 2 ^ 64 - 2 ^ 63)%Z.

(** * Strings as byte slices *)

Definition slen (s : bytes) : Z := Z.of_nat (String.length s).

(** s[n:], nothing when n is past the end *)
Fixpoint sdrop (n : Z) (s : bytes) : bytes :=
  if (n <=? 0)%Z then s
  else match s with EmptyString => EmptyString | String _ s' => sdrop (n - 1) s' end.

(** s[:n], all of [s] when n is past the end *)
Fixpoint stake (n : Z) (s : bytes) : bytes :=
  if (n <=? 0)%Z then EmptyString
  else match s with EmptyString => EmptyString | String c s' => String c (stake (n - 1) s') end.

(** The slicing of Go, s[i:j]: a panic when the bounds are out of order or out of
    range.  The capacity of a slice is taken to be its length. *)
Definition slice (s : bytes) (i j : Z) : outcome bytes :=
  if ((0 <=? i) && (i <=? j) && (j <=? slen s))%Z%bool then Ok (stake (j - i) (sdrop i s))
  else Panic PIndexOutOfRange.

Fixpoint zeros (n : nat) : bytes :=
  match n with O => EmptyString | S n => String zero (zeros n) end.

(** * Writing *)

(** sovX: the number of bytes of the varint of [x], (bits.Len64(x|1) + 6) / 7 *)
Definition sov (x : N) : Z := ((Z.of_N (N.size (N.lor x 1)) + 6) / 7)%Z.

(** The bytes that the loop of encodeVarintX stores.  A uint64 takes at most
    ten turns. *)
Fixpoint varint_loop (fuel : nat) (v : N) : bytes :=
  match fuel with
  | O => EmptyString
  | S fuel =>
      if (128 <=? v)%N
      then String (ascii_of_N (N.lor (N.land v 127) 128)) (varint_loop fuel (N.shiftr v 7))
      else String (ascii_of_N v) EmptyString
  end.

Definition varint (v : N) : bytes := varint_loop 10 v.

(** The buffer dAtA, written from its end: [room] bytes are free at its start
    (the index i of the code), [written] is what follows. *)
Record Buf := mkBuf { room : Z; written : bytes }.

(** i -= len(s); copy(dAtA[i:], s) *)
Definition put (s : bytes) : M Buf unit := fun b =>
  let i := (room b - slen s)%Z in
  if (i <? 0)%Z then (Panic PIndexOutOfRange, b) else (Ok tt, mkBuf i (s +:+ written b)).

(** encodeVarintX: the offset goes back by sov(v) bytes, whatever the number of
    bytes the loop stores from there. *)
Definition encodeVarint (v : N) : M Buf unit := fun b =>
  let base := (room b - sov v)%Z in
  let s := varint v in
  if (base <? 0)%Z then (Panic PIndexOutOfRange, b)
  else (Ok tt, mkBuf base
    (s +:+ zeros (Z.to_nat (sov v - slen s)) +:+ sdrop (slen s - sov v) (written b))).

(** The constants i--; dAtA[i] = 0x... of a tag, field number * 8 + wire type: one
    byte for the fields up to 15, two for the next, which the code stores from
    the last to the first. *)
Definition put_tag (tag : N) : M Buf unit :=
  if (tag <? 128)%N then put (String (ascii_of_N tag) EmptyString)
  else
    put (String (ascii_of_N (tag / 128)) EmptyString) ;;*
    put (String (ascii_of_N (tag mod 128 + 128)) EmptyString).

(** A generated message: Size, MarshalToSizedBuffer and Unmarshal.  The state of
    Unmarshal is the receiver. *)
Class PbMessage (X : Type) := {
  pb_zero : X;
  pb_Size : X -> Z;
  pb_MarshalToSizedBuffer : X -> M Buf Z;
  pb_Unmarshal : bytes -> M X unit
}.

(** The frame of MarshalToSizedBuffer: i := len(dAtA) ... return len(dAtA) - i *)
Definition sized (body : M Buf unit) : M Buf Z :=
  let* l := mget room in
  body ;;*
  let* i := mget room in
  mret (l - i)%Z.

Section Writers.
Context {X : Type} `{PbMessage X}.

(** size, err := m.MarshalToSizedBuffer(dAtA[:i]); i -= size; the varint of the
    size; the tag *)
Definition put_msg (tag : N) (m : X) : M Buf unit :=
  let* size := mzoom (fun b => mkBuf (room b) EmptyString)
                     (fun sub b => mkBuf (room sub) (written sub +:+ written b))
                     (pb_MarshalToSizedBuffer m) in
  encodeVarint (Z.to_N size) ;;*
  put_tag tag.

Definition put_opt (tag : N) (m : option X) : M Buf unit :=
  match m with Some m => put_msg tag m | None => mret tt end.

(** for iNdEx := len(l) - 1; iNdEx >= 0; iNdEx-- *)
Fixpoint put_rep (tag : N) (l : list X) : M Buf unit :=
  match l with
  | [] => mret tt
  | m :: l' => put_rep tag l' ;;* put_msg tag m
  end.

(** The sizes start with that of the tag, a constant of the code. *)
Definition size_msg (tagsize : Z) (m : X) : Z :=
  let l := pb_Size m in (tagsize + l + sov (Z.to_N l))%Z.

Definition size_opt (tagsize : Z) (m : option X) : Z :=
  match m with Some m => size_msg tagsize m | None => 0%Z end.

Fixpoint size_rep (tagsize : Z) (l : list X) : Z :=
  match l with [] => 0%Z | m :: l' => (size_msg tagsize m + size_rep tagsize l')%Z end.

(** Marshal: a buffer of Size bytes, and the n first of them. *)
Definition Marshal (m : X) : outcome bytes :=
  let size := pb_Size m in
  match pb_MarshalToSizedBuffer m (mkBuf size EmptyString) with
  | (Ok n, b) => slice (zeros (Z.to_nat (room b)) +:+ written b) 0 n
  | (Err e, _) => Err e
  | (Panic p, _) => Panic p
  end.

(** MarshalTo: into the first Size bytes of a given slice, whose capacity is taken to
    be its length *)
Definition MarshalTo (m : X) (dAtA : bytes) : outcome (Z * bytes) :=
  let size := pb_Size m in
  if (slen dAtA <? size)%Z then Panic PIndexOutOfRange
  else
  match pb_MarshalToSizedBuffer m (mkBuf size EmptyString) with
  | (Ok n, b) => Ok (n, stake (room b) dAtA +:+ written b +:+ sdrop size dAtA)
  | (Err e, _) => Err e
  | (Panic p, _) => Panic p
  end.

(** Reset: the receiver becomes the zero message. *)
Definition Reset : M X unit := mput (fun _ => pb_zero).
End Writers.

(** Strings and byte slices, when they are not empty *)
Definition put_bytes (tag : N) (s : bytes) : M Buf unit :=
  if (0 <? slen s)%Z then put s ;;* encodeVarint (Z.to_N (slen s)) ;;* put_tag tag else mret tt.

Definition size_bytes (tagsize : Z) (s : bytes) : Z :=
  if (0 <? slen s)%Z then (tagsize + slen s + sov (Z.to_N (slen s)))%Z else 0%Z.

(** Repeated strings, empty ones included *)
Fixpoint put_strings (tag : N) (l : list string) : M Buf unit :=
  match l with
  | [] => mret tt
  | s :: l' =>
      put_strings tag l' ;;*
      put s ;;* encodeVarint (Z.to_N (slen s)) ;;* put_tag tag
  end.

Fixpoint size_strings (tagsize : Z) (l : list string) : Z :=
  match l with
  | [] => 0%Z
  | s :: l' => (tagsize + slen s + sov (Z.to_N (slen s)) + size_strings tagsize l')%Z
  end.

(** Integers, when they are not zero *)
Definition put_uint (tag : N) (n : N) : M Buf unit :=
  if (n =? 0)%N then mret tt else encodeVarint n ;;* put_tag tag.

Definition size_uint (tagsize : Z) (n : N) : Z :=
  if (n =? 0)%N then 0%Z else (tagsize + sov n)%Z.

(** Enumerations, int32, when they are not zero *)
Definition put_enum (tag : N) (n : Z) : M Buf unit :=
  if (n =? 0)%Z then mret tt else encodeVarint (to_uint64 n) ;;* put_tag tag.

Definition size_enum (tagsize : Z) (n : Z) : Z :=
  if (n =? 0)%Z then 0%Z else (tagsize + sov (to_uint64 n))%Z.

(** * Reading *)

Definition ErrIntOverflow : error := Errorf "proto: integer overflow" [].
Definition ErrInvalidLength : error :=
  Errorf "proto: negative length found during unmarshaling" [].
Definition ErrUnexpectedEndOfGroup : error := Errorf "proto: unexpected end of group" [].
Definition ErrUnexpectedEOF : error := ExtError "unexpected EOF".

(** for shift := uint(0); ; shift += 7: the value of the varint at the start of
    [s], in [width] bits, and what follows it *)
Fixpoint uvarint (width : N) (s : bytes) (shift acc : N) : outcome (N * bytes) :=
  if (64 <=? shift)%N then Err ErrIntOverflow
  else match s with
  | EmptyString => Err ErrUnexpectedEOF
  | String c s' =>
      let b := N_of_ascii c in
      let acc := N.lor acc (N.shiftl (N.land b 127) shift mod 2 ^ width)%N in
      if (b <? 128)%N then Ok (acc, s') else uvarint width s' (shift + 7) acc
  end.

(** A length and the bytes it announces.  [l] is len(dAtA); the index iNdEx is
    [l] less what remains. *)
Definition read_chunk (l : Z) (rest : bytes) : outcome (bytes * bytes) :=
  let? (n, rest) := uvarint 64 rest 0 0 in
  let len := to_int64 n in
  let iNdEx := (l - slen rest)%Z in
  if (len <? 0)%Z then Err ErrInvalidLength
  else
  let postIndex := wrap_int64 (iNdEx + len) in
  if (postIndex <? 0)%Z then Err ErrInvalidLength
  else if (l <? postIndex)%Z then Err ErrUnexpectedEOF
  else
  let? chunk := slice rest 0 (postIndex - iNdEx) in
  let? after := slice rest (postIndex - iNdEx) (slen rest) in
  Ok (chunk, after).

(** The switch of skipX on the wire type: where the index iNdEx goes, which may be
    past the end of the slice, and the depth of groups *)
Definition skip_field (dAtA : bytes) (wireType : N) (iNdEx : Z) (depth : N) :
    outcome (Z * N) :=
  let l := slen dAtA in
  match wireType with
  | 0 => let? rest := slice dAtA iNdEx l in
         let? (_, rest2) := uvarint 64 rest 0 0 in
         Ok ((l - slen rest2)%Z, depth)
  | 1 => Ok ((iNdEx + 8)%Z, depth)
  | 2 => let? rest := slice dAtA iNdEx l in
         let? (n, rest2) := uvarint 64 rest 0 0 in
         let length := to_int64 n in
         if (length <? 0)%Z then Err ErrInvalidLength
         else Ok (wrap_int64 (l - slen rest2 + length), depth)
  | 3 => Ok (iNdEx, depth + 1)
  | 4 => if (depth =? 0)%N then Err ErrUnexpectedEndOfGroup
         else Ok (iNdEx, depth - 1)
  | 5 => Ok ((iNdEx + 4)%Z, depth)
  | _ => Err (Errorf "proto: illegal wireType %d" [])
  end%N.

(** skipX: the number of bytes of the field at the start of the slice, groups
    included: for iNdEx < l { ... }; return 0, io.ErrUnexpectedEOF *)
Fixpoint skip_loop (fuel : nat) (dAtA : bytes) (depth : N) (iNdEx : Z) : outcome Z :=
  let l := slen dAtA in
  if (iNdEx <? l)%Z then
    match fuel with
    | O => Panic PStackOverflow
    | S fuel =>
        let? rest := slice dAtA iNdEx l in
        let? (wire, rest1) := uvarint 64 rest 0 0 in
        let? (iNdEx, depth) := skip_field dAtA (N.land wire 7) (l - slen rest1) depth in
        if (iNdEx <? 0)%Z then Err ErrInvalidLength
        else if (depth =? 0)%N then Ok iNdEx
        else skip_loop fuel dAtA depth iNdEx
    end
  else Err ErrUnexpectedEOF.

Definition skip (dAtA : bytes) : outcome Z := skip_loop (String.length dAtA) dAtA 0 0.

(** The body of a case of [switch fieldNum]: from len(dAtA), the wire type and the
    bytes after the tag, to the bytes after the field. *)
Definition Case (X : Type) : Type := Z -> N -> bytes -> M X bytes.

Definition wrong_wireType (field : string) : error :=
  Errorf "proto: wrong wireType = %d for field " [field].

Section Cases.
Context {X : Type}.

(** A nullable message: allocated on first use, then decoded into. *)
Definition case_opt {Y} `{PbMessage Y} (name : string) (get : X -> option Y)
    (set : option Y -> X -> X) : Case X := fun l wireType rest =>
  if negb (wireType =? 2)%N then mfail (wrong_wireType name)
  else
  let* (chunk, rest) := mlift (read_chunk l rest) in
  mzoom (fun m => default pb_zero (get m)) (fun y => set (Some y)) (pb_Unmarshal chunk) ;;*
  mret rest.

(** A message that is part of the struct *)
Definition case_msg {Y} `{PbMessage Y} (name : string) (get : X -> Y) (set : Y -> X -> X) :
    Case X := fun l wireType rest =>
  if negb (wireType =? 2)%N then mfail (wrong_wireType name)
  else
  let* (chunk, rest) := mlift (read_chunk l rest) in
  mzoom get set (pb_Unmarshal chunk) ;;*
  mret rest.

(** A repeated message: a zero message is appended, then decoded into. *)
Definition case_rep {Y} `{PbMessage Y} (name : string) (get : X -> list Y)
    (set : list Y -> X -> X) : Case X := fun l wireType rest =>
  if negb (wireType =? 2)%N then mfail (wrong_wireType name)
  else
  let* (chunk, rest) := mlift (read_chunk l rest) in
  let* before := mget get in
  mzoom (fun _ => pb_zero) (fun y => set (before ++ [y])) (pb_Unmarshal chunk) ;;*
  mret rest.

(** A string or a byte slice *)
Definition case_bytes (name : string) (set : bytes -> X -> X) : Case X :=
  fun l wireType rest =>
  if negb (wireType =? 2)%N then mfail (wrong_wireType name)
  else
  let* (chunk, rest) := mlift (read_chunk l rest) in
  mput (set chunk) ;;*
  mret rest.

(** for shift := uint(0); ; shift += 7 { ... m.Field |= T(b&0x7F) << shift ... }: the
    value [acc] of the field grows with every byte, and stays as it is when the
    loop fails. *)
Fixpoint read_uint (width : N) (set : N -> X -> X) (s : bytes) (shift acc : N) : M X bytes :=
  if (64 <=? shift)%N then mfail ErrIntOverflow
  else match s with
  | EmptyString => mfail ErrUnexpectedEOF
  | String c s' =>
      let b := N_of_ascii c in
      let acc := N.lor acc (N.shiftl (N.land b 127) shift mod 2 ^ width)%N in
      mput (set acc) ;;*
      if (b <? 128)%N then mret s' else read_uint width set s' (shift + 7) acc
  end.

(** An unsigned integer of [width] bits, reset first *)
Definition case_uint (width : N) (name : string) (set : N -> X -> X) : Case X :=
  fun l wireType rest =>
  if negb (wireType =? 0)%N then mfail (wrong_wireType name)
  else
  mput (set 0%N) ;;*
  read_uint width set rest 0 0.

(** A repeated string *)
Definition case_strings (name : string) (get : X -> list string)
    (set : list string -> X -> X) : Case X := fun l wireType rest =>
  if negb (wireType =? 2)%N then mfail (wrong_wireType name)
  else
  let* (chunk, rest) := mlift (read_chunk l rest) in
  mput (fun m => set (get m ++ [chunk]) m) ;;*
  mret rest.

(** An enumeration, reset first *)
Definition case_enum (name : string) (set : Z -> X -> X) : Case X :=
  fun l wireType rest =>
  if negb (wireType =? 0)%N then mfail (wrong_wireType name)
  else
  mput (set 0%Z) ;;*
  read_uint 32 (fun n => set (to_int32 n)) rest 0 0.

(** for iNdEx < l { ... }, where [fields] is the switch on the field number, and the
    test of the index behind the loop *)
Fixpoint fields_loop (fields : Z -> option (Case X)) (dAtA : bytes) (fuel : nat) (iNdEx : Z) :
    M X unit :=
  let l := slen dAtA in
  if (iNdEx <? l)%Z then
    match fuel with
    | O => mpanic PStackOverflow
    | S fuel =>
        let* pre := mlift (slice dAtA iNdEx l) in
        let* (wire, rest) := mlift (uvarint 64 pre 0 0) in
        let fieldNum := to_int32 (N.shiftr wire 3) in
        let wireType := N.land wire 7 in
        if (wireType =? 4)%N then mfail (Errorf "proto: wiretype end group for non-group" [])
        else if (fieldNum <=? 0)%Z then mfail (Errorf "proto: illegal tag %d (wire type %d)" [])
        else
        match fields fieldNum with
        | Some case =>
            let* rest := case l wireType rest in
            fields_loop fields dAtA fuel (l - slen rest)%Z
        | None =>
            let* skippy := mlift (skip pre) in
            if ((skippy <? 0) || (wrap_int64 (iNdEx + skippy) <? 0))%Z%bool
            then mfail ErrInvalidLength
            else if (l <? wrap_int64 (iNdEx + skippy))%Z then mfail ErrUnexpectedEOF
            else fields_loop fields dAtA fuel (wrap_int64 (iNdEx + skippy))
        end
    end
  else if (l <? iNdEx)%Z then mfail ErrUnexpectedEOF
  else mret tt.

(** Unmarshal: every turn of the loop reads a byte at least. *)
Definition unmarshal_fields (fields : Z -> option (Case X)) (dAtA : bytes) : M X unit :=
  fields_loop fields dAtA (String.length dAtA) 0.
End Cases.
