(* ===== verification/PbClients.v ===== *)
(** The generated codecs of the light clients' messages:
    xx-proxy/types/proxy.pb.go (ClientState, ConsensusState) and
    xx-multiv/types/multiv.pb.go (ClientState, MultiProof, Proof, LeafProof).
    The messages of other packages they contain (Any, MerklePrefix, Height) are
    parameters, through the interface PbMessage. *)
From S2P Require Import Prelude.
From S2P Require Import Lib.
From S2P Require Import Wire.

Section Messages.
Context `{PbMessage AnyT, PbMessage MerklePrefix, PbMessage Height}.

(** ** xx-proxy ClientState *)

Definition ProxyCS_Size (m : ProxyCS) : Z :=
  (size_opt 1 (pcs_ProxyClientState m) + size_bytes 1 (pcs_UpstreamClientId m) +
   size_opt 1 (pcs_ProxyPrefix m) + size_opt 1 (pcs_IbcPrefix m))%Z.

Definition ProxyCS_MarshalToSizedBuffer (m : ProxyCS) : M Buf Z := sized (
  put_opt 0x22 (pcs_IbcPrefix m) ;;*
  put_opt 0x1a (pcs_ProxyPrefix m) ;;*
  put_bytes 0x12 (pcs_UpstreamClientId m) ;;*
  put_opt 0xa (pcs_ProxyClientState m)).

Definition set_pcs_ProxyClientState (a : option AnyT) (m : ProxyCS) : ProxyCS :=
  mkProxyCS a (pcs_UpstreamClientId m) (pcs_ProxyPrefix m) (pcs_IbcPrefix m).
Definition set_pcs_UpstreamClientId (a : string) (m : ProxyCS) : ProxyCS :=
  mkProxyCS (pcs_ProxyClientState m) a (pcs_ProxyPrefix m) (pcs_IbcPrefix m).
Definition set_pcs_ProxyPrefix (a : option MerklePrefix) (m : ProxyCS) : ProxyCS :=
  mkProxyCS (pcs_ProxyClientState m) (pcs_UpstreamClientId m) a (pcs_IbcPrefix m).
Definition set_pcs_IbcPrefix (a : option MerklePrefix) (m : ProxyCS) : ProxyCS :=
  mkProxyCS (pcs_ProxyClientState m) (pcs_UpstreamClientId m) (pcs_ProxyPrefix m) a.

Definition ProxyCS_fields (fieldNum : Z) : option (Case ProxyCS) :=
  match fieldNum with
  | 1 => Some (case_opt "ProxyClientState" pcs_ProxyClientState set_pcs_ProxyClientState)
  | 2 => Some (case_bytes "UpstreamClientId" set_pcs_UpstreamClientId)
  | 3 => Some (case_opt "ProxyPrefix" pcs_ProxyPrefix set_pcs_ProxyPrefix)
  | 4 => Some (case_opt "IbcPrefix" pcs_IbcPrefix set_pcs_IbcPrefix)
  | _ => None
  end%Z.

Definition ProxyCS_Unmarshal (dAtA : bytes) : M ProxyCS unit :=
  unmarshal_fields ProxyCS_fields dAtA.

#[export] Instance ProxyCS_pb : PbMessage ProxyCS := {
  pb_zero := mkProxyCS None "" None None;
  pb_Size := ProxyCS_Size;
  pb_MarshalToSizedBuffer := ProxyCS_MarshalToSizedBuffer;
  pb_Unmarshal := ProxyCS_Unmarshal
}.

(** ** xx-proxy ConsensusState *)

Definition ProxyConsS_Size (m : ProxyConsS) : Z := size_opt 1 (pcons_ProxyConsensusState m).

Definition ProxyConsS_MarshalToSizedBuffer (m : ProxyConsS) : M Buf Z :=
  sized (put_opt 0xa (pcons_ProxyConsensusState m)).

Definition ProxyConsS_fields (fieldNum : Z) : option (Case ProxyConsS) :=
  match fieldNum with
  | 1 => Some (case_opt "ProxyConsensusState" pcons_ProxyConsensusState
                 (fun a _ => mkProxyConsS a))
  | _ => None
  end%Z.

Definition ProxyConsS_Unmarshal (dAtA : bytes) : M ProxyConsS unit :=
  unmarshal_fields ProxyConsS_fields dAtA.

#[export] Instance ProxyConsS_pb : PbMessage ProxyConsS := {
  pb_zero := mkProxyConsS None;
  pb_Size := ProxyConsS_Size;
  pb_MarshalToSizedBuffer := ProxyConsS_MarshalToSizedBuffer;
  pb_Unmarshal := ProxyConsS_Unmarshal
}.

(** ** xx-multiv ClientState *)

Definition MultivCS_Size (m : MultivCS) : Z :=
  (size_opt 1 (mcs_UnderlyingClientState m) + size_uint 1 (mcs_Depth m))%Z.

Definition MultivCS_MarshalToSizedBuffer (m : MultivCS) : M Buf Z := sized (
  put_uint 0x10 (mcs_Depth m) ;;*
  put_opt 0xa (mcs_UnderlyingClientState m)).

Definition MultivCS_fields (fieldNum : Z) : option (Case MultivCS) :=
  match fieldNum with
  | 1 => Some (case_opt "UnderlyingClientState" mcs_UnderlyingClientState
                 (fun a m => mkMultivCS a (mcs_Depth m)))
  | 2 => Some (case_uint 32 "Depth" (fun n m => mkMultivCS (mcs_UnderlyingClientState m) n))
  | _ => None
  end%Z.

Definition MultivCS_Unmarshal (dAtA : bytes) : M MultivCS unit :=
  unmarshal_fields MultivCS_fields dAtA.

#[export] Instance MultivCS_pb : PbMessage MultivCS := {
  pb_zero := mkMultivCS None 0;
  pb_Size := MultivCS_Size;
  pb_MarshalToSizedBuffer := MultivCS_MarshalToSizedBuffer;
  pb_Unmarshal := MultivCS_Unmarshal
}.

(** ** xx-multiv Proof *)

Definition Proof_Size (m : Proof) : Z :=
  (size_bytes 1 (ClientProof m) + size_opt 1 (Proof_ClientState m) +
   size_bytes 1 (ConsensusProof m) + size_opt 1 (Proof_ConsensusState m) +
   size_msg 1 (ProofHeight m) + size_msg 1 (ConsensusHeight m))%Z.

Definition Proof_MarshalToSizedBuffer (m : Proof) : M Buf Z := sized (
  put_msg 0x32 (ConsensusHeight m) ;;*
  put_msg 0x2a (ProofHeight m) ;;*
  put_opt 0x22 (Proof_ConsensusState m) ;;*
  put_bytes 0x1a (ConsensusProof m) ;;*
  put_opt 0x12 (Proof_ClientState m) ;;*
  put_bytes 0xa (ClientProof m)).

Definition Proof_fields (fieldNum : Z) : option (Case Proof) :=
  match fieldNum with
  | 1 => Some (case_bytes "ClientProof" (fun a m => mkProof a (Proof_ClientState m)
           (ConsensusProof m) (Proof_ConsensusState m) (ProofHeight m) (ConsensusHeight m)))
  | 2 => Some (case_opt "ClientState" Proof_ClientState (fun a m => mkProof (ClientProof m) a
           (ConsensusProof m) (Proof_ConsensusState m) (ProofHeight m) (ConsensusHeight m)))
  | 3 => Some (case_bytes "ConsensusProof" (fun a m => mkProof (ClientProof m)
           (Proof_ClientState m) a (Proof_ConsensusState m) (ProofHeight m) (ConsensusHeight m)))
  | 4 => Some (case_opt "ConsensusState" Proof_ConsensusState (fun a m => mkProof
           (ClientProof m) (Proof_ClientState m) (ConsensusProof m) a (ProofHeight m)
           (ConsensusHeight m)))
  | 5 => Some (case_msg "ProofHeight" ProofHeight (fun a m => mkProof (ClientProof m)
           (Proof_ClientState m) (ConsensusProof m) (Proof_ConsensusState m) a
           (ConsensusHeight m)))
  | 6 => Some (case_msg "ConsensusHeight" ConsensusHeight (fun a m => mkProof (ClientProof m)
           (Proof_ClientState m) (ConsensusProof m) (Proof_ConsensusState m) (ProofHeight m) a))
  | _ => None
  end%Z.

Definition Proof_Unmarshal (dAtA : bytes) : M Proof unit := unmarshal_fields Proof_fields dAtA.

#[export] Instance Proof_pb : PbMessage Proof := {
  pb_zero := mkProof "" None "" None pb_zero pb_zero;
  pb_Size := Proof_Size;
  pb_MarshalToSizedBuffer := Proof_MarshalToSizedBuffer;
  pb_Unmarshal := Proof_Unmarshal
}.

(** ** xx-multiv LeafProof *)

Definition LeafProof_Size (m : LeafProof) : Z :=
  (size_bytes 1 (Leaf_Proof m) + size_msg 1 (Leaf_ProofHeight m))%Z.

Definition LeafProof_MarshalToSizedBuffer (m : LeafProof) : M Buf Z := sized (
  put_msg 0x12 (Leaf_ProofHeight m) ;;*
  put_bytes 0xa (Leaf_Proof m)).

Definition LeafProof_fields (fieldNum : Z) : option (Case LeafProof) :=
  match fieldNum with
  | 1 => Some (case_bytes "Proof" (fun a m => mkLeafProof a (Leaf_ProofHeight m)))
  | 2 => Some (case_msg "ProofHeight" Leaf_ProofHeight (fun a m => mkLeafProof (Leaf_Proof m) a))
  | _ => None
  end%Z.

Definition LeafProof_Unmarshal (dAtA : bytes) : M LeafProof unit :=
  unmarshal_fields LeafProof_fields dAtA.

#[export] Instance LeafProof_pb : PbMessage LeafProof := {
  pb_zero := mkLeafProof "" pb_zero;
  pb_Size := LeafProof_Size;
  pb_MarshalToSizedBuffer := LeafProof_MarshalToSizedBuffer;
  pb_Unmarshal := LeafProof_Unmarshal
}.

(** ** xx-multiv MultiProof *)

Definition MultiProof_Size (m : MultiProof) : Z :=
  (size_msg 1 (Head m) + size_rep 1 (Branches m) + size_msg 1 (Leaf m))%Z.

Definition MultiProof_MarshalToSizedBuffer (m : MultiProof) : M Buf Z := sized (
  put_msg 0x1a (Leaf m) ;;*
  put_rep 0x12 (Branches m) ;;*
  put_msg 0xa (Head m)).

Definition MultiProof_fields (fieldNum : Z) : option (Case MultiProof) :=
  match fieldNum with
  | 1 => Some (case_msg "Head" Head (fun a m => mkMultiProof a (Branches m) (Leaf m)))
  | 2 => Some (case_rep "Branches" Branches (fun a m => mkMultiProof (Head m) a (Leaf m)))
  | 3 => Some (case_msg "Leaf" Leaf (fun a m => mkMultiProof (Head m) (Branches m) a))
  | _ => None
  end%Z.

Definition MultiProof_Unmarshal (dAtA : bytes) : M MultiProof unit :=
  unmarshal_fields MultiProof_fields dAtA.

#[export] Instance MultiProof_pb : PbMessage MultiProof := {
  pb_zero := mkMultiProof pb_zero [] pb_zero;
  pb_Size := MultiProof_Size;
  pb_MarshalToSizedBuffer := MultiProof_MarshalToSizedBuffer;
  pb_Unmarshal := MultiProof_Unmarshal
}.

End Messages.
