(* ===== verification/WireSpec.v ===== *)
(** The laws of the generated codecs: varints are decoded as they were written
    and take the number of bytes that was announced; what the writers of Wire.v
    store, the cases of the decoding loop read back; decoding always ends. *)
From S2P Require Import Prelude.
From S2P Require Import Codec.
From S2P Require Import Wire.

(** * Byte slices *)

Lemma slen_nonneg s : (0 <= slen s)%Z.
Proof. unfold slen. lia. Qed.

Lemma slen_cons c s : slen (String c s) = (1 + slen s)%Z.
Proof. unfold slen. cbn [String.length]. lia. Qed.

Lemma length_slen s : String.length s = Z.to_nat (slen s).
Proof. unfold slen. lia. Qed.

Lemma slen_app a b : slen (a +:+ b) = (slen a + slen b)%Z.
Proof.
  induction a as [|c a IH]; [done|]. rewrite app_str_cons, !slen_cons, IH. lia.
Qed.

Lemma sdrop_0 s : sdrop 0 s = s.
Proof. by destruct s. Qed.

Lemma sdrop_cons n c s : (0 < n)%Z -> sdrop n (String c s) = sdrop (n - 1) s.
Proof. intros. simpl. by rewrite (proj2 (Z.leb_gt n 0)). Qed.

Lemma stake_cons n c s : (0 < n)%Z -> stake n (String c s) = String c (stake (n - 1) s).
Proof. intros. simpl. by rewrite (proj2 (Z.leb_gt n 0)). Qed.

Lemma sdrop_app a r : sdrop (slen a) (a +:+ r) = r.
Proof.
  induction a as [|c a IH]; [apply sdrop_0|].
  pose proof (slen_nonneg a).
  rewrite app_str_cons, slen_cons, sdrop_cons by lia.
  by replace (1 + slen a - 1)%Z with (slen a) by lia.
Qed.

Lemma stake_app a r : stake (slen a) (a +:+ r) = a.
Proof.
  induction a as [|c a IH]; [by destruct r|].
  pose proof (slen_nonneg a).
  rewrite app_str_cons, slen_cons, stake_cons by lia.
  replace (1 + slen a - 1)%Z with (slen a) by lia. by rewrite IH.
Qed.

Lemma stake_all a : stake (slen a) a = a.
Proof. pose proof (stake_app a EmptyString) as H. by rewrite app_str_nil_r in H. Qed.

Lemma slen_sdrop n s : (0 <= n)%Z -> slen (sdrop n s) = Z.max 0 (slen s - n).
Proof.
  revert n. induction s as [|c s IH]; intros n Hn.
  - simpl. unfold slen. simpl. destruct (n <=? 0)%Z; simpl; lia.
  - destruct (Z.eq_dec n 0%Z) as [->|].
    + rewrite sdrop_0. pose proof (slen_nonneg (String c s)). lia.
    + rewrite sdrop_cons, IH, slen_cons by lia. lia.
Qed.

Lemma slen_pos s : s <> EmptyString -> (0 < slen s)%Z.
Proof. destruct s; [done|]. rewrite slen_cons. pose proof (slen_nonneg s). lia. Qed.

Lemma slen_stake_le n s : (slen (stake n s) <= slen s)%Z.
Proof.
  revert n. induction s as [|c s IH]; intros n; simpl; destruct (n <=? 0)%Z; try done.
  rewrite !slen_cons. specialize (IH (n - 1)%Z). lia.
Qed.

Lemma stake_le n s : (slen s <= n)%Z -> stake n s = s.
Proof.
  revert n. induction s as [|c s IH]; intros n Hn; [simpl; by case_match|].
  rewrite slen_cons in Hn. pose proof (slen_nonneg s).
  by rewrite stake_cons, IH by lia.
Qed.

Lemma sdrop_sdrop n p s : (0 <= n)%Z -> (0 <= p)%Z -> sdrop n (sdrop p s) = sdrop (p + n) s.
Proof.
  intros Hn. revert p. induction s as [|c s IH]; intros p Hp.
  - simpl. destruct (p <=? 0)%Z, (p + n <=? 0)%Z; simpl; by case_match.
  - destruct (Z.eq_dec p 0%Z) as [->|]; [by rewrite sdrop_0, Z.add_0_l|].
    rewrite !(sdrop_cons _ c) by lia. rewrite IH by lia. f_equal. lia.
Qed.

Lemma sdrop_past n s : (slen s <= n)%Z -> sdrop n s = EmptyString.
Proof.
  intros Hn. pose proof (slen_nonneg s).
  pose proof (slen_sdrop n s ltac:(lia)) as Hl. destruct (sdrop n s) as [|c s']; [done|].
  rewrite slen_cons in Hl. pose proof (slen_nonneg s'). lia.
Qed.

(** Slices within bounds *)
Lemma slice_from s i : (0 <= i <= slen s)%Z -> slice s i (slen s) = Ok (sdrop i s).
Proof.
  intros Hi. unfold slice. rewrite !(proj2 (Z.leb_le _ _)) by lia. simpl.
  f_equal. apply stake_le. rewrite slen_sdrop; lia.
Qed.

Lemma slice_to s n : (0 <= n <= slen s)%Z -> slice s 0 n = Ok (stake n s).
Proof.
  intros Hn. unfold slice. rewrite !(proj2 (Z.leb_le _ _)) by lia. simpl.
  by rewrite Z.sub_0_r, sdrop_0.
Qed.

(** [tail_of s' s]: [s'] is what follows some bytes of [s]. *)
Definition tail_of (s' s : bytes) : Prop := exists pre, s = pre +:+ s'.

Lemma tail_of_slen s' s : tail_of s' s -> (slen s' <= slen s)%Z.
Proof. intros [pre ->]. rewrite slen_app. pose proof (slen_nonneg pre). lia. Qed.

Lemma tail_of_refl s : tail_of s s.
Proof. by exists EmptyString. Qed.

Lemma tail_of_trans a b c : tail_of a b -> tail_of b c -> tail_of a c.
Proof. intros [p ->] [q ->]. exists (q +:+ p). by rewrite app_str_assoc. Qed.

Lemma tail_of_eq s' s : tail_of s' s -> s' = sdrop (slen s - slen s') s.
Proof.
  intros [pre ->]. rewrite slen_app.
  replace (slen pre + slen s' - slen s')%Z with (slen pre) by lia. by rewrite sdrop_app.
Qed.

Lemma stake_sdrop n s : stake n s +:+ sdrop n s = s.
Proof.
  revert n. induction s as [|c s IH]; intros n; simpl; destruct (n <=? 0)%Z; try done.
  by rewrite app_str_cons, IH.
Qed.

Lemma tail_of_sdrop n s : tail_of (sdrop n s) s.
Proof. exists (stake n s). by rewrite stake_sdrop. Qed.

(** A tail of what is left from [i], by its own index *)
Lemma tail_of_at s' i s :
  (0 <= i <= slen s)%Z -> tail_of s' (sdrop i s) ->
  (i <= slen s - slen s' <= slen s)%Z /\ sdrop (slen s - slen s') s = s'.
Proof.
  intros Hi H. pose proof (tail_of_slen _ _ H) as Hl. rewrite slen_sdrop in Hl by lia.
  pose proof (slen_nonneg s'). split; [lia|].
  symmetry. apply tail_of_eq. eapply tail_of_trans; [exact H|apply tail_of_sdrop].
Qed.

(** [here l s]: what is left of a slice in memory of length [l] is [s]. *)
Definition here (l : Z) (s : bytes) : Prop := (slen s <= l < 2 ^ 63)%Z.

Lemma here_shorter l s s' : here l s -> (slen s' <= slen s)%Z -> here l s'.
Proof. unfold here. lia. Qed.

Lemma here_app l s b : here l (s +:+ b) -> here l s /\ here l b.
Proof.
  unfold here. rewrite slen_app. pose proof (slen_nonneg s). pose proof (slen_nonneg b). lia.
Qed.

(** * Machine integers in range *)

Lemma to_int64_small n : (n < 2 ^ 63)%N -> to_int64 n = Z.of_N n.
Proof. intros. unfold to_int64. rewrite Z.mod_small; lia. Qed.

Lemma wrap_int64_small z : (- 2 ^ 63 <= z < 2 ^ 63)%Z -> wrap_int64 z = z.
Proof. intros. unfold wrap_int64. rewrite Z.mod_small; lia. Qed.

Lemma wrap_int64_range z : (- 2 ^ 63 <= wrap_int64 z < 2 ^ 63)%Z.
Proof.
  unfold wrap_int64. pose proof (Z.mod_pos_bound (z + 2 ^ 63) (2 ^ 64) ltac:(lia)). lia.
Qed.

(** A sum that overflows once is negative. *)
Lemma wrap_int64_overflow z : (2 ^ 63 <= z < 2 ^ 64)%Z -> (wrap_int64 z < 0)%Z.
Proof.
  intros. unfold wrap_int64.
  replace (z + 2 ^ 63)%Z with (z - 2 ^ 63 + 1 * 2 ^ 64)%Z by lia.
  rewrite Z.mod_add, Z.mod_small by lia. lia.
Qed.

(** * Varints *)

Lemma varint_step v s :
  N.lor (N.shiftl (N.land v 127) s) (N.shiftl (N.shiftr v 7) (s + 7)) = N.shiftl v s.
Proof.
  apply N.bits_inj. intros i. rewrite N.lor_spec.
  destruct (N.lt_ge_cases i s) as [Hi|Hi].
  - by rewrite !N.shiftl_spec_low by lia.
  - rewrite (N.shiftl_spec_high' (N.land v 127)), (N.shiftl_spec_high' v s) by lia.
    change 127%N with (N.ones 7). rewrite N.land_spec.
    destruct (N.lt_ge_cases (i - s) 7) as [H7|H7].
    + rewrite N.ones_spec_low, N.shiftl_spec_low, andb_true_r, orb_false_r by lia. done.
    + rewrite N.ones_spec_high, N.shiftl_spec_high', N.shiftr_spec' by lia.
      rewrite andb_false_r. simpl. f_equal. lia.
Qed.

Lemma shiftr7 v : N.shiftr v 7 = (v / 128)%N.
Proof. apply (N.shiftr_div_pow2 v 7). Qed.

Lemma land127 v : N.land v 127 = (v mod 128)%N.
Proof. change 127%N with (N.ones 7). apply (N.land_ones v 7). Qed.

Lemma lor_128 x : (x < 128)%N -> N.lor x 128 = (x + 128)%N.
Proof.
  intros Hx.
  assert (forallb (fun x => N.lor x 128 =? x + 128)%N (map N.of_nat (seq 0 128)) = true) as H
    by by vm_compute.
  rewrite forallb_forall in H. apply N.eqb_eq, H, List.in_map_iff.
  exists (N.to_nat x). split; [lia|]. apply List.in_seq. lia.
Qed.

(** The byte stored while more bytes follow *)
Lemma continuation_byte v :
  N_of_ascii (ascii_of_N (N.lor (N.land v 127) 128)) = (v mod 128 + 128)%N.
Proof.
  pose proof (N.mod_lt v 128 ltac:(lia)). rewrite land127, lor_128 by done.
  apply N_ascii_small. lia.
Qed.

Lemma continuation_bits v : N.land (v mod 128 + 128) 127 = N.land v 127.
Proof.
  rewrite !land127. rewrite <- N.Div0.add_mod_idemp_r, N.Div0.mod_same, N.add_0_r.
  apply N.Div0.mod_mod.
Qed.

Lemma mod_pow2_lor a b w : (N.lor (a mod 2 ^ w) (b mod 2 ^ w) = N.lor a b mod 2 ^ w)%N.
Proof. by rewrite <- !N.land_ones, N.land_lor_distr_l. Qed.

(** Reading into an integer of [width] bits truncates. *)
Lemma varint_loop_read fuel width v r shift acc :
  (v < 128 ^ N.of_nat fuel)%N -> (v * 2 ^ shift < 2 ^ 64)%N -> (shift < 64)%N ->
  fuel <> 0 ->
  uvarint width (varint_loop fuel v +:+ r) shift acc =
    Ok (N.lor acc (N.shiftl v shift mod 2 ^ width), r)%N.
Proof.
  revert v shift acc. induction fuel as [|fuel IH]; intros v shift acc Hv Hw Hs Hf; [done|].
  simpl varint_loop. destruct (N.leb_spec 128 v) as [H|H]; rewrite app_str_cons; simpl uvarint;
    rewrite (proj2 (N.leb_gt 64 shift)) by done.
  - rewrite continuation_byte, continuation_bits.
    rewrite (proj2 (N.ltb_ge _ 128)) by lia.
    pose proof (N.div_mod v 128 ltac:(lia)) as Hdm.
    assert (1 <= v / 128)%N as H1 by (apply N.div_le_lower_bound; lia).
    assert (v / 128 * 2 ^ (shift + 7) < 2 ^ 64)%N as Hw'.
    { eapply N.le_lt_trans; [|exact Hw]. rewrite N.pow_add_r. change (2 ^ 7)%N with 128%N. nia. }
    assert (shift + 7 < 64)%N as Hs' by (apply (N.pow_lt_mono_r_iff 2); [lia|]; nia).
    rewrite shiftr7. rewrite Nat2N.inj_succ, N.pow_succ_r' in Hv.
    rewrite IH; [|apply N.Div0.div_lt_upper_bound; lia|done..|].
    + rewrite <- N.lor_assoc, mod_pow2_lor, <- shiftr7. by rewrite varint_step.
    + intros ->. simpl in Hv. lia.
  - rewrite N_ascii_small by lia. rewrite (proj2 (N.ltb_lt v 128)) by done.
    by rewrite land127, (N.mod_small v 128) by done.
Qed.

Lemma uvarint_varint_mod width v r :
  (v < 2 ^ 64)%N -> uvarint width (varint v +:+ r) 0 0 = Ok (v mod 2 ^ width, r)%N.
Proof.
  intros Hv. unfold varint. rewrite varint_loop_read; try done.
  - by rewrite N.shiftl_0_r.
  - eapply N.lt_le_trans; [exact Hv|]. by vm_compute.
  - by rewrite N.mul_1_r.
Qed.

Lemma uvarint_varint width v r :
  (v < 2 ^ width)%N -> (width <= 64)%N -> uvarint width (varint v +:+ r) 0 0 = Ok (v, r).
Proof.
  intros Hv Hw. rewrite uvarint_varint_mod.
  - by rewrite N.mod_small.
  - eapply N.lt_le_trans; [exact Hv|]. by apply N.pow_le_mono_r.
Qed.

(** A tag: one byte below 128, two bytes below 2^14. *)
Lemma varint_small v : (v < 128)%N -> varint v = String (ascii_of_N v) EmptyString.
Proof. intros Hv. unfold varint. cbn [varint_loop]. by rewrite (proj2 (N.leb_gt 128 v)). Qed.

Lemma varint_two v :
  (128 <= v < 2 ^ 14)%N ->
  varint v = String (ascii_of_N (v mod 128 + 128)) (String (ascii_of_N (v / 128)) EmptyString).
Proof.
  intros Hv. assert (v / 128 < 128)%N as H by (apply N.Div0.div_lt_upper_bound; lia).
  pose proof (N.mod_lt v 128 ltac:(lia)).
  unfold varint. cbn [varint_loop]. rewrite (proj2 (N.leb_le 128 v)) by lia.
  rewrite shiftr7, (proj2 (N.leb_gt 128 (v / 128))), land127, lor_128 by done. done.
Qed.

(** The number of bytes announced is the number of bytes stored. *)
Lemma sov_small v : (v < 128)%N -> sov v = 1%Z.
Proof.
  intros Hv. unfold sov.
  assert (N.lor v 1 <> 0)%N as H0 by (intros [_ ?]%N.lor_eq_0_iff; lia).
  rewrite N.size_log2, N.log2_lor by done. change (N.log2 1) with 0%N.
  assert (N.log2 v < 7)%N as Hl.
  { destruct (N.eq_dec v 0%N) as [->|]; [by vm_compute|]. apply N.log2_lt_pow2; [lia|done]. }
  rewrite N.max_0_r. pose proof (N.le_0_l (N.log2 v)).
  symmetry. apply (Z.div_unique _ 7 1 (Z.of_N (N.log2 v))); lia.
Qed.

Lemma sov_step v : (128 <= v)%N -> sov v = (1 + sov (N.shiftr v 7))%Z.
Proof.
  intros Hv. unfold sov.
  assert (forall x, N.lor x 1 <> 0)%N as H0 by (intros x [_ ?]%N.lor_eq_0_iff; lia).
  rewrite !N.size_log2, !N.log2_lor, N.log2_shiftr by done. change (N.log2 1) with 0%N.
  rewrite !N.max_0_r.
  assert (7 <= N.log2 v)%N by (apply N.log2_le_pow2; [lia|exact Hv]).
  replace (Z.of_N (N.succ (N.log2 v)) + 6)%Z
    with (Z.of_N (N.succ (N.log2 v - 7)) + 6 + 1 * 7)%Z by lia.
  rewrite Z.div_add by lia. lia.
Qed.

Lemma varint_loop_length fuel v :
  (v < 128 ^ N.of_nat fuel)%N -> fuel <> 0 -> slen (varint_loop fuel v) = sov v.
Proof.
  revert v. induction fuel as [|fuel IH]; intros v Hv Hf; [done|].
  simpl varint_loop. destruct (N.leb_spec 128 v) as [H|H]; rewrite slen_cons.
  - rewrite sov_step, IH by (try done; rewrite ?shiftr7;
      rewrite Nat2N.inj_succ, N.pow_succ_r' in Hv; try (by apply N.Div0.div_lt_upper_bound);
      intros ->; simpl in Hv; lia). lia.
  - by rewrite sov_small.
Qed.

Lemma slen_varint v : (v < 2 ^ 64)%N -> slen (varint v) = sov v.
Proof.
  intros. apply varint_loop_length; [|done]. eapply N.lt_le_trans; [done|]. by vm_compute.
Qed.

(** * Writers *)

(** [stores m s]: with room for [s], the call puts [s] before what is written. *)
Definition stores {A} (m : M Buf A) (a : A) (s : bytes) : Prop :=
  forall r w, (slen s <= r)%Z -> m (mkBuf r w) = (Ok a, mkBuf (r - slen s) (s +:+ w)).

Lemma stores_ret : stores (mret tt) tt EmptyString.
Proof. intros r w _. unfold mret. do 2 f_equal. change (slen "") with 0%Z. lia. Qed.

Lemma stores_bind {A B} (m : M Buf A) (f : A -> M Buf B) a b s s' :
  stores m a s -> stores (f a) b s' -> stores (mbind m f) b (s' +:+ s).
Proof.
  intros Hm Hf r w Hr. rewrite slen_app in *.
  pose proof (slen_nonneg s'). pose proof (slen_nonneg s).
  rewrite (mbind_run _ _ _ _ _ (Hm r w ltac:(lia))), Hf by lia.
  rewrite app_str_assoc. do 2 f_equal. lia.
Qed.

Lemma stores_put s : stores (put s) tt s.
Proof.
  intros r w Hr. unfold put. simpl.
  by rewrite (proj2 (Z.ltb_ge (r - slen s) 0)) by lia.
Qed.

Lemma stores_encodeVarint v : (v < 2 ^ 64)%N -> stores (encodeVarint v) tt (varint v).
Proof.
  intros Hv r w Hr. unfold encodeVarint. simpl. rewrite slen_varint in * by done.
  rewrite (proj2 (Z.ltb_ge (r - sov v) 0)) by lia.
  rewrite Z.sub_diag. simpl. by rewrite sdrop_0.
Qed.

Lemma stores_sized m s : stores m tt s -> stores (sized m) (slen s) s.
Proof.
  intros Hm r w Hr. unfold sized, mbind, mget. simpl. rewrite Hm by done. simpl.
  unfold mret. do 2 f_equal. lia.
Qed.

(** ** What the fields take in the encoding *)

(** A tag, the varint of a length and the bytes *)
Definition frame (tag : N) (s : bytes) : bytes :=
  varint tag +:+ varint (Z.to_N (slen s)) +:+ s.

Definition enc_bytes (tag : N) (s : bytes) : bytes :=
  if (0 <? slen s)%Z then frame tag s else EmptyString.

Definition enc_strings (tag : N) (l : list string) : bytes :=
  foldr (fun s r => frame tag s +:+ r) EmptyString l.

Definition enc_uint (tag : N) (n : N) : bytes :=
  if (n =? 0)%N then EmptyString else varint tag +:+ varint n.

Definition enc_enum (tag : N) (n : Z) : bytes :=
  if (n =? 0)%Z then EmptyString else varint tag +:+ varint (to_uint64 n).

(** The tags of the messages: fields 1 to 2047 *)
Definition tag_ok (tag : N) : Prop := (8 <= tag < 2 ^ 14)%N.

(** A slice that Go can hold *)
Definition fits (s : bytes) : Prop := (slen s < 2 ^ 63)%Z.

Lemma fits_app a b : fits (a +:+ b) -> fits a /\ fits b.
Proof. unfold fits. rewrite slen_app. pose proof (slen_nonneg a). pose proof (slen_nonneg b). lia. Qed.

Lemma fits_cons c s : fits (String c s) -> fits s.
Proof. unfold fits. rewrite slen_cons. lia. Qed.

Lemma fits_frame tag s : fits (frame tag s) -> fits s.
Proof. intros [_ H]%fits_app. by apply fits_app in H as [_ H]. Qed.

Lemma fits_length s : fits s -> (Z.to_N (slen s) < 2 ^ 63)%N.
Proof. unfold fits. pose proof (slen_nonneg s). lia. Qed.

Lemma slen_tag tag : tag_ok tag -> slen (varint tag) = sov tag.
Proof. intros [_ Ht]. apply slen_varint. lia. Qed.

Lemma slen_frame tag s :
  tag_ok tag -> fits s -> slen (frame tag s) = (sov tag + slen s + sov (Z.to_N (slen s)))%Z.
Proof.
  intros Ht H%fits_length. unfold frame.
  rewrite !slen_app, slen_tag, slen_varint by (done || lia). lia.
Qed.

Lemma stores_put_tag tag : tag_ok tag -> stores (put_tag tag) tt (varint tag).
Proof.
  intros [_ Ht]. unfold put_tag. destruct (N.ltb_spec tag 128).
  - rewrite varint_small by done. apply stores_put.
  - rewrite varint_two by lia.
    change (String ?a (String ?b EmptyString))
      with (String a EmptyString +:+ String b EmptyString).
    eapply stores_bind; apply stores_put.
Qed.

Lemma stores_frame tag s (m : M Buf unit) :
  tag_ok tag -> fits s -> stores m tt s ->
  stores (m ;;* encodeVarint (Z.to_N (slen s)) ;;* put_tag tag) tt (frame tag s).
Proof.
  intros Ht Hs%fits_length Hm. unfold frame. rewrite <- app_str_assoc.
  eapply stores_bind; [exact Hm|]. eapply stores_bind; [|by apply stores_put_tag].
  apply stores_encodeVarint. lia.
Qed.

Lemma stores_put_bytes tag s :
  tag_ok tag -> fits s -> stores (put_bytes tag s) tt (enc_bytes tag s).
Proof.
  intros Ht Hs. unfold put_bytes, enc_bytes. case_match; [|apply stores_ret].
  apply stores_frame; [done..|apply stores_put].
Qed.

Lemma size_bytes_enc k tag s :
  tag_ok tag -> k = sov tag -> fits s -> size_bytes k s = slen (enc_bytes tag s).
Proof.
  intros Ht -> Hs. unfold size_bytes, enc_bytes. case_match; [|done]. by rewrite slen_frame.
Qed.

Lemma stores_put_strings tag l :
  tag_ok tag -> fits (enc_strings tag l) -> stores (put_strings tag l) tt (enc_strings tag l).
Proof.
  intros Ht. induction l as [|s l IH]; simpl; intros Hf; [apply stores_ret|].
  apply fits_app in Hf as [Hf1 Hf2]. eapply stores_bind; [by apply IH|].
  apply stores_frame; [done|by eapply fits_frame|apply stores_put].
Qed.

Lemma size_strings_enc k tag l :
  tag_ok tag -> k = sov tag -> fits (enc_strings tag l) ->
  size_strings k l = slen (enc_strings tag l).
Proof.
  intros Ht ->. induction l as [|s l IH]; simpl; intros Hf; [done|].
  apply fits_app in Hf as [Hf1 Hf2].
  rewrite slen_app, IH, slen_frame by (done || by eapply fits_frame). lia.
Qed.

Lemma stores_put_varint tag n :
  tag_ok tag -> (n < 2 ^ 64)%N ->
  stores (encodeVarint n ;;* put_tag tag) tt (varint tag +:+ varint n).
Proof.
  intros Ht Hn. eapply stores_bind; [by apply stores_encodeVarint|by apply stores_put_tag].
Qed.

Lemma stores_put_uint tag n :
  tag_ok tag -> (n < 2 ^ 64)%N -> stores (put_uint tag n) tt (enc_uint tag n).
Proof.
  intros Ht Hn. unfold put_uint, enc_uint. case_match; [apply stores_ret|].
  by apply stores_put_varint.
Qed.

Lemma size_uint_enc k tag n :
  tag_ok tag -> k = sov tag -> (n < 2 ^ 64)%N -> size_uint k n = slen (enc_uint tag n).
Proof.
  intros Ht -> Hn. unfold size_uint, enc_uint. case_match; [done|].
  by rewrite slen_app, slen_tag, slen_varint.
Qed.

Lemma to_uint64_bound n : (to_uint64 n < 2 ^ 64)%N.
Proof. unfold to_uint64. pose proof (Z.mod_pos_bound n (2 ^ 64) ltac:(lia)). lia. Qed.

Lemma stores_put_enum tag n : tag_ok tag -> stores (put_enum tag n) tt (enc_enum tag n).
Proof.
  intros Ht. unfold put_enum, enc_enum. case_match; [apply stores_ret|].
  apply stores_put_varint; [done|apply to_uint64_bound].
Qed.

Lemma size_enum_enc k tag n :
  tag_ok tag -> k = sov tag -> size_enum k n = slen (enc_enum tag n).
Proof.
  intros Ht ->. unfold size_enum, enc_enum. case_match; [done|].
  by rewrite slen_app, slen_tag, slen_varint by (done || apply to_uint64_bound).
Qed.

(** The 32 bits of an enumeration survive the extension to 64 bits. *)
Lemma enum_roundtrip n :
  (- 2 ^ 31 <= n < 2 ^ 31)%Z -> to_int32 (to_uint64 n mod 2 ^ 32) = n.
Proof.
  intros Hn. unfold to_int32, to_uint64.
  rewrite N2Z.inj_mod, Z2N.id by (apply Z.mod_pos_bound; lia).
  change (Z.of_N (2 ^ 32)) with (2 ^ 32)%Z.
  rewrite Z.mod_mod_divide by (by exists (2 ^ 32)%Z).
  rewrite Z.add_mod_idemp_l, Z.mod_small by lia. lia.
Qed.

(** ** The contract of a message *)

(** What a generated message promises to the messages that contain it: for the
    values [pb_ok] allows, Size is the length of the encoding, a buffer with
    room receives the encoding, and decoding it into a message gives what
    [pb_merge] says, which is the value when the message was zero.  Decoding
    never panics. *)
Class PbLaws (X : Type) `{PbMessage X} := {
  pb_ok : X -> Prop;
  pb_enc : X -> bytes;
  pb_merge : X -> X -> X;
  pb_size_ok m : pb_ok m -> pb_Size m = slen (pb_enc m);
  pb_marshal_ok m r : pb_ok m -> (slen (pb_enc m) <= r)%Z ->
    pb_MarshalToSizedBuffer m (mkBuf r EmptyString) =
      (Ok (slen (pb_enc m)), mkBuf (r - slen (pb_enc m)) (pb_enc m));
  pb_unmarshal_merge m0 m : pb_ok m -> fits (pb_enc m) ->
    pb_Unmarshal (pb_enc m) m0 = (Ok tt, pb_merge m0 m);
  pb_merge_zero m : pb_ok m -> pb_merge pb_zero m = m;
  pb_unmarshal_total s m p : fits s -> (pb_Unmarshal s m).1 <> Panic p
}.

Lemma pb_unmarshal_ok {X} `{PbLaws X} m :
  pb_ok m -> fits (pb_enc m) -> pb_Unmarshal (pb_enc m) pb_zero = (Ok tt, m).
Proof. intros Hm Hf. by rewrite pb_unmarshal_merge, pb_merge_zero. Qed.

(** ** Merging

    What decoding a field of an encoding makes of the field of the receiver: fields
    that are zero are not written, and leave it as it is; a scalar is
    overwritten, a repeated field appended to, a message merged. *)

Definition merge_bytes (old new : bytes) : bytes := if (0 <? slen new)%Z then new else old.

Definition merge_uint (old new : N) : N := if (new =? 0)%N then old else new.

Definition merge_enum (old new : Z) : Z := if (new =? 0)%Z then old else new.

Definition merge_opt {X} `{PbLaws X} (old new : option X) : option X :=
  match new with Some m => Some (pb_merge (default pb_zero old) m) | None => old end.

Lemma merge_bytes_zero s : merge_bytes EmptyString s = s.
Proof.
  unfold merge_bytes. destruct (Z.ltb_spec 0 (slen s)); [done|].
  destruct s; [done|]. rewrite slen_cons in *. pose proof (slen_nonneg s). lia.
Qed.

Lemma merge_uint_zero n : merge_uint 0 n = n.
Proof. unfold merge_uint. by destruct (N.eqb_spec n 0). Qed.

Lemma merge_enum_zero n : merge_enum 0 n = n.
Proof. unfold merge_enum. by destruct (Z.eqb_spec n 0). Qed.

Section WriterLaws.
Context {X : Type} `{PbLaws X}.

Definition enc_opt (tag : N) (o : option X) : bytes :=
  match o with Some m => frame tag (pb_enc m) | None => EmptyString end.

Definition enc_rep (tag : N) (l : list X) : bytes :=
  foldr (fun m s => frame tag (pb_enc m) +:+ s) EmptyString l.

Definition opt_ok (o : option X) : Prop :=
  match o with Some m => pb_ok m | None => True end.

Lemma merge_opt_zero o : opt_ok o -> merge_opt None o = o.
Proof. destruct o as [m|]; simpl; [|done]. intros. by rewrite pb_merge_zero. Qed.

Lemma stores_put_msg tag m :
  tag_ok tag -> pb_ok m -> fits (pb_enc m) ->
  stores (put_msg tag m) tt (frame tag (pb_enc m)).
Proof.
  intros Ht Hm Hf r w Hr. rewrite slen_frame in Hr by done.
  unfold put_msg. unfold mbind at 1, mzoom. simpl.
  pose proof (fits_length _ Hf). pose proof (slen_nonneg (pb_enc m)).
  assert (0 <= sov (Z.to_N (slen (pb_enc m))))%Z by
    (rewrite <- slen_varint by lia; apply slen_nonneg).
  assert (0 <= sov tag)%Z by (rewrite <- slen_tag by done; apply slen_nonneg).
  rewrite pb_marshal_ok by (done || lia). simpl.
  rewrite (stores_put_varint tag (Z.to_N (slen (pb_enc m))) Ht ltac:(lia)).
  - do 2 f_equal; [|unfold frame; by rewrite !app_str_assoc].
    rewrite slen_frame, slen_app, slen_tag, slen_varint by (done || lia). lia.
  - rewrite slen_app, slen_tag, slen_varint by (done || lia). lia.
Qed.

Lemma size_msg_enc k tag m :
  tag_ok tag -> k = sov tag -> pb_ok m -> fits (pb_enc m) ->
  size_msg k m = slen (frame tag (pb_enc m)).
Proof. intros ? -> ??. unfold size_msg. by rewrite pb_size_ok, slen_frame. Qed.

Lemma stores_put_opt tag o :
  tag_ok tag -> opt_ok o -> fits (enc_opt tag o) -> stores (put_opt tag o) tt (enc_opt tag o).
Proof.
  destruct o as [m|]; simpl; intros; [|apply stores_ret].
  apply stores_put_msg; [done..|]. by eapply fits_frame.
Qed.

Lemma size_opt_enc k tag o :
  tag_ok tag -> k = sov tag -> opt_ok o -> fits (enc_opt tag o) ->
  size_opt k o = slen (enc_opt tag o).
Proof.
  destruct o as [m|]; simpl; intros; [|done].
  apply size_msg_enc; [done..|]. by eapply fits_frame.
Qed.

Lemma stores_put_rep tag l :
  tag_ok tag -> Forall pb_ok l -> fits (enc_rep tag l) ->
  stores (put_rep tag l) tt (enc_rep tag l).
Proof.
  intros Ht. induction 1 as [|m l Hm _ IH]; simpl; intros Hf; [apply stores_ret|].
  apply fits_app in Hf as [Hf1 Hf2].
  eapply stores_bind; [by apply IH|]. apply stores_put_msg; [done..|]. by eapply fits_frame.
Qed.

Lemma size_rep_enc k tag l :
  tag_ok tag -> k = sov tag -> Forall pb_ok l -> fits (enc_rep tag l) ->
  size_rep k l = slen (enc_rep tag l).
Proof.
  intros Ht Hk. induction 1 as [|m l Hm _ IH]; simpl; intros Hf; [done|].
  apply fits_app in Hf as [Hf1 Hf2].
  rewrite slen_app, IH by done. rewrite <- (size_msg_enc k); [done..|].
  by eapply fits_frame.
Qed.

(** Marshal gives the encoding, and never runs out of the buffer. *)
Lemma Marshal_ok m : pb_ok m -> Marshal m = Ok (pb_enc m).
Proof.
  intros Hm. unfold Marshal. rewrite pb_size_ok, pb_marshal_ok by (done || lia).
  pose proof (slen_nonneg (pb_enc m)). cbn [room written]. rewrite Z.sub_diag.
  change (zeros (Z.to_nat 0) +:+ pb_enc m) with (pb_enc m).
  rewrite slice_to by lia. f_equal. apply stake_all.
Qed.

(** MarshalTo writes it in front of what is left of a slice that is long enough. *)
Lemma MarshalTo_ok m s :
  pb_ok m ->
  MarshalTo m s = if (slen s <? pb_Size m)%Z then Panic PIndexOutOfRange
    else Ok (pb_Size m, pb_enc m +:+ sdrop (pb_Size m) s).
Proof.
  intros Hm. unfold MarshalTo. case_match; [done|].
  rewrite pb_size_ok, pb_marshal_ok by (done || lia). simpl. rewrite Z.sub_diag. by destruct s.
Qed.

End WriterLaws.

(** * Decoding ends *)

(** [within P o]: no panic, and a result satisfies [P]. *)
Definition within {A} (P : A -> Prop) (o : outcome A) : Prop :=
  match o with Ok a => P a | Err _ => True | Panic _ => False end.

Lemma within_obind {A B} (P : A -> Prop) (Q : B -> Prop) o (f : A -> outcome B) :
  within P o -> (forall a, P a -> within Q (f a)) -> within Q (obind o f).
Proof. destruct o; simpl; auto. Qed.

Lemma within_mbind {S A B} (P : A -> Prop) (Q : B -> Prop) (m : M S A) (f : A -> M S B) s :
  within P (m s).1 -> (forall a s', P a -> within Q (f a s').1) -> within Q (mbind m f s).1.
Proof. unfold mbind. destruct (m s) as [[a|e|p] s']; simpl; auto. Qed.

Lemma within_weaken {A} (P Q : A -> Prop) o :
  within P o -> (forall a, P a -> Q a) -> within Q o.
Proof. destruct o; simpl; auto. Qed.

Lemma within_no_panic {A} (P : A -> Prop) o p : within P o -> o <> Panic p.
Proof. by destruct o. Qed.

Lemma no_panic_within {A} (o : outcome A) : (forall p, o <> Panic p) -> within (fun _ => True) o.
Proof. destruct o; simpl; [done..|]. intros H. by eapply H. Qed.

Lemma uvarint_within width s shift acc :
  within (fun x => tail_of x.2 s /\ (slen x.2 < slen s)%Z) (uvarint width s shift acc).
Proof.
  revert shift acc. induction s as [|c s IH]; intros shift acc; simpl.
  - by case_match.
  - case_match; [done|]. case_match; simpl; rewrite slen_cons.
    + split; [by exists (String c EmptyString)|lia].
    + eapply within_weaken; [apply IH|]. intros [n r] [Ht ?]. simpl in *. split; [|lia].
      eapply tail_of_trans; [exact Ht|]. by exists (String c EmptyString).
Qed.

Lemma to_int64_range n : (to_int64 n < 2 ^ 63)%Z.
Proof.
  unfold to_int64. pose proof (Z.mod_pos_bound (Z.of_N n + 2 ^ 63) (2 ^ 64) ltac:(lia)). lia.
Qed.

(** The two slices of a chunk *)
Lemma chunk_slices rest n :
  (0 <= n <= slen rest)%Z ->
  (let? chunk := slice rest 0 n in let? after := slice rest n (slen rest) in Ok (chunk, after)) =
    Ok (stake n rest, sdrop n rest).
Proof. intros Hn. by rewrite slice_to, slice_from by lia. Qed.

(** The guards of a chunk keep its slices in range. *)
Lemma read_chunk_within l s :
  here l s -> within (fun x => fits x.1 /\ tail_of x.2 s) (read_chunk l s).
Proof.
  intros Hs. unfold read_chunk, here in *.
  eapply within_obind; [apply uvarint_within|]. intros [n rest]. cbn [fst snd]. intros [Ht Hr].
  cbv zeta. destruct (Z.ltb_spec (to_int64 n) 0); [done|].
  pose proof (to_int64_range n). pose proof (slen_nonneg rest).
  destruct (Z.ltb_spec (wrap_int64 (l - slen rest + to_int64 n)) 0) as [|Hp]; [done|].
  destruct (Z.ltb_spec l (wrap_int64 (l - slen rest + to_int64 n))) as [|Hle]; [done|].
  destruct (Z.lt_ge_cases (l - slen rest + to_int64 n) (2 ^ 63)) as [Hw|Hw].
  - rewrite wrap_int64_small in * by lia.
    replace (l - slen rest + to_int64 n - (l - slen rest))%Z with (to_int64 n) by lia.
    rewrite chunk_slices by lia. cbn [within fst snd]. split.
    + unfold fits. pose proof (slen_stake_le (to_int64 n) rest). lia.
    + eapply tail_of_trans; [apply tail_of_sdrop|exact Ht].
  - pose proof (wrap_int64_overflow (l - slen rest + to_int64 n) ltac:(lia)). lia.
Qed.

(** ** Skipping by what is left

    The loop of skipX over what is left of the slice, instead of over an index *)

Definition skip_field_rest (wireType : N) (pos : Z) (depth : N) (rest : bytes) :
    outcome (Z * bytes * N) :=
  match wireType with
  | 0 => let? (_, rest2) := uvarint 64 rest 0 0 in
         Ok ((pos + (slen rest - slen rest2))%Z, rest2, depth)
  | 1 => Ok ((pos + 8)%Z, sdrop 8 rest, depth)
  | 2 => let? (n, rest2) := uvarint 64 rest 0 0 in
         let length := to_int64 n in
         if (length <? 0)%Z then Err ErrInvalidLength
         else Ok (wrap_int64 (pos + (slen rest - slen rest2) + length),
                  sdrop length rest2, depth)
  | 3 => Ok (pos, rest, depth + 1)
  | 4 => if (depth =? 0)%N then Err ErrUnexpectedEndOfGroup
         else Ok (pos, rest, depth - 1)
  | 5 => Ok ((pos + 4)%Z, sdrop 4 rest, depth)
  | _ => Err (Errorf "proto: illegal wireType %d" [])
  end%N.

Fixpoint skip_rest (fuel : nat) (depth : N) (pos : Z) (rest : bytes) : outcome Z :=
  match rest, fuel with
  | EmptyString, _ => Err ErrUnexpectedEOF
  | _, O => Panic PStackOverflow
  | _, S fuel =>
      let? (wire, rest1) := uvarint 64 rest 0 0 in
      let pos := (pos + (slen rest - slen rest1))%Z in
      let? (next, depth) := skip_field_rest (N.land wire 7) pos depth rest1 in
      let '(pos, rest2) := next in
      if (pos <? 0)%Z then Err ErrInvalidLength
      else if (depth =? 0)%N then Ok pos
      else skip_rest fuel depth pos rest2
  end.

(** The same index, and the rest is what the slice has from there on. *)
Definition same_skip (dAtA : bytes) (o : outcome (Z * N)) (o' : outcome (Z * bytes * N)) : Prop :=
  match o' with
  | Ok (pos, rest, depth) => o = Ok (pos, depth) /\ ((0 <= pos)%Z -> rest = sdrop pos dAtA)
  | Err e => o = Err e
  | Panic p => o = Panic p
  end.

Lemma skip_field_at dAtA wire pos depth :
  (0 <= pos <= slen dAtA)%Z -> fits dAtA ->
  same_skip dAtA (skip_field dAtA wire pos depth) (skip_field_rest wire pos depth (sdrop pos dAtA)).
Proof.
  intros Hpos Hfit. unfold skip_field, skip_field_rest, fits in *.
  pose proof (tail_of_sdrop pos dAtA) as Ht. pose proof (slen_sdrop pos dAtA ltac:(lia)) as Hl.
  repeat case_match; try done; simpl;
    try (split; [done|]; intros _; by rewrite sdrop_sdrop by lia).
  - rewrite slice_from by lia. simpl.
    pose proof (uvarint_within 64 (sdrop pos dAtA) 0 0) as Hu.
    destruct (uvarint _ _ _ _) as [[n rest2]|?|?]; simpl in *; try done.
    destruct Hu as [Hu _]. destruct (tail_of_at _ _ _ Hpos Hu) as [? Heq].
    cbn [snd] in *.
    replace (pos + (slen (sdrop pos dAtA) - slen rest2))%Z with (slen dAtA - slen rest2)%Z by lia.
    done.
  - rewrite slice_from by lia. simpl.
    pose proof (uvarint_within 64 (sdrop pos dAtA) 0 0) as Hu.
    destruct (uvarint _ _ _ _) as [[n rest2]|?|?]; simpl in *; try done.
    destruct Hu as [Hu _]. destruct (tail_of_at _ _ _ Hpos Hu) as [? Heq].
    cbn [snd] in *.
    rewrite Hl, Z.max_r by lia.
    replace (pos + (slen dAtA - pos - slen rest2))%Z with (slen dAtA - slen rest2)%Z by lia.
    destruct (Z.ltb_spec (to_int64 n) 0) as [|Hn]; [done|]. simpl. split; [done|].
    pose proof (to_int64_range n). intros Hw.
    destruct (Z.lt_ge_cases (slen dAtA - slen rest2 + to_int64 n) (2 ^ 63)).
    + rewrite wrap_int64_small by lia. rewrite <- Heq at 1. by rewrite sdrop_sdrop by lia.
    + pose proof (wrap_int64_overflow (slen dAtA - slen rest2 + to_int64 n) ltac:(lia)). lia.
Qed.

Lemma skip_loop_at dAtA fuel depth pos :
  (0 <= pos)%Z -> fits dAtA ->
  skip_loop fuel dAtA depth pos = skip_rest fuel depth pos (sdrop pos dAtA).
Proof.
  intros Hpos Hfit. revert depth pos Hpos. induction fuel as [|fuel IH]; intros depth pos Hpos;
    cbn [skip_loop skip_rest]; destruct (Z.ltb_spec pos (slen dAtA)) as [Hlt|Hge];
    try by rewrite sdrop_past.
  - destruct (sdrop pos dAtA) eqn:E; [|done].
    apply (f_equal slen) in E. rewrite slen_sdrop in E by lia. change (slen "") with 0%Z in E. lia.
  - rewrite slice_from by lia. simpl obind. pose proof (slen_sdrop pos dAtA Hpos) as Hl.
    pose proof (uvarint_within 64 (sdrop pos dAtA) 0 0) as Hu.
    destruct (sdrop pos dAtA) as [|c s] eqn:E; [change (slen "") with 0%Z in Hl; lia|].
    rewrite <- E in *. clear E c s.
    destruct (uvarint _ _ _ _) as [[wire rest1]|e|p]; simpl obind in *; try done.
    destruct Hu as [Hu _]. destruct (tail_of_at rest1 pos dAtA ltac:(lia) Hu) as [Hp Heq]. cbn [snd] in *.
    replace (pos + (slen (sdrop pos dAtA) - slen rest1))%Z with (slen dAtA - slen rest1)%Z by lia.
    cbv beta iota zeta.
    pose proof (skip_field_at dAtA (N.land wire 7) (slen dAtA - slen rest1) depth
      ltac:(pose proof (slen_nonneg rest1); lia) Hfit) as Hs. rewrite Heq in Hs.
    destruct (skip_field_rest _ _ _ _) as [[[pos2 rest2] depth2]|e|p]; simpl in Hs;
      [destruct Hs as [-> Hr]|by rewrite Hs..].
    simpl obind. cbv beta iota. destruct (Z.ltb_spec pos2 0) as [|H2]; [done|].
    case_match; [done|]. by rewrite (Hr H2), IH.
Qed.

Lemma skip_at s : fits s -> skip s = skip_rest (String.length s) 0 0 s.
Proof. intros Hs. unfold skip. rewrite skip_loop_at by done. by rewrite sdrop_0. Qed.

(** What is left of a slice after [pos] bytes of at most [T] *)
Definition placed (T pos : Z) (rest : bytes) : Prop :=
  rest <> EmptyString -> (pos + slen rest <= T)%Z.

Lemma placed_drop T pos n rest :
  (0 <= n)%Z -> (pos + slen rest <= T)%Z -> placed T (pos + n) (sdrop n rest).
Proof. intros Hn Hp H%slen_pos. rewrite slen_sdrop in * by done. lia. Qed.

(** A length that takes the index out of range makes it negative. *)
Lemma placed_wrap T pos n rest :
  (0 < pos)%Z -> (0 <= n < 2 ^ 63)%Z -> (pos + slen rest <= T)%Z -> (T < 2 ^ 63)%Z ->
  (0 <= wrap_int64 (pos + n))%Z ->
  (0 < wrap_int64 (pos + n) < 2 ^ 63)%Z /\ placed T (wrap_int64 (pos + n)) (sdrop n rest).
Proof.
  intros Hpos Hn HT H63 Hw. pose proof (slen_nonneg rest).
  destruct (Z.lt_ge_cases (pos + n) (2 ^ 63)) as [Hs|Hs].
  - rewrite wrap_int64_small by lia. split; [lia|]. apply placed_drop; lia.
  - pose proof (wrap_int64_overflow (pos + n) ltac:(lia)). lia.
Qed.

(** Where a field leaves the index: behind where it was, still within the
    slice when bytes are left, and in the range of a machine integer. *)
Definition advanced (T : Z) (rest : bytes) (x : Z * bytes * N) : Prop :=
  let '(pos, rest2, _) := x in
  (slen rest2 <= slen rest)%Z /\
  ((0 <= pos)%Z -> (0 < pos <= Z.max (2 ^ 63 - 1) (T + 8))%Z /\ placed T pos rest2).

Lemma advanced_drop T pos depth n rest :
  (0 < pos)%Z -> (0 <= n <= 8)%Z -> (pos + slen rest <= T)%Z -> (T < 2 ^ 63)%Z ->
  advanced T rest ((pos + n)%Z, sdrop n rest, depth).
Proof.
  intros Hpos Hn HT H63. pose proof (slen_nonneg rest).
  split; [|intros _; split; [lia|apply placed_drop; lia]].
  rewrite slen_sdrop by lia. lia.
Qed.

Lemma advanced_same T pos depth rest :
  (0 < pos)%Z -> (pos + slen rest <= T)%Z -> (T < 2 ^ 63)%Z -> advanced T rest (pos, rest, depth).
Proof.
  intros Hpos HT H63. pose proof (slen_nonneg rest). split; [done|]. intros _.
  split; [lia|]. by intros _.
Qed.

Lemma skip_field_rest_within T wire pos depth rest :
  (0 < pos)%Z -> (pos + slen rest <= T)%Z -> (T < 2 ^ 63)%Z ->
  within (advanced T rest) (skip_field_rest wire pos depth rest).
Proof.
  intros Hpos HT H63. unfold skip_field_rest. pose proof (slen_nonneg rest).
  repeat case_match; try done;
    try (apply advanced_drop; lia); try (by apply advanced_same).
  - eapply within_obind; [apply uvarint_within|]. intros [n rest2]. simpl. intros [_ Hr].
    pose proof (slen_nonneg rest2). split; [lia|]. intros _. split; [lia|]. intros _. lia.
  - eapply within_obind; [apply uvarint_within|]. intros [n rest2]. simpl. intros [_ Hr].
    destruct (Z.ltb_spec (to_int64 n) 0) as [|Hn]; [done|].
    pose proof (to_int64_range n). pose proof (slen_nonneg rest2). split.
    + rewrite slen_sdrop by done. lia.
    + intros Hw. pose proof (placed_wrap T (pos + (slen rest - slen rest2)) (to_int64 n) rest2
        ltac:(lia) ltac:(lia) ltac:(lia) H63 Hw) as [? ?]. split; [lia|done].
Qed.

Lemma skip_rest_within T fuel depth pos rest :
  String.length rest <= fuel -> (0 <= pos)%Z -> placed T pos rest -> (T < 2 ^ 63)%Z ->
  within (fun n => 0 < n <= Z.max (2 ^ 63 - 1) (T + 8))%Z (skip_rest fuel depth pos rest).
Proof.
  revert depth pos rest. induction fuel as [|fuel IH]; intros depth pos [|c s] Hf Hpos HT H63;
    try done; [simpl in Hf; lia|].
  specialize (HT ltac:(done)). rewrite length_slen in Hf.
  cbn [skip_rest]. set (rest := String c s) in *.
  eapply within_obind; [apply uvarint_within|]. intros [wire rest1]. simpl. intros [_ Hr].
  pose proof (slen_nonneg rest1).
  eapply within_obind; [apply (skip_field_rest_within T); lia|].
  intros [[pos2 rest2] depth2] [Hl Hp]. destruct (Z.ltb_spec pos2 0) as [|H0]; [done|].
  specialize (Hp H0). case_match; [simpl; lia|].
  apply IH; [rewrite length_slen; lia|lia|by apply Hp|done].
Qed.

(** skipX on a non-empty slice: a positive number of bytes, or an error. *)
Lemma skip_within s : fits s -> within (fun n => 0 < n <= Z.max (2 ^ 63 - 1) (slen s + 8))%Z (skip s).
Proof.
  intros Hs. rewrite skip_at by done.
  apply (skip_rest_within (slen s)); [done..| |done]. intros _. lia.
Qed.

Section Totality.
Context {X : Type}.

(** A case never panics, and what it leaves is behind what it was given. *)
Definition case_total (case : Case X) : Prop :=
  forall l wireType rest m, here l rest ->
  within (fun rest' => tail_of rest' rest) (case l wireType rest m).1.

Ltac chunk_case :=
  intros l w rest m Hs;
  unfold case_opt, case_msg, case_rep, case_bytes, case_strings; case_match; [done|];
  eapply within_mbind; [by apply read_chunk_within|]; intros [chunk rest'] s' [Hc Hr];
  cbn [fst snd] in Hc, Hr.

Ltac zoom_total :=
  match goal with Hr : tail_of _ _ |- _ =>
    eapply within_mbind; [|intros _ ? _; exact Hr] end;
  let p := fresh in apply no_panic_within; intros p; unfold mzoom;
  match goal with H : fits ?chunk |- context [pb_Unmarshal ?chunk ?y] =>
    pose proof (pb_unmarshal_total chunk y p H); by destruct (pb_Unmarshal chunk _) end.

Lemma case_opt_total {Y} `{PbLaws Y} name get set : case_total (case_opt (Y := Y) name get set).
Proof. chunk_case. zoom_total. Qed.

Lemma case_msg_total {Y} `{PbLaws Y} name get set : case_total (case_msg (Y := Y) name get set).
Proof. chunk_case. zoom_total. Qed.

Lemma case_rep_total {Y} `{PbLaws Y} name get set : case_total (case_rep (Y := Y) name get set).
Proof. chunk_case. unfold mbind at 1, mget. zoom_total. Qed.

Lemma case_bytes_total name set : case_total (case_bytes name set).
Proof. by chunk_case. Qed.

Lemma case_strings_total name get set : case_total (case_strings name get set).
Proof. by chunk_case. Qed.

(** The value that the loop over a field's varint reaches, and the receiver then *)
Lemma read_uint_uvarint width set s shift acc (m : X) :
  (forall a b m, set a (set b m) = set a m) ->
  match uvarint width s shift acc with
  | Ok (n, rest) => read_uint width set s shift acc m = (Ok rest, set n m)
  | Err e => (read_uint width set s shift acc m).1 = Err e
  | Panic p => (read_uint width set s shift acc m).1 = Panic p
  end.
Proof.
  intros Hset. revert shift acc m. induction s as [|c s IH]; intros shift acc m;
    cbn [uvarint read_uint]; destruct (64 <=? shift)%N; try done.
  unfold mbind, mput. cbv zeta. destruct (_ <? 128)%N; [done|].
  specialize (IH (shift + 7)%N (N.lor acc (N.shiftl (N.land (N_of_ascii c) 127) shift mod 2 ^ width))%N
    (set (N.lor acc (N.shiftl (N.land (N_of_ascii c) 127) shift mod 2 ^ width))%N m)).
  destruct (uvarint _ _ _ _) as [[n rest]|e|p]; [|done..]. by rewrite IH, Hset.
Qed.

Lemma read_uint_within width set s shift acc (m : X) :
  within (fun rest => tail_of rest s) (read_uint width set s shift acc m).1.
Proof.
  revert shift acc m. induction s as [|c s IH]; intros shift acc m;
    cbn [read_uint]; destruct (64 <=? shift)%N; try done.
  assert (tail_of s (String c s)) as Ht by (exists (String c EmptyString); reflexivity).
  unfold mbind, mput. cbv zeta. destruct (_ <? 128)%N; [exact Ht|].
  eapply within_weaken; [apply IH|]. intros rest Hr. exact (tail_of_trans _ _ _ Hr Ht).
Qed.

Lemma case_uint_total width name set : case_total (case_uint width name set).
Proof.
  intros l w rest m _. unfold case_uint. case_match; [done|].
  unfold mbind, mput. apply read_uint_within.
Qed.

Lemma case_enum_total name set : case_total (case_enum name set).
Proof.
  intros l w rest m _. unfold case_enum. case_match; [done|].
  unfold mbind, mput. apply read_uint_within.
Qed.

Definition fields_total (fields : Z -> option (Case X)) : Prop :=
  forall n case, fields n = Some case -> case_total case.

(** ** The loop over the fields by what is left *)

Fixpoint rest_loop (fields : Z -> option (Case X)) (l : Z) (fuel : nat) (s : bytes) :
    M X unit :=
  match s, fuel with
  | EmptyString, _ => mret tt
  | _, O => mpanic PStackOverflow
  | _, S fuel =>
      let* (wire, rest) := mlift (uvarint 64 s 0 0) in
      let fieldNum := to_int32 (N.shiftr wire 3) in
      let wireType := N.land wire 7 in
      if (wireType =? 4)%N then mfail (Errorf "proto: wiretype end group for non-group" [])
      else if (fieldNum <=? 0)%Z then mfail (Errorf "proto: illegal tag %d (wire type %d)" [])
      else
      match fields fieldNum with
      | Some case =>
          let* rest := case l wireType rest in
          rest_loop fields l fuel rest
      | None =>
          let* skippy := mlift (skip s) in
          if ((skippy <? 0) || (wrap_int64 (l - slen s + skippy) <? 0))%Z%bool
          then mfail ErrInvalidLength
          else if (l <? wrap_int64 (l - slen s + skippy))%Z then mfail ErrUnexpectedEOF
          else rest_loop fields l fuel (sdrop skippy s)
      end
  end.

(** A turn of the loop *)
Lemma rest_loop_turn (fields : Z -> option (Case X)) l fuel s m :
  s <> EmptyString ->
  rest_loop fields l (S fuel) s m = (
      let* (wire, rest) := mlift (uvarint 64 s 0 0) in
      let fieldNum := to_int32 (N.shiftr wire 3) in
      let wireType := N.land wire 7 in
      if (wireType =? 4)%N then mfail (Errorf "proto: wiretype end group for non-group" [])
      else if (fieldNum <=? 0)%Z then mfail (Errorf "proto: illegal tag %d (wire type %d)" [])
      else
      match fields fieldNum with
      | Some case =>
          let* rest := case l wireType rest in
          rest_loop fields l fuel rest
      | None =>
          let* skippy := mlift (skip s) in
          if ((skippy <? 0) || (wrap_int64 (l - slen s + skippy) <? 0))%Z%bool
          then mfail ErrInvalidLength
          else if (l <? wrap_int64 (l - slen s + skippy))%Z then mfail ErrUnexpectedEOF
          else rest_loop fields l fuel (sdrop skippy s)
      end) m.
Proof. by destruct s. Qed.

(** The two tests on the length of an unknown field: it is what is left at most. *)
Lemma skip_tests l s n :
  here l s -> skip s = Ok n ->
  ((n <? 0) || (wrap_int64 (l - slen s + n) <? 0))%Z%bool = false ->
  (l <? wrap_int64 (l - slen s + n))%Z = false ->
  (0 < n <= slen s)%Z /\ wrap_int64 (l - slen s + n) = (l - slen s + n)%Z.
Proof.
  intros Hl Hn H1 H2. unfold here in Hl. pose proof (slen_nonneg s).
  pose proof (skip_within s ltac:(unfold fits; lia)) as Hw. rewrite Hn in Hw. cbn [within] in Hw.
  apply orb_false_iff in H1 as [_ H1]. apply Z.ltb_ge in H1, H2.
  destruct (Z.lt_ge_cases (l - slen s + n) (2 ^ 63)) as [Hs|Hs].
  - rewrite wrap_int64_small in * by lia. lia.
  - destruct (Z.lt_ge_cases (l - slen s + n) (2 ^ 64)).
    + pose proof (wrap_int64_overflow (l - slen s + n) ltac:(lia)). lia.
    + lia.
Qed.

(** The index stays within the slice, so the test behind the loop never fails. *)
Lemma fields_loop_at fields dAtA fuel i m :
  fields_total fields -> fits dAtA -> (0 <= i <= slen dAtA)%Z ->
  fields_loop fields dAtA fuel i m = rest_loop fields (slen dAtA) fuel (sdrop i dAtA) m.
Proof.
  intros Hfields Hfit. revert i m. induction fuel as [|fuel IH]; intros i m Hi;
    cbn [fields_loop]; pose proof (slen_sdrop i dAtA ltac:(lia)) as Hl;
    (destruct (Z.ltb_spec i (slen dAtA)) as [Hlt|Hge];
      [|rewrite sdrop_past by lia; rewrite (proj2 (Z.ltb_ge _ i)) by lia; done]).
  - destruct (sdrop i dAtA) eqn:E; [|done]. change (slen "") with 0%Z in Hl. lia.
  - rewrite slice_from by lia.
    assert (sdrop i dAtA <> EmptyString) as Hne
      by (intros E; rewrite E in Hl; change (slen "") with 0%Z in Hl; lia).
    assert (i = slen dAtA - slen (sdrop i dAtA))%Z as Hix by lia.
    rewrite rest_loop_turn by done. rewrite <- Hix.
    assert (here (slen dAtA) (sdrop i dAtA)) as Hhere by (unfold here, fits in *; lia).
    unfold mbind, mlift. pose proof (uvarint_within 64 (sdrop i dAtA) 0 0) as Hu.
    destruct (uvarint _ _ _ _) as [[wire rest]|e|p]; [|done..]. destruct Hu as [Ht Hr].
    cbn [fst snd] in *. cbv zeta. case_match; [done|]. case_match; [done|].
    destruct (fields _) as [case|] eqn:Hcase.
    + pose proof (Hfields _ _ Hcase (slen dAtA) (N.land wire 7) rest m
        (here_shorter (slen dAtA) (sdrop i dAtA) rest Hhere ltac:(lia))) as Hc.
      destruct (case _ _ rest m) as [[rest'|e|p] m']; try done. cbn [within fst] in Hc.
      destruct (tail_of_at rest' i dAtA Hi (tail_of_trans _ _ _ Hc Ht)) as [Hi' Heq].
      rewrite IH, Heq by lia. done.
    + destruct (skip (sdrop i dAtA)) as [n|e|p] eqn:Hn; [|done..].
      pose proof (skip_tests _ _ _ Hhere Hn) as Hsk. rewrite <- Hix in Hsk.
      destruct (_ || _)%bool; [done|]. destruct (slen dAtA <? _)%Z; [done|].
      destruct (Hsk eq_refl eq_refl) as [Hb ->].
      rewrite IH by lia. by rewrite sdrop_sdrop by lia.
Qed.

Lemma rest_loop_total fields l fuel s m :
  fields_total fields -> here l s -> String.length s <= fuel ->
  within (fun _ => True) (rest_loop fields l fuel s m).1.
Proof.
  intros Hfields. revert s m.
  induction fuel as [|fuel IH]; intros s m Hs Hf; (destruct s as [|c s0]; [done|]);
    [simpl in Hf; lia|].
  rewrite length_slen in Hf. set (s := String c s0) in *. rewrite rest_loop_turn by done.
  assert (forall s', (slen s' < slen s)%Z -> here l s' /\ String.length s' <= fuel) as Hless.
  { intros s' H'. unfold here in *. rewrite length_slen. pose proof (slen_nonneg s'). lia. }
  eapply within_mbind; [apply uvarint_within|]. intros [wire rest] m1. cbn [fst snd].
  intros [Ht Hr]. destruct (Hless rest Hr) as [Hfr _].
  case_match; [done|]. case_match; [done|]. case_match eqn:Hcase.
  - eapply within_mbind; [by eapply Hfields|]. intros rest' m2 Hr'%tail_of_slen.
    apply IH; apply Hless; lia.
  - eapply within_mbind; [apply skip_within; unfold fits, here in *; lia|]. intros n m2 Hn.
    simpl in Hn. repeat (case_match; [done|]). pose proof (slen_pos s ltac:(done)).
    apply IH; apply Hless; rewrite slen_sdrop by lia; lia.
Qed.

Lemma unmarshal_fields_at fields s m :
  fields_total fields -> fits s ->
  unmarshal_fields fields s m = rest_loop fields (slen s) (String.length s) s m.
Proof.
  intros Hfields Hs. unfold unmarshal_fields. pose proof (slen_nonneg s).
  rewrite fields_loop_at by (done || lia). by rewrite sdrop_0.
Qed.

Lemma unmarshal_fields_total fields s m p :
  fields_total fields -> fits s -> (unmarshal_fields fields s m).1 <> Panic p.
Proof.
  intros Hfields Hs. rewrite unmarshal_fields_at by done. eapply within_no_panic.
  apply rest_loop_total; [done| |done]. unfold here, fits in *. lia.
Qed.

End Totality.

(** * Readers *)

Lemma read_chunk_frame l s r :
  (slen (varint (Z.to_N (slen s)) +:+ s +:+ r) <= l < 2 ^ 63)%Z ->
  read_chunk l (varint (Z.to_N (slen s)) +:+ s +:+ r) = Ok (s, r).
Proof.
  intros Hl. rewrite !slen_app in Hl.
  pose proof (slen_nonneg s). pose proof (slen_nonneg r).
  pose proof (slen_nonneg (varint (Z.to_N (slen s)))).
  unfold read_chunk. rewrite uvarint_varint by lia. simpl.
  rewrite to_int64_small, Z2N.id by lia.
  rewrite (proj2 (Z.ltb_ge (slen s) 0)) by lia.
  rewrite slen_app. rewrite wrap_int64_small by lia.
  rewrite (proj2 (Z.ltb_ge _ 0)) by lia. rewrite (proj2 (Z.ltb_ge l _)) by lia.
  replace (l - (slen s + slen r) + slen s - (l - (slen s + slen r)))%Z with (slen s) by lia.
  rewrite <- slen_app. rewrite chunk_slices by (rewrite slen_app; lia).
  by rewrite stake_app, sdrop_app.
Qed.

Section ReaderLaws.
Context {X : Type} (fields : Z -> option (Case X)).
Implicit Types m : X.

(** [decodes l s m m']: what remains of a slice of [l] bytes takes the receiver
    from [m] to [m'], whatever fuel is left beyond its length. *)
Definition decodes (l : Z) (s : bytes) (m m' : X) : Prop :=
  (slen s <= l < 2 ^ 63)%Z -> forall fuel, String.length s <= fuel ->
  rest_loop fields l fuel s m = (Ok tt, m').

Lemma decodes_nil l m : decodes l EmptyString m m.
Proof. intros _ [|fuel] _; done. Qed.

Lemma decodes_field l tag case rest rest' m m1 m' :
  tag_ok tag -> N.land tag 7 <> 4%N ->
  fields (Z.of_N (N.shiftr tag 3)) = Some case ->
  ((slen rest <= l < 2 ^ 63)%Z -> case l (N.land tag 7) rest m = (Ok rest', m1)) ->
  (slen rest' <= slen rest)%Z ->
  decodes l rest' m1 m' -> decodes l (varint tag +:+ rest) m m'.
Proof.
  intros [Ht8 Ht] Hw Hf Hc Hr Hd Hl fuel Hfuel.
  assert (0 < slen (varint tag))%Z as Hpos.
  { destruct (N.ltb_spec tag 128).
    - by rewrite varint_small by done.
    - by rewrite varint_two by lia. }
  rewrite slen_app in Hl. rewrite length_slen, slen_app in Hfuel.
  pose proof (slen_nonneg rest). pose proof (slen_nonneg rest').
  destruct fuel as [|fuel]; [lia|].
  destruct (varint tag +:+ rest) as [|c s] eqn:Hs.
  { apply (f_equal slen) in Hs. rewrite slen_app in Hs. change (slen EmptyString) with 0%Z in Hs.
    lia. }
  cbn [rest_loop]. rewrite <- Hs, uvarint_varint by lia.
  erewrite mbind_run by reflexivity. cbv beta iota zeta.
  rewrite (proj2 (N.eqb_neq _ 4)) by done.
  assert (to_int32 (N.shiftr tag 3) = Z.of_N (N.shiftr tag 3)) as ->.
  { unfold to_int32. rewrite (N.shiftr_div_pow2 tag 3).
    pose proof (N.Div0.div_le_upper_bound tag 8 tag ltac:(lia)).
    change (2 ^ 3)%N with 8%N. rewrite Z.mod_small; lia. }
  assert (1 <= N.shiftr tag 3)%N as H1.
  { rewrite (N.shiftr_div_pow2 tag 3). apply N.div_le_lower_bound; lia. }
  rewrite (proj2 (Z.leb_gt _ 0)) by lia. rewrite Hf.
  erewrite mbind_run by (apply Hc; lia).
  apply Hd; [lia|]. rewrite length_slen. lia.
Qed.

Section Field.
Context {Y : Type} `{PbLaws Y}.

(** A field of wire type 2 whose case reads a chunk *)
Lemma decodes_frame l tag case s rest m m1 m' :
  tag_ok tag -> N.land tag 7 = 2%N ->
  fields (Z.of_N (N.shiftr tag 3)) = Some case ->
  (forall c, read_chunk l c = Ok (s, rest) -> fits s -> case l 2%N c m = (Ok rest, m1)) ->
  decodes l rest m1 m' -> decodes l (frame tag s +:+ rest) m m'.
Proof.
  intros Ht Hw Hf Hc Hd. unfold frame. rewrite !app_str_assoc.
  eapply decodes_field; [done|by rewrite Hw|exact Hf| |..].
  - intros Hl. rewrite Hw. apply Hc; [by apply read_chunk_frame|].
    unfold fits. rewrite !slen_app in Hl.
    pose proof (slen_nonneg rest). pose proof (slen_nonneg (varint (Z.to_N (slen s)))). lia.
  - rewrite !slen_app. pose proof (slen_nonneg s).
    pose proof (slen_nonneg (varint (Z.to_N (slen s)))). lia.
  - exact Hd.
Qed.

Lemma decodes_opt l tag name get set (o : option Y) rest m m' :
  tag_ok tag -> N.land tag 7 = 2%N ->
  fields (Z.of_N (N.shiftr tag 3)) = Some (case_opt name get set) ->
  opt_ok o -> set (get m) m = m ->
  decodes l rest (set (merge_opt (get m) o) m) m' -> decodes l (enc_opt tag o +:+ rest) m m'.
Proof.
  intros Ht Hw Hf Ho Hs Hd. destruct o as [y|]; simpl in *; [|by rewrite Hs in Hd].
  eapply decodes_frame; [done..| |exact Hd].
  intros c Hc Hfit. unfold case_opt. simpl. unfold mbind, mlift, mzoom. rewrite Hc.
  by rewrite pb_unmarshal_merge.
Qed.

Lemma decodes_msg l tag name get set (y : Y) rest m m' :
  tag_ok tag -> N.land tag 7 = 2%N ->
  fields (Z.of_N (N.shiftr tag 3)) = Some (case_msg name get set) ->
  pb_ok y ->
  decodes l rest (set (pb_merge (get m) y) m) m' -> decodes l (frame tag (pb_enc y) +:+ rest) m m'.
Proof.
  intros Ht Hw Hf Ho Hd. eapply decodes_frame; [done..| |exact Hd].
  intros c Hc Hfit. unfold case_msg. simpl. unfold mbind, mlift, mzoom. rewrite Hc.
  by rewrite pb_unmarshal_merge.
Qed.

Lemma decodes_rep l tag name get set (ys : list Y) rest m m' :
  tag_ok tag -> N.land tag 7 = 2%N ->
  fields (Z.of_N (N.shiftr tag 3)) = Some (case_rep name get set) ->
  Forall pb_ok ys ->
  (forall m, set (get m) m = m) -> (forall v m, get (set v m) = v) ->
  (forall v v' m, set v (set v' m) = set v m) ->
  decodes l rest (set (get m ++ ys) m) m' -> decodes l (enc_rep tag ys +:+ rest) m m'.
Proof.
  intros Ht Hw Hf Hok Hsg Hgs Hss. revert m.
  induction Hok as [|y ys Hy _ IH]; intros m Hd; simpl.
  - by rewrite app_nil_r, Hsg in Hd.
  - rewrite app_str_assoc. eapply (decodes_frame _ _ _ _ _ _ (set (get m ++ [y]) m)); [done..| |].
    + intros c Hc Hfit. unfold case_rep. simpl. unfold mbind, mlift, mzoom, mget.
      rewrite Hc. simpl. by rewrite pb_unmarshal_ok.
    + apply IH. by rewrite Hgs, Hss, <- app_assoc.
Qed.

End Field.

Lemma decodes_bytes l tag name get set s rest m m' :
  tag_ok tag -> N.land tag 7 = 2%N ->
  fields (Z.of_N (N.shiftr tag 3)) = Some (case_bytes name set) ->
  set (get m) m = m ->
  decodes l rest (set (merge_bytes (get m) s) m) m' -> decodes l (enc_bytes tag s +:+ rest) m m'.
Proof.
  intros Ht Hw Hf Hs Hd. unfold enc_bytes, merge_bytes in *.
  destruct (0 <? slen s)%Z; [|by rewrite Hs in Hd].
  eapply decodes_frame; [done..| |exact Hd].
  intros c Hc _. unfold case_bytes. simpl. unfold mbind, mlift, mput. by rewrite Hc.
Qed.

Lemma decodes_uint l tag width name get set n rest m m' :
  tag_ok tag -> N.land tag 7 = 0%N -> (width <= 64)%N ->
  fields (Z.of_N (N.shiftr tag 3)) = Some (case_uint width name set) ->
  (n < 2 ^ width)%N -> set (get m) m = m -> (forall a b m, set a (set b m) = set a m) ->
  decodes l rest (set (merge_uint (get m) n) m) m' -> decodes l (enc_uint tag n +:+ rest) m m'.
Proof.
  intros Ht Hw Hwidth Hf Hn Hs Hss Hd. unfold enc_uint, merge_uint in *.
  destruct (n =? 0)%N; [by rewrite Hs in Hd|].
  rewrite app_str_assoc. eapply decodes_field; [done|by rewrite Hw|exact Hf| |..].
  - intros _. rewrite Hw. unfold case_uint. simpl. unfold mbind, mput.
    pose proof (read_uint_uvarint width set (varint n +:+ rest) 0 0 (set 0%N m) Hss) as Hr.
    rewrite uvarint_varint in Hr by done. rewrite Hr, Hss. reflexivity.
  - rewrite slen_app. pose proof (slen_nonneg (varint n)). lia.
  - exact Hd.
Qed.

Lemma decodes_strings l tag name get set ss rest m m' :
  tag_ok tag -> N.land tag 7 = 2%N ->
  fields (Z.of_N (N.shiftr tag 3)) = Some (case_strings name get set) ->
  (forall m, set (get m) m = m) -> (forall v m, get (set v m) = v) ->
  (forall v v' m, set v (set v' m) = set v m) ->
  decodes l rest (set (get m ++ ss) m) m' -> decodes l (enc_strings tag ss +:+ rest) m m'.
Proof.
  intros Ht Hw Hf Hsg Hgs Hss. revert m.
  induction ss as [|s ss IH]; intros m Hd; simpl.
  - by rewrite app_nil_r, Hsg in Hd.
  - rewrite app_str_assoc. eapply (decodes_frame _ _ _ _ _ _ (set (get m ++ [s]) m)); [done..| |].
    + intros c Hc _. unfold case_strings. simpl. unfold mbind, mlift, mput. by rewrite Hc.
    + apply IH. by rewrite Hgs, Hss, <- app_assoc.
Qed.

Lemma decodes_enum l tag name get set n rest m m' :
  tag_ok tag -> N.land tag 7 = 0%N ->
  fields (Z.of_N (N.shiftr tag 3)) = Some (case_enum name set) ->
  (- 2 ^ 31 <= n < 2 ^ 31)%Z -> set (get m) m = m ->
  (forall a b m, set a (set b m) = set a m) ->
  decodes l rest (set (merge_enum (get m) n) m) m' -> decodes l (enc_enum tag n +:+ rest) m m'.
Proof.
  intros Ht Hw Hf Hn Hs Hss Hd. unfold enc_enum, merge_enum in *.
  destruct (n =? 0)%Z; [by rewrite Hs in Hd|].
  rewrite app_str_assoc. eapply decodes_field; [done|by rewrite Hw|exact Hf| |..].
  - intros _. rewrite Hw. unfold case_enum. simpl. unfold mbind, mput.
    pose proof (read_uint_uvarint 32 (fun n => set (to_int32 n))
      (varint (to_uint64 n) +:+ rest) 0 0 (set 0%Z m) ltac:(intros; apply Hss)) as Hr.
    rewrite uvarint_varint_mod in Hr by apply to_uint64_bound.
    rewrite Hr, enum_roundtrip, Hss by done. reflexivity.
  - rewrite slen_app. pose proof (slen_nonneg (varint (to_uint64 n))). lia.
  - exact Hd.
Qed.

(** Unmarshal gives the message whose encoding decodes. *)
Lemma unmarshal_decodes s m m' :
  fields_total fields -> fits s -> (forall l, decodes l s m m') ->
  unmarshal_fields fields s m = (Ok tt, m').
Proof.
  intros Hfields Hs Hd. rewrite unmarshal_fields_at by done.
  apply Hd; [unfold fits in Hs; lia|done].
Qed.

End ReaderLaws.

(** * Proofs about messages

    The round trip of a message, and the tactics that prove the contract of a
    message made of fields. *)

(** Marshal allocates Size bytes and fills them, MarshalTo writes the same bytes at the
    start of any slice that has room for them, and Unmarshal after Reset reads
    them back. *)
Definition roundtrips {X} `{PbMessage X} (m : X) : Prop :=
  exists bz, Marshal m = Ok bz /\ slen bz = pb_Size m /\
    (forall s, MarshalTo m s = if (slen s <? pb_Size m)%Z then Panic PIndexOutOfRange
       else Ok (pb_Size m, bz +:+ sdrop (pb_Size m) s)) /\
    (forall m0, (Reset ;;* pb_Unmarshal bz) m0 = (Ok tt, m)).

Lemma roundtrips_ok {X} `{PbLaws X} (m : X) : pb_ok m -> fits (pb_enc m) -> roundtrips m.
Proof.
  intros Hm Hf. exists (pb_enc m). split; [by apply Marshal_ok|].
  split; [by rewrite pb_size_ok|]. split; [intros s; by apply MarshalTo_ok|].
  intros m0. by apply pb_unmarshal_ok.
Qed.

(** Split a bound on a concatenation. *)
Ltac fits_split :=
  repeat match goal with H : fits (_ +:+ _) |- _ => apply fits_app in H as [? H] end.

(** The side conditions of the laws of the fields *)
Ltac pb_side :=
  first [done | lia | by eapply fits_frame
    | lazymatch goal with |- tag_ok _ => by vm_compute | |- _ = sov _ => by vm_compute end
    | by intros [] | by intros ? [] | by intros ? ? []].

(** Walk the fields of a message: its size, what it writes, what it reads. *)
Ltac size_field k :=
  first [rewrite <- (size_opt_enc k) by pb_side | rewrite <- (size_bytes_enc k) by pb_side
    | rewrite <- (size_msg_enc k) by pb_side | rewrite <- (size_rep_enc k) by pb_side
    | rewrite <- (size_uint_enc k) by pb_side | rewrite <- (size_strings_enc k) by pb_side
    | rewrite <- (size_enum_enc k) by pb_side].

Ltac size_fields :=
  rewrite ?slen_app;
  repeat first [size_field 1%Z | size_field 2%Z];
  change (slen EmptyString) with 0%Z; lia.

Ltac stores_field :=
  first [apply stores_put_opt | apply stores_put_bytes | apply stores_put_msg
    | apply stores_put_rep | apply stores_put_uint | apply stores_put_strings
    | apply stores_put_enum]; pb_side.

Ltac stores_fields :=
  rewrite <- ?app_str_assoc;
  repeat (eapply stores_bind; [stores_field|]); stores_field.

(** The frame of MarshalToSizedBuffer, from an empty end of the buffer *)
Lemma sized_fresh m s r :
  stores m tt s -> (slen s <= r)%Z ->
  sized m (mkBuf r EmptyString) = (Ok (slen s), mkBuf (r - slen s) s).
Proof. intros Hm Hr. by rewrite (stores_sized _ _ Hm), app_str_nil_r. Qed.

Ltac decode_step :=
  lazymatch goal with
  | |- decodes _ _ EmptyString _ _ => apply decodes_nil
  | |- decodes _ _ (enc_opt _ _ +:+ _) _ _ =>
      eapply decodes_opt; [pb_side|done|reflexivity|pb_side..|]
  | |- decodes _ _ (enc_bytes _ (?g _) +:+ _) _ _ =>
      eapply (decodes_bytes _ _ _ _ g); [pb_side|done|reflexivity|pb_side..|]
  | |- decodes _ _ (frame _ _ +:+ _) _ _ =>
      eapply decodes_msg; [pb_side|done|reflexivity|pb_side..|]
  | |- decodes _ _ (enc_rep _ _ +:+ _) _ _ =>
      eapply decodes_rep; [pb_side|done|reflexivity|pb_side..|]
  | |- decodes _ _ (enc_strings _ _ +:+ _) _ _ =>
      eapply decodes_strings; [pb_side|done|reflexivity|pb_side..|]
  | |- decodes _ _ (enc_enum _ (?g _) +:+ _) _ _ =>
      eapply (decodes_enum _ _ _ _ g); [pb_side|done|reflexivity|pb_side..|]
  | |- decodes _ _ (enc_uint _ (?g _) +:+ _) _ _ =>
      eapply (decodes_uint _ _ _ _ _ g); [pb_side|done| |reflexivity|pb_side..|]; [pb_side|]
  end.

(** A zero message merged with another is the other. *)
Ltac merge_zero merge :=
  lazymatch goal with |- ?l = ?r => change (merge pb_zero r = r) end;
  unfold merge; f_equal;
  first [apply merge_bytes_zero | apply merge_uint_zero | apply merge_enum_zero
    | by apply merge_opt_zero | by apply pb_merge_zero | done].

Ltac total_fields :=
  let H := fresh in
  lazymatch goal with |- fields_total ?f =>
    let h := get_head f in intros ?? H; unfold h in H
  end;
  repeat case_match; simplify_eq;
  first [apply case_opt_total | apply case_bytes_total | apply case_msg_total
    | apply case_rep_total | apply case_uint_total | apply case_strings_total
    | apply case_enum_total].
