(* ===== verification/Bounds.v ===== *)
(** Bounds on the machine integers of the generated codecs: the values and lengths
    of varints, and the two overflow tests in front of every slice of the input,
    which amount to the comparison of the announced length with what is left. *)
From S2P Require Import Prelude.
From S2P Require Import Wire.
From S2P Require Import WireSpec.

(** * Varints *)

Lemma lor_bound a b w : (a < 2 ^ w -> b < 2 ^ w -> N.lor a b < 2 ^ w)%N.
Proof.
  intros Ha Hb. rewrite <- (N.mod_small a (2 ^ w)), <- (N.mod_small b (2 ^ w)), mod_pow2_lor by done.
  apply N.mod_lt. by apply N.pow_nonzero.
Qed.

(** The loop, from a shift of [k] sevens: the value stays in its width, and the
    bytes read are one more than the turns left. *)
Lemma uvarint_bounds width s k acc n rest :
  uvarint width s (7 * k) acc = Ok (n, rest) -> (acc < 2 ^ width)%N ->
  (n < 2 ^ width)%N /\
  exists pre, s = pre +:+ rest /\ (1 <= slen pre <= 10 - Z.of_N k)%Z.
Proof.
  revert k acc. induction s as [|c s IH]; intros k acc; cbn [uvarint]; [by case_match|].
  destruct (N.leb_spec 64 (7 * k)) as [|Hk]; [done|]. intros H Ha.
  set (acc' := N.lor _ _) in H.
  assert (acc' < 2 ^ width)%N as Ha'.
  { apply lor_bound; [done|]. apply N.mod_lt. by apply N.pow_nonzero. }
  destruct (_ <? 128)%N in H.
  - injection H as <- <-. split; [done|]. exists (String c ""). split; [done|].
    rewrite slen_cons. change (slen "") with 0%Z. lia.
  - replace (7 * k + 7)%N with (7 * (k + 1))%N in H by lia.
    apply IH in H as (Hn & pre & -> & Hl); [|done]. split; [done|].
    exists (String c pre). split; [done|]. rewrite slen_cons. lia.
Qed.

(** The announced size of a varint is that of its shortest form. *)
Lemma sov_bounds fuel v :
  (v < 128 ^ N.of_nat fuel)%N -> fuel <> 0 ->
  (1 <= sov v <= Z.of_nat fuel)%Z /\
  (Z.of_N v < 128 ^ sov v)%Z /\ (v <> 0%N -> 128 ^ (sov v - 1) <= Z.of_N v)%Z.
Proof.
  revert v. induction fuel as [|fuel IH]; intros v Hv Hf; [done|].
  destruct (N.lt_ge_cases v 128) as [H|H].
  - rewrite sov_small by done. change (128 ^ 1)%Z with 128%Z. simpl. lia.
  - assert (fuel <> 0) as Hf' by (intros ->; simpl in Hv; lia).
    rewrite Nat2N.inj_succ, N.pow_succ_r' in Hv.
    rewrite sov_step, shiftr7 by done.
    destruct (IH (v / 128)%N) as (Hs & Hu & Hl); [by apply N.Div0.div_lt_upper_bound|done|].
    assert (v / 128 <> 0)%N as Hne by (intros ?%N.div_small_iff; lia). specialize (Hl Hne).
    pose proof (N.div_mod v 128 ltac:(lia)). pose proof (N.mod_lt v 128 ltac:(lia)).
    split; [lia|]. replace (1 + sov (v / 128) - 1)%Z with (Z.succ (sov (v / 128) - 1)) by lia.
    replace (1 + sov (v / 128))%Z with (Z.succ (sov (v / 128))) by lia.
    rewrite !Z.pow_succ_r by lia. lia.
Qed.

(** * Slices of the input *)

(** int64(n) of a length is negative, or the length. *)
Lemma to_int64_cases n :
  (n < 2 ^ 64)%N ->
  (n < 2 ^ 63)%N /\ to_int64 n = Z.of_N n \/ (2 ^ 63 <= n)%N /\ (to_int64 n < 0)%Z.
Proof.
  intros Hn. destruct (N.lt_ge_cases n (2 ^ 63)) as [H|H].
  - left. split; [done|]. by apply to_int64_small.
  - right. split; [done|]. apply (wrap_int64_overflow (Z.of_N n)). lia.
Qed.

(** The tests of a length: negative as an int, or an index past the end once
    added, with the sum of two ints that may overflow. *)
Lemma read_chunk_cases l rest n rest' :
  (slen rest <= l < 2 ^ 63)%Z -> uvarint 64 rest 0 0 = Ok (n, rest') ->
  read_chunk l rest =
    if (Z.of_N n <=? slen rest')%Z then Ok (stake (Z.of_N n) rest', sdrop (Z.of_N n) rest')
    else if (Z.of_N n <? 2 ^ 63 - (l - slen rest'))%Z then Err ErrUnexpectedEOF
    else Err ErrInvalidLength.
Proof.
  intros Hl Hu. unfold read_chunk. rewrite Hu. simpl obind. cbv beta iota.
  destruct (uvarint_bounds 64 rest 0 0 n rest' Hu eq_refl) as (Hn & pre & -> & Hp).
  rewrite slen_app in Hl. pose proof (slen_nonneg rest').
  destruct (to_int64_cases n Hn) as [[Hs ->]|[Hs Hneg]].
  - rewrite (proj2 (Z.ltb_ge (Z.of_N n) 0)) by lia.
    destruct (Z.leb_spec (Z.of_N n) (slen rest')).
    + rewrite wrap_int64_small by lia. rewrite (proj2 (Z.ltb_ge _ 0)) by lia.
      rewrite (proj2 (Z.ltb_ge l _)) by lia.
      replace (l - slen rest' + Z.of_N n - (l - slen rest'))%Z with (Z.of_N n) by lia.
      by rewrite chunk_slices by lia.
    + destruct (Z.ltb_spec (Z.of_N n) (2 ^ 63 - (l - slen rest'))).
      * rewrite wrap_int64_small by lia. rewrite (proj2 (Z.ltb_ge _ 0)) by lia.
        by rewrite (proj2 (Z.ltb_lt l _)) by lia.
      * by rewrite (proj2 (Z.ltb_lt _ 0)) by (apply wrap_int64_overflow; lia).
  - rewrite (proj2 (Z.ltb_lt _ 0) Hneg), (proj2 (Z.leb_gt _ _)) by lia.
    by rewrite (proj2 (Z.ltb_ge _ _)) by lia.
Qed.

(** * Property *)

(** C35: the machine integers of the codecs stay in bounds.  A varint read in
    [width] bits is below 2^width, and takes between one and ten bytes of the
    input; the size announced for a uint64 is between one and ten and is that of
    its shortest encoding.  For a slice in memory the two tests on a length -
    negative as an int64, the sum with the index wrapping around - reject exactly
    the lengths that exceed what is left of the input: with "unexpected EOF"
    while the index still fits an int64, with "negative length" from there on up
    to 2^64 - 1; and what is cut off is exactly as long as announced. *)
Theorem decoder_bounds :
  (forall width s n rest, uvarint width s 0 0 = Ok (n, rest) ->
     (n < 2 ^ width)%N /\ exists pre, s = pre +:+ rest /\ (1 <= slen pre <= 10)%Z) /\
  (forall v, (v < 2 ^ 64)%N ->
     (1 <= sov v <= 10)%Z /\ (Z.of_N v < 128 ^ sov v)%Z /\
     (v <> 0%N -> 128 ^ (sov v - 1) <= Z.of_N v)%Z) /\
  (forall l rest n rest', (slen rest <= l < 2 ^ 63)%Z -> uvarint 64 rest 0 0 = Ok (n, rest') ->
     if (Z.of_N n <=? slen rest')%Z
     then exists chunk after, read_chunk l rest = Ok (chunk, after) /\
            rest' = chunk +:+ after /\ slen chunk = Z.of_N n
     else read_chunk l rest =
       Err (if (Z.of_N n <? 2 ^ 63 - (l - slen rest'))%Z then ErrUnexpectedEOF
            else ErrInvalidLength)).
Proof.
  split_and!.
  - intros width s n rest H. apply (uvarint_bounds width s 0 0); [exact H|].
    apply N.neq_0_lt_0. by apply N.pow_nonzero.
  - intros v Hv. apply (sov_bounds 10); [|done]. eapply N.lt_le_trans; [exact Hv|]. by vm_compute.
  - intros l rest n rest' Hl Hu. rewrite (read_chunk_cases l rest n rest' Hl Hu).
    destruct (Z.leb_spec (Z.of_N n) (slen rest')); [|by destruct (_ <? _)%Z].
    eexists _, _. split; [done|]. split; [symmetry; by apply stake_sdrop|].
    pose proof (f_equal slen (stake_sdrop (Z.of_N n) rest')) as Hlen.
    rewrite slen_app, slen_sdrop in Hlen by lia. lia.
Qed.

(** A length of 2^63 or more of a slice of twelve bytes is refused; two bytes of
    four are cut off. *)
Lemma decoder_bounds_witness :
  let big := varint (2 ^ 63 + 5) +:+ "ab" in
  let two := String (ascii_of_N 2) "abcd" in
  read_chunk 12 big = Err ErrInvalidLength /\
  exists chunk after, read_chunk 5 two = Ok (chunk, after) /\ slen chunk = 2%Z.
Proof.
  intros big two. split.
  - refine (proj2 (proj2 decoder_bounds) 12%Z big (2 ^ 63 + 5)%N "ab" _ _);
      [split; vm_compute; done|vm_compute; reflexivity].
  - destruct (proj2 (proj2 decoder_bounds) 5%Z two 2%N "abcd") as (chunk & after & H & _ & Hc);
      [split; vm_compute; done|vm_compute; reflexivity|].
    by exists chunk, after.
Defined.
