(* ===== verification/PbRef.v ===== *)
(** Reference instances of the interface PbMessage, for the messages of other
    packages: Any, MerklePrefix, Height, ConnectionEnd and Packet as the same
    generator writes them for the field numbers of their .proto definitions
    (third_party/proto).  They show that the contract PbLaws can hold, and the
    witnesses of PbTxSpec.v are evaluated on them. *)
From S2P Require Import Prelude.
From S2P Require Import Lib.
From S2P Require Import Wire.
From S2P Require Import WireSpec.

(** ** AnyT *)

Definition AnyT_Size (m : AnyT) : Z :=
  (size_bytes 1 (TypeUrl m) + size_bytes 1 (Value m))%Z.

Definition AnyT_MarshalToSizedBuffer (m : AnyT) : M Buf Z := sized (
  put_bytes 0x12 (Value m) ;;*
  put_bytes 0xa (TypeUrl m)).

Definition AnyT_fields (fieldNum : Z) : option (Case AnyT) :=
  match fieldNum with
  | 1 => Some (case_bytes "TypeUrl" (fun f1 '(mkAny _ f2) => mkAny f1 f2))
  | 2 => Some (case_bytes "Value" (fun f2 '(mkAny f1 _) => mkAny f1 f2))
  | _ => None
  end%Z.

Definition AnyT_Unmarshal (dAtA : bytes) : M AnyT unit :=
  unmarshal_fields AnyT_fields dAtA.

#[local] Instance AnyT_pb : PbMessage AnyT := {
  pb_zero := mkAny "" "";
  pb_Size := AnyT_Size;
  pb_MarshalToSizedBuffer := AnyT_MarshalToSizedBuffer;
  pb_Unmarshal := AnyT_Unmarshal
}.

Definition AnyT_enc (m : AnyT) : bytes :=
  enc_bytes 0xa (TypeUrl m) +:+ enc_bytes 0x12 (Value m) +:+ EmptyString.

Definition AnyT_merge (a b : AnyT) : AnyT :=
  mkAny (merge_bytes (TypeUrl a) (TypeUrl b)) (merge_bytes (Value a) (Value b)).

Definition AnyT_ok (m : AnyT) : Prop :=
  fits (TypeUrl m) /\ fits (Value m) /\ fits (AnyT_enc m).

#[local, refine] Instance AnyT_laws : PbLaws AnyT := {
  pb_ok := AnyT_ok; pb_enc := AnyT_enc; pb_merge := AnyT_merge }.
Proof.
  - intros m (? & ? & Hf). unfold AnyT_enc in *. fits_split.
    change (pb_Size m) with (AnyT_Size m). unfold AnyT_Size. size_fields.
  - intros m r (? & ? & Hf) Hr. apply sized_fresh; [|done].
    unfold AnyT_enc in *. fits_split. rewrite app_str_nil_r. stores_fields.
  - intros m0 m (? & ? & _) Hf. apply unmarshal_decodes; [total_fields|done|]. intros l.
    destruct m0. unfold AnyT_enc. repeat decode_step.
  - intros m (? & ? & _). destruct m. merge_zero AnyT_merge.
  - intros s m p Hs. apply unmarshal_fields_total; [total_fields|done].
Defined.

(** ** MerklePrefix *)

Definition MerklePrefix_Size (m : MerklePrefix) : Z :=
  (size_bytes 1 (KeyPrefix m))%Z.

Definition MerklePrefix_MarshalToSizedBuffer (m : MerklePrefix) : M Buf Z := sized (
  put_bytes 0xa (KeyPrefix m)).

Definition MerklePrefix_fields (fieldNum : Z) : option (Case MerklePrefix) :=
  match fieldNum with
  | 1 => Some (case_bytes "KeyPrefix" (fun f1 '(mkMerklePrefix _) => mkMerklePrefix f1))
  | _ => None
  end%Z.

Definition MerklePrefix_Unmarshal (dAtA : bytes) : M MerklePrefix unit :=
  unmarshal_fields MerklePrefix_fields dAtA.

#[local] Instance MerklePrefix_pb : PbMessage MerklePrefix := {
  pb_zero := mkMerklePrefix "";
  pb_Size := MerklePrefix_Size;
  pb_MarshalToSizedBuffer := MerklePrefix_MarshalToSizedBuffer;
  pb_Unmarshal := MerklePrefix_Unmarshal
}.

Definition MerklePrefix_enc (m : MerklePrefix) : bytes :=
  enc_bytes 0xa (KeyPrefix m) +:+ EmptyString.

Definition MerklePrefix_merge (a b : MerklePrefix) : MerklePrefix :=
  mkMerklePrefix (merge_bytes (KeyPrefix a) (KeyPrefix b)).

Definition MerklePrefix_ok (m : MerklePrefix) : Prop :=
  fits (KeyPrefix m) /\ fits (MerklePrefix_enc m).

#[local, refine] Instance MerklePrefix_laws : PbLaws MerklePrefix := {
  pb_ok := MerklePrefix_ok; pb_enc := MerklePrefix_enc; pb_merge := MerklePrefix_merge }.
Proof.
  - intros m (? & Hf). unfold MerklePrefix_enc in *. fits_split.
    change (pb_Size m) with (MerklePrefix_Size m). unfold MerklePrefix_Size. size_fields.
  - intros m r (? & Hf) Hr. apply sized_fresh; [|done].
    unfold MerklePrefix_enc in *. fits_split. rewrite app_str_nil_r. stores_fields.
  - intros m0 m (? & _) Hf. apply unmarshal_decodes; [total_fields|done|]. intros l.
    destruct m0. unfold MerklePrefix_enc. repeat decode_step.
  - intros m (? & _). destruct m. merge_zero MerklePrefix_merge.
  - intros s m p Hs. apply unmarshal_fields_total; [total_fields|done].
Defined.

(** ** Height *)

Definition Height_Size (m : Height) : Z :=
  (size_uint 1 (RevisionNumber m) + size_uint 1 (RevisionHeight m))%Z.

Definition Height_MarshalToSizedBuffer (m : Height) : M Buf Z := sized (
  put_uint 0x10 (RevisionHeight m) ;;*
  put_uint 0x8 (RevisionNumber m)).

Definition Height_fields (fieldNum : Z) : option (Case Height) :=
  match fieldNum with
  | 1 => Some (case_uint 64 "RevisionNumber" (fun f1 '(mkHeight _ f2) => mkHeight f1 f2))
  | 2 => Some (case_uint 64 "RevisionHeight" (fun f2 '(mkHeight f1 _) => mkHeight f1 f2))
  | _ => None
  end%Z.

Definition Height_Unmarshal (dAtA : bytes) : M Height unit :=
  unmarshal_fields Height_fields dAtA.

#[local] Instance Height_pb : PbMessage Height := {
  pb_zero := mkHeight 0%N 0%N;
  pb_Size := Height_Size;
  pb_MarshalToSizedBuffer := Height_MarshalToSizedBuffer;
  pb_Unmarshal := Height_Unmarshal
}.

Definition Height_enc (m : Height) : bytes :=
  enc_uint 0x8 (RevisionNumber m) +:+ enc_uint 0x10 (RevisionHeight m) +:+ EmptyString.

Definition Height_merge (a b : Height) : Height :=
  mkHeight (merge_uint (RevisionNumber a) (RevisionNumber b))
    (merge_uint (RevisionHeight a) (RevisionHeight b)).

Definition Height_ok (m : Height) : Prop :=
  (RevisionNumber m < 2 ^ 64)%N /\ (RevisionHeight m < 2 ^ 64)%N /\ fits (Height_enc m).

#[local, refine] Instance Height_laws : PbLaws Height := {
  pb_ok := Height_ok; pb_enc := Height_enc; pb_merge := Height_merge }.
Proof.
  - intros m (? & ? & Hf). unfold Height_enc in *. fits_split.
    change (pb_Size m) with (Height_Size m). unfold Height_Size. size_fields.
  - intros m r (? & ? & Hf) Hr. apply sized_fresh; [|done].
    unfold Height_enc in *. fits_split. rewrite app_str_nil_r. stores_fields.
  - intros m0 m (? & ? & _) Hf. apply unmarshal_decodes; [total_fields|done|]. intros l.
    destruct m0. unfold Height_enc. repeat decode_step.
  - intros m (? & ? & _). destruct m. merge_zero Height_merge.
  - intros s m p Hs. apply unmarshal_fields_total; [total_fields|done].
Defined.

(** ** Version *)

Definition Version_Size (m : Version) : Z :=
  (size_bytes 1 (Identifier m) + size_strings 1 (Features m))%Z.

Definition Version_MarshalToSizedBuffer (m : Version) : M Buf Z := sized (
  put_strings 0x12 (Features m) ;;*
  put_bytes 0xa (Identifier m)).

Definition Version_fields (fieldNum : Z) : option (Case Version) :=
  match fieldNum with
  | 1 => Some (case_bytes "Identifier" (fun f1 '(mkVersion _ f2) => mkVersion f1 f2))
  | 2 => Some (case_strings "Features" Features (fun f2 '(mkVersion f1 _) => mkVersion f1 f2))
  | _ => None
  end%Z.

Definition Version_Unmarshal (dAtA : bytes) : M Version unit :=
  unmarshal_fields Version_fields dAtA.

#[local] Instance Version_pb : PbMessage Version := {
  pb_zero := mkVersion "" [];
  pb_Size := Version_Size;
  pb_MarshalToSizedBuffer := Version_MarshalToSizedBuffer;
  pb_Unmarshal := Version_Unmarshal
}.

Definition Version_enc (m : Version) : bytes :=
  enc_bytes 0xa (Identifier m) +:+ enc_strings 0x12 (Features m) +:+ EmptyString.

Definition Version_merge (a b : Version) : Version :=
  mkVersion (merge_bytes (Identifier a) (Identifier b)) (Features a ++ Features b).

Definition Version_ok (m : Version) : Prop :=
  fits (Identifier m) /\ fits (Version_enc m).

#[local, refine] Instance Version_laws : PbLaws Version := {
  pb_ok := Version_ok; pb_enc := Version_enc; pb_merge := Version_merge }.
Proof.
  - intros m (? & Hf). unfold Version_enc in *. fits_split.
    change (pb_Size m) with (Version_Size m). unfold Version_Size. size_fields.
  - intros m r (? & Hf) Hr. apply sized_fresh; [|done].
    unfold Version_enc in *. fits_split. rewrite app_str_nil_r. stores_fields.
  - intros m0 m (? & _) Hf. apply unmarshal_decodes; [total_fields|done|]. intros l.
    destruct m0. unfold Version_enc. repeat decode_step.
  - intros m (? & _). destruct m. merge_zero Version_merge.
  - intros s m p Hs. apply unmarshal_fields_total; [total_fields|done].
Defined.

(** ** ConnCounterparty *)

Definition ConnCounterparty_Size (m : ConnCounterparty) : Z :=
  (size_bytes 1 (cc_ClientId m) + size_bytes 1 (cc_ConnectionId m) +
   size_msg 1 (cc_Prefix m))%Z.

Definition ConnCounterparty_MarshalToSizedBuffer (m : ConnCounterparty) : M Buf Z := sized (
  put_msg 0x1a (cc_Prefix m) ;;*
  put_bytes 0x12 (cc_ConnectionId m) ;;*
  put_bytes 0xa (cc_ClientId m)).

Definition ConnCounterparty_fields (fieldNum : Z) : option (Case ConnCounterparty) :=
  match fieldNum with
  | 1 => Some (case_bytes "ClientId"
      (fun f1 '(mkConnCounterparty _ f2 f3) =>
         mkConnCounterparty f1 f2 f3))
  | 2 => Some (case_bytes "ConnectionId"
      (fun f2 '(mkConnCounterparty f1 _ f3) =>
         mkConnCounterparty f1 f2 f3))
  | 3 => Some (case_msg "Prefix" cc_Prefix
      (fun f3 '(mkConnCounterparty f1 f2 _) =>
         mkConnCounterparty f1 f2 f3))
  | _ => None
  end%Z.

Definition ConnCounterparty_Unmarshal (dAtA : bytes) : M ConnCounterparty unit :=
  unmarshal_fields ConnCounterparty_fields dAtA.

#[local] Instance ConnCounterparty_pb : PbMessage ConnCounterparty := {
  pb_zero := mkConnCounterparty "" "" pb_zero;
  pb_Size := ConnCounterparty_Size;
  pb_MarshalToSizedBuffer := ConnCounterparty_MarshalToSizedBuffer;
  pb_Unmarshal := ConnCounterparty_Unmarshal
}.

Definition ConnCounterparty_enc (m : ConnCounterparty) : bytes :=
  enc_bytes 0xa (cc_ClientId m) +:+ enc_bytes 0x12 (cc_ConnectionId m) +:+
  frame 0x1a (pb_enc (cc_Prefix m)) +:+ EmptyString.

Definition ConnCounterparty_merge (a b : ConnCounterparty) : ConnCounterparty :=
  mkConnCounterparty (merge_bytes (cc_ClientId a) (cc_ClientId b))
    (merge_bytes (cc_ConnectionId a) (cc_ConnectionId b))
    (pb_merge (cc_Prefix a) (cc_Prefix b)).

Definition ConnCounterparty_ok (m : ConnCounterparty) : Prop :=
  fits (cc_ClientId m) /\ fits (cc_ConnectionId m) /\ pb_ok (cc_Prefix m) /\
  fits (ConnCounterparty_enc m).

#[local, refine] Instance ConnCounterparty_laws : PbLaws ConnCounterparty := {
  pb_ok := ConnCounterparty_ok; pb_enc := ConnCounterparty_enc; pb_merge := ConnCounterparty_merge }.
Proof.
  - intros m (? & ? & ? & Hf). unfold ConnCounterparty_enc in *. fits_split.
    change (pb_Size m) with (ConnCounterparty_Size m). unfold ConnCounterparty_Size. size_fields.
  - intros m r (? & ? & ? & Hf) Hr. apply sized_fresh; [|done].
    unfold ConnCounterparty_enc in *. fits_split. rewrite app_str_nil_r. stores_fields.
  - intros m0 m (? & ? & ? & _) Hf. apply unmarshal_decodes; [total_fields|done|]. intros l.
    destruct m0. unfold ConnCounterparty_enc. repeat decode_step.
  - intros m (? & ? & ? & _). destruct m. merge_zero ConnCounterparty_merge.
  - intros s m p Hs. apply unmarshal_fields_total; [total_fields|done].
Defined.

(** ** ConnectionEnd *)

Definition ConnectionEnd_Size (m : ConnectionEnd) : Z :=
  (size_bytes 1 (conn_ClientId m) + size_rep 1 (conn_Versions m) +
   size_enum 1 (conn_State m) + size_msg 1 (conn_Counterparty m) +
   size_uint 1 (conn_DelayPeriod m))%Z.

Definition ConnectionEnd_MarshalToSizedBuffer (m : ConnectionEnd) : M Buf Z := sized (
  put_uint 0x28 (conn_DelayPeriod m) ;;*
  put_msg 0x22 (conn_Counterparty m) ;;*
  put_enum 0x18 (conn_State m) ;;*
  put_rep 0x12 (conn_Versions m) ;;*
  put_bytes 0xa (conn_ClientId m)).

Definition ConnectionEnd_fields (fieldNum : Z) : option (Case ConnectionEnd) :=
  match fieldNum with
  | 1 => Some (case_bytes "ClientId"
      (fun f1 '(mkConnectionEnd _ f2 f3 f4 f5) =>
         mkConnectionEnd f1 f2 f3 f4 f5))
  | 2 => Some (case_rep "Versions" conn_Versions
      (fun f2 '(mkConnectionEnd f1 _ f3 f4 f5) =>
         mkConnectionEnd f1 f2 f3 f4 f5))
  | 3 => Some (case_enum "State"
      (fun f3 '(mkConnectionEnd f1 f2 _ f4 f5) =>
         mkConnectionEnd f1 f2 f3 f4 f5))
  | 4 => Some (case_msg "Counterparty" conn_Counterparty
      (fun f4 '(mkConnectionEnd f1 f2 f3 _ f5) =>
         mkConnectionEnd f1 f2 f3 f4 f5))
  | 5 => Some (case_uint 64 "DelayPeriod"
      (fun f5 '(mkConnectionEnd f1 f2 f3 f4 _) =>
         mkConnectionEnd f1 f2 f3 f4 f5))
  | _ => None
  end%Z.

Definition ConnectionEnd_Unmarshal (dAtA : bytes) : M ConnectionEnd unit :=
  unmarshal_fields ConnectionEnd_fields dAtA.

#[local] Instance ConnectionEnd_pb : PbMessage ConnectionEnd := {
  pb_zero := mkConnectionEnd "" [] 0%Z pb_zero 0%N;
  pb_Size := ConnectionEnd_Size;
  pb_MarshalToSizedBuffer := ConnectionEnd_MarshalToSizedBuffer;
  pb_Unmarshal := ConnectionEnd_Unmarshal
}.

Definition ConnectionEnd_enc (m : ConnectionEnd) : bytes :=
  enc_bytes 0xa (conn_ClientId m) +:+ enc_rep 0x12 (conn_Versions m) +:+
  enc_enum 0x18 (conn_State m) +:+ frame 0x22 (pb_enc (conn_Counterparty m)) +:+
  enc_uint 0x28 (conn_DelayPeriod m) +:+ EmptyString.

Definition ConnectionEnd_merge (a b : ConnectionEnd) : ConnectionEnd :=
  mkConnectionEnd (merge_bytes (conn_ClientId a) (conn_ClientId b))
    (conn_Versions a ++ conn_Versions b) (merge_enum (conn_State a) (conn_State b))
    (pb_merge (conn_Counterparty a) (conn_Counterparty b))
    (merge_uint (conn_DelayPeriod a) (conn_DelayPeriod b)).

Definition ConnectionEnd_ok (m : ConnectionEnd) : Prop :=
  fits (conn_ClientId m) /\ Forall pb_ok (conn_Versions m) /\
  (- 2 ^ 31 <= conn_State m < 2 ^ 31)%Z /\ pb_ok (conn_Counterparty m) /\
  (conn_DelayPeriod m < 2 ^ 64)%N /\ fits (ConnectionEnd_enc m).

#[local, refine] Instance ConnectionEnd_laws : PbLaws ConnectionEnd := {
  pb_ok := ConnectionEnd_ok; pb_enc := ConnectionEnd_enc; pb_merge := ConnectionEnd_merge }.
Proof.
  - intros m (? & ? & ? & ? & ? & Hf). unfold ConnectionEnd_enc in *. fits_split.
    change (pb_Size m) with (ConnectionEnd_Size m). unfold ConnectionEnd_Size. size_fields.
  - intros m r (? & ? & ? & ? & ? & Hf) Hr. apply sized_fresh; [|done].
    unfold ConnectionEnd_enc in *. fits_split. rewrite app_str_nil_r. stores_fields.
  - intros m0 m (? & ? & ? & ? & ? & _) Hf. apply unmarshal_decodes; [total_fields|done|]. intros l.
    destruct m0. unfold ConnectionEnd_enc. repeat decode_step.
  - intros m (? & ? & ? & ? & ? & _). destruct m. merge_zero ConnectionEnd_merge.
  - intros s m p Hs. apply unmarshal_fields_total; [total_fields|done].
Defined.

(** ** Packet *)

Definition Packet_Size (m : Packet) : Z :=
  (size_uint 1 (pkt_Sequence m) + size_bytes 1 (pkt_SourcePort m) +
   size_bytes 1 (pkt_SourceChannel m) + size_bytes 1 (pkt_DestinationPort m) +
   size_bytes 1 (pkt_DestinationChannel m) + size_bytes 1 (pkt_Data m) +
   size_msg 1 (pkt_TimeoutHeight m) + size_uint 1 (pkt_TimeoutTimestamp m))%Z.

Definition Packet_MarshalToSizedBuffer (m : Packet) : M Buf Z := sized (
  put_uint 0x40 (pkt_TimeoutTimestamp m) ;;*
  put_msg 0x3a (pkt_TimeoutHeight m) ;;*
  put_bytes 0x32 (pkt_Data m) ;;*
  put_bytes 0x2a (pkt_DestinationChannel m) ;;*
  put_bytes 0x22 (pkt_DestinationPort m) ;;*
  put_bytes 0x1a (pkt_SourceChannel m) ;;*
  put_bytes 0x12 (pkt_SourcePort m) ;;*
  put_uint 0x8 (pkt_Sequence m)).

Definition Packet_fields (fieldNum : Z) : option (Case Packet) :=
  match fieldNum with
  | 1 => Some (case_uint 64 "Sequence"
      (fun f1 '(mkPacket _ f2 f3 f4 f5 f6 f7 f8) =>
         mkPacket f1 f2 f3 f4 f5 f6 f7 f8))
  | 2 => Some (case_bytes "SourcePort"
      (fun f2 '(mkPacket f1 _ f3 f4 f5 f6 f7 f8) =>
         mkPacket f1 f2 f3 f4 f5 f6 f7 f8))
  | 3 => Some (case_bytes "SourceChannel"
      (fun f3 '(mkPacket f1 f2 _ f4 f5 f6 f7 f8) =>
         mkPacket f1 f2 f3 f4 f5 f6 f7 f8))
  | 4 => Some (case_bytes "DestinationPort"
      (fun f4 '(mkPacket f1 f2 f3 _ f5 f6 f7 f8) =>
         mkPacket f1 f2 f3 f4 f5 f6 f7 f8))
  | 5 => Some (case_bytes "DestinationChannel"
      (fun f5 '(mkPacket f1 f2 f3 f4 _ f6 f7 f8) =>
         mkPacket f1 f2 f3 f4 f5 f6 f7 f8))
  | 6 => Some (case_bytes "Data"
      (fun f6 '(mkPacket f1 f2 f3 f4 f5 _ f7 f8) =>
         mkPacket f1 f2 f3 f4 f5 f6 f7 f8))
  | 7 => Some (case_msg "TimeoutHeight" pkt_TimeoutHeight
      (fun f7 '(mkPacket f1 f2 f3 f4 f5 f6 _ f8) =>
         mkPacket f1 f2 f3 f4 f5 f6 f7 f8))
  | 8 => Some (case_uint 64 "TimeoutTimestamp"
      (fun f8 '(mkPacket f1 f2 f3 f4 f5 f6 f7 _) =>
         mkPacket f1 f2 f3 f4 f5 f6 f7 f8))
  | _ => None
  end%Z.

Definition Packet_Unmarshal (dAtA : bytes) : M Packet unit :=
  unmarshal_fields Packet_fields dAtA.

#[local] Instance Packet_pb : PbMessage Packet := {
  pb_zero := mkPacket 0%N "" "" "" "" "" pb_zero 0%N;
  pb_Size := Packet_Size;
  pb_MarshalToSizedBuffer := Packet_MarshalToSizedBuffer;
  pb_Unmarshal := Packet_Unmarshal
}.

Definition Packet_enc (m : Packet) : bytes :=
  enc_uint 0x8 (pkt_Sequence m) +:+ enc_bytes 0x12 (pkt_SourcePort m) +:+
  enc_bytes 0x1a (pkt_SourceChannel m) +:+ enc_bytes 0x22 (pkt_DestinationPort m) +:+
  enc_bytes 0x2a (pkt_DestinationChannel m) +:+ enc_bytes 0x32 (pkt_Data m) +:+
  frame 0x3a (pb_enc (pkt_TimeoutHeight m)) +:+ enc_uint 0x40 (pkt_TimeoutTimestamp m) +:+
  EmptyString.

Definition Packet_merge (a b : Packet) : Packet :=
  mkPacket (merge_uint (pkt_Sequence a) (pkt_Sequence b))
    (merge_bytes (pkt_SourcePort a) (pkt_SourcePort b))
    (merge_bytes (pkt_SourceChannel a) (pkt_SourceChannel b))
    (merge_bytes (pkt_DestinationPort a) (pkt_DestinationPort b))
    (merge_bytes (pkt_DestinationChannel a) (pkt_DestinationChannel b))
    (merge_bytes (pkt_Data a) (pkt_Data b))
    (pb_merge (pkt_TimeoutHeight a) (pkt_TimeoutHeight b))
    (merge_uint (pkt_TimeoutTimestamp a) (pkt_TimeoutTimestamp b)).

Definition Packet_ok (m : Packet) : Prop :=
  (pkt_Sequence m < 2 ^ 64)%N /\ fits (pkt_SourcePort m) /\ fits (pkt_SourceChannel m) /\
  fits (pkt_DestinationPort m) /\ fits (pkt_DestinationChannel m) /\ fits (pkt_Data m) /\
  pb_ok (pkt_TimeoutHeight m) /\ (pkt_TimeoutTimestamp m < 2 ^ 64)%N /\ fits (Packet_enc m).

#[local, refine] Instance Packet_laws : PbLaws Packet := {
  pb_ok := Packet_ok; pb_enc := Packet_enc; pb_merge := Packet_merge }.
Proof.
  - intros m (? & ? & ? & ? & ? & ? & ? & ? & Hf). unfold Packet_enc in *. fits_split.
    change (pb_Size m) with (Packet_Size m). unfold Packet_Size. size_fields.
  - intros m r (? & ? & ? & ? & ? & ? & ? & ? & Hf) Hr. apply sized_fresh; [|done].
    unfold Packet_enc in *. fits_split. rewrite app_str_nil_r. stores_fields.
  - intros m0 m (? & ? & ? & ? & ? & ? & ? & ? & _) Hf. apply unmarshal_decodes; [total_fields|done|]. intros l.
    destruct m0. unfold Packet_enc. repeat decode_step.
  - intros m (? & ? & ? & ? & ? & ? & ? & ? & _). destruct m. merge_zero Packet_merge.
  - intros s m p Hs. apply unmarshal_fields_total; [total_fields|done].
Defined.

