(* ===== verification/PbSpec.v ===== *)
(** What the generated codecs of the light clients' messages promise: Size is
    the length of what Marshal writes, Marshal never runs out of its buffer,
    Unmarshal reads back what Marshal wrote, and Unmarshal never panics on any
    bytes.  The messages of other packages (Any, MerklePrefix, Height) come with
    the same contract, PbLaws; the reference instances of PbRef.v show that it can
    hold; PbTxSpec.v states the properties. *)
From S2P Require Import Prelude.
From S2P Require Import Lib.
From S2P Require Import Wire.
From S2P Require Import PbClients.
From S2P Require Import WireSpec.

Section Messages.
Context `{PbLaws AnyT, PbLaws MerklePrefix, PbLaws Height}.

(** ** xx-proxy ClientState *)

Definition ProxyCS_enc (m : ProxyCS) : bytes :=
  enc_opt 0xa (pcs_ProxyClientState m) +:+ enc_bytes 0x12 (pcs_UpstreamClientId m) +:+
  enc_opt 0x1a (pcs_ProxyPrefix m) +:+ enc_opt 0x22 (pcs_IbcPrefix m) +:+ EmptyString.

Definition ProxyCS_merge (a b : ProxyCS) : ProxyCS :=
  mkProxyCS (merge_opt (pcs_ProxyClientState a) (pcs_ProxyClientState b))
    (merge_bytes (pcs_UpstreamClientId a) (pcs_UpstreamClientId b))
    (merge_opt (pcs_ProxyPrefix a) (pcs_ProxyPrefix b))
    (merge_opt (pcs_IbcPrefix a) (pcs_IbcPrefix b)).

Definition ProxyCS_ok (m : ProxyCS) : Prop :=
  opt_ok (pcs_ProxyClientState m) /\ fits (pcs_UpstreamClientId m) /\
  opt_ok (pcs_ProxyPrefix m) /\ opt_ok (pcs_IbcPrefix m) /\ fits (ProxyCS_enc m).

#[export, refine] Instance ProxyCS_laws : PbLaws ProxyCS := {
  pb_ok := ProxyCS_ok; pb_enc := ProxyCS_enc; pb_merge := ProxyCS_merge }.
Proof.
  - intros m (? & ? & ? & ? & Hf). unfold ProxyCS_enc in *. fits_split.
    change (pb_Size m) with (ProxyCS_Size m). unfold ProxyCS_Size. size_fields.
  - intros m r (? & ? & ? & ? & Hf) Hr. apply sized_fresh; [|done].
    unfold ProxyCS_enc in *. fits_split. rewrite app_str_nil_r. stores_fields.
  - intros m0 m (? & ? & ? & ? & _) Hf. apply unmarshal_decodes; [total_fields|done|]. intros l.
    destruct m0. unfold ProxyCS_enc. repeat decode_step.
  - intros m (? & ? & ? & ? & _). destruct m. merge_zero ProxyCS_merge.
  - intros s m p Hs. apply unmarshal_fields_total; [total_fields|done].
Defined.

(** ** xx-proxy ConsensusState *)

Definition ProxyConsS_enc (m : ProxyConsS) : bytes :=
  enc_opt 0xa (pcons_ProxyConsensusState m) +:+ EmptyString.

Definition ProxyConsS_merge (a b : ProxyConsS) : ProxyConsS :=
  mkProxyConsS (merge_opt (pcons_ProxyConsensusState a) (pcons_ProxyConsensusState b)).

Definition ProxyConsS_ok (m : ProxyConsS) : Prop :=
  opt_ok (pcons_ProxyConsensusState m) /\ fits (ProxyConsS_enc m).

#[export, refine] Instance ProxyConsS_laws : PbLaws ProxyConsS := {
  pb_ok := ProxyConsS_ok; pb_enc := ProxyConsS_enc; pb_merge := ProxyConsS_merge }.
Proof.
  - intros m (? & Hf). unfold ProxyConsS_enc in *. fits_split.
    change (pb_Size m) with (ProxyConsS_Size m). unfold ProxyConsS_Size. size_fields.
  - intros m r (? & Hf) Hr. apply sized_fresh; [|done].
    unfold ProxyConsS_enc in *. fits_split. rewrite app_str_nil_r. stores_fields.
  - intros m0 m (? & _) Hf. apply unmarshal_decodes; [total_fields|done|]. intros l.
    destruct m0. unfold ProxyConsS_enc. repeat decode_step.
  - intros m (? & _). destruct m. merge_zero ProxyConsS_merge.
  - intros s m p Hs. apply unmarshal_fields_total; [total_fields|done].
Defined.

(** ** xx-multiv ClientState *)

Definition MultivCS_enc (m : MultivCS) : bytes :=
  enc_opt 0xa (mcs_UnderlyingClientState m) +:+ enc_uint 0x10 (mcs_Depth m) +:+ EmptyString.

Definition MultivCS_merge (a b : MultivCS) : MultivCS :=
  mkMultivCS (merge_opt (mcs_UnderlyingClientState a) (mcs_UnderlyingClientState b))
    (merge_uint (mcs_Depth a) (mcs_Depth b)).

Definition MultivCS_ok (m : MultivCS) : Prop :=
  opt_ok (mcs_UnderlyingClientState m) /\ (mcs_Depth m < 2 ^ 32)%N /\ fits (MultivCS_enc m).

#[export, refine] Instance MultivCS_laws : PbLaws MultivCS := {
  pb_ok := MultivCS_ok; pb_enc := MultivCS_enc; pb_merge := MultivCS_merge }.
Proof.
  - intros m (? & ? & Hf). unfold MultivCS_enc in *. fits_split.
    change (pb_Size m) with (MultivCS_Size m). unfold MultivCS_Size. size_fields.
  - intros m r (? & ? & Hf) Hr. apply sized_fresh; [|done].
    unfold MultivCS_enc in *. fits_split. rewrite app_str_nil_r. stores_fields.
  - intros m0 m (? & ? & _) Hf. apply unmarshal_decodes; [total_fields|done|]. intros l.
    destruct m0. unfold MultivCS_enc. repeat decode_step.
  - intros m (? & ? & _). destruct m. merge_zero MultivCS_merge.
  - intros s m p Hs. apply unmarshal_fields_total; [total_fields|done].
Defined.

(** ** xx-multiv Proof *)

Definition Proof_enc (m : Proof) : bytes :=
  enc_bytes 0xa (ClientProof m) +:+ enc_opt 0x12 (Proof_ClientState m) +:+
  enc_bytes 0x1a (ConsensusProof m) +:+ enc_opt 0x22 (Proof_ConsensusState m) +:+
  frame 0x2a (pb_enc (ProofHeight m)) +:+ frame 0x32 (pb_enc (ConsensusHeight m)) +:+
  EmptyString.

Definition Proof_merge (a b : Proof) : Proof :=
  mkProof (merge_bytes (ClientProof a) (ClientProof b))
    (merge_opt (Proof_ClientState a) (Proof_ClientState b))
    (merge_bytes (ConsensusProof a) (ConsensusProof b))
    (merge_opt (Proof_ConsensusState a) (Proof_ConsensusState b))
    (pb_merge (ProofHeight a) (ProofHeight b))
    (pb_merge (ConsensusHeight a) (ConsensusHeight b)).

Definition Proof_ok (m : Proof) : Prop :=
  fits (ClientProof m) /\ opt_ok (Proof_ClientState m) /\ fits (ConsensusProof m) /\
  opt_ok (Proof_ConsensusState m) /\ pb_ok (ProofHeight m) /\ pb_ok (ConsensusHeight m) /\ fits (Proof_enc m).

#[export, refine] Instance Proof_laws : PbLaws Proof := {
  pb_ok := Proof_ok; pb_enc := Proof_enc; pb_merge := Proof_merge }.
Proof.
  - intros m (? & ? & ? & ? & ? & ? & Hf). unfold Proof_enc in *. fits_split.
    change (pb_Size m) with (Proof_Size m). unfold Proof_Size. size_fields.
  - intros m r (? & ? & ? & ? & ? & ? & Hf) Hr. apply sized_fresh; [|done].
    unfold Proof_enc in *. fits_split. rewrite app_str_nil_r. stores_fields.
  - intros m0 m (? & ? & ? & ? & ? & ? & _) Hf. apply unmarshal_decodes; [total_fields|done|]. intros l.
    destruct m0. unfold Proof_enc. repeat decode_step.
  - intros m (? & ? & ? & ? & ? & ? & _). destruct m. merge_zero Proof_merge.
  - intros s m p Hs. apply unmarshal_fields_total; [total_fields|done].
Defined.

(** ** xx-multiv LeafProof *)

Definition LeafProof_enc (m : LeafProof) : bytes :=
  enc_bytes 0xa (Leaf_Proof m) +:+ frame 0x12 (pb_enc (Leaf_ProofHeight m)) +:+ EmptyString.

Definition LeafProof_merge (a b : LeafProof) : LeafProof :=
  mkLeafProof (merge_bytes (Leaf_Proof a) (Leaf_Proof b))
    (pb_merge (Leaf_ProofHeight a) (Leaf_ProofHeight b)).

Definition LeafProof_ok (m : LeafProof) : Prop :=
  fits (Leaf_Proof m) /\ pb_ok (Leaf_ProofHeight m) /\ fits (LeafProof_enc m).

#[export, refine] Instance LeafProof_laws : PbLaws LeafProof := {
  pb_ok := LeafProof_ok; pb_enc := LeafProof_enc; pb_merge := LeafProof_merge }.
Proof.
  - intros m (? & ? & Hf). unfold LeafProof_enc in *. fits_split.
    change (pb_Size m) with (LeafProof_Size m). unfold LeafProof_Size. size_fields.
  - intros m r (? & ? & Hf) Hr. apply sized_fresh; [|done].
    unfold LeafProof_enc in *. fits_split. rewrite app_str_nil_r. stores_fields.
  - intros m0 m (? & ? & _) Hf. apply unmarshal_decodes; [total_fields|done|]. intros l.
    destruct m0. unfold LeafProof_enc. repeat decode_step.
  - intros m (? & ? & _). destruct m. merge_zero LeafProof_merge.
  - intros s m p Hs. apply unmarshal_fields_total; [total_fields|done].
Defined.

(** ** xx-multiv MultiProof *)

Definition MultiProof_enc (m : MultiProof) : bytes :=
  frame 0xa (pb_enc (Head m)) +:+ enc_rep 0x12 (Branches m) +:+
  frame 0x1a (pb_enc (Leaf m)) +:+ EmptyString.

Definition MultiProof_merge (a b : MultiProof) : MultiProof :=
  mkMultiProof (pb_merge (Head a) (Head b)) (Branches a ++ Branches b)
    (pb_merge (Leaf a) (Leaf b)).

Definition MultiProof_ok (m : MultiProof) : Prop :=
  pb_ok (Head m) /\ Forall pb_ok (Branches m) /\ pb_ok (Leaf m) /\ fits (MultiProof_enc m).

#[export, refine] Instance MultiProof_laws : PbLaws MultiProof := {
  pb_ok := MultiProof_ok; pb_enc := MultiProof_enc; pb_merge := MultiProof_merge }.
Proof.
  - intros m (? & ? & ? & Hf). unfold MultiProof_enc in *. fits_split.
    change (pb_Size m) with (MultiProof_Size m). unfold MultiProof_Size. size_fields.
  - intros m r (? & ? & ? & Hf) Hr. apply sized_fresh; [|done].
    unfold MultiProof_enc in *. fits_split. rewrite app_str_nil_r. stores_fields.
  - intros m0 m (? & ? & ? & _) Hf. apply unmarshal_decodes; [total_fields|done|]. intros l.
    destruct m0. unfold MultiProof_enc. repeat decode_step.
  - intros m (? & ? & ? & _). destruct m. merge_zero MultiProof_merge.
  - intros s m p Hs. apply unmarshal_fields_total; [total_fields|done].
Defined.

End Messages.
