(* ===== verification/ProxyClient.v ===== *)
(** The proxy client, modules/light-clients/xx-proxy/types: the light client a
    downstream chain runs for a proxy.  Its state wraps, in an [Any], the
    client state of the proxy chain itself, and every operation is delegated
    to that state through the interface exported.ClientState ([I] below, which
    Dispatch.v instantiates).  client_state.go, consensus_state.go, store.go
    and update.go are modelled in full. *)
From S2P Require Import Prelude.
From S2P Require Import Lib.

Definition ProxyClientType : string := "proxyclient".

Section ProxyClient.
Context `{T : LibTypes, L : !Lib}.

(** ** consensus_state.go *)
Section Consensus.
Context `{CI : !ConsensusMethods ConsensusState}.

Definition NewConsensusState (consensusState : option AnyT) : ProxyConsS :=
  mkProxyConsS consensusState.

Definition Consensus_ClientType (cs : ProxyConsS) : outcome string := Ok ProxyClientType.

Definition GetProxyConsensusState (cs : ProxyConsS) : outcome ConsensusState :=
  must (UnpackConsensusState (pcons_ProxyConsensusState cs)).

(** [unpacker] is codectypes.AnyUnpacker at the type exported.ConsensusState. *)
Definition Consensus_UnpackInterfaces (unpacker : option AnyT -> outcome unit)
    (cs : ProxyConsS) : outcome unit :=
  unpacker (pcons_ProxyConsensusState cs).

Definition GetRoot (cs : ProxyConsS) : outcome Root :=
  let? inner := GetProxyConsensusState cs in cons_GetRoot inner.

Definition GetTimestamp (cs : ProxyConsS) : outcome N :=
  let? inner := GetProxyConsensusState cs in cons_GetTimestamp inner.

Definition Consensus_ValidateBasic (cs : ProxyConsS) : outcome unit :=
  let? inner := GetProxyConsensusState cs in cons_ValidateBasic inner.

#[global] Instance ProxyConsS_methods : ConsensusMethods ProxyConsS := {
  cons_ClientType := Consensus_ClientType;
  cons_GetRoot := GetRoot;
  cons_GetTimestamp := GetTimestamp;
  cons_ValidateBasic := Consensus_ValidateBasic
}.
End Consensus.

(** ** store.go *)
Definition GetConsensusState (store : KVStore) (height : Height) : M ExtState ProxyConsS :=
  let* bz := st_Get store (ConsensusStateKey height) in
  match bz with
  | None =>
      mfail (Wrapf (Sdk ErrConsensusStateNotFound)
               "consensus state does not exist for height %s" [])
  | Some bz =>
      let* consensusStateI :=
        mlift (omap_err (fun _ => Wrapf (Sdk ErrInvalidConsensus) "unmarshal error: %v" [])
                 (UnmarshalConsensusState bz)) in
      match consensusStateI with
      | ConsProxy consensusState => mret consensusState
      | _ => mfail (Wrapf (Sdk ErrInvalidConsensus) "invalid consensus type %T, expected %T" [])
      end
  end.

(** ** update.go: the extractor store *)

(** The expression ^consensusStates/\d+-\d+$ compiled from
    host.KeyConsensusStatePrefix, as a deterministic matcher. *)
Fixpoint skip_digits (s : string) : string :=
  match s with
  | String c s' => if is_digit c then skip_digits s' else s
  | EmptyString => EmptyString
  end.

(** [\d+]: at least one digit, then the rest *)
Definition digits1 (s : string) : option string :=
  match s with
  | String c s' => if is_digit c then Some (skip_digits s') else None
  | EmptyString => None
  end.

Fixpoint strip_prefix (p s : string) : option string :=
  match p, s with
  | EmptyString, _ => Some s
  | String a p', String b s' => if bool_decide (a = b) then strip_prefix p' s' else None
  | String _ _, EmptyString => None
  end.

Definition consensusStateKeyRegexp_Match (key : bytes) : bool :=
  match strip_prefix (KeyConsensusStatePrefix +:+ "/") key with
  | None => false
  | Some r =>
      match digits1 r with
      | Some (String c r') =>
          bool_decide (c = "-"%char) &&
          match digits1 r' with Some EmptyString => true | _ => false end
      | _ => false
      end
  end.

(** cs.( *ConsensusState) without the comma-ok form *)
Definition assert_ProxyConsensusState (cs : ConsensusState) : outcome ProxyConsS :=
  match cs with ConsProxy c => Ok c | _ => Panic PTypeAssertion end.

Definition proxyExtractorStore_Get (s : KVStore) (key : bytes) :
    M ExtState (option bytes) :=
  let* v := st_Get s key in
  if negb (consensusStateKeyRegexp_Match key) then mret v
  else match v with
       | None | Some EmptyString => mret v
       | Some bz =>
           let* cs := mlift (must (UnmarshalConsensusState bz)) in
           let* pcs := mlift (assert_ProxyConsensusState cs) in
           let* inner := mlift (GetProxyConsensusState pcs) in
           let* bz' := mlift (must (MarshalConsensusState inner)) in
           mret (Some bz')
       end.

(** The struct embeds the KVStore: every operation but Get is the inner one. *)
Definition NewProxyExtractorStore (store : KVStore) : KVStore :=
  {| st_Get := proxyExtractorStore_Get store;
     st_Has := st_Has store;
     st_Set := st_Set store;
     st_Delete := st_Delete store;
     st_Iterator := st_Iterator store |}.

(** ** client_state.go *)
Section Client.
Context `{I : !ClientMethods ClientState}.

Definition NewClientState (upstreamClientID : string) : ProxyCS :=
  mkProxyCS None upstreamClientID None None.

Definition IsInitialized (cs : ProxyCS) : bool :=
  match pcs_ProxyClientState cs with Some _ => true | None => false end.

Definition ClientType (cs : ProxyCS) : outcome string := Ok ProxyClientType.

Definition GetProxyClientState (cs : ProxyCS) : outcome ClientState :=
  must (UnpackClientState (pcs_ProxyClientState cs)).

Definition UnpackInterfaces (unpacker : option AnyT -> outcome unit) (cs : ProxyCS) :
    outcome unit :=
  unpacker (pcs_ProxyClientState cs).

Definition GetLatestHeight (cs : ProxyCS) : outcome Height :=
  match pcs_ProxyClientState cs with
  | None => Ok (mkHeight 0 0)
  | Some _ => let? inner := GetProxyClientState cs in cs_GetLatestHeight inner
  end.

Definition Status (cs : ProxyCS) (clientStore : KVStore) : M ExtState string :=
  let* inner := mlift (GetProxyClientState cs) in
  cs_Status inner (NewProxyExtractorStore clientStore).

Definition Validate (cs : ProxyCS) : outcome unit :=
  let? inner := GetProxyClientState cs in cs_Validate inner.

Definition GetProofSpecs (cs : ProxyCS) : outcome (list ProofSpec) :=
  let? inner := GetProxyClientState cs in cs_GetProofSpecs inner.

Definition Initialize (cs : ProxyCS) (clientStore : KVStore)
    (consState : option ConsensusState) : M ExtState unit :=
  match pcs_ProxyClientState cs, pcs_IbcPrefix cs, pcs_ProxyPrefix cs with
  | Some _, Some _, Some _ =>
      match consState with
      | None =>
          mfail (Wrap (Sdk ErrInvalidConsensus)
                   "each fields of the consensusState must be non-empty")
      | Some consState =>
          mlift (omap_err
                   (fun _ => Wrapf (Sdk ErrInvalidClient) "failed to unpack client state: %v" [])
                   (UnpackClientState (pcs_ProxyClientState cs))) ;;*
          match consState with
          | ConsProxy pcs =>
              mlift (omap_err
                       (fun _ => Wrapf (Sdk ErrInvalidConsensus)
                                   "failed to unpack client state: %v" [])
                       (UnpackConsensusState (pcons_ProxyConsensusState pcs))) ;;*
              mret tt
          | _ =>
              mfail (Wrapf (Sdk ErrInvalidConsensus)
                       "invalid initial consensus state. expected type: %T, got: %T" [])
          end
      end
  | _, _, _ =>
      mfail (Wrap (Sdk ErrInvalidClient) "each fields of the clientState must be non-empty")
  end.

Definition ExportMetadata (cs : ProxyCS) (store : KVStore) :
    M ExtState (list GenesisMetadata) :=
  let* inner := mlift (GetProxyClientState cs) in cs_ExportMetadata inner store.

Definition VerifyUpgradeAndUpdateState (cs : ProxyCS) (store : KVStore)
    (newClient : ClientState) (newConsState : ConsensusState)
    (proofUpgradeClient proofUpgradeConsState : bytes) :
    M ExtState (ClientState * ConsensusState) :=
  let* inner := mlift (GetProxyClientState cs) in
  cs_VerifyUpgradeAndUpdateState inner store newClient newConsState
    proofUpgradeClient proofUpgradeConsState.

Definition ZeroCustomFields (cs : ProxyCS) : outcome ClientState :=
  let? inner := GetProxyClientState cs in cs_ZeroCustomFields inner.

(** The verification functions for the IBC store of the proxy chain itself *)
Definition IBCVerifyClientState (cs : ProxyCS) (store : KVStore) (height : Height)
    (prefix : Prefix) (counterpartyClientIdentifier : string) (proof : bytes)
    (clientState : ClientState) : M ExtState unit :=
  let* inner := mlift (GetProxyClientState cs) in
  cs_VerifyClientState inner (NewProxyExtractorStore store) height prefix
    counterpartyClientIdentifier proof clientState.

Definition IBCVerifyClientConsensusState (cs : ProxyCS) (store : KVStore)
    (height : Height) (counterpartyClientIdentifier : string) (consensusHeight : Height)
    (prefix : Prefix) (proof : bytes) (consensusState : ConsensusState) :
    M ExtState unit :=
  let* inner := mlift (GetProxyClientState cs) in
  cs_VerifyClientConsensusState inner (NewProxyExtractorStore store) height
    counterpartyClientIdentifier consensusHeight prefix proof consensusState.

(** newPrefix(proxyPrefix, upstreamPrefix, upstreamClientID) *)
Definition newPrefix (proxyPrefix upstreamPrefix : Prefix) (upstreamClientID : string) :
    outcome Prefix :=
  let? b := Prefix_Bytes upstreamPrefix in
  Ok (MultiPfx proxyPrefix ((upstreamClientID +:+ "/") +:+ b)).

(** The prefix under which the proxy stores what it proxies for [cs]:
    newPrefix(cs.ProxyPrefix, prefix, cs.UpstreamClientId) *)
Definition proxied_prefix (cs : ProxyCS) (prefix : Prefix) : outcome Prefix :=
  newPrefix (MerklePfx (pcs_ProxyPrefix cs)) prefix (pcs_UpstreamClientId cs).

Definition VerifyClientState (cs : ProxyCS) (store : KVStore) (height : Height)
    (prefix : Prefix) (counterpartyClientIdentifier : string) (proof : bytes)
    (clientState : ClientState) : M ExtState unit :=
  let* inner := mlift (GetProxyClientState cs) in
  let* p := mlift (proxied_prefix cs prefix) in
  cs_VerifyClientState inner (NewProxyExtractorStore store) height p
    counterpartyClientIdentifier proof clientState.

Definition VerifyClientConsensusState (cs : ProxyCS) (store : KVStore) (height : Height)
    (counterpartyClientIdentifier : string) (consensusHeight : Height) (prefix : Prefix)
    (proof : bytes) (consensusState : ConsensusState) : M ExtState unit :=
  let* inner := mlift (GetProxyClientState cs) in
  let* p := mlift (proxied_prefix cs prefix) in
  cs_VerifyClientConsensusState inner (NewProxyExtractorStore store) height
    counterpartyClientIdentifier consensusHeight p proof consensusState.

Definition VerifyConnectionState (cs : ProxyCS) (store : KVStore) (height : Height)
    (prefix : Prefix) (proof : bytes) (connectionID : string)
    (connectionEnd : ConnectionEnd) : M ExtState unit :=
  let* inner := mlift (GetProxyClientState cs) in
  let* p := mlift (proxied_prefix cs prefix) in
  cs_VerifyConnectionState inner (NewProxyExtractorStore store) height p proof
    connectionID connectionEnd.

Definition VerifyChannelState (cs : ProxyCS) (store : KVStore) (height : Height)
    (prefix : Prefix) (proof : bytes) (portID channelID : string) (channel : Channel) :
    M ExtState unit :=
  let* inner := mlift (GetProxyClientState cs) in
  let* p := mlift (proxied_prefix cs prefix) in
  cs_VerifyChannelState inner (NewProxyExtractorStore store) height p proof
    portID channelID channel.

Definition VerifyPacketCommitment (cs : ProxyCS) (store : KVStore) (height : Height)
    (currentTimestamp delayPeriod : N) (prefix : Prefix) (proof : bytes)
    (portID channelID : string) (sequence : N) (commitmentBytes : bytes) :
    M ExtState unit :=
  let* inner := mlift (GetProxyClientState cs) in
  let* p := mlift (proxied_prefix cs prefix) in
  cs_VerifyPacketCommitment inner (NewProxyExtractorStore store) height
    currentTimestamp delayPeriod p proof portID channelID sequence commitmentBytes.

Definition VerifyPacketAcknowledgement (cs : ProxyCS) (store : KVStore)
    (height : Height) (currentTimestamp delayPeriod : N) (prefix : Prefix)
    (proof : bytes) (portID channelID : string) (sequence : N)
    (acknowledgement : bytes) : M ExtState unit :=
  let* inner := mlift (GetProxyClientState cs) in
  let* p := mlift (proxied_prefix cs prefix) in
  cs_VerifyPacketAcknowledgement inner (NewProxyExtractorStore store) height
    currentTimestamp delayPeriod p proof portID channelID sequence acknowledgement.

Definition VerifyPacketReceiptAbsence (cs : ProxyCS) (store : KVStore)
    (height : Height) (currentTimestamp delayPeriod : N) (prefix : Prefix)
    (proof : bytes) (portID channelID : string) (sequence : N) : M ExtState unit :=
  let* inner := mlift (GetProxyClientState cs) in
  let* p := mlift (proxied_prefix cs prefix) in
  cs_VerifyPacketReceiptAbsence inner (NewProxyExtractorStore store) height
    currentTimestamp delayPeriod p proof portID channelID sequence.

Definition VerifyNextSequenceRecv (cs : ProxyCS) (store : KVStore) (height : Height)
    (currentTimestamp delayPeriod : N) (prefix : Prefix) (proof : bytes)
    (portID channelID : string) (nextSequenceRecv : N) : M ExtState unit :=
  let* inner := mlift (GetProxyClientState cs) in
  let* p := mlift (proxied_prefix cs prefix) in
  cs_VerifyNextSequenceRecv inner (NewProxyExtractorStore store) height
    currentTimestamp delayPeriod p proof portID channelID nextSequenceRecv.

(** ** update.go: updates *)

Definition set_ProxyClientState (cs : ProxyCS) (any : AnyT) : ProxyCS :=
  mkProxyCS (Some any) (pcs_UpstreamClientId cs) (pcs_ProxyPrefix cs) (pcs_IbcPrefix cs).

Definition CheckHeaderAndUpdateState (cs : ProxyCS) (clientStore : KVStore)
    (header : Header) : M ExtState (ClientState * ConsensusState) :=
  let* inner := mlift (GetProxyClientState cs) in
  let* (clientState, consensusState) :=
    cs_CheckHeaderAndUpdateState inner (NewProxyExtractorStore clientStore) header in
  let* anyClientState := mlift (PackClientState (Some clientState)) in
  let* anyConsensusState := mlift (PackConsensusState (Some consensusState)) in
  mret (CSProxy (set_ProxyClientState cs anyClientState),
        ConsProxy (mkProxyConsS (Some anyConsensusState))).

(** The pointer receiver is updated in place and returned: the value returned
    is also the receiver's new value. *)
Definition CheckMisbehaviourAndUpdateState (cs : ProxyCS) (store : KVStore)
    (misbehaviour : Misbehaviour) : M ExtState ClientState :=
  let* inner := mlift (GetProxyClientState cs) in
  let* clientState := cs_CheckMisbehaviourAndUpdateState inner store misbehaviour in
  let* anyClientState := mlift (PackClientState (Some clientState)) in
  mret (CSProxy (set_ProxyClientState cs anyClientState)).

(** The error of the inner call is overwritten before it is read. *)
Definition CheckSubstituteAndUpdateState (cs : ProxyCS)
    (subjectClientStore substituteClientStore : KVStore) (substituteClient : ClientState) :
    M ExtState (option ClientState * option error) :=
  let* inner := mlift (GetProxyClientState cs) in
  let* (clientState, _) :=
    cs_CheckSubstituteAndUpdateState inner subjectClientStore substituteClientStore
      substituteClient in
  match PackClientState clientState with
  | Ok anyClientState => mret (Some (CSProxy (set_ProxyClientState cs anyClientState)), None)
  | Err e => mret (None, Some e)
  | Panic p => mpanic p
  end.

#[global] Instance ProxyCS_methods : ClientMethods ProxyCS := {
  cs_ClientType := ClientType;
  cs_GetLatestHeight := GetLatestHeight;
  cs_Status := Status;
  cs_Validate := Validate;
  cs_GetProofSpecs := GetProofSpecs;
  cs_Initialize := Initialize;
  cs_ExportMetadata := ExportMetadata;
  cs_VerifyUpgradeAndUpdateState := VerifyUpgradeAndUpdateState;
  cs_ZeroCustomFields := ZeroCustomFields;
  cs_CheckHeaderAndUpdateState := CheckHeaderAndUpdateState;
  cs_CheckMisbehaviourAndUpdateState := CheckMisbehaviourAndUpdateState;
  cs_CheckSubstituteAndUpdateState := CheckSubstituteAndUpdateState;
  cs_VerifyClientState := VerifyClientState;
  cs_VerifyClientConsensusState := VerifyClientConsensusState;
  cs_VerifyConnectionState := VerifyConnectionState;
  cs_VerifyChannelState := VerifyChannelState;
  cs_VerifyPacketCommitment := VerifyPacketCommitment;
  cs_VerifyPacketAcknowledgement := VerifyPacketAcknowledgement;
  cs_VerifyPacketReceiptAbsence := VerifyPacketReceiptAbsence;
  cs_VerifyNextSequenceRecv := VerifyNextSequenceRecv
}.

End Client.
End ProxyClient.
