(* ===== verification/Multiv.v ===== *)
(** The multi-stage verification client, modules/light-clients/xx-multiv/types:
    a wrapper around a light client that verifies a client or consensus state
    through a chain of proxies, described by a [MultiProof] (head, branches,
    leaf).  client_state.go, update.go and commitment.go are modelled in full.
    The abstract contract is the relation [proxy_chain] of MultivSpec.v: every
    link of the chain is a client and consensus state verified under the previous
    one. *)
From S2P Require Import Prelude.
From S2P Require Import Lib.
From S2P Require ProxyClient.

Section Multiv.
Context `{T : LibTypes, L : !Lib}.

(** ** commitment.go *)

Definition MultiProof_VerifyMembership (p : MultiProof) : outcome unit :=
  Panic (PNotImplemented "not implemented").

Definition MultiProof_VerifyNonMembership (p : MultiProof) : outcome unit :=
  Panic (PNotImplemented "not implemented").

Definition MultiProof_Empty (p : MultiProof) : bool := false.

Definition MultiProof_ValidateBasic (p : MultiProof) : outcome unit := Ok tt.

Definition unmarshalProof (bz : bytes) : outcome MultiProof :=
  let? proof := cdc_UnmarshalProof bz in
  match proof with
  | Some (PfMulti mp) => Ok mp
  | _ => Err (Errorf "expected '%T', but got '%T'" [])
  end.

(** ** client_state.go: helpers *)

Definition validateProof (cs : MultivCS) (proof : MultiProof) : outcome unit :=
  if negb (N.of_nat (length (Branches proof)) =? mcs_Depth cs)%N
  then Err (Errorf "invalid branches length: expected=%v got=%v" [])
  else Ok tt.

Definition makeMemStore (consensusState : ConsensusState) (proofHeight : Height) :
    M ExtState KVStore :=
  let* consensusStateBytes := mlift (must (MarshalConsensusState consensusState)) in
  let* store := NewMemStore in
  st_Set store (ConsensusStateKey proofHeight) consensusStateBytes ;;*
  mret store.

Definition unpackProxyClientState (anyClientState : option AnyT) : outcome ProxyCS :=
  let? clientState := cdc_UnpackAnyClientState anyClientState in
  match clientState with
  | Some (CSProxy s) => Ok s
  | _ => Err (Errorf "clientState must be %T, but got %T" [])
  end.

Definition unpackProxyConsensusState (anyConsensusState : option AnyT) :
    outcome ProxyConsS :=
  let? consensusState := cdc_UnpackAnyConsensusState anyConsensusState in
  match consensusState with
  | Some (ConsProxy s) => Ok s
  | _ => Err (Errorf "consensusState must be %T, but got %T" [])
  end.

Section Client.
Context `{I : !ClientMethods ClientState}.

(** [NewClientState] panics when the state cannot be packed. *)
Definition NewClientState (clientState : ClientState) (depth : N) : outcome MultivCS :=
  let? any := must (PackClientState (Some clientState)) in
  Ok (mkMultivCS (Some any) depth).

Definition GetUnderlyingClientState (cs : MultivCS) : outcome ClientState :=
  must (UnpackClientState (mcs_UnderlyingClientState cs)).

Definition ClientType (cs : MultivCS) : outcome string :=
  let? inner := GetUnderlyingClientState cs in cs_ClientType inner.

Definition UnpackInterfaces (unpacker : option AnyT -> outcome unit) (cs : MultivCS) :
    outcome unit :=
  unpacker (mcs_UnderlyingClientState cs).

Definition GetLatestHeight (cs : MultivCS) : outcome Height :=
  let? inner := GetUnderlyingClientState cs in cs_GetLatestHeight inner.

Definition Status (cs : MultivCS) (clientStore : KVStore) : M ExtState string :=
  let* inner := mlift (GetUnderlyingClientState cs) in cs_Status inner clientStore.

Definition Validate (cs : MultivCS) : outcome unit :=
  match mcs_UnderlyingClientState cs with
  | None => Err (ErrorNew "Base cannot be nil")
  | Some _ => let? inner := GetUnderlyingClientState cs in cs_Validate inner
  end.

Definition GetProofSpecs (cs : MultivCS) : outcome (list ProofSpec) :=
  let? inner := GetUnderlyingClientState cs in cs_GetProofSpecs inner.

Definition Initialize (cs : MultivCS) (clientStore : KVStore)
    (consState : option ConsensusState) : M ExtState unit :=
  match mcs_UnderlyingClientState cs, consState with
  | None, _ =>
      mfail (Wrap (ErrorNew "invalid clientState")
               "the base of a clientState must not be empty")
  | Some _, None =>
      mfail (Wrap (ErrorNew "invalid consensusState") "consensusState must not be empty")
  | Some _, Some _ => mret tt
  end.

Definition ExportMetadata (cs : MultivCS) (store : KVStore) :
    M ExtState (list GenesisMetadata) :=
  let* inner := mlift (GetUnderlyingClientState cs) in cs_ExportMetadata inner store.

Definition VerifyUpgradeAndUpdateState (cs : MultivCS) (store : KVStore)
    (newClient : ClientState) (newConsState : ConsensusState)
    (proofUpgradeClient proofUpgradeConsState : bytes) :
    M ExtState (ClientState * ConsensusState) :=
  let* inner := mlift (GetUnderlyingClientState cs) in
  cs_VerifyUpgradeAndUpdateState inner store newClient newConsState
    proofUpgradeClient proofUpgradeConsState.

Definition set_UnderlyingClientState (cs : MultivCS) (any : AnyT) : MultivCS :=
  mkMultivCS (Some any) (mcs_Depth cs).

Definition ZeroCustomFields (cs : MultivCS) : outcome ClientState :=
  let? inner := GetUnderlyingClientState cs in
  let? zeroed := cs_ZeroCustomFields inner in
  let? any := must (PackClientState (Some zeroed)) in
  Ok (CSMultiv (set_UnderlyingClientState cs any)).

(** ** client_state.go: multi-stage verification *)

(** One turn of the loop "step2. verify state recursively": the states of
    [branch] are verified under the current proxy state. *)
Definition verifyBranch (proxyClientState : ProxyCS) (proxyConsensusState : ProxyConsS)
    (branch : Proof) : M ExtState (ProxyCS * ProxyConsS) :=
  let* targetClientState := mlift (unpackProxyClientState (Proof_ClientState branch)) in
  let* targetConsensusState :=
    mlift (unpackProxyConsensusState (Proof_ConsensusState branch)) in
  let* store := makeMemStore (ConsProxy proxyConsensusState) (ProofHeight branch) in
  ProxyClient.IBCVerifyClientState proxyClientState store (ProofHeight branch)
    (MerklePfx (pcs_IbcPrefix proxyClientState)) (pcs_UpstreamClientId proxyClientState)
    (ClientProof branch) (CSProxy targetClientState) ;;*
  ProxyClient.IBCVerifyClientConsensusState proxyClientState store (ProofHeight branch)
    (pcs_UpstreamClientId proxyClientState) (ConsensusHeight branch)
    (MerklePfx (pcs_IbcPrefix proxyClientState)) (ConsensusProof branch)
    (ConsProxy targetConsensusState) ;;*
  mret (targetClientState, targetConsensusState).

Fixpoint verifyBranches (proxyClientState : ProxyCS) (proxyConsensusState : ProxyConsS)
    (branches : list Proof) : M ExtState (ProxyCS * ProxyConsS) :=
  match branches with
  | [] => mret (proxyClientState, proxyConsensusState)
  | branch :: branches' =>
      let* (targetClientState, targetConsensusState) :=
        verifyBranch proxyClientState proxyConsensusState branch in
      verifyBranches targetClientState targetConsensusState branches'
  end.

Definition verifyProxyState (cs : MultivCS) (store : KVStore) (height : Height)
    (prefix : Prefix) (counterpartyClientIdentifier : string) (proof : MultiProof) :
    M ExtState (ProxyCS * ProxyConsS) :=
  mlift (validateProof cs proof) ;;*
  (if negb (Height_EQ (ProofHeight (Head proof)) height)
   then mfail (Errorf "first proof's height must be %v, but got %v" [])
   else mret tt) ;;*
  let* proxyClientState := mlift (unpackProxyClientState (Proof_ClientState (Head proof))) in
  let* underlying := mlift (GetUnderlyingClientState cs) in
  cs_VerifyClientState underlying store height prefix counterpartyClientIdentifier
    (ClientProof (Head proof)) (CSProxy proxyClientState) ;;*
  let* proxyConsensusState :=
    mlift (unpackProxyConsensusState (Proof_ConsensusState (Head proof))) in
  let* underlying := mlift (GetUnderlyingClientState cs) in
  cs_VerifyClientConsensusState underlying store height counterpartyClientIdentifier
    (ConsensusHeight (Head proof)) prefix (ConsensusProof (Head proof))
    (ConsProxy proxyConsensusState) ;;*
  verifyBranches proxyClientState proxyConsensusState (Branches proof).

Definition VerifyClientState (cs : MultivCS) (store : KVStore) (height : Height)
    (prefix : Prefix) (counterpartyClientIdentifier : string) (proofBytes : bytes)
    (clientState : ClientState) : M ExtState unit :=
  let* proof := mlift (unmarshalProof proofBytes) in
  let* (proxyClientState, proxyConsensusState) :=
    verifyProxyState cs store height prefix counterpartyClientIdentifier proof in
  let* store := makeMemStore (ConsProxy proxyConsensusState) (Leaf_ProofHeight (Leaf proof)) in
  ProxyClient.IBCVerifyClientState proxyClientState store (Leaf_ProofHeight (Leaf proof))
    (MerklePfx (pcs_IbcPrefix proxyClientState)) (pcs_UpstreamClientId proxyClientState)
    (Leaf_Proof (Leaf proof)) clientState.

Definition VerifyClientConsensusState (cs : MultivCS) (store : KVStore) (height : Height)
    (counterpartyClientIdentifier : string) (consensusHeight : Height) (prefix : Prefix)
    (proofBytes : bytes) (consensusState : ConsensusState) : M ExtState unit :=
  let* proof := mlift (unmarshalProof proofBytes) in
  let* (proxyClientState, proxyConsensusState) :=
    verifyProxyState cs store height prefix counterpartyClientIdentifier proof in
  let* store := makeMemStore (ConsProxy proxyConsensusState) (Leaf_ProofHeight (Leaf proof)) in
  ProxyClient.IBCVerifyClientConsensusState proxyClientState store
    (Leaf_ProofHeight (Leaf proof)) (pcs_UpstreamClientId proxyClientState) consensusHeight
    (MerklePfx (pcs_IbcPrefix proxyClientState)) (Leaf_Proof (Leaf proof)) consensusState.

Definition VerifyConnectionState (cs : MultivCS) (store : KVStore) (height : Height)
    (prefix : Prefix) (proof : bytes) (connectionID : string)
    (connectionEnd : ConnectionEnd) :
    M ExtState unit :=
  let* inner := mlift (GetUnderlyingClientState cs) in
  cs_VerifyConnectionState inner store height prefix proof connectionID connectionEnd.

Definition VerifyChannelState (cs : MultivCS) (store : KVStore) (height : Height)
    (prefix : Prefix) (proof : bytes) (portID channelID : string) (channel : Channel) :
    M ExtState unit :=
  let* inner := mlift (GetUnderlyingClientState cs) in
  cs_VerifyChannelState inner store height prefix proof portID channelID channel.

Definition VerifyPacketCommitment (cs : MultivCS) (store : KVStore) (height : Height)
    (currentTimestamp delayPeriod : N) (prefix : Prefix) (proof : bytes)
    (portID channelID : string) (sequence : N) (commitmentBytes : bytes) :
    M ExtState unit :=
  let* inner := mlift (GetUnderlyingClientState cs) in
  cs_VerifyPacketCommitment inner store height currentTimestamp delayPeriod prefix proof
    portID channelID sequence commitmentBytes.

Definition VerifyPacketAcknowledgement (cs : MultivCS) (store : KVStore) (height : Height)
    (currentTimestamp delayPeriod : N) (prefix : Prefix) (proof : bytes)
    (portID channelID : string) (sequence : N) (acknowledgement : bytes) :
    M ExtState unit :=
  let* inner := mlift (GetUnderlyingClientState cs) in
  cs_VerifyPacketAcknowledgement inner store height currentTimestamp delayPeriod prefix proof
    portID channelID sequence acknowledgement.

Definition VerifyPacketReceiptAbsence (cs : MultivCS) (store : KVStore) (height : Height)
    (currentTimestamp delayPeriod : N) (prefix : Prefix) (proof : bytes)
    (portID channelID : string) (sequence : N) :
    M ExtState unit :=
  let* inner := mlift (GetUnderlyingClientState cs) in
  cs_VerifyPacketReceiptAbsence inner store height currentTimestamp delayPeriod prefix proof
    portID channelID sequence.

Definition VerifyNextSequenceRecv (cs : MultivCS) (store : KVStore) (height : Height)
    (currentTimestamp delayPeriod : N) (prefix : Prefix) (proof : bytes)
    (portID channelID : string) (nextSequenceRecv : N) :
    M ExtState unit :=
  let* inner := mlift (GetUnderlyingClientState cs) in
  cs_VerifyNextSequenceRecv inner store height currentTimestamp delayPeriod prefix proof
    portID channelID nextSequenceRecv.

(** ** update.go *)

Definition CheckHeaderAndUpdateState (cs : MultivCS) (clientStore : KVStore)
    (header : Header) : M ExtState (ClientState * ConsensusState) :=
  let* inner := mlift (GetUnderlyingClientState cs) in
  let* (clientState, consensusState) :=
    cs_CheckHeaderAndUpdateState inner clientStore header in
  let* anyClientState := mlift (PackClientState (Some clientState)) in
  mret (CSMultiv (set_UnderlyingClientState cs anyClientState), consensusState).

Definition CheckMisbehaviourAndUpdateState (cs : MultivCS) (store : KVStore)
    (misbehaviour : Misbehaviour) : M ExtState ClientState :=
  let* inner := mlift (GetUnderlyingClientState cs) in
  let* clientState := cs_CheckMisbehaviourAndUpdateState inner store misbehaviour in
  let* anyClientState := mlift (PackClientState (Some clientState)) in
  mret (CSMultiv (set_UnderlyingClientState cs anyClientState)).

(** The error of the inner call is overwritten before it is read. *)
Definition CheckSubstituteAndUpdateState (cs : MultivCS)
    (subjectClientStore substituteClientStore : KVStore) (substituteClient : ClientState) :
    M ExtState (option ClientState * option error) :=
  let* inner := mlift (GetUnderlyingClientState cs) in
  let* (clientState, _) :=
    cs_CheckSubstituteAndUpdateState inner subjectClientStore substituteClientStore
      substituteClient in
  match PackClientState clientState with
  | Ok anyClientState =>
      mret (Some (CSMultiv (set_UnderlyingClientState cs anyClientState)), None)
  | Err e => mret (None, Some e)
  | Panic p => mpanic p
  end.

#[global] Instance MultivCS_methods : ClientMethods MultivCS := {
  cs_ClientType := ClientType;
  cs_GetLatestHeight := GetLatestHeight;
  cs_Status := Status;
  cs_Validate := Validate;
  cs_GetProofSpecs := GetProofSpecs;
  cs_Initialize := Initialize;
  cs_ExportMetadata := ExportMetadata;
  cs_VerifyUpgradeAndUpdateState := VerifyUpgradeAndUpdateState;
  cs_ZeroCustomFields := ZeroCustomFields;
  cs_CheckHeaderAndUpdateState := CheckHeaderAndUpdateState;
  cs_CheckMisbehaviourAndUpdateState := CheckMisbehaviourAndUpdateState;
  cs_CheckSubstituteAndUpdateState := CheckSubstituteAndUpdateState;
  cs_VerifyClientState := VerifyClientState;
  cs_VerifyClientConsensusState := VerifyClientConsensusState;
  cs_VerifyConnectionState := VerifyConnectionState;
  cs_VerifyChannelState := VerifyChannelState;
  cs_VerifyPacketCommitment := VerifyPacketCommitment;
  cs_VerifyPacketAcknowledgement := VerifyPacketAcknowledgement;
  cs_VerifyPacketReceiptAbsence := VerifyPacketReceiptAbsence;
  cs_VerifyNextSequenceRecv := VerifyNextSequenceRecv
}.

End Client.
End Multiv.
