(* ===== verification/Dispatch.v ===== *)
(** Dynamic dispatch of the interface exported.ClientState.

    The repository's two clients are written against the interface and call it
    on the client states they wrap, which may again be theirs.  [dispatch_on]
    is one level of the method tables: given the interface [I] the wrapped
    states are used through, it is the interface of the wrappers themselves.
    [dispatch] iterates it; its argument bounds the depth of nested calls, and
    running out of it is [Panic PStackOverflow].  [dispatch_mono] says that a
    result obtained with some depth is obtained with any larger one, and
    [dispatch_terminates] that no method of the interface, called on a client
    state with [n] nested wrappers, goes deeper than [n] levels of calls. *)
From S2P Require Import Prelude.
From S2P Require Import Lib.
From S2P Require ProxyClient Multiv.
From S2P Require Import RefLib.

Section Dispatch.
Context `{T : LibTypes, L : !Lib}.

(** The consensus states: two kinds, one of them ours. *)
Definition dispatch_consensus_on (X : ConsensusMethods ExtConsensusState)
    (I : ConsensusMethods ConsensusState) : ConsensusMethods ConsensusState := {|
  cons_ClientType c := match c with
    | ConsProxy p => ProxyClient.Consensus_ClientType p
    | ConsExt e => cons_ClientType e
    end;
  cons_GetRoot c := match c with
    | ConsProxy p => ProxyClient.GetRoot p
    | ConsExt e => cons_GetRoot e
    end;
  cons_GetTimestamp c := match c with
    | ConsProxy p => ProxyClient.GetTimestamp p
    | ConsExt e => cons_GetTimestamp e
    end;
  cons_ValidateBasic c := match c with
    | ConsProxy p => ProxyClient.Consensus_ValidateBasic p
    | ConsExt e => cons_ValidateBasic e
    end
|}.

Definition stuck : ClientMethods ClientState := {|
  cs_ClientType _ := Panic PStackOverflow;
  cs_GetLatestHeight _ := Panic PStackOverflow;
  cs_Status _ _ := mpanic PStackOverflow;
  cs_Validate _ := Panic PStackOverflow;
  cs_GetProofSpecs _ := Panic PStackOverflow;
  cs_Initialize _ _ _ := mpanic PStackOverflow;
  cs_ExportMetadata _ _ := mpanic PStackOverflow;
  cs_VerifyUpgradeAndUpdateState _ _ _ _ _ _ := mpanic PStackOverflow;
  cs_ZeroCustomFields _ := Panic PStackOverflow;
  cs_CheckHeaderAndUpdateState _ _ _ := mpanic PStackOverflow;
  cs_CheckMisbehaviourAndUpdateState _ _ _ := mpanic PStackOverflow;
  cs_CheckSubstituteAndUpdateState _ _ _ _ := mpanic PStackOverflow;
  cs_VerifyClientState _ _ _ _ _ _ _ := mpanic PStackOverflow;
  cs_VerifyClientConsensusState _ _ _ _ _ _ _ _ := mpanic PStackOverflow;
  cs_VerifyConnectionState _ _ _ _ _ _ _ := mpanic PStackOverflow;
  cs_VerifyChannelState _ _ _ _ _ _ _ _ := mpanic PStackOverflow;
  cs_VerifyPacketCommitment _ _ _ _ _ _ _ _ _ _ _ := mpanic PStackOverflow;
  cs_VerifyPacketAcknowledgement _ _ _ _ _ _ _ _ _ _ _ := mpanic PStackOverflow;
  cs_VerifyPacketReceiptAbsence _ _ _ _ _ _ _ _ _ _ := mpanic PStackOverflow;
  cs_VerifyNextSequenceRecv _ _ _ _ _ _ _ _ _ _ := mpanic PStackOverflow
|}.

Context (X : ClientMethods ExtClientState).

Definition dispatch_on (I : ClientMethods ClientState) : ClientMethods ClientState := {|
  cs_ClientType c := match c with
    | CSProxy p => ProxyClient.ClientType p
    | CSMultiv p => Multiv.ClientType p
    | CSExt e => cs_ClientType e
    end;
  cs_GetLatestHeight c := match c with
    | CSProxy p => ProxyClient.GetLatestHeight p
    | CSMultiv p => Multiv.GetLatestHeight p
    | CSExt e => cs_GetLatestHeight e
    end;
  cs_Status c x0 := match c with
    | CSProxy p => ProxyClient.Status p x0
    | CSMultiv p => Multiv.Status p x0
    | CSExt e => cs_Status e x0
    end;
  cs_Validate c := match c with
    | CSProxy p => ProxyClient.Validate p
    | CSMultiv p => Multiv.Validate p
    | CSExt e => cs_Validate e
    end;
  cs_GetProofSpecs c := match c with
    | CSProxy p => ProxyClient.GetProofSpecs p
    | CSMultiv p => Multiv.GetProofSpecs p
    | CSExt e => cs_GetProofSpecs e
    end;
  cs_Initialize c x0 x1 := match c with
    | CSProxy p => ProxyClient.Initialize p x0 x1
    | CSMultiv p => Multiv.Initialize p x0 x1
    | CSExt e => cs_Initialize e x0 x1
    end;
  cs_ExportMetadata c x0 := match c with
    | CSProxy p => ProxyClient.ExportMetadata p x0
    | CSMultiv p => Multiv.ExportMetadata p x0
    | CSExt e => cs_ExportMetadata e x0
    end;
  cs_VerifyUpgradeAndUpdateState c x0 x1 x2 x3 x4 := match c with
    | CSProxy p => ProxyClient.VerifyUpgradeAndUpdateState p x0 x1 x2 x3 x4
    | CSMultiv p => Multiv.VerifyUpgradeAndUpdateState p x0 x1 x2 x3 x4
    | CSExt e => cs_VerifyUpgradeAndUpdateState e x0 x1 x2 x3 x4
    end;
  cs_ZeroCustomFields c := match c with
    | CSProxy p => ProxyClient.ZeroCustomFields p
    | CSMultiv p => Multiv.ZeroCustomFields p
    | CSExt e => cs_ZeroCustomFields e
    end;
  cs_CheckHeaderAndUpdateState c x0 x1 := match c with
    | CSProxy p => ProxyClient.CheckHeaderAndUpdateState p x0 x1
    | CSMultiv p => Multiv.CheckHeaderAndUpdateState p x0 x1
    | CSExt e => cs_CheckHeaderAndUpdateState e x0 x1
    end;
  cs_CheckMisbehaviourAndUpdateState c x0 x1 := match c with
    | CSProxy p => ProxyClient.CheckMisbehaviourAndUpdateState p x0 x1
    | CSMultiv p => Multiv.CheckMisbehaviourAndUpdateState p x0 x1
    | CSExt e => cs_CheckMisbehaviourAndUpdateState e x0 x1
    end;
  cs_CheckSubstituteAndUpdateState c x0 x1 x2 := match c with
    | CSProxy p => ProxyClient.CheckSubstituteAndUpdateState p x0 x1 x2
    | CSMultiv p => Multiv.CheckSubstituteAndUpdateState p x0 x1 x2
    | CSExt e => cs_CheckSubstituteAndUpdateState e x0 x1 x2
    end;
  cs_VerifyClientState c x0 x1 x2 x3 x4 x5 := match c with
    | CSProxy p => ProxyClient.VerifyClientState p x0 x1 x2 x3 x4 x5
    | CSMultiv p => Multiv.VerifyClientState p x0 x1 x2 x3 x4 x5
    | CSExt e => cs_VerifyClientState e x0 x1 x2 x3 x4 x5
    end;
  cs_VerifyClientConsensusState c x0 x1 x2 x3 x4 x5 x6 := match c with
    | CSProxy p => ProxyClient.VerifyClientConsensusState p x0 x1 x2 x3 x4 x5 x6
    | CSMultiv p => Multiv.VerifyClientConsensusState p x0 x1 x2 x3 x4 x5 x6
    | CSExt e => cs_VerifyClientConsensusState e x0 x1 x2 x3 x4 x5 x6
    end;
  cs_VerifyConnectionState c x0 x1 x2 x3 x4 x5 := match c with
    | CSProxy p => ProxyClient.VerifyConnectionState p x0 x1 x2 x3 x4 x5
    | CSMultiv p => Multiv.VerifyConnectionState p x0 x1 x2 x3 x4 x5
    | CSExt e => cs_VerifyConnectionState e x0 x1 x2 x3 x4 x5
    end;
  cs_VerifyChannelState c x0 x1 x2 x3 x4 x5 x6 := match c with
    | CSProxy p => ProxyClient.VerifyChannelState p x0 x1 x2 x3 x4 x5 x6
    | CSMultiv p => Multiv.VerifyChannelState p x0 x1 x2 x3 x4 x5 x6
    | CSExt e => cs_VerifyChannelState e x0 x1 x2 x3 x4 x5 x6
    end;
  cs_VerifyPacketCommitment c x0 x1 x2 x3 x4 x5 x6 x7 x8 x9 := match c with
    | CSProxy p => ProxyClient.VerifyPacketCommitment p x0 x1 x2 x3 x4 x5 x6 x7 x8 x9
    | CSMultiv p => Multiv.VerifyPacketCommitment p x0 x1 x2 x3 x4 x5 x6 x7 x8 x9
    | CSExt e => cs_VerifyPacketCommitment e x0 x1 x2 x3 x4 x5 x6 x7 x8 x9
    end;
  cs_VerifyPacketAcknowledgement c x0 x1 x2 x3 x4 x5 x6 x7 x8 x9 := match c with
    | CSProxy p => ProxyClient.VerifyPacketAcknowledgement p x0 x1 x2 x3 x4 x5 x6 x7 x8 x9
    | CSMultiv p => Multiv.VerifyPacketAcknowledgement p x0 x1 x2 x3 x4 x5 x6 x7 x8 x9
    | CSExt e => cs_VerifyPacketAcknowledgement e x0 x1 x2 x3 x4 x5 x6 x7 x8 x9
    end;
  cs_VerifyPacketReceiptAbsence c x0 x1 x2 x3 x4 x5 x6 x7 x8 := match c with
    | CSProxy p => ProxyClient.VerifyPacketReceiptAbsence p x0 x1 x2 x3 x4 x5 x6 x7 x8
    | CSMultiv p => Multiv.VerifyPacketReceiptAbsence p x0 x1 x2 x3 x4 x5 x6 x7 x8
    | CSExt e => cs_VerifyPacketReceiptAbsence e x0 x1 x2 x3 x4 x5 x6 x7 x8
    end;
  cs_VerifyNextSequenceRecv c x0 x1 x2 x3 x4 x5 x6 x7 x8 := match c with
    | CSProxy p => ProxyClient.VerifyNextSequenceRecv p x0 x1 x2 x3 x4 x5 x6 x7 x8
    | CSMultiv p => Multiv.VerifyNextSequenceRecv p x0 x1 x2 x3 x4 x5 x6 x7 x8
    | CSExt e => cs_VerifyNextSequenceRecv e x0 x1 x2 x3 x4 x5 x6 x7 x8
    end
|}.

(** [depth] levels of the method tables above the methods [bottom] *)
Fixpoint dispatch_from (bottom : ClientMethods ClientState) (depth : nat) :
    ClientMethods ClientState :=
  match depth with
  | O => bottom
  | S depth => dispatch_on (dispatch_from bottom depth)
  end.

Definition dispatch (depth : nat) : ClientMethods ClientState := dispatch_from stuck depth.

(** ** More depth never changes a result *)

(** [o] is [o'], unless it ran out of depth. *)
Definition oapprox {A} (o o' : outcome A) : Prop := o = Panic PStackOverflow \/ o = o'.

Definition mapprox {A} (m m' : M ExtState A) : Prop :=
  forall s, (m s).1 = Panic PStackOverflow \/ m s = m' s.

Record methods_approx (I I' : ClientMethods ClientState) : Prop := {
  approx_ClientType c :
    oapprox (@cs_ClientType _ _ I c) (@cs_ClientType _ _ I' c);
  approx_GetLatestHeight c :
    oapprox (@cs_GetLatestHeight _ _ I c) (@cs_GetLatestHeight _ _ I' c);
  approx_Status c x0 :
    mapprox (@cs_Status _ _ I c x0) (@cs_Status _ _ I' c x0);
  approx_Validate c :
    oapprox (@cs_Validate _ _ I c) (@cs_Validate _ _ I' c);
  approx_GetProofSpecs c :
    oapprox (@cs_GetProofSpecs _ _ I c) (@cs_GetProofSpecs _ _ I' c);
  approx_Initialize c x0 x1 :
    mapprox (@cs_Initialize _ _ I c x0 x1) (@cs_Initialize _ _ I' c x0 x1);
  approx_ExportMetadata c x0 :
    mapprox (@cs_ExportMetadata _ _ I c x0) (@cs_ExportMetadata _ _ I' c x0);
  approx_VerifyUpgradeAndUpdateState c x0 x1 x2 x3 x4 :
    mapprox (@cs_VerifyUpgradeAndUpdateState _ _ I c x0 x1 x2 x3 x4) (@cs_VerifyUpgradeAndUpdateState _ _ I' c x0 x1 x2 x3 x4);
  approx_ZeroCustomFields c :
    oapprox (@cs_ZeroCustomFields _ _ I c) (@cs_ZeroCustomFields _ _ I' c);
  approx_CheckHeaderAndUpdateState c x0 x1 :
    mapprox (@cs_CheckHeaderAndUpdateState _ _ I c x0 x1) (@cs_CheckHeaderAndUpdateState _ _ I' c x0 x1);
  approx_CheckMisbehaviourAndUpdateState c x0 x1 :
    mapprox (@cs_CheckMisbehaviourAndUpdateState _ _ I c x0 x1) (@cs_CheckMisbehaviourAndUpdateState _ _ I' c x0 x1);
  approx_CheckSubstituteAndUpdateState c x0 x1 x2 :
    mapprox (@cs_CheckSubstituteAndUpdateState _ _ I c x0 x1 x2) (@cs_CheckSubstituteAndUpdateState _ _ I' c x0 x1 x2);
  approx_VerifyClientState c x0 x1 x2 x3 x4 x5 :
    mapprox (@cs_VerifyClientState _ _ I c x0 x1 x2 x3 x4 x5) (@cs_VerifyClientState _ _ I' c x0 x1 x2 x3 x4 x5);
  approx_VerifyClientConsensusState c x0 x1 x2 x3 x4 x5 x6 :
    mapprox (@cs_VerifyClientConsensusState _ _ I c x0 x1 x2 x3 x4 x5 x6) (@cs_VerifyClientConsensusState _ _ I' c x0 x1 x2 x3 x4 x5 x6);
  approx_VerifyConnectionState c x0 x1 x2 x3 x4 x5 :
    mapprox (@cs_VerifyConnectionState _ _ I c x0 x1 x2 x3 x4 x5) (@cs_VerifyConnectionState _ _ I' c x0 x1 x2 x3 x4 x5);
  approx_VerifyChannelState c x0 x1 x2 x3 x4 x5 x6 :
    mapprox (@cs_VerifyChannelState _ _ I c x0 x1 x2 x3 x4 x5 x6) (@cs_VerifyChannelState _ _ I' c x0 x1 x2 x3 x4 x5 x6);
  approx_VerifyPacketCommitment c x0 x1 x2 x3 x4 x5 x6 x7 x8 x9 :
    mapprox (@cs_VerifyPacketCommitment _ _ I c x0 x1 x2 x3 x4 x5 x6 x7 x8 x9) (@cs_VerifyPacketCommitment _ _ I' c x0 x1 x2 x3 x4 x5 x6 x7 x8 x9);
  approx_VerifyPacketAcknowledgement c x0 x1 x2 x3 x4 x5 x6 x7 x8 x9 :
    mapprox (@cs_VerifyPacketAcknowledgement _ _ I c x0 x1 x2 x3 x4 x5 x6 x7 x8 x9) (@cs_VerifyPacketAcknowledgement _ _ I' c x0 x1 x2 x3 x4 x5 x6 x7 x8 x9);
  approx_VerifyPacketReceiptAbsence c x0 x1 x2 x3 x4 x5 x6 x7 x8 :
    mapprox (@cs_VerifyPacketReceiptAbsence _ _ I c x0 x1 x2 x3 x4 x5 x6 x7 x8) (@cs_VerifyPacketReceiptAbsence _ _ I' c x0 x1 x2 x3 x4 x5 x6 x7 x8);
  approx_VerifyNextSequenceRecv c x0 x1 x2 x3 x4 x5 x6 x7 x8 :
    mapprox (@cs_VerifyNextSequenceRecv _ _ I c x0 x1 x2 x3 x4 x5 x6 x7 x8) (@cs_VerifyNextSequenceRecv _ _ I' c x0 x1 x2 x3 x4 x5 x6 x7 x8)
}.

Lemma oapprox_refl {A} (o : outcome A) : oapprox o o.
Proof. by right. Qed.

Lemma mapprox_refl {A} (m : M ExtState A) : mapprox m m.
Proof. intros s. by right. Qed.

Lemma oapprox_bind {A B} (o o' : outcome A) (f f' : A -> outcome B) :
  oapprox o o' -> (forall a, oapprox (f a) (f' a)) -> oapprox (obind o f) (obind o' f').
Proof. intros [-> | ->] Hf; [by left|]. destruct o'; [apply Hf|by right..]. Qed.

Lemma mapprox_bind {A B} (m m' : M ExtState A) (f f' : A -> M ExtState B) :
  mapprox m m' -> (forall a, mapprox (f a) (f' a)) -> mapprox (mbind m f) (mbind m' f').
Proof.
  intros Hm Hf s. unfold mbind. destruct (Hm s) as [H|H].
  - left. destruct (m s) as [o s1]. simpl in H. by rewrite H.
  - rewrite H. destruct (m' s) as [[a|e|p] s1]; [apply Hf|by right..].
Qed.

Lemma mapprox_mlift {A} (o o' : outcome A) : oapprox o o' -> mapprox (mlift o) (mlift o').
Proof. intros [-> | ->] s; [by left|by right]. Qed.

(** Calls built from the interface by binds and branches. *)
Ltac approx_auto H :=
  repeat first
    [ progress intros
    | apply oapprox_refl | apply mapprox_refl
    | match goal with
      | |- mapprox (mbind _ _) _ => apply mapprox_bind
      | |- oapprox (obind _ _) _ => apply oapprox_bind
      | |- mapprox (mlift _) _ => apply mapprox_mlift
      end
    | apply H
    | case_match ].

Lemma verifyBranch_approx I I' pcs cons b :
  methods_approx I I' ->
  mapprox (@Multiv.verifyBranch _ _ I pcs cons b) (@Multiv.verifyBranch _ _ I' pcs cons b).
Proof.
  intros H. unfold Multiv.verifyBranch, ProxyClient.IBCVerifyClientState,
    ProxyClient.IBCVerifyClientConsensusState. approx_auto H.
Qed.

Lemma verifyBranches_approx I I' bs pcs cons :
  methods_approx I I' ->
  mapprox (@Multiv.verifyBranches _ _ I pcs cons bs)
          (@Multiv.verifyBranches _ _ I' pcs cons bs).
Proof.
  intros H. revert pcs cons. induction bs as [|b bs IH]; intros pcs cons; simpl.
  - apply mapprox_refl.
  - apply mapprox_bind; [by apply verifyBranch_approx|]. intros [? ?]. apply IH.
Qed.

Lemma verifyProxyState_approx I I' cs store h p id pf :
  methods_approx I I' ->
  mapprox (@Multiv.verifyProxyState _ _ I cs store h p id pf)
          (@Multiv.verifyProxyState _ _ I' cs store h p id pf).
Proof.
  intros H. unfold Multiv.verifyProxyState.
  repeat (apply mapprox_bind; [approx_auto H|intros ?]).
  by apply verifyBranches_approx.
Qed.

Lemma dispatch_on_approx I I' :
  methods_approx I I' -> methods_approx (dispatch_on I) (dispatch_on I').
Proof.
  intros H. split; intros [p|p|e]; intros; try apply mapprox_refl; try apply oapprox_refl.
  all: simpl.
  all: try (unfold ProxyClient.ClientType, Multiv.ClientType, ProxyClient.GetLatestHeight,
    Multiv.GetLatestHeight, ProxyClient.Status, Multiv.Status, ProxyClient.Validate,
    Multiv.Validate, ProxyClient.GetProofSpecs, Multiv.GetProofSpecs, ProxyClient.Initialize,
    Multiv.Initialize, ProxyClient.ExportMetadata, Multiv.ExportMetadata,
    ProxyClient.VerifyUpgradeAndUpdateState, Multiv.VerifyUpgradeAndUpdateState,
    ProxyClient.ZeroCustomFields, Multiv.ZeroCustomFields,
    ProxyClient.CheckHeaderAndUpdateState, Multiv.CheckHeaderAndUpdateState,
    ProxyClient.CheckMisbehaviourAndUpdateState, Multiv.CheckMisbehaviourAndUpdateState,
    ProxyClient.CheckSubstituteAndUpdateState, Multiv.CheckSubstituteAndUpdateState,
    ProxyClient.VerifyConnectionState, Multiv.VerifyConnectionState,
    ProxyClient.VerifyChannelState, Multiv.VerifyChannelState,
    ProxyClient.VerifyPacketCommitment, Multiv.VerifyPacketCommitment,
    ProxyClient.VerifyPacketAcknowledgement, Multiv.VerifyPacketAcknowledgement,
    ProxyClient.VerifyPacketReceiptAbsence, Multiv.VerifyPacketReceiptAbsence,
    ProxyClient.VerifyNextSequenceRecv, Multiv.VerifyNextSequenceRecv,
    ProxyClient.VerifyClientState, ProxyClient.VerifyClientConsensusState; simpl; approx_auto H; fail).
  - simpl. unfold Multiv.VerifyClientState, ProxyClient.IBCVerifyClientState.
    apply mapprox_bind; [approx_auto H|intros pf].
    apply mapprox_bind; [by apply verifyProxyState_approx|]. approx_auto H.
  - simpl. unfold Multiv.VerifyClientConsensusState, ProxyClient.IBCVerifyClientConsensusState.
    apply mapprox_bind; [approx_auto H|intros pf].
    apply mapprox_bind; [by apply verifyProxyState_approx|]. approx_auto H.
Qed.

Lemma stuck_approx I : methods_approx stuck I.
Proof. split; intros; first [by left | intros s; by left]. Qed.

(** ** How much depth is enough *)

(** At most [n] wrappers are nested in the client state. *)
Inductive depth_le : nat -> ClientState -> Prop :=
| depth_ext n e : depth_le n (CSExt e)
| depth_proxy n p :
    (forall c, UnpackClientState (pcs_ProxyClientState p) = Ok c -> depth_le n c) ->
    depth_le (S n) (CSProxy p)
| depth_multiv n p :
    (forall c, UnpackClientState (mcs_UnderlyingClientState p) = Ok c -> depth_le n c) ->
    depth_le (S n) (CSMultiv p).

(** The proofs that a multi-proof holds besides those of its head: one for the
    client state and one for the consensus state of each branch, and that of the
    leaf *)
Definition inner_proofs (mp : MultiProof) : list bytes :=
  Leaf_Proof (Leaf mp) ::
  flat_map (fun b => [ClientProof b; ConsensusProof b]) (Branches mp).

(** The same for the verification of a client or consensus state with the proof
    [pf]: the multi-stage client also calls the client states that its proof
    brings, on the proofs in it. *)
Inductive verify_le : nat -> ClientState -> bytes -> Prop :=
| verify_ext n e pf : verify_le n (CSExt e) pf
| verify_proxy n p pf :
    (forall c, UnpackClientState (pcs_ProxyClientState p) = Ok c -> verify_le n c pf) ->
    verify_le (S n) (CSProxy p) pf
| verify_multiv n p pf :
    (forall c mp pf', UnpackClientState (mcs_UnderlyingClientState p) = Ok c ->
       Multiv.unmarshalProof pf = Ok mp ->
       In pf' [ClientProof (Head mp); ConsensusProof (Head mp)] -> verify_le n c pf') ->
    (forall mp b q c pf', Multiv.unmarshalProof pf = Ok mp ->
       In b (Head mp :: Branches mp) ->
       Multiv.unpackProxyClientState (Proof_ClientState b) = Ok q ->
       UnpackClientState (pcs_ProxyClientState q) = Ok c ->
       In pf' (inner_proofs mp) -> verify_le n c pf') ->
    verify_le (S n) (CSMultiv p) pf.

(** Two interfaces agree on a client state, for the operations that go down
    through the wrappers. *)
Record agree_on (I I' : ClientMethods ClientState) (c : ClientState) : Prop := {
  agree_ClientType : @cs_ClientType _ _ I c = @cs_ClientType _ _ I' c;
  agree_GetLatestHeight : @cs_GetLatestHeight _ _ I c = @cs_GetLatestHeight _ _ I' c;
  agree_Status st s : @cs_Status _ _ I c st s = @cs_Status _ _ I' c st s;
  agree_Validate : @cs_Validate _ _ I c = @cs_Validate _ _ I' c;
  agree_GetProofSpecs : @cs_GetProofSpecs _ _ I c = @cs_GetProofSpecs _ _ I' c;
  agree_Initialize st x s : @cs_Initialize _ _ I c st x s = @cs_Initialize _ _ I' c st x s;
  agree_ExportMetadata st s :
    @cs_ExportMetadata _ _ I c st s = @cs_ExportMetadata _ _ I' c st s;
  agree_VerifyUpgrade st c' x p p' s :
    @cs_VerifyUpgradeAndUpdateState _ _ I c st c' x p p' s =
    @cs_VerifyUpgradeAndUpdateState _ _ I' c st c' x p p' s;
  agree_ZeroCustomFields : @cs_ZeroCustomFields _ _ I c = @cs_ZeroCustomFields _ _ I' c;
  agree_CheckHeader st x s :
    @cs_CheckHeaderAndUpdateState _ _ I c st x s =
    @cs_CheckHeaderAndUpdateState _ _ I' c st x s;
  agree_CheckMisbehaviour st x s :
    @cs_CheckMisbehaviourAndUpdateState _ _ I c st x s =
    @cs_CheckMisbehaviourAndUpdateState _ _ I' c st x s;
  agree_CheckSubstitute st st' x s :
    @cs_CheckSubstituteAndUpdateState _ _ I c st st' x s =
    @cs_CheckSubstituteAndUpdateState _ _ I' c st st' x s;
  agree_ConnectionState st h p pf id x s :
    @cs_VerifyConnectionState _ _ I c st h p pf id x s =
    @cs_VerifyConnectionState _ _ I' c st h p pf id x s;
  agree_ChannelState st h p pf port id x s :
    @cs_VerifyChannelState _ _ I c st h p pf port id x s =
    @cs_VerifyChannelState _ _ I' c st h p pf port id x s;
  agree_PacketCommitment st h t d p pf port id n v s :
    @cs_VerifyPacketCommitment _ _ I c st h t d p pf port id n v s =
    @cs_VerifyPacketCommitment _ _ I' c st h t d p pf port id n v s;
  agree_PacketAcknowledgement st h t d p pf port id n v s :
    @cs_VerifyPacketAcknowledgement _ _ I c st h t d p pf port id n v s =
    @cs_VerifyPacketAcknowledgement _ _ I' c st h t d p pf port id n v s;
  agree_PacketReceiptAbsence st h t d p pf port id n s :
    @cs_VerifyPacketReceiptAbsence _ _ I c st h t d p pf port id n s =
    @cs_VerifyPacketReceiptAbsence _ _ I' c st h t d p pf port id n s;
  agree_NextSequenceRecv st h t d p pf port id n s :
    @cs_VerifyNextSequenceRecv _ _ I c st h t d p pf port id n s =
    @cs_VerifyNextSequenceRecv _ _ I' c st h t d p pf port id n s
}.

(** They agree on the verification of client and consensus states with the proof [pf]. *)
Record agree_verify (I I' : ClientMethods ClientState) (c : ClientState) (pf : bytes) :
    Prop := {
  agree_VerifyClientState st h p id x s :
    @cs_VerifyClientState _ _ I c st h p id pf x s =
    @cs_VerifyClientState _ _ I' c st h p id pf x s;
  agree_VerifyClientConsensusState st h id ch p x s :
    @cs_VerifyClientConsensusState _ _ I c st h id ch p pf x s =
    @cs_VerifyClientConsensusState _ _ I' c st h id ch p pf x s
}.

Lemma obind_ext {A B} (o : outcome A) (f f' : A -> outcome B) :
  (forall a, o = Ok a -> f a = f' a) -> obind o f = obind o f'.
Proof. destruct o; simpl; auto. Qed.

Lemma obind_left {A B} (o o' : outcome A) (f : A -> outcome B) :
  o = o' -> obind o f = obind o' f.
Proof. by intros ->. Qed.

Lemma mbind_mlift_ext {A B} (o : outcome A) (f f' : A -> M ExtState B) s :
  (forall a, o = Ok a -> f a s = f' a s) ->
  mbind (mlift o) f s = mbind (mlift o) f' s.
Proof. unfold mbind, mlift. destruct o; simpl; auto. Qed.

Lemma mbind_ext {A B} (m m' : M ExtState A) (f f' : A -> M ExtState B) s :
  m s = m' s -> (forall a s', m s = (Ok a, s') -> f a s' = f' a s') ->
  mbind m f s = mbind m' f' s.
Proof. unfold mbind. intros <- Hf. destruct (m s) as [[a|e|p] s']; auto. Qed.

Ltac agree_auto H :=
  repeat first
    [ progress intros
    | reflexivity
    | apply H; by apply must_Ok
    | match goal with
      | |- obind ?o _ = obind ?o _ => apply obind_ext
      | |- obind _ ?f = obind _ ?f => apply obind_left
      | |- mbind (mlift ?o) _ _ = mbind (mlift ?o) _ _ => apply mbind_mlift_ext
      | |- mbind _ ?f _ = mbind _ ?f _ => apply mbind_ext
      | |- context [match ?x with _ => _ end] => destruct x eqn:?
      end ].

(** A level of the method tables calls the level below on what is wrapped. *)
Lemma dispatch_on_agree I I' c :
  (forall p d, c = CSProxy p -> UnpackClientState (pcs_ProxyClientState p) = Ok d ->
     agree_on I I' d) ->
  (forall p d, c = CSMultiv p -> UnpackClientState (mcs_UnderlyingClientState p) = Ok d ->
     agree_on I I' d) ->
  agree_on (dispatch_on I) (dispatch_on I') c.
Proof.
  intros Hp Hm. destruct c as [p|p|e]; [specialize (Hp p)|specialize (Hm p)|by split].
  - assert (forall d, UnpackClientState (pcs_ProxyClientState p) = Ok d ->
              agree_on I I' d) as H by eauto.
    split; intros; simpl; unfold ProxyClient.GetLatestHeight, ProxyClient.Validate,
      ProxyClient.Status, ProxyClient.GetProofSpecs, ProxyClient.Initialize,
      ProxyClient.ExportMetadata, ProxyClient.VerifyUpgradeAndUpdateState,
      ProxyClient.ZeroCustomFields, ProxyClient.CheckHeaderAndUpdateState,
      ProxyClient.CheckMisbehaviourAndUpdateState, ProxyClient.CheckSubstituteAndUpdateState,
      ProxyClient.VerifyConnectionState, ProxyClient.VerifyChannelState,
      ProxyClient.VerifyPacketCommitment, ProxyClient.VerifyPacketAcknowledgement,
      ProxyClient.VerifyPacketReceiptAbsence, ProxyClient.VerifyNextSequenceRecv,
      ProxyClient.GetProxyClientState; agree_auto H.
  - assert (forall d, UnpackClientState (mcs_UnderlyingClientState p) = Ok d ->
              agree_on I I' d) as H by eauto.
    split; intros; simpl; unfold Multiv.ClientType, Multiv.GetLatestHeight, Multiv.Validate,
      Multiv.Status, Multiv.GetProofSpecs, Multiv.Initialize, Multiv.ExportMetadata,
      Multiv.VerifyUpgradeAndUpdateState, Multiv.ZeroCustomFields,
      Multiv.CheckHeaderAndUpdateState, Multiv.CheckMisbehaviourAndUpdateState,
      Multiv.CheckSubstituteAndUpdateState,
      Multiv.VerifyConnectionState, Multiv.VerifyChannelState,
      Multiv.VerifyPacketCommitment, Multiv.VerifyPacketAcknowledgement,
      Multiv.VerifyPacketReceiptAbsence, Multiv.VerifyNextSequenceRecv,
      Multiv.GetUnderlyingClientState; agree_auto H.
Qed.

(** ** The multi-stage verification *)

Section Stages.
Context (I I' : ClientMethods ClientState).

(** The proxy client state [q] calls what it wraps with the proof [pf]. *)
Definition inner_agree (q : ProxyCS) (pf : bytes) : Prop :=
  forall c, UnpackClientState (pcs_ProxyClientState q) = Ok c -> agree_verify I I' c pf.

Lemma IBCVerifyClientState_agree q st h pfx id pf x s :
  inner_agree q pf ->
  @ProxyClient.IBCVerifyClientState _ _ I q st h pfx id pf x s =
  @ProxyClient.IBCVerifyClientState _ _ I' q st h pfx id pf x s.
Proof.
  intros H. apply mbind_mlift_ext. intros c Hc. apply (H c). by apply must_Ok.
Qed.

Lemma IBCVerifyClientConsensusState_agree q st h id ch pfx pf x s :
  inner_agree q pf ->
  @ProxyClient.IBCVerifyClientConsensusState _ _ I q st h id ch pfx pf x s =
  @ProxyClient.IBCVerifyClientConsensusState _ _ I' q st h id ch pfx pf x s.
Proof.
  intros H. apply mbind_mlift_ext. intros c Hc. apply (H c). by apply must_Ok.
Qed.

Lemma verifyBranch_agree q cons b s :
  inner_agree q (ClientProof b) -> inner_agree q (ConsensusProof b) ->
  @Multiv.verifyBranch _ _ I q cons b s = @Multiv.verifyBranch _ _ I' q cons b s.
Proof.
  intros H1 H2. unfold Multiv.verifyBranch.
  apply mbind_mlift_ext. intros t Ht. apply mbind_mlift_ext. intros tc Htc.
  apply mbind_ext; [done|]. intros st s1 _.
  apply mbind_ext; [by apply IBCVerifyClientState_agree|]. intros u s2 _.
  apply mbind_ext; [by apply IBCVerifyClientConsensusState_agree|]. done.
Qed.

Lemma verifyBranch_target q cons b s t tc s' :
  @Multiv.verifyBranch _ _ I q cons b s = (Ok (t, tc), s') ->
  Multiv.unpackProxyClientState (Proof_ClientState b) = Ok t.
Proof.
  unfold Multiv.verifyBranch, mbind, mlift.
  destruct (Multiv.unpackProxyClientState _) as [t'|e|p]; [|done..].
  destruct (Multiv.unpackProxyConsensusState _) as [tc'|e|p]; [|done..].
  destruct (Multiv.makeMemStore _ _ s) as [[st|e|p] s1]; [|done..].
  destruct (ProxyClient.IBCVerifyClientState _ _ _ _ _ _ _ s1) as [[u|e|p] s2]; [|done..].
  destruct (ProxyClient.IBCVerifyClientConsensusState _ _ _ _ _ _ _ _ s2) as [[v|e|p] s3];
    [|done..].
  by intros [= -> _ _].
Qed.

(** The client states that the stages reach, and the proofs they are called with *)
Lemma verifyBranches_agree bs q cons s :
  (forall q' b, (q' = q \/ exists b', In b' bs /\
       Multiv.unpackProxyClientState (Proof_ClientState b') = Ok q') ->
     In b bs -> inner_agree q' (ClientProof b) /\ inner_agree q' (ConsensusProof b)) ->
  @Multiv.verifyBranches _ _ I q cons bs s = @Multiv.verifyBranches _ _ I' q cons bs s /\
  forall q' cons' s', @Multiv.verifyBranches _ _ I q cons bs s = (Ok (q', cons'), s') ->
    q' = q \/ exists b, In b bs /\ Multiv.unpackProxyClientState (Proof_ClientState b) = Ok q'.
Proof.
  revert q cons s. induction bs as [|b bs IH]; intros q cons s H; simpl.
  { split; [done|]. intros q' cons' s' [= <- _ _]. by left. }
  assert (@Multiv.verifyBranch _ _ I q cons b s = @Multiv.verifyBranch _ _ I' q cons b s) as Hb.
  { apply verifyBranch_agree; apply (H q b); by (left || left). }
  unfold mbind. rewrite <- Hb.
  destruct (@Multiv.verifyBranch _ _ I q cons b s) as [[[t tc]|e|p] s1] eqn:E; [|done..].
  apply verifyBranch_target in E.
  destruct (IH t tc s1) as [Heq Hq].
  { intros q' b' [->|(b'' & Hin & Hu)] Hb'; apply H; (right; eauto with datatypes). }
  split; [done|]. intros q' cons' s' Hrun.
  destruct (Hq q' cons' s' Hrun) as [->|(b' & Hin & Hu)]; right; eauto with datatypes.
Qed.
End Stages.

(** The verification of the chain of proxies, and the client state it ends with *)
Lemma verifyProxyState_agree I I' cs st h pfx id mp s :
  (forall c pf, UnpackClientState (mcs_UnderlyingClientState cs) = Ok c ->
     In pf [ClientProof (Head mp); ConsensusProof (Head mp)] -> agree_verify I I' c pf) ->
  (forall b q pf, In b (Head mp :: Branches mp) ->
     Multiv.unpackProxyClientState (Proof_ClientState b) = Ok q ->
     In pf (inner_proofs mp) -> inner_agree I I' q pf) ->
  @Multiv.verifyProxyState _ _ I cs st h pfx id mp s =
    @Multiv.verifyProxyState _ _ I' cs st h pfx id mp s /\
  forall q cons s', @Multiv.verifyProxyState _ _ I cs st h pfx id mp s = (Ok (q, cons), s') ->
    inner_agree I I' q (Leaf_Proof (Leaf mp)).
Proof.
  intros Hin Hpx. unfold Multiv.verifyProxyState, mbind, mlift.
  destruct (Multiv.validateProof cs mp) as [u|e|p]; [|done..].
  destruct (negb (Height_EQ _ _)); [done|]. unfold mret.
  destruct (Multiv.unpackProxyClientState (Proof_ClientState (Head mp))) as [q0|e|p] eqn:Hq0;
    [|done..].
  destruct (Multiv.GetUnderlyingClientState cs) as [c|e|p] eqn:Hc; [|done..].
  apply (proj1 (must_Ok _ _)) in Hc.
  rewrite <- (agree_VerifyClientState I I' _ _ (Hin c (ClientProof (Head mp)) Hc
    ltac:(by left))).
  destruct (@cs_VerifyClientState _ _ I c _ _ _ _ _ _ s) as [[v|e|p] s2]; [|done..].
  destruct (Multiv.unpackProxyConsensusState _) as [cons0|e|p]; [|done..].
  rewrite <- (agree_VerifyClientConsensusState I I' _ _ (Hin c (ConsensusProof (Head mp)) Hc
    ltac:(by right; left))).
  destruct (@cs_VerifyClientConsensusState _ _ I c _ _ _ _ _ _ _ s2) as [[w|e|p] s3]; [|done..].
  assert (forall q', (q' = q0 \/ exists b, In b (Branches mp) /\
      Multiv.unpackProxyClientState (Proof_ClientState b) = Ok q') ->
    exists b, In b (Head mp :: Branches mp) /\
      Multiv.unpackProxyClientState (Proof_ClientState b) = Ok q') as Hfrom.
  { intros q' [->|(b & Hb & Hu)]; eauto with datatypes. }
  destruct (verifyBranches_agree I I' (Branches mp) q0 cons0 s3) as [Heq Hq].
  { intros q' b Hq' Hb. destruct (Hfrom q' Hq') as (b' & Hb' & Hu).
    split; apply (Hpx b' q' _ Hb' Hu); right; apply in_flat_map; exists b; simpl; eauto. }
  split; [exact Heq|]. intros q cons s' Hrun.
  destruct (Hfrom q (Hq _ _ _ Hrun)) as (b' & Hb' & Hu). apply (Hpx b' q _ Hb' Hu). by left.
Qed.

Lemma dispatch_on_agree_verify I I' c pf :
  (forall p d, c = CSProxy p -> UnpackClientState (pcs_ProxyClientState p) = Ok d ->
     agree_verify I I' d pf) ->
  (forall p d mp pf', c = CSMultiv p ->
     UnpackClientState (mcs_UnderlyingClientState p) = Ok d ->
     Multiv.unmarshalProof pf = Ok mp ->
     In pf' [ClientProof (Head mp); ConsensusProof (Head mp)] -> agree_verify I I' d pf') ->
  (forall p mp b q pf', c = CSMultiv p -> Multiv.unmarshalProof pf = Ok mp ->
     In b (Head mp :: Branches mp) ->
     Multiv.unpackProxyClientState (Proof_ClientState b) = Ok q ->
     In pf' (inner_proofs mp) -> inner_agree I I' q pf') ->
  agree_verify (dispatch_on I) (dispatch_on I') c pf.
Proof.
  intros Hp Hm Hs. destruct c as [p|p|e]; [| |by split].
  - assert (forall d, UnpackClientState (pcs_ProxyClientState p) = Ok d ->
      agree_verify I I' d pf) as H by eauto.
    split; intros; simpl; unfold ProxyClient.VerifyClientState,
      ProxyClient.VerifyClientConsensusState, ProxyClient.GetProxyClientState; agree_auto H.
  - split; intros; simpl; unfold Multiv.VerifyClientState, Multiv.VerifyClientConsensusState;
      apply mbind_mlift_ext; intros mp Hmp.
    + destruct (verifyProxyState_agree I I' p st h p0 id mp s) as [Heq Hq]; [by eauto..|].
      apply mbind_ext; [exact Heq|]. intros [q cons] s1 Hrun.
      apply mbind_ext; [done|]. intros. apply IBCVerifyClientState_agree. by eapply Hq.
    + destruct (verifyProxyState_agree I I' p st h p0 id mp s) as [Heq Hq]; [by eauto..|].
      apply mbind_ext; [exact Heq|]. intros [q cons] s1 Hrun.
      apply mbind_ext; [done|]. intros. apply IBCVerifyClientConsensusState_agree. by eapply Hq.
Qed.

(** * Properties *)

(** The interpretation of the interface is a limit: a call that ends
    within some depth of nested dispatch, whatever its result, ends with the
    same result within any larger depth. *)
Theorem dispatch_mono n m : n <= m -> methods_approx (dispatch n) (dispatch m).
Proof.
  revert m. induction n as [|n IH]; intros m Hm; [apply stuck_approx|].
  destruct m as [|m]; [lia|]. apply dispatch_on_approx, IH. lia.
Qed.

(** C30: dynamic dispatch ends.  A call of any of the twenty methods of the interface on
    a client state with at most [n] nested wrappers never gets more than [n] levels
    of calls below the first one: whatever methods [bottom] are put under more than
    [n] levels of the repository's two clients, they are not reached, and the
    result and the state are the same.  For the verification of client and
    consensus states the bound also counts what the proof brings: the
    multi-stage client goes on with the client states of the proof's head and
    branches and the proofs nested in it. *)
Theorem dispatch_terminates n c m m' bottom bottom' :
  n < m -> n < m' ->
  (depth_le n c -> agree_on (dispatch_from bottom m) (dispatch_from bottom' m') c) /\
  (forall pf, verify_le n c pf ->
     agree_verify (dispatch_from bottom m) (dispatch_from bottom' m') c pf).
Proof.
  intros Hm Hm'. split; [intros Hd|intros pf Hd]; revert m m' Hm Hm'.
  - induction Hd as [n e|n p Hp IH|n p Hp IH]; intros [|m] [|m'] Hm Hm'; try lia;
      apply dispatch_on_agree; try done; intros p' d [= <-] Hd; apply (IH d Hd); lia.
  - induction Hd as [n e pf|n p pf Hp IH|n p pf Hi IHi Hs IHs]; intros [|m] [|m'] Hm Hm';
      try lia; apply dispatch_on_agree_verify; try done.
    + intros p' d [= <-] Hd. apply (IH d Hd); lia.
    + intros p' d mp pf' [= <-] Hd Hmp Hin. apply (IHi d mp pf' Hd Hmp Hin); lia.
    + intros p' mp b q pf' [= <-] Hmp Hb Hq Hin d Hd.
      apply (IHs mp b q d pf' Hmp Hb Hq Hd Hin); lia.
Qed.

End Dispatch.

(** ** Witnesses: three nested wrappers over the reference client *)
Section Witnesses.
#[local] Existing Instances ref_types ref_lib ref_client.

Definition pack_client (c : ClientState) : option AnyT :=
  Some (mkAny "client" (Codec.encode (H := ClientState_codec) c)).

Definition nested_client : ClientState :=
  CSMultiv (mkMultivCS (pack_client (CSProxy (mkProxyCS
    (pack_client (CSExt (mkRefClient (mkHeight 0 7)))) "07-ref-0"
    (Some (mkMerklePrefix "proxy")) (Some (mkMerklePrefix "ibc"))))) 0).

Lemma nested_client_depth : depth_le 2 nested_client.
Proof.
  apply depth_multiv. intros c Hc. vm_compute in Hc. injection Hc as <-.
  apply depth_proxy. intros c Hc. vm_compute in Hc. injection Hc as <-.
  apply depth_ext.
Qed.

Lemma dispatch_mono_witness :
  2 <= 5 /\ methods_approx (dispatch ref_client 2) (dispatch ref_client 5).
Proof. split; [lia | apply (dispatch_mono ref_client 2 5); lia]. Defined.

(** A proof without branches: the state of a proxy, and a leaf *)
Definition nested_proof : MultiProof :=
  let proxy := pack_client (CSProxy (mkProxyCS
    (pack_client (CSExt (mkRefClient (mkHeight 0 7)))) "07-ref-0"
    (Some (mkMerklePrefix "proxy")) (Some (mkMerklePrefix "ibc")))) in
  mkMultiProof (mkProof "a" proxy "b" None (mkHeight 0 7) (mkHeight 0 5)) []
    (mkLeafProof "c" (mkHeight 0 5)).

Definition nested_bytes : bytes := Codec.encode (H := MultiProof_codec) nested_proof.

Lemma nested_verify_depth : verify_le 2 nested_client nested_bytes.
Proof.
  assert (Multiv.unmarshalProof nested_bytes = Ok nested_proof) as Hpf
    by (vm_compute; reflexivity).
  apply verify_multiv.
  - intros c mp pf' Hc Hmp Hin. rewrite Hpf in Hmp. injection Hmp as <-.
    vm_compute in Hc. injection Hc as <-.
    apply verify_proxy. intros c Hc. vm_compute in Hc. injection Hc as <-. apply verify_ext.
  - intros mp b q c pf' Hmp Hb Hq Hc Hin. rewrite Hpf in Hmp. injection Hmp as <-.
    destruct Hb as [<-|[]]. vm_compute in Hq. injection Hq as <-.
    vm_compute in Hc. injection Hc as <-. apply verify_ext.
Qed.

Lemma dispatch_terminates_witness :
  @cs_GetLatestHeight _ _ (dispatch ref_client 3) nested_client = Ok (mkHeight 0 7) /\
  agree_on (dispatch ref_client 3) (dispatch_from ref_client stuck 9) nested_client /\
  agree_verify (dispatch ref_client 3) (dispatch_from ref_client (dispatch ref_client 1) 4)
    nested_client nested_bytes.
Proof.
  split; [vm_compute; reflexivity|]. split.
  - apply (dispatch_terminates ref_client 2 nested_client 3 9); [lia..|].
    exact nested_client_depth.
  - apply (dispatch_terminates ref_client 2 nested_client 3 4); [lia..|].
    exact nested_verify_depth.
Defined.
End Witnesses.
