(* ===== verification/Keys.v ===== *)
(** Keys of the proxy commitments: modules/proxy/types/keys.go.  Paths.v
    says when the key determines the commitment (the uniqueness the README asks
    of the path format) and when it does not. *)
From S2P Require Import Prelude.
From S2P Require Import Lib.

Definition ModuleName : string := "proxy".
Definition StoreKey : string := ModuleName.
Definition ProtocolVersion : string := "proxy-1".  (* Version *)
Definition PortID : string := "proxy".
Definition RouterKey : string := ModuleName.
Definition QuerierRoute : string := ModuleName.

Section Keys.
Context `{T : LibTypes, L : !Lib}.

Definition ProxyKey (upstreamPrefix : Prefix) (upstreamClientID : string) (key : bytes) :
    outcome bytes :=
  let? b := Prefix_Bytes upstreamPrefix in
  Ok (((upstreamClientID +:+ "/") +:+ (b +:+ "/")) +:+ key).

Definition ProxyClientStateKey (upstreamPrefix : Prefix) (upstreamClientID clientID : string) :
    outcome bytes :=
  ProxyKey upstreamPrefix upstreamClientID (FullClientStateKey clientID).

Definition ProxyConsensusStateKey (upstreamPrefix : Prefix)
    (upstreamClientID clientID : string) (consensusHeight : Height) : outcome bytes :=
  ProxyKey upstreamPrefix upstreamClientID (FullConsensusStateKey clientID consensusHeight).

Definition ProxyConnectionKey (upstreamPrefix : Prefix)
    (upstreamClientID connectionID : string) : outcome bytes :=
  ProxyKey upstreamPrefix upstreamClientID (ConnectionKey connectionID).

Definition ProxyChannelKey (upstreamPrefix : Prefix)
    (upstreamClientID portID channelID : string) : outcome bytes :=
  ProxyKey upstreamPrefix upstreamClientID (ChannelKey portID channelID).

Definition ProxyPacketCommitmentKey (upstreamPrefix : Prefix)
    (upstreamClientID portID channelID : string) (sequence : N) : outcome bytes :=
  ProxyKey upstreamPrefix upstreamClientID (PacketCommitmentKey portID channelID sequence).

Definition ProxyAcknowledgementKey (upstreamPrefix : Prefix)
    (upstreamClientID portID channelID : string) (sequence : N) : outcome bytes :=
  ProxyKey upstreamPrefix upstreamClientID
    (PacketAcknowledgementKey portID channelID sequence).

(** The bytes a proxied path starts with, for a client and a prefix. *)
Definition path_head (up b : string) : bytes := (up +:+ "/") +:+ (b +:+ "/").

Lemma ProxyKey_head pfx up key k :
  ProxyKey pfx up key = Ok k <->
  exists b, Prefix_Bytes pfx = Ok b /\ k = path_head up b +:+ key.
Proof.
  unfold ProxyKey, path_head. rewrite obind_Ok. naive_solver.
Qed.

Lemma path_head_inj up up' b b' key key' :
  no_char "/" up = true -> no_char "/" up' = true ->
  no_char "/" b = true -> no_char "/" b' = true ->
  path_head up b +:+ key = path_head up' b' +:+ key' ->
  up = up' /\ b = b' /\ key = key'.
Proof.
  intros Hu Hu' Hb Hb' H. unfold path_head in H.
  rewrite !app_str_assoc in H.
  apply cut_inj in H as [-> H]; [|done..].
  by apply cut_inj in H as [-> H]; [|done..].
Qed.

End Keys.
