(* ===== verification/Commitment.v ===== *)
(** The proxy keeper and its commitments: modules/proxy/keeper/keeper.go and
    commitment.go.  The keeper's state is the proxy module's store; a store
    handle is a chain of prefix stores over it. *)
From S2P Require Import Prelude.
From S2P Require Import Lib.
From S2P Require Import Keys.

Section State.
Context `{T : LibTypes}.

(** What a handler can reach through [ctx]: the libraries' state and the proxy
    module's own store. *)
Record World := mkWorld { w_ext : ExtState; w_proxy : ProxyKV }.

(** The keeper: the names of its two store keys.  Its [clientKeeper] is the
    class [ClientKeeperI] (Lib.v). *)
Record Keeper := mkKeeper { proxyStoreKey : string; ibcStoreKey : string }.

(** A call into the libraries leaves the proxy store alone: they only hold
    handles on their own stores. *)
Definition mext {A} (m : M ExtState A) : M World A :=
  mzoom w_ext (fun e w => mkWorld e (w_proxy w)) m.

Definition mread {A} (f : ExtState -> outcome A) : M World A := fun w => (f (w_ext w), w).

(** ctx.KVStore(k.proxyStoreKey) and storeprefix.NewStore(parent, prefix) *)
Inductive Store :=
| RootStore
| PrefixStore (parent : Store) (prefix : bytes).
End State.

Section Keeper.
Context `{T : LibTypes, L : !Lib}.

Definition NewKeeper (proxyKey ibcKey : string) : Keeper := mkKeeper proxyKey ibcKey.

(** The key of the root store that [key] of a store handle stands for. *)
Fixpoint store_key (s : Store) (key : bytes) : bytes :=
  match s with
  | RootStore => key
  | PrefixStore parent p => store_key parent (prefix_key p key)
  end.

Definition store_Get (s : Store) (key : bytes) : M World (option bytes) :=
  mget (fun w => kv_get (w_proxy w) (store_key s key)).

Definition store_Set (s : Store) (key value : bytes) : M World unit :=
  mput (fun w => mkWorld (w_ext w) (kv_set (store_key s key) value (w_proxy w))).

(** ** keeper.go *)

Definition GetProxyCommitmentPrefix (k : Keeper) : Prefix :=
  MerklePfx (Some (NewMerklePrefix (proxyStoreKey k))).

Definition GetIBCCommitmentPrefix (k : Keeper) : Prefix :=
  MerklePfx (Some (NewMerklePrefix (ibcStoreKey k))).

Definition ProxyStore (upstreamPrefix : Prefix) (upstreamClientID : string) :
    outcome Store :=
  let? b := Prefix_Bytes upstreamPrefix in
  Ok (PrefixStore RootStore ((upstreamClientID +:+ "/") +:+ (b +:+ "/"))).

Definition ProxyClientStore (upstreamPrefix : Prefix)
    (upstreamClientID counterpartyClientIdentifier : string) : outcome Store :=
  let clientPrefix := ("clients/" +:+ counterpartyClientIdentifier) +:+ "/" in
  let? s := ProxyStore upstreamPrefix upstreamClientID in
  Ok (PrefixStore s clientPrefix).

(** ** commitment.go: reads.  An absent or empty value is "not found". *)

Definition found_bytes (bz : option bytes) : option bytes :=
  match bz with None | Some EmptyString => None | Some bz => Some bz end.

Definition GetProxyClientState (upstreamPrefix : Prefix)
    (counterpartyClientIdentifier upstreamClientID : string) :
    M World (option ClientState) :=
  let* store := mlift (ProxyClientStore upstreamPrefix upstreamClientID
                         counterpartyClientIdentifier) in
  let* bz := store_Get store ClientStateKey in
  match found_bytes bz with
  | None => mret None
  | Some bz => let* cs := mlift (must (UnmarshalClientState bz)) in mret (Some cs)
  end.

Definition GetProxyClientConsensusState (upstreamPrefix : Prefix)
    (counterpartyClientIdentifier upstreamClientID : string) (consensusHeight : Height) :
    M World (option ConsensusState) :=
  let* store := mlift (ProxyClientStore upstreamPrefix upstreamClientID
                         counterpartyClientIdentifier) in
  let* bz := store_Get store (ConsensusStateKey consensusHeight) in
  match found_bytes bz with
  | None => mret None
  | Some bz => let* cs := mlift (must (UnmarshalConsensusState bz)) in mret (Some cs)
  end.

Definition GetProxyConnection (upstreamPrefix : Prefix)
    (upstreamClientID connectionID : string) : M World (option ConnectionEnd) :=
  let* store := mlift (ProxyStore upstreamPrefix upstreamClientID) in
  let* bz := store_Get store (ConnectionKey connectionID) in
  match found_bytes bz with
  | None => mret None
  | Some bz => let* c := mlift (must (cdc_UnmarshalConnection bz)) in mret (Some c)
  end.

Definition GetProxyChannel (upstreamPrefix : Prefix)
    (upstreamClientID portID channelID : string) : M World (option Channel) :=
  let* store := mlift (ProxyStore upstreamPrefix upstreamClientID) in
  let* bz := store_Get store (ChannelKey portID channelID) in
  match found_bytes bz with
  | None => mret None
  | Some bz => let* c := mlift (must (cdc_UnmarshalChannel bz)) in mret (Some c)
  end.

(** ** commitment.go: writes.  They never return an error. *)

Definition SetProxyClientState (upstreamPrefix : Prefix)
    (counterpartyClientIdentifier upstreamClientID : string) (clientState : ClientState) :
    M World unit :=
  let* store := mlift (ProxyClientStore upstreamPrefix upstreamClientID
                         counterpartyClientIdentifier) in
  let* bz := mlift (must (MarshalClientState clientState)) in
  store_Set store ClientStateKey bz.

Definition SetProxyClientConsensusState (upstreamPrefix : Prefix)
    (counterpartyClientIdentifier upstreamClientID : string) (consensusHeight : Height)
    (consensusState : ConsensusState) : M World unit :=
  let* store := mlift (ProxyClientStore upstreamPrefix upstreamClientID
                         counterpartyClientIdentifier) in
  let* bz := mlift (must (MarshalConsensusState consensusState)) in
  store_Set store (ConsensusStateKey consensusHeight) bz.

Definition SetProxyConnection (upstreamPrefix : Prefix)
    (upstreamClientID connectionID : string) (connectionEnd : ConnectionEnd) :
    M World unit :=
  let* store := mlift (ProxyStore upstreamPrefix upstreamClientID) in
  let* bz := mlift (must (cdc_MarshalConnection connectionEnd)) in
  store_Set store (ConnectionKey connectionID) bz.

Definition SetProxyChannel (upstreamPrefix : Prefix)
    (upstreamClientID portID channelID : string) (channelEnd : Channel) : M World unit :=
  let* store := mlift (ProxyStore upstreamPrefix upstreamClientID) in
  let* bz := mlift (must (cdc_MarshalChannel channelEnd)) in
  store_Set store (ChannelKey portID channelID) bz.

Definition SetProxyPacketCommitment (upstreamPrefix : Prefix)
    (upstreamClientID portID channelID : string) (sequence : N) (commitmentBytes : bytes) :
    M World unit :=
  let* store := mlift (ProxyStore upstreamPrefix upstreamClientID) in
  store_Set store (PacketCommitmentKey portID channelID sequence) commitmentBytes.

Definition SetProxyPacketAcknowledgement (upstreamPrefix : Prefix)
    (upstreamClientID portID channelID : string) (sequence : N) (acknowledgement : bytes) :
    M World unit :=
  let* store := mlift (ProxyStore upstreamPrefix upstreamClientID) in
  store_Set store (PacketAcknowledgementKey portID channelID sequence)
    (CommitAcknowledgement acknowledgement).

Definition SetProxyPacketReceiptAbsence (upstreamPrefix : Prefix)
    (upstreamClientID portID channelID : string) (sequence : N) : M World unit :=
  let* store := mlift (ProxyStore upstreamPrefix upstreamClientID) in
  store_Set store (PacketReceiptKey portID channelID sequence)
    (String (ascii_of_N 1) EmptyString).

Definition SetProxyNextSequenceRecv (upstreamPrefix : Prefix)
    (upstreamClientID portID channelID : string) (nextSequenceRecv : N) : M World unit :=
  let* store := mlift (ProxyStore upstreamPrefix upstreamClientID) in
  store_Set store (NextSequenceRecvKey portID channelID) (Uint64ToBigEndian nextSequenceRecv).

End Keeper.

(** * Lemmas *)

Section Lemmas.
Context `{T : LibTypes, L : !Lib, CK : !ClientKeeperI, LL : !LibLaws}.

(** The connection and the channel stored under a path. *)
Definition conn_at (kv : ProxyKV) (up b id : string) : option ConnectionEnd :=
  match found_bytes (kv_get kv (path_head up b +:+ ConnectionKey id)) with
  | None => None
  | Some bz => match cdc_UnmarshalConnection bz with Ok c => Some c | _ => None end
  end.

Definition chan_at (kv : ProxyKV) (up b port id : string) : option Channel :=
  match found_bytes (kv_get kv (path_head up b +:+ ChannelKey port id)) with
  | None => None
  | Some bz => match cdc_UnmarshalChannel bz with Ok c => Some c | _ => None end
  end.

Lemma ProxyStore_Ok pfx up s :
  ProxyStore pfx up = Ok s <->
  exists b, Prefix_Bytes pfx = Ok b /\ s = PrefixStore RootStore (path_head up b).
Proof. unfold ProxyStore. rewrite obind_Ok. naive_solver. Qed.

Lemma ProxyStore_key pfx up s key :
  ProxyStore pfx up = Ok s ->
  exists b, Prefix_Bytes pfx = Ok b /\ store_key s key = path_head up b +:+ key.
Proof.
  intros (b & Hb & ->)%ProxyStore_Ok. exists b. simpl. by rewrite law_prefix_key.
Qed.

Lemma ProxyClientStore_key pfx up id s key :
  ProxyClientStore pfx up id = Ok s ->
  exists b, Prefix_Bytes pfx = Ok b /\
    store_key s key = path_head up b +:+ ("clients/" +:+ id +:+ "/" +:+ key).
Proof.
  unfold ProxyClientStore. intros (s0 & (b & Hb & ->)%ProxyStore_Ok & [= <-])%obind_Ok.
  exists b. simpl. by rewrite !law_prefix_key, !app_str_assoc.
Qed.

Lemma found_bytes_Some o bz : found_bytes o = Some bz <-> o = Some bz /\ bz <> "".
Proof. destruct o as [[|c s]|]; simpl; naive_solver. Qed.

(** Reads leave the state alone, and what they return is what the store holds. *)
Lemma GetProxyConnection_run pfx up id w r w' :
  GetProxyConnection pfx up id w = (r, w') ->
  w' = w /\
  (forall o, r = Ok o -> exists b, Prefix_Bytes pfx = Ok b /\ conn_at (w_proxy w) up b id = o).
Proof.
  unfold GetProxyConnection, mbind, mlift. intros H.
  destruct (ProxyStore pfx up) as [s|e|p] eqn:Hs; simplify_eq/=; [|naive_solver..].
  destruct (ProxyStore_key _ _ _ (ConnectionKey id) Hs) as (b & Hb & Hk).
  unfold store_Get, mget, mret in H. rewrite Hk in H.
  assert (w' = w) as ->.
  { repeat (case_match; simplify_eq/=); done. }
  split; [done|]. intros o ->. exists b. split; [done|].
  unfold conn_at. revert H.
  destruct (found_bytes _) as [bz|]; [|by intros [= ->]].
  destruct (cdc_UnmarshalConnection bz); simpl; congruence.
Qed.

Lemma GetProxyChannel_run pfx up port id w r w' :
  GetProxyChannel pfx up port id w = (r, w') ->
  w' = w /\
  (forall o, r = Ok o ->
     exists b, Prefix_Bytes pfx = Ok b /\ chan_at (w_proxy w) up b port id = o).
Proof.
  unfold GetProxyChannel, mbind, mlift. intros H.
  destruct (ProxyStore pfx up) as [s|e|p] eqn:Hs; simplify_eq/=; [|naive_solver..].
  destruct (ProxyStore_key _ _ _ (ChannelKey port id) Hs) as (b & Hb & Hk).
  unfold store_Get, mget, mret in H. rewrite Hk in H.
  assert (w' = w) as ->.
  { repeat (case_match; simplify_eq/=); done. }
  split; [done|]. intros o ->. exists b. split; [done|].
  unfold chan_at. revert H.
  destruct (found_bytes _) as [bz|]; [|by intros [= ->]].
  destruct (cdc_UnmarshalChannel bz); simpl; congruence.
Qed.

(** Reading what is stored. *)
Lemma GetProxyConnection_eval pfx up id b c w :
  Prefix_Bytes pfx = Ok b -> conn_at (w_proxy w) up b id = Some c ->
  GetProxyConnection pfx up id w = (Ok (Some c), w).
Proof.
  intros Hb Hc. unfold GetProxyConnection, ProxyStore, mbind, mlift, store_Get, mget.
  rewrite Hb. simpl. rewrite law_prefix_key. fold (path_head up b).
  unfold conn_at in Hc. destruct (found_bytes _) as [bz|]; [|done].
  by destruct (cdc_UnmarshalConnection bz); simplify_eq.
Qed.

Lemma GetProxyChannel_eval pfx up port id b c w :
  Prefix_Bytes pfx = Ok b -> chan_at (w_proxy w) up b port id = Some c ->
  GetProxyChannel pfx up port id w = (Ok (Some c), w).
Proof.
  intros Hb Hc. unfold GetProxyChannel, ProxyStore, mbind, mlift, store_Get, mget.
  rewrite Hb. simpl. rewrite law_prefix_key. fold (path_head up b).
  unfold chan_at in Hc. destruct (found_bytes _) as [bz|]; [|done].
  by destruct (cdc_UnmarshalChannel bz); simplify_eq.
Qed.

(** What a write of a connection or a channel makes readable. *)
Lemma conn_at_set_eq kv up b id c bz :
  cdc_MarshalConnection c = Ok bz ->
  conn_at (kv_set (path_head up b +:+ ConnectionKey id) bz kv) up b id = Some c.
Proof.
  intros [Hu Hne]%law_connection_codec. unfold conn_at. rewrite law_get_set_eq.
  destruct bz; [done|]. simpl. by rewrite Hu.
Qed.

Lemma chan_at_set_eq kv up b port id c bz :
  cdc_MarshalChannel c = Ok bz ->
  chan_at (kv_set (path_head up b +:+ ChannelKey port id) bz kv) up b port id = Some c.
Proof.
  intros [Hu Hne]%law_channel_codec. unfold chan_at. rewrite law_get_set_eq.
  destruct bz; [done|]. simpl. by rewrite Hu.
Qed.

Lemma conn_at_set_ne kv up b id k v :
  k <> path_head up b +:+ ConnectionKey id ->
  conn_at (kv_set k v kv) up b id = conn_at kv up b id.
Proof. intros Hne. unfold conn_at. by rewrite law_get_set_ne. Qed.

Lemma chan_at_set_ne kv up b port id k v :
  k <> path_head up b +:+ ChannelKey port id ->
  chan_at (kv_set k v kv) up b port id = chan_at kv up b port id.
Proof. intros Hne. unfold chan_at. by rewrite law_get_set_ne. Qed.

End Lemmas.
