(* ===== verification/Verify.v ===== *)
(** Verification against the upstream's light client, and the proxying of what
    was verified: modules/proxy/keeper/proxy.go, client.go and
    client_keeper.go. *)
From S2P Require Import Prelude.
From S2P Require Import Lib.
From S2P Require Import Keys.
From S2P Require Import Commitment.
From S2P Require Multiv.

Section Verify.
Context `{T : LibTypes, L : !Lib, I : !ClientMethods ClientState, CK : !ClientKeeperI}.

(** [targetClient, found := k.clientKeeper.GetClientState(ctx, id)] and the
    return of ErrClientNotFound. *)
Definition targetClient (upstreamClientID : string) : M World ClientState :=
  let* r := mread (ck_GetClientState upstreamClientID) in
  match r with
  | None => mfail (Wrap (Sdk ErrClientNotFound) upstreamClientID)
  | Some c => mret c
  end.

(** getBlockDelay always returns 0 *)
Definition getBlockDelay (connection : ConnectionEnd) : N := 0.

Definition VerifyClientState (upstreamClientID : string) (upstreamPrefix : Prefix)
    (counterpartyClientID : string) (height : Height)
    (proof : bytes) (clientState : ClientState) : M World unit :=
  let* c := targetClient upstreamClientID in
  mmap_err
    (fun err => Wrapf err "failed client state verification for target client: %s" [upstreamClientID])
    (mext (cs_VerifyClientState c (ck_ClientStore upstreamClientID) height upstreamPrefix counterpartyClientID proof clientState)).

Definition VerifyAndProxyClientState (upstreamClientID : string) (upstreamPrefix : Prefix)
    (counterpartyClientID : string) (height : Height)
    (proof : bytes) (clientState : ClientState) : M World unit :=
  VerifyClientState upstreamClientID upstreamPrefix counterpartyClientID height proof clientState ;;*
  SetProxyClientState upstreamPrefix counterpartyClientID upstreamClientID clientState.

Definition VerifyClientConsensusState (upstreamClientID : string) (upstreamPrefix : Prefix)
    (counterpartyClientID : string)
    (height consensusHeight : Height) (proof : bytes) (consensusState : ConsensusState) : M World unit :=
  let* c := targetClient upstreamClientID in
  mmap_err
    (fun err => Wrapf err "failed consensus state verification for client (%s)" [upstreamClientID])
    (mext (cs_VerifyClientConsensusState c (ck_ClientStore upstreamClientID) height counterpartyClientID consensusHeight upstreamPrefix proof consensusState)).

Definition VerifyAndProxyClientConsensusState (upstreamClientID : string) (upstreamPrefix : Prefix)
    (counterpartyClientID : string)
    (height consensusHeight : Height) (proof : bytes) (consensusState : ConsensusState) : M World unit :=
  VerifyClientConsensusState upstreamClientID upstreamPrefix counterpartyClientID height consensusHeight proof
    consensusState ;;*
  SetProxyClientConsensusState upstreamPrefix counterpartyClientID upstreamClientID
    consensusHeight consensusState.

Definition VerifyConnectionState (upstreamClientID : string) (upstreamPrefix : Prefix)
    (connection : ConnectionEnd) (height : Height)
    (proof : bytes) (connectionID : string) : M World unit :=
  let* c := targetClient upstreamClientID in
  mmap_err
    (fun err => Wrapf err "failed connection state verification for client (%s)" [upstreamClientID])
    (mext (cs_VerifyConnectionState c (ck_ClientStore upstreamClientID) height upstreamPrefix proof connectionID connection)).

Definition VerifyAndProxyConnectionState (upstreamClientID : string) (upstreamPrefix : Prefix)
    (connection : ConnectionEnd) (height : Height)
    (proof : bytes) (connectionID : string) : M World unit :=
  VerifyConnectionState upstreamClientID upstreamPrefix connection height proof connectionID ;;*
  SetProxyConnection upstreamPrefix upstreamClientID connectionID connection.

Definition VerifyChannelState (upstreamClientID : string) (upstreamPrefix : Prefix)
    (height : Height) (proof : bytes)
    (portID channelID : string) (channel : Channel) : M World unit :=
  let* c := targetClient upstreamClientID in
  mmap_err
    (fun err => Wrapf err "failed channel state verification for client (%s)" [upstreamClientID])
    (mext (cs_VerifyChannelState c (ck_ClientStore upstreamClientID) height upstreamPrefix proof portID channelID channel)).

Definition VerifyAndProxyChannelState (upstreamClientID : string) (upstreamPrefix : Prefix)
    (height : Height) (proof : bytes)
    (portID channelID : string) (channel : Channel) : M World unit :=
  VerifyChannelState upstreamClientID upstreamPrefix height proof portID channelID channel ;;*
  SetProxyChannel upstreamPrefix upstreamClientID portID channelID channel.

Definition VerifyPacketCommitment (upstreamClientID : string) (upstreamPrefix : Prefix)
    (connection : ConnectionEnd) (height : Height)
    (proof : bytes) (portID channelID : string) (sequence : N)
    (commitmentBytes : bytes) : M World unit :=
  let* c := targetClient upstreamClientID in
  mmap_err
    (fun err => Wrapf err "failed packet commitment verification for client (%s)"
       [conn_ClientId connection])
    (mext (cs_VerifyPacketCommitment c (ck_ClientStore upstreamClientID) height
       (conn_DelayPeriod connection) (getBlockDelay connection)
       upstreamPrefix proof portID channelID sequence commitmentBytes)).

Definition VerifyAndProxyPacketCommitment (upstreamClientID : string) (upstreamPrefix : Prefix)
    (connection : ConnectionEnd) (height : Height)
    (proof : bytes) (portID channelID : string) (sequence : N)
    (commitmentBytes : bytes) : M World unit :=
  VerifyPacketCommitment upstreamClientID upstreamPrefix connection height proof portID channelID
    sequence commitmentBytes ;;*
  SetProxyPacketCommitment upstreamPrefix upstreamClientID portID channelID sequence
    commitmentBytes.

Definition VerifyPacketAcknowledgement (upstreamClientID : string) (upstreamPrefix : Prefix)
    (connection : ConnectionEnd) (height : Height)
    (proof : bytes) (portID channelID : string) (sequence : N)
    (acknowledgement : bytes) : M World unit :=
  let* c := targetClient upstreamClientID in
  mmap_err
    (fun err => Wrapf err "failed packet acknowledgement verification for client (%s)"
       [conn_ClientId connection])
    (mext (cs_VerifyPacketAcknowledgement c (ck_ClientStore upstreamClientID) height
       (conn_DelayPeriod connection) (getBlockDelay connection)
       upstreamPrefix proof portID channelID sequence acknowledgement)).

Definition VerifyAndProxyPacketAcknowledgement (upstreamClientID : string) (upstreamPrefix : Prefix)
    (connection : ConnectionEnd) (height : Height)
    (proof : bytes) (portID channelID : string) (sequence : N)
    (acknowledgement : bytes) : M World unit :=
  VerifyPacketAcknowledgement upstreamClientID upstreamPrefix connection height proof portID channelID
    sequence acknowledgement ;;*
  SetProxyPacketAcknowledgement upstreamPrefix upstreamClientID portID channelID sequence
    acknowledgement.

Definition VerifyPacketReceiptAbsence (upstreamClientID : string) (upstreamPrefix : Prefix)
    (connection : ConnectionEnd) (height : Height)
    (proof : bytes) (portID channelID : string) (sequence : N) : M World unit :=
  let* c := targetClient upstreamClientID in
  mmap_err
    (fun err => Wrapf err "failed packet receipt absence verification for client (%s)"
       [conn_ClientId connection])
    (mext (cs_VerifyPacketReceiptAbsence c (ck_ClientStore upstreamClientID) height
       (conn_DelayPeriod connection) (getBlockDelay connection)
       upstreamPrefix proof portID channelID sequence)).

Definition VerifyAndProxyPacketReceiptAbsence (upstreamClientID : string) (upstreamPrefix : Prefix)
    (connection : ConnectionEnd) (height : Height)
    (proof : bytes) (portID channelID : string) (sequence : N) : M World unit :=
  VerifyPacketReceiptAbsence upstreamClientID upstreamPrefix connection height proof portID channelID
    sequence ;;*
  SetProxyPacketReceiptAbsence upstreamPrefix upstreamClientID portID channelID sequence.

Definition VerifyNextSequenceRecv (upstreamClientID : string) (upstreamPrefix : Prefix)
    (connection : ConnectionEnd) (height : Height)
    (proof : bytes) (portID channelID : string) (nextSequenceRecv : N) : M World unit :=
  let* c := targetClient upstreamClientID in
  mmap_err
    (fun err => Wrapf err "failed next sequence receive verification for client (%s)"
       [conn_ClientId connection])
    (mext (cs_VerifyNextSequenceRecv c (ck_ClientStore upstreamClientID) height
       (conn_DelayPeriod connection) (getBlockDelay connection)
       upstreamPrefix proof portID channelID nextSequenceRecv)).

Definition VerifyAndProxyNextSequenceRecv (upstreamClientID : string) (upstreamPrefix : Prefix)
    (connection : ConnectionEnd) (height : Height)
    (proof : bytes) (portID channelID : string) (nextSequenceRecv : N) : M World unit :=
  VerifyNextSequenceRecv upstreamClientID upstreamPrefix connection height proof portID channelID
    nextSequenceRecv ;;*
  SetProxyNextSequenceRecv upstreamPrefix upstreamClientID portID channelID nextSequenceRecv.

(** ** client.go *)

(** Keeper.ClientState *)
Definition Keeper_ClientState (upstreamClientID : string) (upstreamPrefix : Prefix)
    (counterpartyClientID : string) (clientState : ClientState)
    (expectedConsensusState : ConsensusState) (proofClient proofConsensus : bytes)
    (proofHeight consensusHeight : Height) : M World unit :=
  VerifyAndProxyClientState upstreamClientID upstreamPrefix counterpartyClientID
    proofHeight proofClient clientState ;;*
  VerifyAndProxyClientConsensusState upstreamClientID upstreamPrefix counterpartyClientID
    proofHeight consensusHeight proofConsensus expectedConsensusState ;;*
  mret tt.

End Verify.

(** ** client_keeper.go: the client keeper whose [ValidateSelfClient] looks
    under a multi-stage client. *)
Section ClientKeeper.
Context `{T : LibTypes, L : !Lib}.

Definition ValidateSelfClient (base : ClientKeeperI) (clientState : ClientState) :
    M ExtState unit :=
  match clientState with
  | CSMultiv cs =>
      let* u := mlift (Multiv.GetUnderlyingClientState cs) in
      @ck_ValidateSelfClient _ base u
  | _ => @ck_ValidateSelfClient _ base clientState
  end.

Definition NewClientKeeper (base : ClientKeeperI) : ClientKeeperI := {|
  ck_ClientStore := @ck_ClientStore _ base;
  ck_GetClientState := @ck_GetClientState _ base;
  ck_GetSelfConsensusState := @ck_GetSelfConsensusState _ base;
  ck_ValidateSelfClient := ValidateSelfClient base
|}.
End ClientKeeper.
