(* ===== verification/Connection.v ===== *)
(** The connection handshake on the proxy: modules/proxy/keeper/connection.go. *)
From S2P Require Import Prelude.
From S2P Require Import Lib.
From S2P Require Import Keys.
From S2P Require Import Commitment.
From S2P Require Import Verify.
From S2P Require ProxyClient Multiv.

Section Connection.
Context `{T : LibTypes, L : !Lib, I : !ClientMethods ClientState, CK : !ClientKeeperI}.

Definition validateSelfClient (k : Keeper) (clientState : ProxyCS) : M World unit :=
  let* b1 := mlift (Prefix_Bytes (GetIBCCommitmentPrefix k)) in
  let* b2 := mlift (Prefix_Bytes (MerklePfx (pcs_IbcPrefix clientState))) in
  if negb (bool_decide (b1 = b2))
  then mfail (Errorf "IBC commitment prefix mismatch: %X != %X" [b1; b2])
  else
  let* b3 := mlift (Prefix_Bytes (GetProxyCommitmentPrefix k)) in
  let* b4 := mlift (Prefix_Bytes (MerklePfx (pcs_ProxyPrefix clientState))) in
  if negb (bool_decide (b3 = b4))
  then mfail (Errorf "Proxy commitment prefix mismatch: %X != %X" [b3; b4])
  else
  let* inner := mlift (ProxyClient.GetProxyClientState clientState) in
  mext (ck_ValidateSelfClient inner).

Definition getSelfConsensusState (consensusHeight : Height) : M World ProxyConsS :=
  let* selfConsensusState := mread (ck_GetSelfConsensusState consensusHeight) in
  match selfConsensusState with
  | None => mfail (Errorf "self consensus state not found: height=%v" [])
  | Some selfConsensusState =>
      let* anyConsensusState := mlift (PackConsensusState (Some selfConsensusState)) in
      mret (ProxyClient.NewConsensusState (Some anyConsensusState))
  end.

Definition produceVerificationArgs (k : Keeper) (proxyClientState : ClientState)
    (proxyConsensusHeight : Height) : M World (ProxyCS * ProxyConsS * string) :=
  match proxyClientState with
  | CSProxy clientState =>
      validateSelfClient k clientState ;;*
      let* consensusState := getSelfConsensusState proxyConsensusHeight in
      mret (clientState, consensusState, pcs_UpstreamClientId clientState)
  | _ =>
      let* t := mlift (cs_ClientType proxyClientState) in
      mfail (Errorf "invalid client type '%v'" [t])
  end.

Definition makeMemStore (consensusState : ConsensusState) (proofHeight : Height) :
    M ExtState KVStore :=
  let* consensusStateBytes := mlift (must (MarshalConsensusState consensusState)) in
  let* store := NewMemStore in
  st_Set store (ConsensusStateKey proofHeight) consensusStateBytes ;;*
  mret store.

(** [if dcs, ok := downstreamClientState.( *multivtypes.ClientState); ok {
       downstreamClientState = dcs.GetUnderlyingClientState() }] *)
Definition unwrapMultiv (downstreamClientState : ClientState) : outcome ClientState :=
  match downstreamClientState with
  | CSMultiv dcs => Multiv.GetUnderlyingClientState dcs
  | _ => Ok downstreamClientState
  end.

Definition ConnOpenTry (k : Keeper)
    (connectionID : string) (upstreamPrefix : Prefix) (connection : ConnectionEnd)
    (downstreamClientState : ClientState) (downstreamConsensusState : ConsensusState)
    (proxyClientState : ClientState)
    (proofInit proofClient proofConsensus : bytes) (proofHeight consensusHeight : Height)
    (proofProxyClient proofProxyConsensus : bytes)
    (proofProxyHeight proxyConsensusHeight : Height) : M World unit :=
  let* (proxyClientState, proxyConsensusState, upstreamClientID) :=
    produceVerificationArgs k proxyClientState proxyConsensusHeight in
  let* found := GetProxyConnection upstreamPrefix upstreamClientID connectionID in
  match found with
  | Some _ =>
      mfail (Errorf "connection '%v:%v' already exists" [upstreamClientID; connectionID])
  | None =>
  if negb (conn_State connection =? conn_INIT)%Z
  then mfail (Errorf "connection state must be %s" [])
  else
  VerifyAndProxyClientState upstreamClientID upstreamPrefix (conn_ClientId connection)
    proofHeight proofClient downstreamClientState ;;*
  VerifyAndProxyClientConsensusState upstreamClientID upstreamPrefix
    (conn_ClientId connection) proofHeight consensusHeight proofConsensus
    downstreamConsensusState ;;*
  let* downstreamClientState := mlift (unwrapMultiv downstreamClientState) in
  let* store := mext (makeMemStore downstreamConsensusState proofProxyHeight) in
  mext (cs_VerifyClientState downstreamClientState store proofProxyHeight
          (MerklePfx (Some (cc_Prefix (conn_Counterparty connection))))
          (cc_ClientId (conn_Counterparty connection)) proofProxyClient
          (CSProxy proxyClientState)) ;;*
  mext (cs_VerifyClientConsensusState downstreamClientState store proofProxyHeight
          (cc_ClientId (conn_Counterparty connection)) proxyConsensusHeight
          (MerklePfx (Some (cc_Prefix (conn_Counterparty connection))))
          proofProxyConsensus (ConsProxy proxyConsensusState)) ;;*
  VerifyAndProxyConnectionState upstreamClientID upstreamPrefix connection proofHeight
    proofInit connectionID
  end.

Definition ConnOpenAck (k : Keeper)
    (connectionID : string) (upstreamPrefix : Prefix) (connectionEnd : ConnectionEnd)
    (downstreamClientState : ClientState) (downstreamConsensusState : ConsensusState)
    (proxyClientState : ClientState)
    (proofTry proofClient proofConsensus : bytes) (proofHeight consensusHeight : Height)
    (proofProxyClient proofProxyConsensus : bytes)
    (proofProxyHeight proxyConsensusHeight : Height) : M World unit :=
  let* (proxyClientState, proxyConsensusState, upstreamClientID) :=
    produceVerificationArgs k proxyClientState proxyConsensusHeight in
  let* found := GetProxyConnection upstreamPrefix upstreamClientID connectionID in
  match found with
  | Some _ =>
      mfail (Errorf "connection '%v:%v' already exists" [upstreamClientID; connectionID])
  | None =>
  if negb (conn_State connectionEnd =? conn_TRYOPEN)%Z
  then mfail (Wrapf (Sdk ErrInvalidConnectionState)
                "connection state is not TRYOPEN (got %s)" [])
  else
  VerifyAndProxyClientState upstreamClientID upstreamPrefix (conn_ClientId connectionEnd)
    proofHeight proofClient downstreamClientState ;;*
  VerifyAndProxyClientConsensusState upstreamClientID upstreamPrefix
    (conn_ClientId connectionEnd) proofHeight consensusHeight proofConsensus
    downstreamConsensusState ;;*
  let* downstreamClientState := mlift (unwrapMultiv downstreamClientState) in
  let* store := mext (makeMemStore downstreamConsensusState proofProxyHeight) in
  mext (cs_VerifyClientState downstreamClientState store proofProxyHeight
          (MerklePfx (Some (cc_Prefix (conn_Counterparty connectionEnd))))
          (cc_ClientId (conn_Counterparty connectionEnd)) proofProxyClient
          (CSProxy proxyClientState)) ;;*
  mext (cs_VerifyClientConsensusState downstreamClientState store proofProxyHeight
          (cc_ClientId (conn_Counterparty connectionEnd)) proxyConsensusHeight
          (MerklePfx (Some (cc_Prefix (conn_Counterparty connectionEnd))))
          proofProxyConsensus (ConsProxy proxyConsensusState)) ;;*
  VerifyAndProxyConnectionState upstreamClientID upstreamPrefix connectionEnd proofHeight
    proofTry connectionID
  end.

Definition connection_not_found (upstreamClientID connectionID : string) : error :=
  Wrapf (Sdk ErrConnectionNotFound) "connection '%#v:%v:%v' not found"
    [upstreamClientID; connectionID].

(** connectionEnd.State = s *)
Definition set_State (s : Z) (c : ConnectionEnd) : ConnectionEnd :=
  mkConnectionEnd (conn_ClientId c) (conn_Versions c) s (conn_Counterparty c)
    (conn_DelayPeriod c).

(** connectionEnd.Counterparty.ConnectionId = id *)
Definition set_Counterparty_ConnectionId (id : string) (c : ConnectionEnd) : ConnectionEnd :=
  mkConnectionEnd (conn_ClientId c) (conn_Versions c) (conn_State c)
    (mkConnCounterparty (cc_ClientId (conn_Counterparty c)) id
       (cc_Prefix (conn_Counterparty c)))
    (conn_DelayPeriod c).

Definition ConnOpenConfirm (connectionID upstreamClientID : string)
    (upstreamPrefix : Prefix) (counterpartyConnectionID : string)
    (proofAck : bytes) (proofHeight : Height) : M World unit :=
  let* found := GetProxyConnection upstreamPrefix upstreamClientID connectionID in
  match found with
  | None => mfail (connection_not_found upstreamClientID connectionID)
  | Some connectionEnd =>
  if negb (conn_State connectionEnd =? conn_INIT)%Z
  then mfail (Wrapf (Sdk ErrInvalidConnectionState)
                "connection state is not INIT (got %s)" [])
  else
  let connectionEnd := set_State conn_OPEN connectionEnd in
  let connectionEnd := set_Counterparty_ConnectionId counterpartyConnectionID connectionEnd in
  VerifyAndProxyConnectionState upstreamClientID upstreamPrefix connectionEnd proofHeight
    proofAck connectionID
  end.

Definition ConnOpenFinalize (connectionID upstreamClientID : string)
    (upstreamPrefix : Prefix) (proofConfirm : bytes) (proofHeight : Height) :
    M World unit :=
  let* found := GetProxyConnection upstreamPrefix upstreamClientID connectionID in
  match found with
  | None => mfail (connection_not_found upstreamClientID connectionID)
  | Some connectionEnd =>
  if negb (conn_State connectionEnd =? conn_TRYOPEN)%Z
  then mfail (Wrapf (Sdk ErrInvalidConnectionState)
                "connection state is not TRYOPEN (got %s)" [])
  else
  let connectionEnd := set_State conn_OPEN connectionEnd in
  VerifyAndProxyConnectionState upstreamClientID upstreamPrefix connectionEnd proofHeight
    proofConfirm connectionID
  end.

End Connection.
