(* ===== verification/Channel.v ===== *)
(** The channel handshake on the proxy: modules/proxy/keeper/channel.go. *)
From S2P Require Import Prelude.
From S2P Require Import Lib.
From S2P Require Import Keys.
From S2P Require Import Commitment.
From S2P Require Import Verify.
From S2P Require Import Connection.

Section Channel.
Context `{T : LibTypes, L : !Lib, I : !ClientMethods ClientState, CK : !ClientKeeperI}.

Definition validateChannelOrder (order : Z) (connectionEnd : ConnectionEnd) : outcome unit :=
  match conn_Versions connectionEnd with
  | [v] =>
      if negb (VerifySupportedFeature v (Order_String order))
      then Err (Wrapf (Sdk ErrInvalidVersion)
                  "connection version %s does not support channel ordering: %s"
                  [Order_String order])
      else Ok tt
  | _ =>
      Err (Wrapf (Sdk ErrInvalidVersion)
             "single version must be negotiated on connection before opening channel, got: %v"
             [])
  end.

Definition channel_not_found (upstreamClientID portID channelID : string) : error :=
  Errorf "channel '%#v:%v:%v:%v' not found" [upstreamClientID; portID; channelID].

Definition connection_not_open : error :=
  Wrapf (Sdk ErrInvalidConnectionState) "connection state is not OPEN (got %s)" [].

(** [hops[0]]: a run-time panic on an empty slice *)
Definition first_hop (hops : list string) : outcome string :=
  match hops with h :: _ => Ok h | [] => Panic PIndexOutOfRange end.

Definition ChanOpenTry (upstreamClientID : string) (upstreamPrefix : Prefix) (order : Z)
    (connectionHops : list string)
    (upstreamPortID upstreamChannelID downstreamPortID version : string)
    (proofInit : bytes) (proofHeight : Height) : M World unit :=
  if negb (length connectionHops =? 1)%nat
  then mfail (Errorf "hops length must be 1, but got %v" [])
  else
  let* hop := mlift (first_hop connectionHops) in
  let* found := GetProxyConnection upstreamPrefix upstreamClientID hop in
  match found with
  | None => mfail (connection_not_found upstreamClientID hop)
  | Some connectionEnd =>
  mlift (validateChannelOrder order connectionEnd) ;;*
  let expectedCounterparty := mkChanCounterparty downstreamPortID "" in
  let expectedChannel :=
    mkChannel chan_INIT order expectedCounterparty connectionHops version in
  VerifyAndProxyChannelState upstreamClientID upstreamPrefix proofHeight proofInit
    upstreamPortID upstreamChannelID expectedChannel
  end.

Definition ChanOpenAck (upstreamClientID : string) (upstreamPrefix : Prefix) (order : Z)
    (connectionHops : list string)
    (upstreamPortID upstreamChannelID downstreamPortID downstreamChannelID version : string)
    (proofTry : bytes) (proofHeight : Height) : M World unit :=
  if negb (length connectionHops =? 1)%nat
  then mfail (Errorf "hops length must be 1, but got %v" [])
  else
  let* hop := mlift (first_hop connectionHops) in
  let* found := GetProxyConnection upstreamPrefix upstreamClientID hop in
  match found with
  | None => mfail (connection_not_found upstreamClientID hop)
  | Some connectionEnd =>
  if negb (conn_State connectionEnd =? conn_OPEN)%Z
  then mfail connection_not_open
  else
  mlift (validateChannelOrder order connectionEnd) ;;*
  let expectedCounterparty := mkChanCounterparty downstreamPortID downstreamChannelID in
  let expectedChannel :=
    mkChannel chan_TRYOPEN order expectedCounterparty connectionHops version in
  VerifyAndProxyChannelState upstreamClientID upstreamPrefix proofHeight proofTry
    upstreamPortID upstreamChannelID expectedChannel
  end.

(** channel.State = s *)
Definition set_chan_State (s : Z) (c : Channel) : Channel :=
  mkChannel s (chan_Ordering c) (chan_Counterparty c) (chan_ConnectionHops c)
    (chan_Version c).

(** channel.Counterparty.ChannelId = id *)
Definition set_chan_Counterparty_ChannelId (id : string) (c : Channel) : Channel :=
  mkChannel (chan_State c) (chan_Ordering c)
    (mkChanCounterparty (chc_PortId (chan_Counterparty c)) id)
    (chan_ConnectionHops c) (chan_Version c).

Definition ChanOpenConfirm (upstreamClientID : string) (upstreamPrefix : Prefix)
    (upstreamPortID upstreamChannelID downstreamChannelID : string)
    (proofAck : bytes) (proofHeight : Height) : M World unit :=
  let* found :=
    GetProxyChannel upstreamPrefix upstreamClientID upstreamPortID upstreamChannelID in
  match found with
  | None => mfail (channel_not_found upstreamClientID upstreamPortID upstreamChannelID)
  | Some channel =>
  if negb (bool_decide (chc_ChannelId (chan_Counterparty channel) = ""))
  then mfail (Errorf "counterparty.ChannelID must be empty, but got '%v'"
                [chc_ChannelId (chan_Counterparty channel)])
  else if negb (chan_State channel =? chan_INIT)%Z
  then mfail (Errorf "channel state must be %s" [])
  else
  let* hop := mlift (first_hop (chan_ConnectionHops channel)) in
  let* found := GetProxyConnection upstreamPrefix upstreamClientID hop in
  match found with
  | None => mfail (connection_not_found upstreamClientID hop)
  | Some connectionEnd =>
  if negb (conn_State connectionEnd =? conn_OPEN)%Z
  then mfail connection_not_open
  else
  let channel := set_chan_Counterparty_ChannelId downstreamChannelID channel in
  let channel := set_chan_State chan_OPEN channel in
  VerifyAndProxyChannelState upstreamClientID upstreamPrefix proofHeight proofAck
    upstreamPortID upstreamChannelID channel
  end
  end.

Definition ChanOpenFinalize (upstreamClientID : string) (upstreamPrefix : Prefix)
    (upstreamPortID upstreamChannelID : string) (proofConfirm : bytes)
    (proofHeight : Height) : M World unit :=
  let* found :=
    GetProxyChannel upstreamPrefix upstreamClientID upstreamPortID upstreamChannelID in
  match found with
  | None => mfail (channel_not_found upstreamClientID upstreamPortID upstreamChannelID)
  | Some channel =>
  if negb (chan_State channel =? chan_TRYOPEN)%Z
  then mfail (Errorf "channel state must be %s" [])
  else
  let* hop := mlift (first_hop (chan_ConnectionHops channel)) in
  let* found := GetProxyConnection upstreamPrefix upstreamClientID hop in
  match found with
  | None => mfail (connection_not_found upstreamClientID hop)
  | Some connectionEnd =>
  if negb (conn_State connectionEnd =? conn_OPEN)%Z
  then mfail connection_not_open
  else
  let channel := set_chan_State chan_OPEN channel in
  VerifyAndProxyChannelState upstreamClientID upstreamPrefix proofHeight proofConfirm
    upstreamPortID upstreamChannelID channel
  end
  end.

End Channel.
