(* ===== verification/PacketFlow.v ===== *)
(** Packets relayed through the proxy: modules/proxy/keeper/packet.go. *)
From S2P Require Import Prelude.
From S2P Require Import Lib.
From S2P Require Import Keys.
From S2P Require Import Commitment.
From S2P Require Import Verify.
From S2P Require Import Connection.
From S2P Require Import Channel.

Section PacketFlow.
Context `{T : LibTypes, L : !Lib, I : !ClientMethods ClientState, CK : !ClientKeeperI}.

Definition RecvPacket (upstreamClientID : string) (upstreamPrefix : Prefix)
    (packet : Packet) (proof : bytes) (proofHeight : Height) : M World unit :=
  let* found :=
    GetProxyChannel upstreamPrefix upstreamClientID (pkt_SourcePort packet)
      (pkt_SourceChannel packet) in
  match found with
  | None => mfail (Wrap (Sdk ErrChannelNotFound) (pkt_SourceChannel packet))
  | Some channel =>
  if negb (bool_decide (pkt_DestinationPort packet = chc_PortId (chan_Counterparty channel)))
  then mfail (Wrapf (Sdk ErrInvalidPacket)
                "packet dest port doesn't match the counterparty's port (%s ≠ %s)"
                [pkt_DestinationPort packet; chc_PortId (chan_Counterparty channel)])
  else
  if negb (bool_decide
             (pkt_DestinationChannel packet = chc_ChannelId (chan_Counterparty channel)))
  then mfail (Wrapf (Sdk ErrInvalidPacket)
                "packet dest channel doesn't match the counterparty's channel (%s ≠ %s)"
                [pkt_DestinationChannel packet; chc_ChannelId (chan_Counterparty channel)])
  else
  let* hop := mlift (first_hop (chan_ConnectionHops channel)) in
  let* found := GetProxyConnection upstreamPrefix upstreamClientID hop in
  match found with
  | None => mfail (Wrap (Sdk ErrConnectionNotFound) hop)
  | Some connectionEnd =>
  VerifyAndProxyPacketCommitment upstreamClientID upstreamPrefix connectionEnd proofHeight
    proof (pkt_SourcePort packet) (pkt_SourceChannel packet) (pkt_Sequence packet)
    (CommitPacket packet)
  end
  end.

Definition AcknowledgePacket (upstreamClientID : string) (upstreamPrefix : Prefix)
    (packet : Packet) (acknowledgement proof : bytes) (proofHeight : Height) :
    M World unit :=
  let* found :=
    GetProxyChannel upstreamPrefix upstreamClientID (pkt_DestinationPort packet)
      (pkt_DestinationChannel packet) in
  match found with
  | None => mfail (Wrapf (Sdk ErrChannelNotFound) "port ID (%s) channel ID (%s)"
                     [pkt_DestinationPort packet; pkt_DestinationChannel packet])
  | Some channel =>
  let* hop := mlift (first_hop (chan_ConnectionHops channel)) in
  let* found := GetProxyConnection upstreamPrefix upstreamClientID hop in
  match found with
  | None => mfail (Wrap (Sdk ErrConnectionNotFound) hop)
  | Some connectionEnd =>
  VerifyAndProxyPacketAcknowledgement upstreamClientID upstreamPrefix connectionEnd
    proofHeight proof (pkt_DestinationPort packet) (pkt_DestinationChannel packet)
    (pkt_Sequence packet) acknowledgement
  end
  end.

End PacketFlow.
