(* ===== verification/Msgs.v ===== *)
(** The messages of the proxy module and their sdk.Msg methods:
    modules/proxy/types/msgs.go, over the message structs of tx.pb.go.
    [Order] is an int32 enumeration. *)
From S2P Require Import Prelude.
From S2P Require Import Lib.

Record MsgProxyClientState := mkMsgProxyClientState {
  PCS_UpstreamClientId : string;
  PCS_UpstreamPrefix : MerklePrefix;
  PCS_CounterpartyClientId : string;
  PCS_ClientState : option AnyT;
  PCS_ConsensusState : option AnyT;
  PCS_ProofClient : bytes;
  PCS_ProofConsensus : bytes;
  PCS_ProofHeight : Height;
  PCS_ConsensusHeight : Height;
  PCS_Signer : string
}.

Record MsgProxyConnectionOpenTry := mkMsgProxyConnectionOpenTry {
  COT_ConnectionId : string;
  COT_UpstreamPrefix : MerklePrefix;
  COT_Connection : ConnectionEnd;
  COT_DownstreamClientState : option AnyT;
  COT_DownstreamConsensusState : option AnyT;
  COT_ProxyClientState : option AnyT;
  COT_ProofInit : bytes;
  COT_ProofClient : bytes;
  COT_ProofConsensus : bytes;
  COT_ProofHeight : Height;
  COT_ConsensusHeight : Height;
  COT_ProofProxyClient : bytes;
  COT_ProofProxyConsensus : bytes;
  COT_ProofProxyHeight : Height;
  COT_ProxyConsensusHeight : Height;
  COT_Signer : string
}.

Record MsgProxyConnectionOpenAck := mkMsgProxyConnectionOpenAck {
  COA_ConnectionId : string;
  COA_UpstreamPrefix : MerklePrefix;
  COA_Connection : ConnectionEnd;
  COA_DownstreamClientState : option AnyT;
  COA_DownstreamConsensusState : option AnyT;
  COA_ProxyClientState : option AnyT;
  COA_ProofTry : bytes;
  COA_ProofClient : bytes;
  COA_ProofConsensus : bytes;
  COA_ProofHeight : Height;
  COA_ConsensusHeight : Height;
  COA_ProofProxyClient : bytes;
  COA_ProofProxyConsensus : bytes;
  COA_ProofProxyHeight : Height;
  COA_ProxyConsensusHeight : Height;
  COA_Signer : string
}.

Record MsgProxyConnectionOpenConfirm := mkMsgProxyConnectionOpenConfirm {
  COC_ConnectionId : string;
  COC_UpstreamClientId : string;
  COC_UpstreamPrefix : MerklePrefix;
  COC_CounterpartyConnectionId : string;
  COC_ProofAck : bytes;
  COC_ProofHeight : Height;
  COC_Signer : string
}.

Record MsgProxyConnectionOpenFinalize := mkMsgProxyConnectionOpenFinalize {
  COF_ConnectionId : string;
  COF_UpstreamClientId : string;
  COF_UpstreamPrefix : MerklePrefix;
  COF_ProofConfirm : bytes;
  COF_ProofHeight : Height;
  COF_Signer : string
}.

Record MsgProxyChannelOpenTry := mkMsgProxyChannelOpenTry {
  HOT_UpstreamClientId : string;
  HOT_UpstreamPrefix : MerklePrefix;
  HOT_Order : Z;
  HOT_ConnectionHops : list string;
  HOT_PortId : string;
  HOT_ChannelId : string;
  HOT_DownstreamPortId : string;
  HOT_Version : string;
  HOT_ProofInit : bytes;
  HOT_ProofHeight : Height;
  HOT_Signer : string
}.

Record MsgProxyChannelOpenAck := mkMsgProxyChannelOpenAck {
  HOA_UpstreamClientId : string;
  HOA_UpstreamPrefix : MerklePrefix;
  HOA_Order : Z;
  HOA_ConnectionHops : list string;
  HOA_PortId : string;
  HOA_ChannelId : string;
  HOA_DownstreamPortId : string;
  HOA_DownstreamChannelId : string;
  HOA_Version : string;
  HOA_ProofTry : bytes;
  HOA_ProofHeight : Height;
  HOA_Signer : string
}.

Record MsgProxyChannelOpenConfirm := mkMsgProxyChannelOpenConfirm {
  HOC_UpstreamClientId : string;
  HOC_UpstreamPrefix : MerklePrefix;
  HOC_PortId : string;
  HOC_ChannelId : string;
  HOC_DownstreamChannelId : string;
  HOC_ProofAck : bytes;
  HOC_ProofHeight : Height;
  HOC_Signer : string
}.

Record MsgProxyChannelOpenFinalize := mkMsgProxyChannelOpenFinalize {
  HOF_UpstreamClientId : string;
  HOF_UpstreamPrefix : MerklePrefix;
  HOF_PortId : string;
  HOF_ChannelId : string;
  HOF_ProofConfirm : bytes;
  HOF_ProofHeight : Height;
  HOF_Signer : string
}.

Record MsgProxyRecvPacket := mkMsgProxyRecvPacket {
  RPK_UpstreamClientId : string;
  RPK_UpstreamPrefix : MerklePrefix;
  RPK_Packet : Packet;
  RPK_Proof : bytes;
  RPK_ProofHeight : Height;
  RPK_Signer : string
}.

Record MsgProxyAcknowledgePacket := mkMsgProxyAcknowledgePacket {
  APK_UpstreamClientId : string;
  APK_UpstreamPrefix : MerklePrefix;
  APK_Packet : Packet;
  APK_Acknowledgement : bytes;
  APK_Proof : bytes;
  APK_ProofHeight : Height;
  APK_Signer : string
}.

Section Msgs.
Context `{T : LibTypes, L : !Lib}.

(** ** Construction *)

Definition mustPackClientState (clientState : ClientState) : outcome AnyT :=
  must (PackClientState (Some clientState)).

Definition mustPackConsensusState (consensusState : ConsensusState) : outcome AnyT :=
  must (PackConsensusState (Some consensusState)).

(** The constructor takes no counterparty client identifier: the field keeps
    its zero value. *)
Definition NewMsgProxyClientState (upstreamClientID : string)
    (upstreamPrefix : MerklePrefix) (clientState : ClientState)
    (consensusState : ConsensusState) (proofClient proofConsensus : bytes)
    (proofHeight consensusHeight : Height) (signer : string) :
    outcome MsgProxyClientState :=
  let? anyClient := PackClientState (Some clientState) in
  let? anyConsensus := PackConsensusState (Some consensusState) in
  Ok {| PCS_UpstreamClientId := upstreamClientID;
        PCS_UpstreamPrefix := upstreamPrefix;
        PCS_CounterpartyClientId := "";
        PCS_ClientState := Some anyClient;
        PCS_ConsensusState := Some anyConsensus;
        PCS_ProofClient := proofClient;
        PCS_ProofConsensus := proofConsensus;
        PCS_ProofHeight := proofHeight;
        PCS_ConsensusHeight := consensusHeight;
        PCS_Signer := signer |}.

Definition NewMsgProxyConnectionOpenTry (connectionID : string)
    (upstreamPrefix : MerklePrefix) (connection : ConnectionEnd)
    (downstreamClientState : ClientState) (downstreamConsensusState : ConsensusState)
    (proxyClientState : ClientState) (proofInit proofClient proofConsensus : bytes)
    (proofHeight consensusHeight : Height) (proofProxyClient proofProxyConsensus : bytes)
    (proofProxyHeight proxyConsensusHeight : Height) (signer : string) :
    outcome MsgProxyConnectionOpenTry :=
  let? anyDownstreamClient := mustPackClientState downstreamClientState in
  let? anyDownstreamConsensus := mustPackConsensusState downstreamConsensusState in
  let? anyProxyClient := mustPackClientState proxyClientState in
  Ok {| COT_ConnectionId := connectionID;
        COT_UpstreamPrefix := upstreamPrefix;
        COT_Connection := connection;
        COT_DownstreamClientState := Some anyDownstreamClient;
        COT_DownstreamConsensusState := Some anyDownstreamConsensus;
        COT_ProxyClientState := Some anyProxyClient;
        COT_ProofInit := proofInit;
        COT_ProofClient := proofClient;
        COT_ProofConsensus := proofConsensus;
        COT_ProofHeight := proofHeight;
        COT_ConsensusHeight := consensusHeight;
        COT_ProofProxyClient := proofProxyClient;
        COT_ProofProxyConsensus := proofProxyConsensus;
        COT_ProofProxyHeight := proofProxyHeight;
        COT_ProxyConsensusHeight := proxyConsensusHeight;
        COT_Signer := signer |}.

Definition NewMsgProxyConnectionOpenAck (connectionID : string)
    (upstreamPrefix : MerklePrefix) (connection : ConnectionEnd)
    (downstreamClientState : ClientState) (downstreamConsensusState : ConsensusState)
    (proxyClientState : ClientState) (proofTry proofClient proofConsensus : bytes)
    (proofHeight consensusHeight : Height) (proofProxyClient proofProxyConsensus : bytes)
    (proofProxyHeight proxyConsensusHeight : Height) (signer : string) :
    outcome MsgProxyConnectionOpenAck :=
  let? anyDownstreamClient := mustPackClientState downstreamClientState in
  let? anyDownstreamConsensus := mustPackConsensusState downstreamConsensusState in
  let? anyProxyClient := mustPackClientState proxyClientState in
  Ok {| COA_ConnectionId := connectionID;
        COA_UpstreamPrefix := upstreamPrefix;
        COA_Connection := connection;
        COA_DownstreamClientState := Some anyDownstreamClient;
        COA_DownstreamConsensusState := Some anyDownstreamConsensus;
        COA_ProxyClientState := Some anyProxyClient;
        COA_ProofTry := proofTry;
        COA_ProofClient := proofClient;
        COA_ProofConsensus := proofConsensus;
        COA_ProofHeight := proofHeight;
        COA_ConsensusHeight := consensusHeight;
        COA_ProofProxyClient := proofProxyClient;
        COA_ProofProxyConsensus := proofProxyConsensus;
        COA_ProofProxyHeight := proofProxyHeight;
        COA_ProxyConsensusHeight := proxyConsensusHeight;
        COA_Signer := signer |}.

Definition NewMsgProxyConnectionOpenConfirm (connectionID upstreamClientID : string)
    (upstreamPrefix : MerklePrefix) (counterpartyConnectionID : string)
    (proofAck : bytes) (proofHeight : Height) (signer : string) :
    outcome MsgProxyConnectionOpenConfirm :=
  Ok {| COC_ConnectionId := connectionID;
        COC_UpstreamClientId := upstreamClientID;
        COC_UpstreamPrefix := upstreamPrefix;
        COC_CounterpartyConnectionId := counterpartyConnectionID;
        COC_ProofAck := proofAck;
        COC_ProofHeight := proofHeight;
        COC_Signer := signer |}.

Definition NewMsgProxyConnectionOpenFinalize (connectionID upstreamClientID : string)
    (upstreamPrefix : MerklePrefix) (proofConfirm : bytes) (proofHeight : Height)
    (signer : string) : outcome MsgProxyConnectionOpenFinalize :=
  Ok {| COF_ConnectionId := connectionID;
        COF_UpstreamClientId := upstreamClientID;
        COF_UpstreamPrefix := upstreamPrefix;
        COF_ProofConfirm := proofConfirm;
        COF_ProofHeight := proofHeight;
        COF_Signer := signer |}.

(** ** The sdk.Msg methods *)

(** [accAddr, err := sdk.AccAddressFromBech32(msg.Signer); if err != nil { panic(err) }] *)
Definition signers_of (signer : string) : outcome (list bytes) :=
  let? accAddr := must (AccAddressFromBech32 signer) in Ok [accAddr].

Definition MsgProxyClientState_ValidateBasic (msg : MsgProxyClientState) : outcome unit := Ok tt.
Definition MsgProxyClientState_GetSigners (msg : MsgProxyClientState) : outcome (list bytes) :=
  signers_of (PCS_Signer msg).

Definition MsgProxyConnectionOpenTry_ValidateBasic (msg : MsgProxyConnectionOpenTry) : outcome unit := Ok tt.
Definition MsgProxyConnectionOpenTry_GetSigners (msg : MsgProxyConnectionOpenTry) : outcome (list bytes) :=
  signers_of (COT_Signer msg).

Definition MsgProxyConnectionOpenAck_ValidateBasic (msg : MsgProxyConnectionOpenAck) : outcome unit := Ok tt.
Definition MsgProxyConnectionOpenAck_GetSigners (msg : MsgProxyConnectionOpenAck) : outcome (list bytes) :=
  signers_of (COA_Signer msg).

Definition MsgProxyConnectionOpenConfirm_ValidateBasic (msg : MsgProxyConnectionOpenConfirm) : outcome unit := Ok tt.
Definition MsgProxyConnectionOpenConfirm_GetSigners (msg : MsgProxyConnectionOpenConfirm) : outcome (list bytes) :=
  signers_of (COC_Signer msg).

Definition MsgProxyConnectionOpenFinalize_ValidateBasic (msg : MsgProxyConnectionOpenFinalize) : outcome unit := Ok tt.
Definition MsgProxyConnectionOpenFinalize_GetSigners (msg : MsgProxyConnectionOpenFinalize) : outcome (list bytes) :=
  signers_of (COF_Signer msg).

Definition MsgProxyChannelOpenTry_ValidateBasic (msg : MsgProxyChannelOpenTry) : outcome unit := Ok tt.
Definition MsgProxyChannelOpenTry_GetSigners (msg : MsgProxyChannelOpenTry) : outcome (list bytes) :=
  signers_of (HOT_Signer msg).

Definition MsgProxyChannelOpenAck_ValidateBasic (msg : MsgProxyChannelOpenAck) : outcome unit := Ok tt.
Definition MsgProxyChannelOpenAck_GetSigners (msg : MsgProxyChannelOpenAck) : outcome (list bytes) :=
  signers_of (HOA_Signer msg).

Definition MsgProxyChannelOpenConfirm_ValidateBasic (msg : MsgProxyChannelOpenConfirm) : outcome unit := Ok tt.
Definition MsgProxyChannelOpenConfirm_GetSigners (msg : MsgProxyChannelOpenConfirm) : outcome (list bytes) :=
  signers_of (HOC_Signer msg).

Definition MsgProxyChannelOpenFinalize_ValidateBasic (msg : MsgProxyChannelOpenFinalize) : outcome unit := Ok tt.
Definition MsgProxyChannelOpenFinalize_GetSigners (msg : MsgProxyChannelOpenFinalize) : outcome (list bytes) :=
  signers_of (HOF_Signer msg).

Definition MsgProxyRecvPacket_ValidateBasic (msg : MsgProxyRecvPacket) : outcome unit := Ok tt.
Definition MsgProxyRecvPacket_GetSigners (msg : MsgProxyRecvPacket) : outcome (list bytes) :=
  signers_of (RPK_Signer msg).

Definition MsgProxyAcknowledgePacket_ValidateBasic (msg : MsgProxyAcknowledgePacket) : outcome unit := Ok tt.
Definition MsgProxyAcknowledgePacket_GetSigners (msg : MsgProxyAcknowledgePacket) : outcome (list bytes) :=
  signers_of (APK_Signer msg).

(** ** UnpackInterfaces.  [unpack_client] and [unpack_consensus] are the
    unpacker at the types exported.ClientState and exported.ConsensusState. *)
Section Unpack.
Context (unpack_client unpack_consensus : option AnyT -> outcome unit).

Definition MsgProxyClientState_UnpackInterfaces (msg : MsgProxyClientState) : outcome unit :=
  unpack_client (PCS_ClientState msg) ;;?
  unpack_consensus (PCS_ConsensusState msg).

Definition MsgProxyConnectionOpenTry_UnpackInterfaces (msg : MsgProxyConnectionOpenTry) :
    outcome unit :=
  unpack_client (COT_DownstreamClientState msg) ;;?
  unpack_consensus (COT_DownstreamConsensusState msg) ;;?
  unpack_client (COT_ProxyClientState msg) ;;?
  Ok tt.

Definition MsgProxyConnectionOpenAck_UnpackInterfaces (msg : MsgProxyConnectionOpenAck) :
    outcome unit :=
  unpack_client (COA_DownstreamClientState msg) ;;?
  unpack_consensus (COA_DownstreamConsensusState msg) ;;?
  unpack_client (COA_ProxyClientState msg) ;;?
  Ok tt.

Definition MsgProxyConnectionOpenConfirm_UnpackInterfaces
    (msg : MsgProxyConnectionOpenConfirm) : outcome unit := Ok tt.

Definition MsgProxyConnectionOpenFinalize_UnpackInterfaces
    (msg : MsgProxyConnectionOpenFinalize) : outcome unit := Ok tt.
End Unpack.

End Msgs.
