(* ===== verification/PbTx.v ===== *)
(** The generated codecs of the messages of the proxy module:
    modules/proxy/types/tx.pb.go, and proxy.pb.go of the same package.  The messages of other packages they contain
    (Any, MerklePrefix, Height, ConnectionEnd, Packet) are parameters, through the
    interface PbMessage. *)
From S2P Require Import Prelude.
From S2P Require Import Lib.
From S2P Require Import Wire.
From S2P Require Import Msgs.

Section Messages.
Context `{PbMessage AnyT, PbMessage MerklePrefix, PbMessage Height, PbMessage ConnectionEnd,
  PbMessage Packet}.

(** ** MsgProxyClientState *)

Definition MsgProxyClientState_Size (m : MsgProxyClientState) : Z :=
  (size_bytes 1 (PCS_UpstreamClientId m) + size_msg 1 (PCS_UpstreamPrefix m) +
   size_bytes 1 (PCS_CounterpartyClientId m) + size_opt 1 (PCS_ClientState m) +
   size_opt 1 (PCS_ConsensusState m) + size_bytes 1 (PCS_ProofClient m) +
   size_bytes 1 (PCS_ProofConsensus m) + size_msg 1 (PCS_ProofHeight m) +
   size_msg 1 (PCS_ConsensusHeight m) + size_bytes 1 (PCS_Signer m))%Z.

Definition MsgProxyClientState_MarshalToSizedBuffer (m : MsgProxyClientState) : M Buf Z := sized (
  put_bytes 0x52 (PCS_Signer m) ;;*
  put_msg 0x4a (PCS_ConsensusHeight m) ;;*
  put_msg 0x42 (PCS_ProofHeight m) ;;*
  put_bytes 0x3a (PCS_ProofConsensus m) ;;*
  put_bytes 0x32 (PCS_ProofClient m) ;;*
  put_opt 0x2a (PCS_ConsensusState m) ;;*
  put_opt 0x22 (PCS_ClientState m) ;;*
  put_bytes 0x1a (PCS_CounterpartyClientId m) ;;*
  put_msg 0x12 (PCS_UpstreamPrefix m) ;;*
  put_bytes 0xa (PCS_UpstreamClientId m)).

Definition MsgProxyClientState_fields (fieldNum : Z) : option (Case MsgProxyClientState) :=
  match fieldNum with
  | 1 => Some (case_bytes "UpstreamClientId"
      (fun f1 '(mkMsgProxyClientState _ f2 f3 f4 f5 f6 f7 f8 f9 f10) =>
         mkMsgProxyClientState f1 f2 f3 f4 f5 f6 f7 f8 f9 f10))
  | 2 => Some (case_msg "UpstreamPrefix" PCS_UpstreamPrefix
      (fun f2 '(mkMsgProxyClientState f1 _ f3 f4 f5 f6 f7 f8 f9 f10) =>
         mkMsgProxyClientState f1 f2 f3 f4 f5 f6 f7 f8 f9 f10))
  | 3 => Some (case_bytes "CounterpartyClientId"
      (fun f3 '(mkMsgProxyClientState f1 f2 _ f4 f5 f6 f7 f8 f9 f10) =>
         mkMsgProxyClientState f1 f2 f3 f4 f5 f6 f7 f8 f9 f10))
  | 4 => Some (case_opt "ClientState" PCS_ClientState
      (fun f4 '(mkMsgProxyClientState f1 f2 f3 _ f5 f6 f7 f8 f9 f10) =>
         mkMsgProxyClientState f1 f2 f3 f4 f5 f6 f7 f8 f9 f10))
  | 5 => Some (case_opt "ConsensusState" PCS_ConsensusState
      (fun f5 '(mkMsgProxyClientState f1 f2 f3 f4 _ f6 f7 f8 f9 f10) =>
         mkMsgProxyClientState f1 f2 f3 f4 f5 f6 f7 f8 f9 f10))
  | 6 => Some (case_bytes "ProofClient"
      (fun f6 '(mkMsgProxyClientState f1 f2 f3 f4 f5 _ f7 f8 f9 f10) =>
         mkMsgProxyClientState f1 f2 f3 f4 f5 f6 f7 f8 f9 f10))
  | 7 => Some (case_bytes "ProofConsensus"
      (fun f7 '(mkMsgProxyClientState f1 f2 f3 f4 f5 f6 _ f8 f9 f10) =>
         mkMsgProxyClientState f1 f2 f3 f4 f5 f6 f7 f8 f9 f10))
  | 8 => Some (case_msg "ProofHeight" PCS_ProofHeight
      (fun f8 '(mkMsgProxyClientState f1 f2 f3 f4 f5 f6 f7 _ f9 f10) =>
         mkMsgProxyClientState f1 f2 f3 f4 f5 f6 f7 f8 f9 f10))
  | 9 => Some (case_msg "ConsensusHeight" PCS_ConsensusHeight
      (fun f9 '(mkMsgProxyClientState f1 f2 f3 f4 f5 f6 f7 f8 _ f10) =>
         mkMsgProxyClientState f1 f2 f3 f4 f5 f6 f7 f8 f9 f10))
  | 10 => Some (case_bytes "Signer"
      (fun f10 '(mkMsgProxyClientState f1 f2 f3 f4 f5 f6 f7 f8 f9 _) =>
         mkMsgProxyClientState f1 f2 f3 f4 f5 f6 f7 f8 f9 f10))
  | _ => None
  end%Z.

Definition MsgProxyClientState_Unmarshal (dAtA : bytes) : M MsgProxyClientState unit :=
  unmarshal_fields MsgProxyClientState_fields dAtA.

#[export] Instance MsgProxyClientState_pb : PbMessage MsgProxyClientState := {
  pb_zero := mkMsgProxyClientState "" pb_zero "" None None "" "" pb_zero pb_zero "";
  pb_Size := MsgProxyClientState_Size;
  pb_MarshalToSizedBuffer := MsgProxyClientState_MarshalToSizedBuffer;
  pb_Unmarshal := MsgProxyClientState_Unmarshal
}.

(** ** MsgProxyConnectionOpenTry *)

Definition MsgProxyConnectionOpenTry_Size (m : MsgProxyConnectionOpenTry) : Z :=
  (size_bytes 1 (COT_ConnectionId m) + size_msg 1 (COT_UpstreamPrefix m) +
   size_msg 1 (COT_Connection m) + size_opt 1 (COT_DownstreamClientState m) +
   size_opt 1 (COT_DownstreamConsensusState m) + size_opt 1 (COT_ProxyClientState m) +
   size_bytes 1 (COT_ProofInit m) + size_bytes 1 (COT_ProofClient m) +
   size_bytes 1 (COT_ProofConsensus m) + size_msg 1 (COT_ProofHeight m) +
   size_msg 1 (COT_ConsensusHeight m) + size_bytes 1 (COT_ProofProxyClient m) +
   size_bytes 1 (COT_ProofProxyConsensus m) + size_msg 1 (COT_ProofProxyHeight m) +
   size_msg 1 (COT_ProxyConsensusHeight m) + size_bytes 2 (COT_Signer m))%Z.

Definition MsgProxyConnectionOpenTry_MarshalToSizedBuffer (m : MsgProxyConnectionOpenTry) : M Buf Z := sized (
  put_bytes 0x82 (COT_Signer m) ;;*
  put_msg 0x7a (COT_ProxyConsensusHeight m) ;;*
  put_msg 0x72 (COT_ProofProxyHeight m) ;;*
  put_bytes 0x6a (COT_ProofProxyConsensus m) ;;*
  put_bytes 0x62 (COT_ProofProxyClient m) ;;*
  put_msg 0x5a (COT_ConsensusHeight m) ;;*
  put_msg 0x52 (COT_ProofHeight m) ;;*
  put_bytes 0x4a (COT_ProofConsensus m) ;;*
  put_bytes 0x42 (COT_ProofClient m) ;;*
  put_bytes 0x3a (COT_ProofInit m) ;;*
  put_opt 0x32 (COT_ProxyClientState m) ;;*
  put_opt 0x2a (COT_DownstreamConsensusState m) ;;*
  put_opt 0x22 (COT_DownstreamClientState m) ;;*
  put_msg 0x1a (COT_Connection m) ;;*
  put_msg 0x12 (COT_UpstreamPrefix m) ;;*
  put_bytes 0xa (COT_ConnectionId m)).

Definition MsgProxyConnectionOpenTry_fields (fieldNum : Z) : option (Case MsgProxyConnectionOpenTry) :=
  match fieldNum with
  | 1 => Some (case_bytes "ConnectionId"
      (fun f1 '(mkMsgProxyConnectionOpenTry _ f2 f3 f4 f5 f6 f7 f8 f9 f10 f11 f12 f13 f14 f15 f16) =>
         mkMsgProxyConnectionOpenTry f1 f2 f3 f4 f5 f6 f7 f8 f9 f10 f11 f12 f13 f14 f15 f16))
  | 2 => Some (case_msg "UpstreamPrefix" COT_UpstreamPrefix
      (fun f2 '(mkMsgProxyConnectionOpenTry f1 _ f3 f4 f5 f6 f7 f8 f9 f10 f11 f12 f13 f14 f15 f16) =>
         mkMsgProxyConnectionOpenTry f1 f2 f3 f4 f5 f6 f7 f8 f9 f10 f11 f12 f13 f14 f15 f16))
  | 3 => Some (case_msg "Connection" COT_Connection
      (fun f3 '(mkMsgProxyConnectionOpenTry f1 f2 _ f4 f5 f6 f7 f8 f9 f10 f11 f12 f13 f14 f15 f16) =>
         mkMsgProxyConnectionOpenTry f1 f2 f3 f4 f5 f6 f7 f8 f9 f10 f11 f12 f13 f14 f15 f16))
  | 4 => Some (case_opt "DownstreamClientState" COT_DownstreamClientState
      (fun f4 '(mkMsgProxyConnectionOpenTry f1 f2 f3 _ f5 f6 f7 f8 f9 f10 f11 f12 f13 f14 f15 f16) =>
         mkMsgProxyConnectionOpenTry f1 f2 f3 f4 f5 f6 f7 f8 f9 f10 f11 f12 f13 f14 f15 f16))
  | 5 => Some (case_opt "DownstreamConsensusState" COT_DownstreamConsensusState
      (fun f5 '(mkMsgProxyConnectionOpenTry f1 f2 f3 f4 _ f6 f7 f8 f9 f10 f11 f12 f13 f14 f15 f16) =>
         mkMsgProxyConnectionOpenTry f1 f2 f3 f4 f5 f6 f7 f8 f9 f10 f11 f12 f13 f14 f15 f16))
  | 6 => Some (case_opt "ProxyClientState" COT_ProxyClientState
      (fun f6 '(mkMsgProxyConnectionOpenTry f1 f2 f3 f4 f5 _ f7 f8 f9 f10 f11 f12 f13 f14 f15 f16) =>
         mkMsgProxyConnectionOpenTry f1 f2 f3 f4 f5 f6 f7 f8 f9 f10 f11 f12 f13 f14 f15 f16))
  | 7 => Some (case_bytes "ProofInit"
      (fun f7 '(mkMsgProxyConnectionOpenTry f1 f2 f3 f4 f5 f6 _ f8 f9 f10 f11 f12 f13 f14 f15 f16) =>
         mkMsgProxyConnectionOpenTry f1 f2 f3 f4 f5 f6 f7 f8 f9 f10 f11 f12 f13 f14 f15 f16))
  | 8 => Some (case_bytes "ProofClient"
      (fun f8 '(mkMsgProxyConnectionOpenTry f1 f2 f3 f4 f5 f6 f7 _ f9 f10 f11 f12 f13 f14 f15 f16) =>
         mkMsgProxyConnectionOpenTry f1 f2 f3 f4 f5 f6 f7 f8 f9 f10 f11 f12 f13 f14 f15 f16))
  | 9 => Some (case_bytes "ProofConsensus"
      (fun f9 '(mkMsgProxyConnectionOpenTry f1 f2 f3 f4 f5 f6 f7 f8 _ f10 f11 f12 f13 f14 f15 f16) =>
         mkMsgProxyConnectionOpenTry f1 f2 f3 f4 f5 f6 f7 f8 f9 f10 f11 f12 f13 f14 f15 f16))
  | 10 => Some (case_msg "ProofHeight" COT_ProofHeight
      (fun f10 '(mkMsgProxyConnectionOpenTry f1 f2 f3 f4 f5 f6 f7 f8 f9 _ f11 f12 f13 f14 f15 f16) =>
         mkMsgProxyConnectionOpenTry f1 f2 f3 f4 f5 f6 f7 f8 f9 f10 f11 f12 f13 f14 f15 f16))
  | 11 => Some (case_msg "ConsensusHeight" COT_ConsensusHeight
      (fun f11 '(mkMsgProxyConnectionOpenTry f1 f2 f3 f4 f5 f6 f7 f8 f9 f10 _ f12 f13 f14 f15 f16) =>
         mkMsgProxyConnectionOpenTry f1 f2 f3 f4 f5 f6 f7 f8 f9 f10 f11 f12 f13 f14 f15 f16))
  | 12 => Some (case_bytes "ProofProxyClient"
      (fun f12 '(mkMsgProxyConnectionOpenTry f1 f2 f3 f4 f5 f6 f7 f8 f9 f10 f11 _ f13 f14 f15 f16) =>
         mkMsgProxyConnectionOpenTry f1 f2 f3 f4 f5 f6 f7 f8 f9 f10 f11 f12 f13 f14 f15 f16))
  | 13 => Some (case_bytes "ProofProxyConsensus"
      (fun f13 '(mkMsgProxyConnectionOpenTry f1 f2 f3 f4 f5 f6 f7 f8 f9 f10 f11 f12 _ f14 f15 f16) =>
         mkMsgProxyConnectionOpenTry f1 f2 f3 f4 f5 f6 f7 f8 f9 f10 f11 f12 f13 f14 f15 f16))
  | 14 => Some (case_msg "ProofProxyHeight" COT_ProofProxyHeight
      (fun f14 '(mkMsgProxyConnectionOpenTry f1 f2 f3 f4 f5 f6 f7 f8 f9 f10 f11 f12 f13 _ f15 f16) =>
         mkMsgProxyConnectionOpenTry f1 f2 f3 f4 f5 f6 f7 f8 f9 f10 f11 f12 f13 f14 f15 f16))
  | 15 => Some (case_msg "ProxyConsensusHeight" COT_ProxyConsensusHeight
      (fun f15 '(mkMsgProxyConnectionOpenTry f1 f2 f3 f4 f5 f6 f7 f8 f9 f10 f11 f12 f13 f14 _ f16) =>
         mkMsgProxyConnectionOpenTry f1 f2 f3 f4 f5 f6 f7 f8 f9 f10 f11 f12 f13 f14 f15 f16))
  | 16 => Some (case_bytes "Signer"
      (fun f16 '(mkMsgProxyConnectionOpenTry f1 f2 f3 f4 f5 f6 f7 f8 f9 f10 f11 f12 f13 f14 f15 _) =>
         mkMsgProxyConnectionOpenTry f1 f2 f3 f4 f5 f6 f7 f8 f9 f10 f11 f12 f13 f14 f15 f16))
  | _ => None
  end%Z.

Definition MsgProxyConnectionOpenTry_Unmarshal (dAtA : bytes) : M MsgProxyConnectionOpenTry unit :=
  unmarshal_fields MsgProxyConnectionOpenTry_fields dAtA.

#[export] Instance MsgProxyConnectionOpenTry_pb : PbMessage MsgProxyConnectionOpenTry := {
  pb_zero := mkMsgProxyConnectionOpenTry "" pb_zero pb_zero None None None "" "" "" pb_zero pb_zero
    "" "" pb_zero pb_zero "";
  pb_Size := MsgProxyConnectionOpenTry_Size;
  pb_MarshalToSizedBuffer := MsgProxyConnectionOpenTry_MarshalToSizedBuffer;
  pb_Unmarshal := MsgProxyConnectionOpenTry_Unmarshal
}.

(** ** MsgProxyConnectionOpenAck *)

Definition MsgProxyConnectionOpenAck_Size (m : MsgProxyConnectionOpenAck) : Z :=
  (size_bytes 1 (COA_ConnectionId m) + size_msg 1 (COA_UpstreamPrefix m) +
   size_msg 1 (COA_Connection m) + size_opt 1 (COA_DownstreamClientState m) +
   size_opt 1 (COA_DownstreamConsensusState m) + size_opt 1 (COA_ProxyClientState m) +
   size_bytes 1 (COA_ProofTry m) + size_bytes 1 (COA_ProofClient m) +
   size_bytes 1 (COA_ProofConsensus m) + size_msg 1 (COA_ProofHeight m) +
   size_msg 1 (COA_ConsensusHeight m) + size_bytes 1 (COA_ProofProxyClient m) +
   size_bytes 1 (COA_ProofProxyConsensus m) + size_msg 1 (COA_ProofProxyHeight m) +
   size_msg 1 (COA_ProxyConsensusHeight m) + size_bytes 2 (COA_Signer m))%Z.

Definition MsgProxyConnectionOpenAck_MarshalToSizedBuffer (m : MsgProxyConnectionOpenAck) : M Buf Z := sized (
  put_bytes 0x82 (COA_Signer m) ;;*
  put_msg 0x7a (COA_ProxyConsensusHeight m) ;;*
  put_msg 0x72 (COA_ProofProxyHeight m) ;;*
  put_bytes 0x6a (COA_ProofProxyConsensus m) ;;*
  put_bytes 0x62 (COA_ProofProxyClient m) ;;*
  put_msg 0x5a (COA_ConsensusHeight m) ;;*
  put_msg 0x52 (COA_ProofHeight m) ;;*
  put_bytes 0x4a (COA_ProofConsensus m) ;;*
  put_bytes 0x42 (COA_ProofClient m) ;;*
  put_bytes 0x3a (COA_ProofTry m) ;;*
  put_opt 0x32 (COA_ProxyClientState m) ;;*
  put_opt 0x2a (COA_DownstreamConsensusState m) ;;*
  put_opt 0x22 (COA_DownstreamClientState m) ;;*
  put_msg 0x1a (COA_Connection m) ;;*
  put_msg 0x12 (COA_UpstreamPrefix m) ;;*
  put_bytes 0xa (COA_ConnectionId m)).

Definition MsgProxyConnectionOpenAck_fields (fieldNum : Z) : option (Case MsgProxyConnectionOpenAck) :=
  match fieldNum with
  | 1 => Some (case_bytes "ConnectionId"
      (fun f1 '(mkMsgProxyConnectionOpenAck _ f2 f3 f4 f5 f6 f7 f8 f9 f10 f11 f12 f13 f14 f15 f16) =>
         mkMsgProxyConnectionOpenAck f1 f2 f3 f4 f5 f6 f7 f8 f9 f10 f11 f12 f13 f14 f15 f16))
  | 2 => Some (case_msg "UpstreamPrefix" COA_UpstreamPrefix
      (fun f2 '(mkMsgProxyConnectionOpenAck f1 _ f3 f4 f5 f6 f7 f8 f9 f10 f11 f12 f13 f14 f15 f16) =>
         mkMsgProxyConnectionOpenAck f1 f2 f3 f4 f5 f6 f7 f8 f9 f10 f11 f12 f13 f14 f15 f16))
  | 3 => Some (case_msg "Connection" COA_Connection
      (fun f3 '(mkMsgProxyConnectionOpenAck f1 f2 _ f4 f5 f6 f7 f8 f9 f10 f11 f12 f13 f14 f15 f16) =>
         mkMsgProxyConnectionOpenAck f1 f2 f3 f4 f5 f6 f7 f8 f9 f10 f11 f12 f13 f14 f15 f16))
  | 4 => Some (case_opt "DownstreamClientState" COA_DownstreamClientState
      (fun f4 '(mkMsgProxyConnectionOpenAck f1 f2 f3 _ f5 f6 f7 f8 f9 f10 f11 f12 f13 f14 f15 f16) =>
         mkMsgProxyConnectionOpenAck f1 f2 f3 f4 f5 f6 f7 f8 f9 f10 f11 f12 f13 f14 f15 f16))
  | 5 => Some (case_opt "DownstreamConsensusState" COA_DownstreamConsensusState
      (fun f5 '(mkMsgProxyConnectionOpenAck f1 f2 f3 f4 _ f6 f7 f8 f9 f10 f11 f12 f13 f14 f15 f16) =>
         mkMsgProxyConnectionOpenAck f1 f2 f3 f4 f5 f6 f7 f8 f9 f10 f11 f12 f13 f14 f15 f16))
  | 6 => Some (case_opt "ProxyClientState" COA_ProxyClientState
      (fun f6 '(mkMsgProxyConnectionOpenAck f1 f2 f3 f4 f5 _ f7 f8 f9 f10 f11 f12 f13 f14 f15 f16) =>
         mkMsgProxyConnectionOpenAck f1 f2 f3 f4 f5 f6 f7 f8 f9 f10 f11 f12 f13 f14 f15 f16))
  | 7 => Some (case_bytes "ProofTry"
      (fun f7 '(mkMsgProxyConnectionOpenAck f1 f2 f3 f4 f5 f6 _ f8 f9 f10 f11 f12 f13 f14 f15 f16) =>
         mkMsgProxyConnectionOpenAck f1 f2 f3 f4 f5 f6 f7 f8 f9 f10 f11 f12 f13 f14 f15 f16))
  | 8 => Some (case_bytes "ProofClient"
      (fun f8 '(mkMsgProxyConnectionOpenAck f1 f2 f3 f4 f5 f6 f7 _ f9 f10 f11 f12 f13 f14 f15 f16) =>
         mkMsgProxyConnectionOpenAck f1 f2 f3 f4 f5 f6 f7 f8 f9 f10 f11 f12 f13 f14 f15 f16))
  | 9 => Some (case_bytes "ProofConsensus"
      (fun f9 '(mkMsgProxyConnectionOpenAck f1 f2 f3 f4 f5 f6 f7 f8 _ f10 f11 f12 f13 f14 f15 f16) =>
         mkMsgProxyConnectionOpenAck f1 f2 f3 f4 f5 f6 f7 f8 f9 f10 f11 f12 f13 f14 f15 f16))
  | 10 => Some (case_msg "ProofHeight" COA_ProofHeight
      (fun f10 '(mkMsgProxyConnectionOpenAck f1 f2 f3 f4 f5 f6 f7 f8 f9 _ f11 f12 f13 f14 f15 f16) =>
         mkMsgProxyConnectionOpenAck f1 f2 f3 f4 f5 f6 f7 f8 f9 f10 f11 f12 f13 f14 f15 f16))
  | 11 => Some (case_msg "ConsensusHeight" COA_ConsensusHeight
      (fun f11 '(mkMsgProxyConnectionOpenAck f1 f2 f3 f4 f5 f6 f7 f8 f9 f10 _ f12 f13 f14 f15 f16) =>
         mkMsgProxyConnectionOpenAck f1 f2 f3 f4 f5 f6 f7 f8 f9 f10 f11 f12 f13 f14 f15 f16))
  | 12 => Some (case_bytes "ProofProxyClient"
      (fun f12 '(mkMsgProxyConnectionOpenAck f1 f2 f3 f4 f5 f6 f7 f8 f9 f10 f11 _ f13 f14 f15 f16) =>
         mkMsgProxyConnectionOpenAck f1 f2 f3 f4 f5 f6 f7 f8 f9 f10 f11 f12 f13 f14 f15 f16))
  | 13 => Some (case_bytes "ProofProxyConsensus"
      (fun f13 '(mkMsgProxyConnectionOpenAck f1 f2 f3 f4 f5 f6 f7 f8 f9 f10 f11 f12 _ f14 f15 f16) =>
         mkMsgProxyConnectionOpenAck f1 f2 f3 f4 f5 f6 f7 f8 f9 f10 f11 f12 f13 f14 f15 f16))
  | 14 => Some (case_msg "ProofProxyHeight" COA_ProofProxyHeight
      (fun f14 '(mkMsgProxyConnectionOpenAck f1 f2 f3 f4 f5 f6 f7 f8 f9 f10 f11 f12 f13 _ f15 f16) =>
         mkMsgProxyConnectionOpenAck f1 f2 f3 f4 f5 f6 f7 f8 f9 f10 f11 f12 f13 f14 f15 f16))
  | 15 => Some (case_msg "ProxyConsensusHeight" COA_ProxyConsensusHeight
      (fun f15 '(mkMsgProxyConnectionOpenAck f1 f2 f3 f4 f5 f6 f7 f8 f9 f10 f11 f12 f13 f14 _ f16) =>
         mkMsgProxyConnectionOpenAck f1 f2 f3 f4 f5 f6 f7 f8 f9 f10 f11 f12 f13 f14 f15 f16))
  | 16 => Some (case_bytes "Signer"
      (fun f16 '(mkMsgProxyConnectionOpenAck f1 f2 f3 f4 f5 f6 f7 f8 f9 f10 f11 f12 f13 f14 f15 _) =>
         mkMsgProxyConnectionOpenAck f1 f2 f3 f4 f5 f6 f7 f8 f9 f10 f11 f12 f13 f14 f15 f16))
  | _ => None
  end%Z.

Definition MsgProxyConnectionOpenAck_Unmarshal (dAtA : bytes) : M MsgProxyConnectionOpenAck unit :=
  unmarshal_fields MsgProxyConnectionOpenAck_fields dAtA.

#[export] Instance MsgProxyConnectionOpenAck_pb : PbMessage MsgProxyConnectionOpenAck := {
  pb_zero := mkMsgProxyConnectionOpenAck "" pb_zero pb_zero None None None "" "" "" pb_zero pb_zero
    "" "" pb_zero pb_zero "";
  pb_Size := MsgProxyConnectionOpenAck_Size;
  pb_MarshalToSizedBuffer := MsgProxyConnectionOpenAck_MarshalToSizedBuffer;
  pb_Unmarshal := MsgProxyConnectionOpenAck_Unmarshal
}.

(** ** MsgProxyConnectionOpenConfirm *)

Definition MsgProxyConnectionOpenConfirm_Size (m : MsgProxyConnectionOpenConfirm) : Z :=
  (size_bytes 1 (COC_ConnectionId m) + size_bytes 1 (COC_UpstreamClientId m) +
   size_msg 1 (COC_UpstreamPrefix m) + size_bytes 1 (COC_CounterpartyConnectionId m) +
   size_bytes 1 (COC_ProofAck m) + size_msg 1 (COC_ProofHeight m) +
   size_bytes 1 (COC_Signer m))%Z.

Definition MsgProxyConnectionOpenConfirm_MarshalToSizedBuffer (m : MsgProxyConnectionOpenConfirm) : M Buf Z := sized (
  put_bytes 0x3a (COC_Signer m) ;;*
  put_msg 0x32 (COC_ProofHeight m) ;;*
  put_bytes 0x2a (COC_ProofAck m) ;;*
  put_bytes 0x22 (COC_CounterpartyConnectionId m) ;;*
  put_msg 0x1a (COC_UpstreamPrefix m) ;;*
  put_bytes 0x12 (COC_UpstreamClientId m) ;;*
  put_bytes 0xa (COC_ConnectionId m)).

Definition MsgProxyConnectionOpenConfirm_fields (fieldNum : Z) : option (Case MsgProxyConnectionOpenConfirm) :=
  match fieldNum with
  | 1 => Some (case_bytes "ConnectionId"
      (fun f1 '(mkMsgProxyConnectionOpenConfirm _ f2 f3 f4 f5 f6 f7) =>
         mkMsgProxyConnectionOpenConfirm f1 f2 f3 f4 f5 f6 f7))
  | 2 => Some (case_bytes "UpstreamClientId"
      (fun f2 '(mkMsgProxyConnectionOpenConfirm f1 _ f3 f4 f5 f6 f7) =>
         mkMsgProxyConnectionOpenConfirm f1 f2 f3 f4 f5 f6 f7))
  | 3 => Some (case_msg "UpstreamPrefix" COC_UpstreamPrefix
      (fun f3 '(mkMsgProxyConnectionOpenConfirm f1 f2 _ f4 f5 f6 f7) =>
         mkMsgProxyConnectionOpenConfirm f1 f2 f3 f4 f5 f6 f7))
  | 4 => Some (case_bytes "CounterpartyConnectionId"
      (fun f4 '(mkMsgProxyConnectionOpenConfirm f1 f2 f3 _ f5 f6 f7) =>
         mkMsgProxyConnectionOpenConfirm f1 f2 f3 f4 f5 f6 f7))
  | 5 => Some (case_bytes "ProofAck"
      (fun f5 '(mkMsgProxyConnectionOpenConfirm f1 f2 f3 f4 _ f6 f7) =>
         mkMsgProxyConnectionOpenConfirm f1 f2 f3 f4 f5 f6 f7))
  | 6 => Some (case_msg "ProofHeight" COC_ProofHeight
      (fun f6 '(mkMsgProxyConnectionOpenConfirm f1 f2 f3 f4 f5 _ f7) =>
         mkMsgProxyConnectionOpenConfirm f1 f2 f3 f4 f5 f6 f7))
  | 7 => Some (case_bytes "Signer"
      (fun f7 '(mkMsgProxyConnectionOpenConfirm f1 f2 f3 f4 f5 f6 _) =>
         mkMsgProxyConnectionOpenConfirm f1 f2 f3 f4 f5 f6 f7))
  | _ => None
  end%Z.

Definition MsgProxyConnectionOpenConfirm_Unmarshal (dAtA : bytes) : M MsgProxyConnectionOpenConfirm unit :=
  unmarshal_fields MsgProxyConnectionOpenConfirm_fields dAtA.

#[export] Instance MsgProxyConnectionOpenConfirm_pb : PbMessage MsgProxyConnectionOpenConfirm := {
  pb_zero := mkMsgProxyConnectionOpenConfirm "" "" pb_zero "" "" pb_zero "";
  pb_Size := MsgProxyConnectionOpenConfirm_Size;
  pb_MarshalToSizedBuffer := MsgProxyConnectionOpenConfirm_MarshalToSizedBuffer;
  pb_Unmarshal := MsgProxyConnectionOpenConfirm_Unmarshal
}.

(** ** MsgProxyConnectionOpenFinalize *)

Definition MsgProxyConnectionOpenFinalize_Size (m : MsgProxyConnectionOpenFinalize) : Z :=
  (size_bytes 1 (COF_ConnectionId m) + size_bytes 1 (COF_UpstreamClientId m) +
   size_msg 1 (COF_UpstreamPrefix m) + size_bytes 1 (COF_ProofConfirm m) +
   size_msg 1 (COF_ProofHeight m) + size_bytes 1 (COF_Signer m))%Z.

Definition MsgProxyConnectionOpenFinalize_MarshalToSizedBuffer (m : MsgProxyConnectionOpenFinalize) : M Buf Z := sized (
  put_bytes 0x32 (COF_Signer m) ;;*
  put_msg 0x2a (COF_ProofHeight m) ;;*
  put_bytes 0x22 (COF_ProofConfirm m) ;;*
  put_msg 0x1a (COF_UpstreamPrefix m) ;;*
  put_bytes 0x12 (COF_UpstreamClientId m) ;;*
  put_bytes 0xa (COF_ConnectionId m)).

Definition MsgProxyConnectionOpenFinalize_fields (fieldNum : Z) : option (Case MsgProxyConnectionOpenFinalize) :=
  match fieldNum with
  | 1 => Some (case_bytes "ConnectionId"
      (fun f1 '(mkMsgProxyConnectionOpenFinalize _ f2 f3 f4 f5 f6) =>
         mkMsgProxyConnectionOpenFinalize f1 f2 f3 f4 f5 f6))
  | 2 => Some (case_bytes "UpstreamClientId"
      (fun f2 '(mkMsgProxyConnectionOpenFinalize f1 _ f3 f4 f5 f6) =>
         mkMsgProxyConnectionOpenFinalize f1 f2 f3 f4 f5 f6))
  | 3 => Some (case_msg "UpstreamPrefix" COF_UpstreamPrefix
      (fun f3 '(mkMsgProxyConnectionOpenFinalize f1 f2 _ f4 f5 f6) =>
         mkMsgProxyConnectionOpenFinalize f1 f2 f3 f4 f5 f6))
  | 4 => Some (case_bytes "ProofConfirm"
      (fun f4 '(mkMsgProxyConnectionOpenFinalize f1 f2 f3 _ f5 f6) =>
         mkMsgProxyConnectionOpenFinalize f1 f2 f3 f4 f5 f6))
  | 5 => Some (case_msg "ProofHeight" COF_ProofHeight
      (fun f5 '(mkMsgProxyConnectionOpenFinalize f1 f2 f3 f4 _ f6) =>
         mkMsgProxyConnectionOpenFinalize f1 f2 f3 f4 f5 f6))
  | 6 => Some (case_bytes "Signer"
      (fun f6 '(mkMsgProxyConnectionOpenFinalize f1 f2 f3 f4 f5 _) =>
         mkMsgProxyConnectionOpenFinalize f1 f2 f3 f4 f5 f6))
  | _ => None
  end%Z.

Definition MsgProxyConnectionOpenFinalize_Unmarshal (dAtA : bytes) : M MsgProxyConnectionOpenFinalize unit :=
  unmarshal_fields MsgProxyConnectionOpenFinalize_fields dAtA.

#[export] Instance MsgProxyConnectionOpenFinalize_pb : PbMessage MsgProxyConnectionOpenFinalize := {
  pb_zero := mkMsgProxyConnectionOpenFinalize "" "" pb_zero "" pb_zero "";
  pb_Size := MsgProxyConnectionOpenFinalize_Size;
  pb_MarshalToSizedBuffer := MsgProxyConnectionOpenFinalize_MarshalToSizedBuffer;
  pb_Unmarshal := MsgProxyConnectionOpenFinalize_Unmarshal
}.

(** ** MsgProxyChannelOpenTry *)

Definition MsgProxyChannelOpenTry_Size (m : MsgProxyChannelOpenTry) : Z :=
  (size_bytes 1 (HOT_UpstreamClientId m) + size_msg 1 (HOT_UpstreamPrefix m) +
   size_enum 1 (HOT_Order m) + size_strings 1 (HOT_ConnectionHops m) +
   size_bytes 1 (HOT_PortId m) + size_bytes 1 (HOT_ChannelId m) +
   size_bytes 1 (HOT_DownstreamPortId m) + size_bytes 1 (HOT_Version m) +
   size_bytes 1 (HOT_ProofInit m) + size_msg 1 (HOT_ProofHeight m) +
   size_bytes 1 (HOT_Signer m))%Z.

Definition MsgProxyChannelOpenTry_MarshalToSizedBuffer (m : MsgProxyChannelOpenTry) : M Buf Z := sized (
  put_bytes 0x5a (HOT_Signer m) ;;*
  put_msg 0x52 (HOT_ProofHeight m) ;;*
  put_bytes 0x4a (HOT_ProofInit m) ;;*
  put_bytes 0x42 (HOT_Version m) ;;*
  put_bytes 0x3a (HOT_DownstreamPortId m) ;;*
  put_bytes 0x32 (HOT_ChannelId m) ;;*
  put_bytes 0x2a (HOT_PortId m) ;;*
  put_strings 0x22 (HOT_ConnectionHops m) ;;*
  put_enum 0x18 (HOT_Order m) ;;*
  put_msg 0x12 (HOT_UpstreamPrefix m) ;;*
  put_bytes 0xa (HOT_UpstreamClientId m)).

Definition MsgProxyChannelOpenTry_fields (fieldNum : Z) : option (Case MsgProxyChannelOpenTry) :=
  match fieldNum with
  | 1 => Some (case_bytes "UpstreamClientId"
      (fun f1 '(mkMsgProxyChannelOpenTry _ f2 f3 f4 f5 f6 f7 f8 f9 f10 f11) =>
         mkMsgProxyChannelOpenTry f1 f2 f3 f4 f5 f6 f7 f8 f9 f10 f11))
  | 2 => Some (case_msg "UpstreamPrefix" HOT_UpstreamPrefix
      (fun f2 '(mkMsgProxyChannelOpenTry f1 _ f3 f4 f5 f6 f7 f8 f9 f10 f11) =>
         mkMsgProxyChannelOpenTry f1 f2 f3 f4 f5 f6 f7 f8 f9 f10 f11))
  | 3 => Some (case_enum "Order"
      (fun f3 '(mkMsgProxyChannelOpenTry f1 f2 _ f4 f5 f6 f7 f8 f9 f10 f11) =>
         mkMsgProxyChannelOpenTry f1 f2 f3 f4 f5 f6 f7 f8 f9 f10 f11))
  | 4 => Some (case_strings "ConnectionHops" HOT_ConnectionHops
      (fun f4 '(mkMsgProxyChannelOpenTry f1 f2 f3 _ f5 f6 f7 f8 f9 f10 f11) =>
         mkMsgProxyChannelOpenTry f1 f2 f3 f4 f5 f6 f7 f8 f9 f10 f11))
  | 5 => Some (case_bytes "PortId"
      (fun f5 '(mkMsgProxyChannelOpenTry f1 f2 f3 f4 _ f6 f7 f8 f9 f10 f11) =>
         mkMsgProxyChannelOpenTry f1 f2 f3 f4 f5 f6 f7 f8 f9 f10 f11))
  | 6 => Some (case_bytes "ChannelId"
      (fun f6 '(mkMsgProxyChannelOpenTry f1 f2 f3 f4 f5 _ f7 f8 f9 f10 f11) =>
         mkMsgProxyChannelOpenTry f1 f2 f3 f4 f5 f6 f7 f8 f9 f10 f11))
  | 7 => Some (case_bytes "DownstreamPortId"
      (fun f7 '(mkMsgProxyChannelOpenTry f1 f2 f3 f4 f5 f6 _ f8 f9 f10 f11) =>
         mkMsgProxyChannelOpenTry f1 f2 f3 f4 f5 f6 f7 f8 f9 f10 f11))
  | 8 => Some (case_bytes "Version"
      (fun f8 '(mkMsgProxyChannelOpenTry f1 f2 f3 f4 f5 f6 f7 _ f9 f10 f11) =>
         mkMsgProxyChannelOpenTry f1 f2 f3 f4 f5 f6 f7 f8 f9 f10 f11))
  | 9 => Some (case_bytes "ProofInit"
      (fun f9 '(mkMsgProxyChannelOpenTry f1 f2 f3 f4 f5 f6 f7 f8 _ f10 f11) =>
         mkMsgProxyChannelOpenTry f1 f2 f3 f4 f5 f6 f7 f8 f9 f10 f11))
  | 10 => Some (case_msg "ProofHeight" HOT_ProofHeight
      (fun f10 '(mkMsgProxyChannelOpenTry f1 f2 f3 f4 f5 f6 f7 f8 f9 _ f11) =>
         mkMsgProxyChannelOpenTry f1 f2 f3 f4 f5 f6 f7 f8 f9 f10 f11))
  | 11 => Some (case_bytes "Signer"
      (fun f11 '(mkMsgProxyChannelOpenTry f1 f2 f3 f4 f5 f6 f7 f8 f9 f10 _) =>
         mkMsgProxyChannelOpenTry f1 f2 f3 f4 f5 f6 f7 f8 f9 f10 f11))
  | _ => None
  end%Z.

Definition MsgProxyChannelOpenTry_Unmarshal (dAtA : bytes) : M MsgProxyChannelOpenTry unit :=
  unmarshal_fields MsgProxyChannelOpenTry_fields dAtA.

#[export] Instance MsgProxyChannelOpenTry_pb : PbMessage MsgProxyChannelOpenTry := {
  pb_zero := mkMsgProxyChannelOpenTry "" pb_zero 0%Z [] "" "" "" "" "" pb_zero "";
  pb_Size := MsgProxyChannelOpenTry_Size;
  pb_MarshalToSizedBuffer := MsgProxyChannelOpenTry_MarshalToSizedBuffer;
  pb_Unmarshal := MsgProxyChannelOpenTry_Unmarshal
}.

(** ** MsgProxyChannelOpenAck *)

Definition MsgProxyChannelOpenAck_Size (m : MsgProxyChannelOpenAck) : Z :=
  (size_bytes 1 (HOA_UpstreamClientId m) + size_msg 1 (HOA_UpstreamPrefix m) +
   size_enum 1 (HOA_Order m) + size_strings 1 (HOA_ConnectionHops m) +
   size_bytes 1 (HOA_PortId m) + size_bytes 1 (HOA_ChannelId m) +
   size_bytes 1 (HOA_DownstreamPortId m) + size_bytes 1 (HOA_DownstreamChannelId m) +
   size_bytes 1 (HOA_Version m) + size_bytes 1 (HOA_ProofTry m) +
   size_msg 1 (HOA_ProofHeight m) + size_bytes 1 (HOA_Signer m))%Z.

Definition MsgProxyChannelOpenAck_MarshalToSizedBuffer (m : MsgProxyChannelOpenAck) : M Buf Z := sized (
  put_bytes 0x62 (HOA_Signer m) ;;*
  put_msg 0x5a (HOA_ProofHeight m) ;;*
  put_bytes 0x52 (HOA_ProofTry m) ;;*
  put_bytes 0x4a (HOA_Version m) ;;*
  put_bytes 0x42 (HOA_DownstreamChannelId m) ;;*
  put_bytes 0x3a (HOA_DownstreamPortId m) ;;*
  put_bytes 0x32 (HOA_ChannelId m) ;;*
  put_bytes 0x2a (HOA_PortId m) ;;*
  put_strings 0x22 (HOA_ConnectionHops m) ;;*
  put_enum 0x18 (HOA_Order m) ;;*
  put_msg 0x12 (HOA_UpstreamPrefix m) ;;*
  put_bytes 0xa (HOA_UpstreamClientId m)).

Definition MsgProxyChannelOpenAck_fields (fieldNum : Z) : option (Case MsgProxyChannelOpenAck) :=
  match fieldNum with
  | 1 => Some (case_bytes "UpstreamClientId"
      (fun f1 '(mkMsgProxyChannelOpenAck _ f2 f3 f4 f5 f6 f7 f8 f9 f10 f11 f12) =>
         mkMsgProxyChannelOpenAck f1 f2 f3 f4 f5 f6 f7 f8 f9 f10 f11 f12))
  | 2 => Some (case_msg "UpstreamPrefix" HOA_UpstreamPrefix
      (fun f2 '(mkMsgProxyChannelOpenAck f1 _ f3 f4 f5 f6 f7 f8 f9 f10 f11 f12) =>
         mkMsgProxyChannelOpenAck f1 f2 f3 f4 f5 f6 f7 f8 f9 f10 f11 f12))
  | 3 => Some (case_enum "Order"
      (fun f3 '(mkMsgProxyChannelOpenAck f1 f2 _ f4 f5 f6 f7 f8 f9 f10 f11 f12) =>
         mkMsgProxyChannelOpenAck f1 f2 f3 f4 f5 f6 f7 f8 f9 f10 f11 f12))
  | 4 => Some (case_strings "ConnectionHops" HOA_ConnectionHops
      (fun f4 '(mkMsgProxyChannelOpenAck f1 f2 f3 _ f5 f6 f7 f8 f9 f10 f11 f12) =>
         mkMsgProxyChannelOpenAck f1 f2 f3 f4 f5 f6 f7 f8 f9 f10 f11 f12))
  | 5 => Some (case_bytes "PortId"
      (fun f5 '(mkMsgProxyChannelOpenAck f1 f2 f3 f4 _ f6 f7 f8 f9 f10 f11 f12) =>
         mkMsgProxyChannelOpenAck f1 f2 f3 f4 f5 f6 f7 f8 f9 f10 f11 f12))
  | 6 => Some (case_bytes "ChannelId"
      (fun f6 '(mkMsgProxyChannelOpenAck f1 f2 f3 f4 f5 _ f7 f8 f9 f10 f11 f12) =>
         mkMsgProxyChannelOpenAck f1 f2 f3 f4 f5 f6 f7 f8 f9 f10 f11 f12))
  | 7 => Some (case_bytes "DownstreamPortId"
      (fun f7 '(mkMsgProxyChannelOpenAck f1 f2 f3 f4 f5 f6 _ f8 f9 f10 f11 f12) =>
         mkMsgProxyChannelOpenAck f1 f2 f3 f4 f5 f6 f7 f8 f9 f10 f11 f12))
  | 8 => Some (case_bytes "DownstreamChannelId"
      (fun f8 '(mkMsgProxyChannelOpenAck f1 f2 f3 f4 f5 f6 f7 _ f9 f10 f11 f12) =>
         mkMsgProxyChannelOpenAck f1 f2 f3 f4 f5 f6 f7 f8 f9 f10 f11 f12))
  | 9 => Some (case_bytes "Version"
      (fun f9 '(mkMsgProxyChannelOpenAck f1 f2 f3 f4 f5 f6 f7 f8 _ f10 f11 f12) =>
         mkMsgProxyChannelOpenAck f1 f2 f3 f4 f5 f6 f7 f8 f9 f10 f11 f12))
  | 10 => Some (case_bytes "ProofTry"
      (fun f10 '(mkMsgProxyChannelOpenAck f1 f2 f3 f4 f5 f6 f7 f8 f9 _ f11 f12) =>
         mkMsgProxyChannelOpenAck f1 f2 f3 f4 f5 f6 f7 f8 f9 f10 f11 f12))
  | 11 => Some (case_msg "ProofHeight" HOA_ProofHeight
      (fun f11 '(mkMsgProxyChannelOpenAck f1 f2 f3 f4 f5 f6 f7 f8 f9 f10 _ f12) =>
         mkMsgProxyChannelOpenAck f1 f2 f3 f4 f5 f6 f7 f8 f9 f10 f11 f12))
  | 12 => Some (case_bytes "Signer"
      (fun f12 '(mkMsgProxyChannelOpenAck f1 f2 f3 f4 f5 f6 f7 f8 f9 f10 f11 _) =>
         mkMsgProxyChannelOpenAck f1 f2 f3 f4 f5 f6 f7 f8 f9 f10 f11 f12))
  | _ => None
  end%Z.

Definition MsgProxyChannelOpenAck_Unmarshal (dAtA : bytes) : M MsgProxyChannelOpenAck unit :=
  unmarshal_fields MsgProxyChannelOpenAck_fields dAtA.

#[export] Instance MsgProxyChannelOpenAck_pb : PbMessage MsgProxyChannelOpenAck := {
  pb_zero := mkMsgProxyChannelOpenAck "" pb_zero 0%Z [] "" "" "" "" "" "" pb_zero "";
  pb_Size := MsgProxyChannelOpenAck_Size;
  pb_MarshalToSizedBuffer := MsgProxyChannelOpenAck_MarshalToSizedBuffer;
  pb_Unmarshal := MsgProxyChannelOpenAck_Unmarshal
}.

(** ** MsgProxyChannelOpenConfirm *)

Definition MsgProxyChannelOpenConfirm_Size (m : MsgProxyChannelOpenConfirm) : Z :=
  (size_bytes 1 (HOC_UpstreamClientId m) + size_msg 1 (HOC_UpstreamPrefix m) +
   size_bytes 1 (HOC_PortId m) + size_bytes 1 (HOC_ChannelId m) +
   size_bytes 1 (HOC_DownstreamChannelId m) + size_bytes 1 (HOC_ProofAck m) +
   size_msg 1 (HOC_ProofHeight m) + size_bytes 1 (HOC_Signer m))%Z.

Definition MsgProxyChannelOpenConfirm_MarshalToSizedBuffer (m : MsgProxyChannelOpenConfirm) : M Buf Z := sized (
  put_bytes 0x42 (HOC_Signer m) ;;*
  put_msg 0x3a (HOC_ProofHeight m) ;;*
  put_bytes 0x32 (HOC_ProofAck m) ;;*
  put_bytes 0x2a (HOC_DownstreamChannelId m) ;;*
  put_bytes 0x22 (HOC_ChannelId m) ;;*
  put_bytes 0x1a (HOC_PortId m) ;;*
  put_msg 0x12 (HOC_UpstreamPrefix m) ;;*
  put_bytes 0xa (HOC_UpstreamClientId m)).

Definition MsgProxyChannelOpenConfirm_fields (fieldNum : Z) : option (Case MsgProxyChannelOpenConfirm) :=
  match fieldNum with
  | 1 => Some (case_bytes "UpstreamClientId"
      (fun f1 '(mkMsgProxyChannelOpenConfirm _ f2 f3 f4 f5 f6 f7 f8) =>
         mkMsgProxyChannelOpenConfirm f1 f2 f3 f4 f5 f6 f7 f8))
  | 2 => Some (case_msg "UpstreamPrefix" HOC_UpstreamPrefix
      (fun f2 '(mkMsgProxyChannelOpenConfirm f1 _ f3 f4 f5 f6 f7 f8) =>
         mkMsgProxyChannelOpenConfirm f1 f2 f3 f4 f5 f6 f7 f8))
  | 3 => Some (case_bytes "PortId"
      (fun f3 '(mkMsgProxyChannelOpenConfirm f1 f2 _ f4 f5 f6 f7 f8) =>
         mkMsgProxyChannelOpenConfirm f1 f2 f3 f4 f5 f6 f7 f8))
  | 4 => Some (case_bytes "ChannelId"
      (fun f4 '(mkMsgProxyChannelOpenConfirm f1 f2 f3 _ f5 f6 f7 f8) =>
         mkMsgProxyChannelOpenConfirm f1 f2 f3 f4 f5 f6 f7 f8))
  | 5 => Some (case_bytes "DownstreamChannelId"
      (fun f5 '(mkMsgProxyChannelOpenConfirm f1 f2 f3 f4 _ f6 f7 f8) =>
         mkMsgProxyChannelOpenConfirm f1 f2 f3 f4 f5 f6 f7 f8))
  | 6 => Some (case_bytes "ProofAck"
      (fun f6 '(mkMsgProxyChannelOpenConfirm f1 f2 f3 f4 f5 _ f7 f8) =>
         mkMsgProxyChannelOpenConfirm f1 f2 f3 f4 f5 f6 f7 f8))
  | 7 => Some (case_msg "ProofHeight" HOC_ProofHeight
      (fun f7 '(mkMsgProxyChannelOpenConfirm f1 f2 f3 f4 f5 f6 _ f8) =>
         mkMsgProxyChannelOpenConfirm f1 f2 f3 f4 f5 f6 f7 f8))
  | 8 => Some (case_bytes "Signer"
      (fun f8 '(mkMsgProxyChannelOpenConfirm f1 f2 f3 f4 f5 f6 f7 _) =>
         mkMsgProxyChannelOpenConfirm f1 f2 f3 f4 f5 f6 f7 f8))
  | _ => None
  end%Z.

Definition MsgProxyChannelOpenConfirm_Unmarshal (dAtA : bytes) : M MsgProxyChannelOpenConfirm unit :=
  unmarshal_fields MsgProxyChannelOpenConfirm_fields dAtA.

#[export] Instance MsgProxyChannelOpenConfirm_pb : PbMessage MsgProxyChannelOpenConfirm := {
  pb_zero := mkMsgProxyChannelOpenConfirm "" pb_zero "" "" "" "" pb_zero "";
  pb_Size := MsgProxyChannelOpenConfirm_Size;
  pb_MarshalToSizedBuffer := MsgProxyChannelOpenConfirm_MarshalToSizedBuffer;
  pb_Unmarshal := MsgProxyChannelOpenConfirm_Unmarshal
}.

(** ** MsgProxyChannelOpenFinalize *)

Definition MsgProxyChannelOpenFinalize_Size (m : MsgProxyChannelOpenFinalize) : Z :=
  (size_bytes 1 (HOF_UpstreamClientId m) + size_msg 1 (HOF_UpstreamPrefix m) +
   size_bytes 1 (HOF_PortId m) + size_bytes 1 (HOF_ChannelId m) +
   size_bytes 1 (HOF_ProofConfirm m) + size_msg 1 (HOF_ProofHeight m) +
   size_bytes 1 (HOF_Signer m))%Z.

Definition MsgProxyChannelOpenFinalize_MarshalToSizedBuffer (m : MsgProxyChannelOpenFinalize) : M Buf Z := sized (
  put_bytes 0x3a (HOF_Signer m) ;;*
  put_msg 0x32 (HOF_ProofHeight m) ;;*
  put_bytes 0x2a (HOF_ProofConfirm m) ;;*
  put_bytes 0x22 (HOF_ChannelId m) ;;*
  put_bytes 0x1a (HOF_PortId m) ;;*
  put_msg 0x12 (HOF_UpstreamPrefix m) ;;*
  put_bytes 0xa (HOF_UpstreamClientId m)).

Definition MsgProxyChannelOpenFinalize_fields (fieldNum : Z) : option (Case MsgProxyChannelOpenFinalize) :=
  match fieldNum with
  | 1 => Some (case_bytes "UpstreamClientId"
      (fun f1 '(mkMsgProxyChannelOpenFinalize _ f2 f3 f4 f5 f6 f7) =>
         mkMsgProxyChannelOpenFinalize f1 f2 f3 f4 f5 f6 f7))
  | 2 => Some (case_msg "UpstreamPrefix" HOF_UpstreamPrefix
      (fun f2 '(mkMsgProxyChannelOpenFinalize f1 _ f3 f4 f5 f6 f7) =>
         mkMsgProxyChannelOpenFinalize f1 f2 f3 f4 f5 f6 f7))
  | 3 => Some (case_bytes "PortId"
      (fun f3 '(mkMsgProxyChannelOpenFinalize f1 f2 _ f4 f5 f6 f7) =>
         mkMsgProxyChannelOpenFinalize f1 f2 f3 f4 f5 f6 f7))
  | 4 => Some (case_bytes "ChannelId"
      (fun f4 '(mkMsgProxyChannelOpenFinalize f1 f2 f3 _ f5 f6 f7) =>
         mkMsgProxyChannelOpenFinalize f1 f2 f3 f4 f5 f6 f7))
  | 5 => Some (case_bytes "ProofConfirm"
      (fun f5 '(mkMsgProxyChannelOpenFinalize f1 f2 f3 f4 _ f6 f7) =>
         mkMsgProxyChannelOpenFinalize f1 f2 f3 f4 f5 f6 f7))
  | 6 => Some (case_msg "ProofHeight" HOF_ProofHeight
      (fun f6 '(mkMsgProxyChannelOpenFinalize f1 f2 f3 f4 f5 _ f7) =>
         mkMsgProxyChannelOpenFinalize f1 f2 f3 f4 f5 f6 f7))
  | 7 => Some (case_bytes "Signer"
      (fun f7 '(mkMsgProxyChannelOpenFinalize f1 f2 f3 f4 f5 f6 _) =>
         mkMsgProxyChannelOpenFinalize f1 f2 f3 f4 f5 f6 f7))
  | _ => None
  end%Z.

Definition MsgProxyChannelOpenFinalize_Unmarshal (dAtA : bytes) : M MsgProxyChannelOpenFinalize unit :=
  unmarshal_fields MsgProxyChannelOpenFinalize_fields dAtA.

#[export] Instance MsgProxyChannelOpenFinalize_pb : PbMessage MsgProxyChannelOpenFinalize := {
  pb_zero := mkMsgProxyChannelOpenFinalize "" pb_zero "" "" "" pb_zero "";
  pb_Size := MsgProxyChannelOpenFinalize_Size;
  pb_MarshalToSizedBuffer := MsgProxyChannelOpenFinalize_MarshalToSizedBuffer;
  pb_Unmarshal := MsgProxyChannelOpenFinalize_Unmarshal
}.

(** ** MsgProxyRecvPacket *)

Definition MsgProxyRecvPacket_Size (m : MsgProxyRecvPacket) : Z :=
  (size_bytes 1 (RPK_UpstreamClientId m) + size_msg 1 (RPK_UpstreamPrefix m) +
   size_msg 1 (RPK_Packet m) + size_bytes 1 (RPK_Proof m) +
   size_msg 1 (RPK_ProofHeight m) + size_bytes 1 (RPK_Signer m))%Z.

Definition MsgProxyRecvPacket_MarshalToSizedBuffer (m : MsgProxyRecvPacket) : M Buf Z := sized (
  put_bytes 0x32 (RPK_Signer m) ;;*
  put_msg 0x2a (RPK_ProofHeight m) ;;*
  put_bytes 0x22 (RPK_Proof m) ;;*
  put_msg 0x1a (RPK_Packet m) ;;*
  put_msg 0x12 (RPK_UpstreamPrefix m) ;;*
  put_bytes 0xa (RPK_UpstreamClientId m)).

Definition MsgProxyRecvPacket_fields (fieldNum : Z) : option (Case MsgProxyRecvPacket) :=
  match fieldNum with
  | 1 => Some (case_bytes "UpstreamClientId"
      (fun f1 '(mkMsgProxyRecvPacket _ f2 f3 f4 f5 f6) =>
         mkMsgProxyRecvPacket f1 f2 f3 f4 f5 f6))
  | 2 => Some (case_msg "UpstreamPrefix" RPK_UpstreamPrefix
      (fun f2 '(mkMsgProxyRecvPacket f1 _ f3 f4 f5 f6) =>
         mkMsgProxyRecvPacket f1 f2 f3 f4 f5 f6))
  | 3 => Some (case_msg "Packet" RPK_Packet
      (fun f3 '(mkMsgProxyRecvPacket f1 f2 _ f4 f5 f6) =>
         mkMsgProxyRecvPacket f1 f2 f3 f4 f5 f6))
  | 4 => Some (case_bytes "Proof"
      (fun f4 '(mkMsgProxyRecvPacket f1 f2 f3 _ f5 f6) =>
         mkMsgProxyRecvPacket f1 f2 f3 f4 f5 f6))
  | 5 => Some (case_msg "ProofHeight" RPK_ProofHeight
      (fun f5 '(mkMsgProxyRecvPacket f1 f2 f3 f4 _ f6) =>
         mkMsgProxyRecvPacket f1 f2 f3 f4 f5 f6))
  | 6 => Some (case_bytes "Signer"
      (fun f6 '(mkMsgProxyRecvPacket f1 f2 f3 f4 f5 _) =>
         mkMsgProxyRecvPacket f1 f2 f3 f4 f5 f6))
  | _ => None
  end%Z.

Definition MsgProxyRecvPacket_Unmarshal (dAtA : bytes) : M MsgProxyRecvPacket unit :=
  unmarshal_fields MsgProxyRecvPacket_fields dAtA.

#[export] Instance MsgProxyRecvPacket_pb : PbMessage MsgProxyRecvPacket := {
  pb_zero := mkMsgProxyRecvPacket "" pb_zero pb_zero "" pb_zero "";
  pb_Size := MsgProxyRecvPacket_Size;
  pb_MarshalToSizedBuffer := MsgProxyRecvPacket_MarshalToSizedBuffer;
  pb_Unmarshal := MsgProxyRecvPacket_Unmarshal
}.

(** ** MsgProxyAcknowledgePacket *)

Definition MsgProxyAcknowledgePacket_Size (m : MsgProxyAcknowledgePacket) : Z :=
  (size_bytes 1 (APK_UpstreamClientId m) + size_msg 1 (APK_UpstreamPrefix m) +
   size_msg 1 (APK_Packet m) + size_bytes 1 (APK_Acknowledgement m) +
   size_bytes 1 (APK_Proof m) + size_msg 1 (APK_ProofHeight m) +
   size_bytes 1 (APK_Signer m))%Z.

Definition MsgProxyAcknowledgePacket_MarshalToSizedBuffer (m : MsgProxyAcknowledgePacket) : M Buf Z := sized (
  put_bytes 0x3a (APK_Signer m) ;;*
  put_msg 0x32 (APK_ProofHeight m) ;;*
  put_bytes 0x2a (APK_Proof m) ;;*
  put_bytes 0x22 (APK_Acknowledgement m) ;;*
  put_msg 0x1a (APK_Packet m) ;;*
  put_msg 0x12 (APK_UpstreamPrefix m) ;;*
  put_bytes 0xa (APK_UpstreamClientId m)).

Definition MsgProxyAcknowledgePacket_fields (fieldNum : Z) : option (Case MsgProxyAcknowledgePacket) :=
  match fieldNum with
  | 1 => Some (case_bytes "UpstreamClientId"
      (fun f1 '(mkMsgProxyAcknowledgePacket _ f2 f3 f4 f5 f6 f7) =>
         mkMsgProxyAcknowledgePacket f1 f2 f3 f4 f5 f6 f7))
  | 2 => Some (case_msg "UpstreamPrefix" APK_UpstreamPrefix
      (fun f2 '(mkMsgProxyAcknowledgePacket f1 _ f3 f4 f5 f6 f7) =>
         mkMsgProxyAcknowledgePacket f1 f2 f3 f4 f5 f6 f7))
  | 3 => Some (case_msg "Packet" APK_Packet
      (fun f3 '(mkMsgProxyAcknowledgePacket f1 f2 _ f4 f5 f6 f7) =>
         mkMsgProxyAcknowledgePacket f1 f2 f3 f4 f5 f6 f7))
  | 4 => Some (case_bytes "Acknowledgement"
      (fun f4 '(mkMsgProxyAcknowledgePacket f1 f2 f3 _ f5 f6 f7) =>
         mkMsgProxyAcknowledgePacket f1 f2 f3 f4 f5 f6 f7))
  | 5 => Some (case_bytes "Proof"
      (fun f5 '(mkMsgProxyAcknowledgePacket f1 f2 f3 f4 _ f6 f7) =>
         mkMsgProxyAcknowledgePacket f1 f2 f3 f4 f5 f6 f7))
  | 6 => Some (case_msg "ProofHeight" APK_ProofHeight
      (fun f6 '(mkMsgProxyAcknowledgePacket f1 f2 f3 f4 f5 _ f7) =>
         mkMsgProxyAcknowledgePacket f1 f2 f3 f4 f5 f6 f7))
  | 7 => Some (case_bytes "Signer"
      (fun f7 '(mkMsgProxyAcknowledgePacket f1 f2 f3 f4 f5 f6 _) =>
         mkMsgProxyAcknowledgePacket f1 f2 f3 f4 f5 f6 f7))
  | _ => None
  end%Z.

Definition MsgProxyAcknowledgePacket_Unmarshal (dAtA : bytes) : M MsgProxyAcknowledgePacket unit :=
  unmarshal_fields MsgProxyAcknowledgePacket_fields dAtA.

#[export] Instance MsgProxyAcknowledgePacket_pb : PbMessage MsgProxyAcknowledgePacket := {
  pb_zero := mkMsgProxyAcknowledgePacket "" pb_zero pb_zero "" "" pb_zero "";
  pb_Size := MsgProxyAcknowledgePacket_Size;
  pb_MarshalToSizedBuffer := MsgProxyAcknowledgePacket_MarshalToSizedBuffer;
  pb_Unmarshal := MsgProxyAcknowledgePacket_Unmarshal
}.

(** ** The responses

    The eleven Msg...Response are empty and have the same generated code: every
    field is unknown, and skipped. *)

Record MsgResponse := mkMsgResponse {}.

Definition MsgResponse_Size (m : MsgResponse) : Z := 0.

Definition MsgResponse_MarshalToSizedBuffer (m : MsgResponse) : M Buf Z := sized (mret tt).

Definition MsgResponse_Unmarshal (dAtA : bytes) : M MsgResponse unit :=
  unmarshal_fields (fun _ => None) dAtA.

#[export] Instance MsgResponse_pb : PbMessage MsgResponse := {
  pb_zero := mkMsgResponse;
  pb_Size := MsgResponse_Size;
  pb_MarshalToSizedBuffer := MsgResponse_MarshalToSizedBuffer;
  pb_Unmarshal := MsgResponse_Unmarshal
}.

(** ** The genesis messages (proxy.pb.go), which are empty too *)

Record Params := mkParams {}.

Definition Params_Size (m : Params) : Z := 0.

Definition Params_MarshalToSizedBuffer (m : Params) : M Buf Z := sized (mret tt).

Definition Params_Unmarshal (dAtA : bytes) : M Params unit :=
  unmarshal_fields (fun _ => None) dAtA.

#[export] Instance Params_pb : PbMessage Params := {
  pb_zero := mkParams;
  pb_Size := Params_Size;
  pb_MarshalToSizedBuffer := Params_MarshalToSizedBuffer;
  pb_Unmarshal := Params_Unmarshal
}.

Record GenesisState := mkGenesisState {}.

Definition GenesisState_Size (m : GenesisState) : Z := 0.

Definition GenesisState_MarshalToSizedBuffer (m : GenesisState) : M Buf Z := sized (mret tt).

Definition GenesisState_Unmarshal (dAtA : bytes) : M GenesisState unit :=
  unmarshal_fields (fun _ => None) dAtA.

#[export] Instance GenesisState_pb : PbMessage GenesisState := {
  pb_zero := mkGenesisState;
  pb_Size := GenesisState_Size;
  pb_MarshalToSizedBuffer := GenesisState_MarshalToSizedBuffer;
  pb_Unmarshal := GenesisState_Unmarshal
}.

End Messages.
