(* ===== verification/PbTxSpec.v ===== *)
(** The codecs of the messages of the proxy module (PbTx.v) keep the contract of
    WireSpec.v; and the two properties of all the generated codecs: what is
    encoded is decoded, and decoding is total. *)
From S2P Require Import Prelude.
From S2P Require Import Lib.
From S2P Require Import Wire.
From S2P Require Import Msgs.
From S2P Require Import PbClients.
From S2P Require Import PbTx.
From S2P Require Import WireSpec.
From S2P Require Import PbRef.
From S2P Require Import PbSpec.

Section Messages.
Context `{PbLaws AnyT, PbLaws MerklePrefix, PbLaws Height, PbLaws ConnectionEnd,
  PbLaws Packet}.

(** ** MsgProxyClientState *)

Definition MsgProxyClientState_enc (m : MsgProxyClientState) : bytes :=
  enc_bytes 0xa (PCS_UpstreamClientId m) +:+ frame 0x12 (pb_enc (PCS_UpstreamPrefix m)) +:+
  enc_bytes 0x1a (PCS_CounterpartyClientId m) +:+ enc_opt 0x22 (PCS_ClientState m) +:+
  enc_opt 0x2a (PCS_ConsensusState m) +:+ enc_bytes 0x32 (PCS_ProofClient m) +:+
  enc_bytes 0x3a (PCS_ProofConsensus m) +:+ frame 0x42 (pb_enc (PCS_ProofHeight m)) +:+
  frame 0x4a (pb_enc (PCS_ConsensusHeight m)) +:+ enc_bytes 0x52 (PCS_Signer m) +:+
  EmptyString.

Definition MsgProxyClientState_merge (a b : MsgProxyClientState) : MsgProxyClientState :=
  mkMsgProxyClientState (merge_bytes (PCS_UpstreamClientId a) (PCS_UpstreamClientId b))
    (pb_merge (PCS_UpstreamPrefix a) (PCS_UpstreamPrefix b))
    (merge_bytes (PCS_CounterpartyClientId a) (PCS_CounterpartyClientId b))
    (merge_opt (PCS_ClientState a) (PCS_ClientState b))
    (merge_opt (PCS_ConsensusState a) (PCS_ConsensusState b))
    (merge_bytes (PCS_ProofClient a) (PCS_ProofClient b))
    (merge_bytes (PCS_ProofConsensus a) (PCS_ProofConsensus b))
    (pb_merge (PCS_ProofHeight a) (PCS_ProofHeight b))
    (pb_merge (PCS_ConsensusHeight a) (PCS_ConsensusHeight b))
    (merge_bytes (PCS_Signer a) (PCS_Signer b)).

Definition MsgProxyClientState_ok (m : MsgProxyClientState) : Prop :=
  fits (PCS_UpstreamClientId m) /\ pb_ok (PCS_UpstreamPrefix m) /\
  fits (PCS_CounterpartyClientId m) /\ opt_ok (PCS_ClientState m) /\
  opt_ok (PCS_ConsensusState m) /\ fits (PCS_ProofClient m) /\
  fits (PCS_ProofConsensus m) /\ pb_ok (PCS_ProofHeight m) /\
  pb_ok (PCS_ConsensusHeight m) /\ fits (PCS_Signer m) /\ fits (MsgProxyClientState_enc m).

#[export, refine] Instance MsgProxyClientState_laws : PbLaws MsgProxyClientState := {
  pb_ok := MsgProxyClientState_ok; pb_enc := MsgProxyClientState_enc; pb_merge := MsgProxyClientState_merge }.
Proof.
  - intros m (? & ? & ? & ? & ? & ? & ? & ? & ? & ? & Hf). unfold MsgProxyClientState_enc in *. fits_split.
    change (pb_Size m) with (MsgProxyClientState_Size m). unfold MsgProxyClientState_Size. size_fields.
  - intros m r (? & ? & ? & ? & ? & ? & ? & ? & ? & ? & Hf) Hr. apply sized_fresh; [|done].
    unfold MsgProxyClientState_enc in *. fits_split. rewrite app_str_nil_r. stores_fields.
  - intros m0 m (? & ? & ? & ? & ? & ? & ? & ? & ? & ? & _) Hf. apply unmarshal_decodes; [total_fields|done|]. intros l.
    destruct m0. unfold MsgProxyClientState_enc. repeat decode_step.
  - intros m (? & ? & ? & ? & ? & ? & ? & ? & ? & ? & _). destruct m. merge_zero MsgProxyClientState_merge.
  - intros s m p Hs. apply unmarshal_fields_total; [total_fields|done].
Defined.

(** ** MsgProxyConnectionOpenTry *)

Definition MsgProxyConnectionOpenTry_enc (m : MsgProxyConnectionOpenTry) : bytes :=
  enc_bytes 0xa (COT_ConnectionId m) +:+ frame 0x12 (pb_enc (COT_UpstreamPrefix m)) +:+
  frame 0x1a (pb_enc (COT_Connection m)) +:+ enc_opt 0x22 (COT_DownstreamClientState m) +:+
  enc_opt 0x2a (COT_DownstreamConsensusState m) +:+
  enc_opt 0x32 (COT_ProxyClientState m) +:+ enc_bytes 0x3a (COT_ProofInit m) +:+
  enc_bytes 0x42 (COT_ProofClient m) +:+ enc_bytes 0x4a (COT_ProofConsensus m) +:+
  frame 0x52 (pb_enc (COT_ProofHeight m)) +:+
  frame 0x5a (pb_enc (COT_ConsensusHeight m)) +:+
  enc_bytes 0x62 (COT_ProofProxyClient m) +:+
  enc_bytes 0x6a (COT_ProofProxyConsensus m) +:+
  frame 0x72 (pb_enc (COT_ProofProxyHeight m)) +:+
  frame 0x7a (pb_enc (COT_ProxyConsensusHeight m)) +:+ enc_bytes 0x82 (COT_Signer m) +:+
  EmptyString.

Definition MsgProxyConnectionOpenTry_merge (a b : MsgProxyConnectionOpenTry) : MsgProxyConnectionOpenTry :=
  mkMsgProxyConnectionOpenTry (merge_bytes (COT_ConnectionId a) (COT_ConnectionId b))
    (pb_merge (COT_UpstreamPrefix a) (COT_UpstreamPrefix b))
    (pb_merge (COT_Connection a) (COT_Connection b))
    (merge_opt (COT_DownstreamClientState a) (COT_DownstreamClientState b))
    (merge_opt (COT_DownstreamConsensusState a) (COT_DownstreamConsensusState b))
    (merge_opt (COT_ProxyClientState a) (COT_ProxyClientState b))
    (merge_bytes (COT_ProofInit a) (COT_ProofInit b))
    (merge_bytes (COT_ProofClient a) (COT_ProofClient b))
    (merge_bytes (COT_ProofConsensus a) (COT_ProofConsensus b))
    (pb_merge (COT_ProofHeight a) (COT_ProofHeight b))
    (pb_merge (COT_ConsensusHeight a) (COT_ConsensusHeight b))
    (merge_bytes (COT_ProofProxyClient a) (COT_ProofProxyClient b))
    (merge_bytes (COT_ProofProxyConsensus a) (COT_ProofProxyConsensus b))
    (pb_merge (COT_ProofProxyHeight a) (COT_ProofProxyHeight b))
    (pb_merge (COT_ProxyConsensusHeight a) (COT_ProxyConsensusHeight b))
    (merge_bytes (COT_Signer a) (COT_Signer b)).

Definition MsgProxyConnectionOpenTry_ok (m : MsgProxyConnectionOpenTry) : Prop :=
  fits (COT_ConnectionId m) /\ pb_ok (COT_UpstreamPrefix m) /\ pb_ok (COT_Connection m) /\
  opt_ok (COT_DownstreamClientState m) /\ opt_ok (COT_DownstreamConsensusState m) /\
  opt_ok (COT_ProxyClientState m) /\ fits (COT_ProofInit m) /\ fits (COT_ProofClient m) /\
  fits (COT_ProofConsensus m) /\ pb_ok (COT_ProofHeight m) /\
  pb_ok (COT_ConsensusHeight m) /\ fits (COT_ProofProxyClient m) /\
  fits (COT_ProofProxyConsensus m) /\ pb_ok (COT_ProofProxyHeight m) /\
  pb_ok (COT_ProxyConsensusHeight m) /\ fits (COT_Signer m) /\
  fits (MsgProxyConnectionOpenTry_enc m).

#[export, refine] Instance MsgProxyConnectionOpenTry_laws : PbLaws MsgProxyConnectionOpenTry := {
  pb_ok := MsgProxyConnectionOpenTry_ok; pb_enc := MsgProxyConnectionOpenTry_enc; pb_merge := MsgProxyConnectionOpenTry_merge }.
Proof.
  - intros m (? & ? & ? & ? & ? & ? & ? & ? & ? & ? & ? & ? & ? & ? & ? & ? & Hf). unfold MsgProxyConnectionOpenTry_enc in *. fits_split.
    change (pb_Size m) with (MsgProxyConnectionOpenTry_Size m). unfold MsgProxyConnectionOpenTry_Size. size_fields.
  - intros m r (? & ? & ? & ? & ? & ? & ? & ? & ? & ? & ? & ? & ? & ? & ? & ? & Hf) Hr. apply sized_fresh; [|done].
    unfold MsgProxyConnectionOpenTry_enc in *. fits_split. rewrite app_str_nil_r. stores_fields.
  - intros m0 m (? & ? & ? & ? & ? & ? & ? & ? & ? & ? & ? & ? & ? & ? & ? & ? & _) Hf. apply unmarshal_decodes; [total_fields|done|]. intros l.
    destruct m0. unfold MsgProxyConnectionOpenTry_enc. repeat decode_step.
  - intros m (? & ? & ? & ? & ? & ? & ? & ? & ? & ? & ? & ? & ? & ? & ? & ? & _). destruct m. merge_zero MsgProxyConnectionOpenTry_merge.
  - intros s m p Hs. apply unmarshal_fields_total; [total_fields|done].
Defined.

(** ** MsgProxyConnectionOpenAck *)

Definition MsgProxyConnectionOpenAck_enc (m : MsgProxyConnectionOpenAck) : bytes :=
  enc_bytes 0xa (COA_ConnectionId m) +:+ frame 0x12 (pb_enc (COA_UpstreamPrefix m)) +:+
  frame 0x1a (pb_enc (COA_Connection m)) +:+ enc_opt 0x22 (COA_DownstreamClientState m) +:+
  enc_opt 0x2a (COA_DownstreamConsensusState m) +:+
  enc_opt 0x32 (COA_ProxyClientState m) +:+ enc_bytes 0x3a (COA_ProofTry m) +:+
  enc_bytes 0x42 (COA_ProofClient m) +:+ enc_bytes 0x4a (COA_ProofConsensus m) +:+
  frame 0x52 (pb_enc (COA_ProofHeight m)) +:+
  frame 0x5a (pb_enc (COA_ConsensusHeight m)) +:+
  enc_bytes 0x62 (COA_ProofProxyClient m) +:+
  enc_bytes 0x6a (COA_ProofProxyConsensus m) +:+
  frame 0x72 (pb_enc (COA_ProofProxyHeight m)) +:+
  frame 0x7a (pb_enc (COA_ProxyConsensusHeight m)) +:+ enc_bytes 0x82 (COA_Signer m) +:+
  EmptyString.

Definition MsgProxyConnectionOpenAck_merge (a b : MsgProxyConnectionOpenAck) : MsgProxyConnectionOpenAck :=
  mkMsgProxyConnectionOpenAck (merge_bytes (COA_ConnectionId a) (COA_ConnectionId b))
    (pb_merge (COA_UpstreamPrefix a) (COA_UpstreamPrefix b))
    (pb_merge (COA_Connection a) (COA_Connection b))
    (merge_opt (COA_DownstreamClientState a) (COA_DownstreamClientState b))
    (merge_opt (COA_DownstreamConsensusState a) (COA_DownstreamConsensusState b))
    (merge_opt (COA_ProxyClientState a) (COA_ProxyClientState b))
    (merge_bytes (COA_ProofTry a) (COA_ProofTry b))
    (merge_bytes (COA_ProofClient a) (COA_ProofClient b))
    (merge_bytes (COA_ProofConsensus a) (COA_ProofConsensus b))
    (pb_merge (COA_ProofHeight a) (COA_ProofHeight b))
    (pb_merge (COA_ConsensusHeight a) (COA_ConsensusHeight b))
    (merge_bytes (COA_ProofProxyClient a) (COA_ProofProxyClient b))
    (merge_bytes (COA_ProofProxyConsensus a) (COA_ProofProxyConsensus b))
    (pb_merge (COA_ProofProxyHeight a) (COA_ProofProxyHeight b))
    (pb_merge (COA_ProxyConsensusHeight a) (COA_ProxyConsensusHeight b))
    (merge_bytes (COA_Signer a) (COA_Signer b)).

Definition MsgProxyConnectionOpenAck_ok (m : MsgProxyConnectionOpenAck) : Prop :=
  fits (COA_ConnectionId m) /\ pb_ok (COA_UpstreamPrefix m) /\ pb_ok (COA_Connection m) /\
  opt_ok (COA_DownstreamClientState m) /\ opt_ok (COA_DownstreamConsensusState m) /\
  opt_ok (COA_ProxyClientState m) /\ fits (COA_ProofTry m) /\ fits (COA_ProofClient m) /\
  fits (COA_ProofConsensus m) /\ pb_ok (COA_ProofHeight m) /\
  pb_ok (COA_ConsensusHeight m) /\ fits (COA_ProofProxyClient m) /\
  fits (COA_ProofProxyConsensus m) /\ pb_ok (COA_ProofProxyHeight m) /\
  pb_ok (COA_ProxyConsensusHeight m) /\ fits (COA_Signer m) /\
  fits (MsgProxyConnectionOpenAck_enc m).

#[export, refine] Instance MsgProxyConnectionOpenAck_laws : PbLaws MsgProxyConnectionOpenAck := {
  pb_ok := MsgProxyConnectionOpenAck_ok; pb_enc := MsgProxyConnectionOpenAck_enc; pb_merge := MsgProxyConnectionOpenAck_merge }.
Proof.
  - intros m (? & ? & ? & ? & ? & ? & ? & ? & ? & ? & ? & ? & ? & ? & ? & ? & Hf). unfold MsgProxyConnectionOpenAck_enc in *. fits_split.
    change (pb_Size m) with (MsgProxyConnectionOpenAck_Size m). unfold MsgProxyConnectionOpenAck_Size. size_fields.
  - intros m r (? & ? & ? & ? & ? & ? & ? & ? & ? & ? & ? & ? & ? & ? & ? & ? & Hf) Hr. apply sized_fresh; [|done].
    unfold MsgProxyConnectionOpenAck_enc in *. fits_split. rewrite app_str_nil_r. stores_fields.
  - intros m0 m (? & ? & ? & ? & ? & ? & ? & ? & ? & ? & ? & ? & ? & ? & ? & ? & _) Hf. apply unmarshal_decodes; [total_fields|done|]. intros l.
    destruct m0. unfold MsgProxyConnectionOpenAck_enc. repeat decode_step.
  - intros m (? & ? & ? & ? & ? & ? & ? & ? & ? & ? & ? & ? & ? & ? & ? & ? & _). destruct m. merge_zero MsgProxyConnectionOpenAck_merge.
  - intros s m p Hs. apply unmarshal_fields_total; [total_fields|done].
Defined.

(** ** MsgProxyConnectionOpenConfirm *)

Definition MsgProxyConnectionOpenConfirm_enc (m : MsgProxyConnectionOpenConfirm) : bytes :=
  enc_bytes 0xa (COC_ConnectionId m) +:+ enc_bytes 0x12 (COC_UpstreamClientId m) +:+
  frame 0x1a (pb_enc (COC_UpstreamPrefix m)) +:+
  enc_bytes 0x22 (COC_CounterpartyConnectionId m) +:+ enc_bytes 0x2a (COC_ProofAck m) +:+
  frame 0x32 (pb_enc (COC_ProofHeight m)) +:+ enc_bytes 0x3a (COC_Signer m) +:+ EmptyString.

Definition MsgProxyConnectionOpenConfirm_merge (a b : MsgProxyConnectionOpenConfirm) : MsgProxyConnectionOpenConfirm :=
  mkMsgProxyConnectionOpenConfirm (merge_bytes (COC_ConnectionId a) (COC_ConnectionId b))
    (merge_bytes (COC_UpstreamClientId a) (COC_UpstreamClientId b))
    (pb_merge (COC_UpstreamPrefix a) (COC_UpstreamPrefix b))
    (merge_bytes (COC_CounterpartyConnectionId a) (COC_CounterpartyConnectionId b))
    (merge_bytes (COC_ProofAck a) (COC_ProofAck b))
    (pb_merge (COC_ProofHeight a) (COC_ProofHeight b))
    (merge_bytes (COC_Signer a) (COC_Signer b)).

Definition MsgProxyConnectionOpenConfirm_ok (m : MsgProxyConnectionOpenConfirm) : Prop :=
  fits (COC_ConnectionId m) /\ fits (COC_UpstreamClientId m) /\
  pb_ok (COC_UpstreamPrefix m) /\ fits (COC_CounterpartyConnectionId m) /\
  fits (COC_ProofAck m) /\ pb_ok (COC_ProofHeight m) /\ fits (COC_Signer m) /\
  fits (MsgProxyConnectionOpenConfirm_enc m).

#[export, refine] Instance MsgProxyConnectionOpenConfirm_laws : PbLaws MsgProxyConnectionOpenConfirm := {
  pb_ok := MsgProxyConnectionOpenConfirm_ok; pb_enc := MsgProxyConnectionOpenConfirm_enc; pb_merge := MsgProxyConnectionOpenConfirm_merge }.
Proof.
  - intros m (? & ? & ? & ? & ? & ? & ? & Hf). unfold MsgProxyConnectionOpenConfirm_enc in *. fits_split.
    change (pb_Size m) with (MsgProxyConnectionOpenConfirm_Size m). unfold MsgProxyConnectionOpenConfirm_Size. size_fields.
  - intros m r (? & ? & ? & ? & ? & ? & ? & Hf) Hr. apply sized_fresh; [|done].
    unfold MsgProxyConnectionOpenConfirm_enc in *. fits_split. rewrite app_str_nil_r. stores_fields.
  - intros m0 m (? & ? & ? & ? & ? & ? & ? & _) Hf. apply unmarshal_decodes; [total_fields|done|]. intros l.
    destruct m0. unfold MsgProxyConnectionOpenConfirm_enc. repeat decode_step.
  - intros m (? & ? & ? & ? & ? & ? & ? & _). destruct m. merge_zero MsgProxyConnectionOpenConfirm_merge.
  - intros s m p Hs. apply unmarshal_fields_total; [total_fields|done].
Defined.

(** ** MsgProxyConnectionOpenFinalize *)

Definition MsgProxyConnectionOpenFinalize_enc (m : MsgProxyConnectionOpenFinalize) : bytes :=
  enc_bytes 0xa (COF_ConnectionId m) +:+ enc_bytes 0x12 (COF_UpstreamClientId m) +:+
  frame 0x1a (pb_enc (COF_UpstreamPrefix m)) +:+ enc_bytes 0x22 (COF_ProofConfirm m) +:+
  frame 0x2a (pb_enc (COF_ProofHeight m)) +:+ enc_bytes 0x32 (COF_Signer m) +:+ EmptyString.

Definition MsgProxyConnectionOpenFinalize_merge (a b : MsgProxyConnectionOpenFinalize) : MsgProxyConnectionOpenFinalize :=
  mkMsgProxyConnectionOpenFinalize (merge_bytes (COF_ConnectionId a) (COF_ConnectionId b))
    (merge_bytes (COF_UpstreamClientId a) (COF_UpstreamClientId b))
    (pb_merge (COF_UpstreamPrefix a) (COF_UpstreamPrefix b))
    (merge_bytes (COF_ProofConfirm a) (COF_ProofConfirm b))
    (pb_merge (COF_ProofHeight a) (COF_ProofHeight b))
    (merge_bytes (COF_Signer a) (COF_Signer b)).

Definition MsgProxyConnectionOpenFinalize_ok (m : MsgProxyConnectionOpenFinalize) : Prop :=
  fits (COF_ConnectionId m) /\ fits (COF_UpstreamClientId m) /\
  pb_ok (COF_UpstreamPrefix m) /\ fits (COF_ProofConfirm m) /\ pb_ok (COF_ProofHeight m) /\
  fits (COF_Signer m) /\ fits (MsgProxyConnectionOpenFinalize_enc m).

#[export, refine] Instance MsgProxyConnectionOpenFinalize_laws : PbLaws MsgProxyConnectionOpenFinalize := {
  pb_ok := MsgProxyConnectionOpenFinalize_ok; pb_enc := MsgProxyConnectionOpenFinalize_enc; pb_merge := MsgProxyConnectionOpenFinalize_merge }.
Proof.
  - intros m (? & ? & ? & ? & ? & ? & Hf). unfold MsgProxyConnectionOpenFinalize_enc in *. fits_split.
    change (pb_Size m) with (MsgProxyConnectionOpenFinalize_Size m). unfold MsgProxyConnectionOpenFinalize_Size. size_fields.
  - intros m r (? & ? & ? & ? & ? & ? & Hf) Hr. apply sized_fresh; [|done].
    unfold MsgProxyConnectionOpenFinalize_enc in *. fits_split. rewrite app_str_nil_r. stores_fields.
  - intros m0 m (? & ? & ? & ? & ? & ? & _) Hf. apply unmarshal_decodes; [total_fields|done|]. intros l.
    destruct m0. unfold MsgProxyConnectionOpenFinalize_enc. repeat decode_step.
  - intros m (? & ? & ? & ? & ? & ? & _). destruct m. merge_zero MsgProxyConnectionOpenFinalize_merge.
  - intros s m p Hs. apply unmarshal_fields_total; [total_fields|done].
Defined.

(** ** MsgProxyChannelOpenTry *)

Definition MsgProxyChannelOpenTry_enc (m : MsgProxyChannelOpenTry) : bytes :=
  enc_bytes 0xa (HOT_UpstreamClientId m) +:+ frame 0x12 (pb_enc (HOT_UpstreamPrefix m)) +:+
  enc_enum 0x18 (HOT_Order m) +:+ enc_strings 0x22 (HOT_ConnectionHops m) +:+
  enc_bytes 0x2a (HOT_PortId m) +:+ enc_bytes 0x32 (HOT_ChannelId m) +:+
  enc_bytes 0x3a (HOT_DownstreamPortId m) +:+ enc_bytes 0x42 (HOT_Version m) +:+
  enc_bytes 0x4a (HOT_ProofInit m) +:+ frame 0x52 (pb_enc (HOT_ProofHeight m)) +:+
  enc_bytes 0x5a (HOT_Signer m) +:+ EmptyString.

Definition MsgProxyChannelOpenTry_merge (a b : MsgProxyChannelOpenTry) : MsgProxyChannelOpenTry :=
  mkMsgProxyChannelOpenTry (merge_bytes (HOT_UpstreamClientId a) (HOT_UpstreamClientId b))
    (pb_merge (HOT_UpstreamPrefix a) (HOT_UpstreamPrefix b))
    (merge_enum (HOT_Order a) (HOT_Order b)) (HOT_ConnectionHops a ++ HOT_ConnectionHops b)
    (merge_bytes (HOT_PortId a) (HOT_PortId b))
    (merge_bytes (HOT_ChannelId a) (HOT_ChannelId b))
    (merge_bytes (HOT_DownstreamPortId a) (HOT_DownstreamPortId b))
    (merge_bytes (HOT_Version a) (HOT_Version b))
    (merge_bytes (HOT_ProofInit a) (HOT_ProofInit b))
    (pb_merge (HOT_ProofHeight a) (HOT_ProofHeight b))
    (merge_bytes (HOT_Signer a) (HOT_Signer b)).

Definition MsgProxyChannelOpenTry_ok (m : MsgProxyChannelOpenTry) : Prop :=
  fits (HOT_UpstreamClientId m) /\ pb_ok (HOT_UpstreamPrefix m) /\
  (- 2 ^ 31 <= HOT_Order m < 2 ^ 31)%Z /\ fits (HOT_PortId m) /\ fits (HOT_ChannelId m) /\
  fits (HOT_DownstreamPortId m) /\ fits (HOT_Version m) /\ fits (HOT_ProofInit m) /\
  pb_ok (HOT_ProofHeight m) /\ fits (HOT_Signer m) /\ fits (MsgProxyChannelOpenTry_enc m).

#[export, refine] Instance MsgProxyChannelOpenTry_laws : PbLaws MsgProxyChannelOpenTry := {
  pb_ok := MsgProxyChannelOpenTry_ok; pb_enc := MsgProxyChannelOpenTry_enc; pb_merge := MsgProxyChannelOpenTry_merge }.
Proof.
  - intros m (? & ? & ? & ? & ? & ? & ? & ? & ? & ? & Hf). unfold MsgProxyChannelOpenTry_enc in *. fits_split.
    change (pb_Size m) with (MsgProxyChannelOpenTry_Size m). unfold MsgProxyChannelOpenTry_Size. size_fields.
  - intros m r (? & ? & ? & ? & ? & ? & ? & ? & ? & ? & Hf) Hr. apply sized_fresh; [|done].
    unfold MsgProxyChannelOpenTry_enc in *. fits_split. rewrite app_str_nil_r. stores_fields.
  - intros m0 m (? & ? & ? & ? & ? & ? & ? & ? & ? & ? & _) Hf. apply unmarshal_decodes; [total_fields|done|]. intros l.
    destruct m0. unfold MsgProxyChannelOpenTry_enc. repeat decode_step.
  - intros m (? & ? & ? & ? & ? & ? & ? & ? & ? & ? & _). destruct m. merge_zero MsgProxyChannelOpenTry_merge.
  - intros s m p Hs. apply unmarshal_fields_total; [total_fields|done].
Defined.

(** ** MsgProxyChannelOpenAck *)

Definition MsgProxyChannelOpenAck_enc (m : MsgProxyChannelOpenAck) : bytes :=
  enc_bytes 0xa (HOA_UpstreamClientId m) +:+ frame 0x12 (pb_enc (HOA_UpstreamPrefix m)) +:+
  enc_enum 0x18 (HOA_Order m) +:+ enc_strings 0x22 (HOA_ConnectionHops m) +:+
  enc_bytes 0x2a (HOA_PortId m) +:+ enc_bytes 0x32 (HOA_ChannelId m) +:+
  enc_bytes 0x3a (HOA_DownstreamPortId m) +:+
  enc_bytes 0x42 (HOA_DownstreamChannelId m) +:+ enc_bytes 0x4a (HOA_Version m) +:+
  enc_bytes 0x52 (HOA_ProofTry m) +:+ frame 0x5a (pb_enc (HOA_ProofHeight m)) +:+
  enc_bytes 0x62 (HOA_Signer m) +:+ EmptyString.

Definition MsgProxyChannelOpenAck_merge (a b : MsgProxyChannelOpenAck) : MsgProxyChannelOpenAck :=
  mkMsgProxyChannelOpenAck (merge_bytes (HOA_UpstreamClientId a) (HOA_UpstreamClientId b))
    (pb_merge (HOA_UpstreamPrefix a) (HOA_UpstreamPrefix b))
    (merge_enum (HOA_Order a) (HOA_Order b)) (HOA_ConnectionHops a ++ HOA_ConnectionHops b)
    (merge_bytes (HOA_PortId a) (HOA_PortId b))
    (merge_bytes (HOA_ChannelId a) (HOA_ChannelId b))
    (merge_bytes (HOA_DownstreamPortId a) (HOA_DownstreamPortId b))
    (merge_bytes (HOA_DownstreamChannelId a) (HOA_DownstreamChannelId b))
    (merge_bytes (HOA_Version a) (HOA_Version b))
    (merge_bytes (HOA_ProofTry a) (HOA_ProofTry b))
    (pb_merge (HOA_ProofHeight a) (HOA_ProofHeight b))
    (merge_bytes (HOA_Signer a) (HOA_Signer b)).

Definition MsgProxyChannelOpenAck_ok (m : MsgProxyChannelOpenAck) : Prop :=
  fits (HOA_UpstreamClientId m) /\ pb_ok (HOA_UpstreamPrefix m) /\
  (- 2 ^ 31 <= HOA_Order m < 2 ^ 31)%Z /\ fits (HOA_PortId m) /\ fits (HOA_ChannelId m) /\
  fits (HOA_DownstreamPortId m) /\ fits (HOA_DownstreamChannelId m) /\
  fits (HOA_Version m) /\ fits (HOA_ProofTry m) /\ pb_ok (HOA_ProofHeight m) /\
  fits (HOA_Signer m) /\ fits (MsgProxyChannelOpenAck_enc m).

#[export, refine] Instance MsgProxyChannelOpenAck_laws : PbLaws MsgProxyChannelOpenAck := {
  pb_ok := MsgProxyChannelOpenAck_ok; pb_enc := MsgProxyChannelOpenAck_enc; pb_merge := MsgProxyChannelOpenAck_merge }.
Proof.
  - intros m (? & ? & ? & ? & ? & ? & ? & ? & ? & ? & ? & Hf). unfold MsgProxyChannelOpenAck_enc in *. fits_split.
    change (pb_Size m) with (MsgProxyChannelOpenAck_Size m). unfold MsgProxyChannelOpenAck_Size. size_fields.
  - intros m r (? & ? & ? & ? & ? & ? & ? & ? & ? & ? & ? & Hf) Hr. apply sized_fresh; [|done].
    unfold MsgProxyChannelOpenAck_enc in *. fits_split. rewrite app_str_nil_r. stores_fields.
  - intros m0 m (? & ? & ? & ? & ? & ? & ? & ? & ? & ? & ? & _) Hf. apply unmarshal_decodes; [total_fields|done|]. intros l.
    destruct m0. unfold MsgProxyChannelOpenAck_enc. repeat decode_step.
  - intros m (? & ? & ? & ? & ? & ? & ? & ? & ? & ? & ? & _). destruct m. merge_zero MsgProxyChannelOpenAck_merge.
  - intros s m p Hs. apply unmarshal_fields_total; [total_fields|done].
Defined.

(** ** MsgProxyChannelOpenConfirm *)

Definition MsgProxyChannelOpenConfirm_enc (m : MsgProxyChannelOpenConfirm) : bytes :=
  enc_bytes 0xa (HOC_UpstreamClientId m) +:+ frame 0x12 (pb_enc (HOC_UpstreamPrefix m)) +:+
  enc_bytes 0x1a (HOC_PortId m) +:+ enc_bytes 0x22 (HOC_ChannelId m) +:+
  enc_bytes 0x2a (HOC_DownstreamChannelId m) +:+ enc_bytes 0x32 (HOC_ProofAck m) +:+
  frame 0x3a (pb_enc (HOC_ProofHeight m)) +:+ enc_bytes 0x42 (HOC_Signer m) +:+ EmptyString.

Definition MsgProxyChannelOpenConfirm_merge (a b : MsgProxyChannelOpenConfirm) : MsgProxyChannelOpenConfirm :=
  mkMsgProxyChannelOpenConfirm
    (merge_bytes (HOC_UpstreamClientId a) (HOC_UpstreamClientId b))
    (pb_merge (HOC_UpstreamPrefix a) (HOC_UpstreamPrefix b))
    (merge_bytes (HOC_PortId a) (HOC_PortId b))
    (merge_bytes (HOC_ChannelId a) (HOC_ChannelId b))
    (merge_bytes (HOC_DownstreamChannelId a) (HOC_DownstreamChannelId b))
    (merge_bytes (HOC_ProofAck a) (HOC_ProofAck b))
    (pb_merge (HOC_ProofHeight a) (HOC_ProofHeight b))
    (merge_bytes (HOC_Signer a) (HOC_Signer b)).

Definition MsgProxyChannelOpenConfirm_ok (m : MsgProxyChannelOpenConfirm) : Prop :=
  fits (HOC_UpstreamClientId m) /\ pb_ok (HOC_UpstreamPrefix m) /\ fits (HOC_PortId m) /\
  fits (HOC_ChannelId m) /\ fits (HOC_DownstreamChannelId m) /\ fits (HOC_ProofAck m) /\
  pb_ok (HOC_ProofHeight m) /\ fits (HOC_Signer m) /\
  fits (MsgProxyChannelOpenConfirm_enc m).

#[export, refine] Instance MsgProxyChannelOpenConfirm_laws : PbLaws MsgProxyChannelOpenConfirm := {
  pb_ok := MsgProxyChannelOpenConfirm_ok; pb_enc := MsgProxyChannelOpenConfirm_enc; pb_merge := MsgProxyChannelOpenConfirm_merge }.
Proof.
  - intros m (? & ? & ? & ? & ? & ? & ? & ? & Hf). unfold MsgProxyChannelOpenConfirm_enc in *. fits_split.
    change (pb_Size m) with (MsgProxyChannelOpenConfirm_Size m). unfold MsgProxyChannelOpenConfirm_Size. size_fields.
  - intros m r (? & ? & ? & ? & ? & ? & ? & ? & Hf) Hr. apply sized_fresh; [|done].
    unfold MsgProxyChannelOpenConfirm_enc in *. fits_split. rewrite app_str_nil_r. stores_fields.
  - intros m0 m (? & ? & ? & ? & ? & ? & ? & ? & _) Hf. apply unmarshal_decodes; [total_fields|done|]. intros l.
    destruct m0. unfold MsgProxyChannelOpenConfirm_enc. repeat decode_step.
  - intros m (? & ? & ? & ? & ? & ? & ? & ? & _). destruct m. merge_zero MsgProxyChannelOpenConfirm_merge.
  - intros s m p Hs. apply unmarshal_fields_total; [total_fields|done].
Defined.

(** ** MsgProxyChannelOpenFinalize *)

Definition MsgProxyChannelOpenFinalize_enc (m : MsgProxyChannelOpenFinalize) : bytes :=
  enc_bytes 0xa (HOF_UpstreamClientId m) +:+ frame 0x12 (pb_enc (HOF_UpstreamPrefix m)) +:+
  enc_bytes 0x1a (HOF_PortId m) +:+ enc_bytes 0x22 (HOF_ChannelId m) +:+
  enc_bytes 0x2a (HOF_ProofConfirm m) +:+ frame 0x32 (pb_enc (HOF_ProofHeight m)) +:+
  enc_bytes 0x3a (HOF_Signer m) +:+ EmptyString.

Definition MsgProxyChannelOpenFinalize_merge (a b : MsgProxyChannelOpenFinalize) : MsgProxyChannelOpenFinalize :=
  mkMsgProxyChannelOpenFinalize
    (merge_bytes (HOF_UpstreamClientId a) (HOF_UpstreamClientId b))
    (pb_merge (HOF_UpstreamPrefix a) (HOF_UpstreamPrefix b))
    (merge_bytes (HOF_PortId a) (HOF_PortId b))
    (merge_bytes (HOF_ChannelId a) (HOF_ChannelId b))
    (merge_bytes (HOF_ProofConfirm a) (HOF_ProofConfirm b))
    (pb_merge (HOF_ProofHeight a) (HOF_ProofHeight b))
    (merge_bytes (HOF_Signer a) (HOF_Signer b)).

Definition MsgProxyChannelOpenFinalize_ok (m : MsgProxyChannelOpenFinalize) : Prop :=
  fits (HOF_UpstreamClientId m) /\ pb_ok (HOF_UpstreamPrefix m) /\ fits (HOF_PortId m) /\
  fits (HOF_ChannelId m) /\ fits (HOF_ProofConfirm m) /\ pb_ok (HOF_ProofHeight m) /\
  fits (HOF_Signer m) /\ fits (MsgProxyChannelOpenFinalize_enc m).

#[export, refine] Instance MsgProxyChannelOpenFinalize_laws : PbLaws MsgProxyChannelOpenFinalize := {
  pb_ok := MsgProxyChannelOpenFinalize_ok; pb_enc := MsgProxyChannelOpenFinalize_enc; pb_merge := MsgProxyChannelOpenFinalize_merge }.
Proof.
  - intros m (? & ? & ? & ? & ? & ? & ? & Hf). unfold MsgProxyChannelOpenFinalize_enc in *. fits_split.
    change (pb_Size m) with (MsgProxyChannelOpenFinalize_Size m). unfold MsgProxyChannelOpenFinalize_Size. size_fields.
  - intros m r (? & ? & ? & ? & ? & ? & ? & Hf) Hr. apply sized_fresh; [|done].
    unfold MsgProxyChannelOpenFinalize_enc in *. fits_split. rewrite app_str_nil_r. stores_fields.
  - intros m0 m (? & ? & ? & ? & ? & ? & ? & _) Hf. apply unmarshal_decodes; [total_fields|done|]. intros l.
    destruct m0. unfold MsgProxyChannelOpenFinalize_enc. repeat decode_step.
  - intros m (? & ? & ? & ? & ? & ? & ? & _). destruct m. merge_zero MsgProxyChannelOpenFinalize_merge.
  - intros s m p Hs. apply unmarshal_fields_total; [total_fields|done].
Defined.

(** ** MsgProxyRecvPacket *)

Definition MsgProxyRecvPacket_enc (m : MsgProxyRecvPacket) : bytes :=
  enc_bytes 0xa (RPK_UpstreamClientId m) +:+ frame 0x12 (pb_enc (RPK_UpstreamPrefix m)) +:+
  frame 0x1a (pb_enc (RPK_Packet m)) +:+ enc_bytes 0x22 (RPK_Proof m) +:+
  frame 0x2a (pb_enc (RPK_ProofHeight m)) +:+ enc_bytes 0x32 (RPK_Signer m) +:+ EmptyString.

Definition MsgProxyRecvPacket_merge (a b : MsgProxyRecvPacket) : MsgProxyRecvPacket :=
  mkMsgProxyRecvPacket (merge_bytes (RPK_UpstreamClientId a) (RPK_UpstreamClientId b))
    (pb_merge (RPK_UpstreamPrefix a) (RPK_UpstreamPrefix b))
    (pb_merge (RPK_Packet a) (RPK_Packet b)) (merge_bytes (RPK_Proof a) (RPK_Proof b))
    (pb_merge (RPK_ProofHeight a) (RPK_ProofHeight b))
    (merge_bytes (RPK_Signer a) (RPK_Signer b)).

Definition MsgProxyRecvPacket_ok (m : MsgProxyRecvPacket) : Prop :=
  fits (RPK_UpstreamClientId m) /\ pb_ok (RPK_UpstreamPrefix m) /\ pb_ok (RPK_Packet m) /\
  fits (RPK_Proof m) /\ pb_ok (RPK_ProofHeight m) /\ fits (RPK_Signer m) /\
  fits (MsgProxyRecvPacket_enc m).

#[export, refine] Instance MsgProxyRecvPacket_laws : PbLaws MsgProxyRecvPacket := {
  pb_ok := MsgProxyRecvPacket_ok; pb_enc := MsgProxyRecvPacket_enc; pb_merge := MsgProxyRecvPacket_merge }.
Proof.
  - intros m (? & ? & ? & ? & ? & ? & Hf). unfold MsgProxyRecvPacket_enc in *. fits_split.
    change (pb_Size m) with (MsgProxyRecvPacket_Size m). unfold MsgProxyRecvPacket_Size. size_fields.
  - intros m r (? & ? & ? & ? & ? & ? & Hf) Hr. apply sized_fresh; [|done].
    unfold MsgProxyRecvPacket_enc in *. fits_split. rewrite app_str_nil_r. stores_fields.
  - intros m0 m (? & ? & ? & ? & ? & ? & _) Hf. apply unmarshal_decodes; [total_fields|done|]. intros l.
    destruct m0. unfold MsgProxyRecvPacket_enc. repeat decode_step.
  - intros m (? & ? & ? & ? & ? & ? & _). destruct m. merge_zero MsgProxyRecvPacket_merge.
  - intros s m p Hs. apply unmarshal_fields_total; [total_fields|done].
Defined.

(** ** MsgProxyAcknowledgePacket *)

Definition MsgProxyAcknowledgePacket_enc (m : MsgProxyAcknowledgePacket) : bytes :=
  enc_bytes 0xa (APK_UpstreamClientId m) +:+ frame 0x12 (pb_enc (APK_UpstreamPrefix m)) +:+
  frame 0x1a (pb_enc (APK_Packet m)) +:+ enc_bytes 0x22 (APK_Acknowledgement m) +:+
  enc_bytes 0x2a (APK_Proof m) +:+ frame 0x32 (pb_enc (APK_ProofHeight m)) +:+
  enc_bytes 0x3a (APK_Signer m) +:+ EmptyString.

Definition MsgProxyAcknowledgePacket_merge (a b : MsgProxyAcknowledgePacket) : MsgProxyAcknowledgePacket :=
  mkMsgProxyAcknowledgePacket
    (merge_bytes (APK_UpstreamClientId a) (APK_UpstreamClientId b))
    (pb_merge (APK_UpstreamPrefix a) (APK_UpstreamPrefix b))
    (pb_merge (APK_Packet a) (APK_Packet b))
    (merge_bytes (APK_Acknowledgement a) (APK_Acknowledgement b))
    (merge_bytes (APK_Proof a) (APK_Proof b))
    (pb_merge (APK_ProofHeight a) (APK_ProofHeight b))
    (merge_bytes (APK_Signer a) (APK_Signer b)).

Definition MsgProxyAcknowledgePacket_ok (m : MsgProxyAcknowledgePacket) : Prop :=
  fits (APK_UpstreamClientId m) /\ pb_ok (APK_UpstreamPrefix m) /\ pb_ok (APK_Packet m) /\
  fits (APK_Acknowledgement m) /\ fits (APK_Proof m) /\ pb_ok (APK_ProofHeight m) /\
  fits (APK_Signer m) /\ fits (MsgProxyAcknowledgePacket_enc m).

#[export, refine] Instance MsgProxyAcknowledgePacket_laws : PbLaws MsgProxyAcknowledgePacket := {
  pb_ok := MsgProxyAcknowledgePacket_ok; pb_enc := MsgProxyAcknowledgePacket_enc; pb_merge := MsgProxyAcknowledgePacket_merge }.
Proof.
  - intros m (? & ? & ? & ? & ? & ? & ? & Hf). unfold MsgProxyAcknowledgePacket_enc in *. fits_split.
    change (pb_Size m) with (MsgProxyAcknowledgePacket_Size m). unfold MsgProxyAcknowledgePacket_Size. size_fields.
  - intros m r (? & ? & ? & ? & ? & ? & ? & Hf) Hr. apply sized_fresh; [|done].
    unfold MsgProxyAcknowledgePacket_enc in *. fits_split. rewrite app_str_nil_r. stores_fields.
  - intros m0 m (? & ? & ? & ? & ? & ? & ? & _) Hf. apply unmarshal_decodes; [total_fields|done|]. intros l.
    destruct m0. unfold MsgProxyAcknowledgePacket_enc. repeat decode_step.
  - intros m (? & ? & ? & ? & ? & ? & ? & _). destruct m. merge_zero MsgProxyAcknowledgePacket_merge.
  - intros s m p Hs. apply unmarshal_fields_total; [total_fields|done].
Defined.

(** ** The responses and the genesis messages, which are empty *)

Ltac empty_message :=
  first [done | by intros m r _ Hr; apply sized_fresh; [apply stores_ret|]
    | intros [] [] _ Hf; apply unmarshal_decodes; [by intros n case|done|];
      intros l; apply decodes_nil
    | by intros [] _
    | intros s m p Hs; apply unmarshal_fields_total; [by intros n case|done]].

#[export, refine] Instance MsgResponse_laws : PbLaws MsgResponse := {
  pb_ok _ := True; pb_enc _ := EmptyString; pb_merge m _ := m }.
Proof. all: empty_message. Defined.

#[export, refine] Instance Params_laws : PbLaws Params := {
  pb_ok _ := True; pb_enc _ := EmptyString; pb_merge m _ := m }.
Proof. all: empty_message. Defined.

#[export, refine] Instance GenesisState_laws : PbLaws GenesisState := {
  pb_ok _ := True; pb_enc _ := EmptyString; pb_merge m _ := m }.
Proof. all: empty_message. Defined.

(** * Properties *)

(** C32: every message survives its encoding - those of the xx-proxy and xx-multiv
    light clients, those of the proxy module and its genesis: Marshal succeeds and
    fills exactly the Size bytes it allocates, MarshalTo writes the same bytes in
    front of any slice that has room for them and panics on a shorter one, and
    Unmarshal, after Reset of whatever message, gives the message back.
    It is for any message that a Go slice can hold and whose parts from other
    packages do the same: multi-proofs with any number of branches, tags of one
    and of two bytes, orderings of any 32-bit value, any number of hops. *)
Theorem messages_roundtrip :
  (forall m : ProxyCS, ProxyCS_ok m -> roundtrips m) /\
  (forall m : ProxyConsS, ProxyConsS_ok m -> roundtrips m) /\
  (forall m : MultivCS, MultivCS_ok m -> roundtrips m) /\
  (forall m : Proof, Proof_ok m -> roundtrips m) /\
  (forall m : LeafProof, LeafProof_ok m -> roundtrips m) /\
  (forall m : MultiProof, MultiProof_ok m -> roundtrips m) /\
  (forall m : MsgProxyClientState, MsgProxyClientState_ok m -> roundtrips m) /\
  (forall m : MsgProxyConnectionOpenTry, MsgProxyConnectionOpenTry_ok m -> roundtrips m) /\
  (forall m : MsgProxyConnectionOpenAck, MsgProxyConnectionOpenAck_ok m -> roundtrips m) /\
  (forall m : MsgProxyConnectionOpenConfirm, MsgProxyConnectionOpenConfirm_ok m -> roundtrips m) /\
  (forall m : MsgProxyConnectionOpenFinalize, MsgProxyConnectionOpenFinalize_ok m -> roundtrips m) /\
  (forall m : MsgProxyChannelOpenTry, MsgProxyChannelOpenTry_ok m -> roundtrips m) /\
  (forall m : MsgProxyChannelOpenAck, MsgProxyChannelOpenAck_ok m -> roundtrips m) /\
  (forall m : MsgProxyChannelOpenConfirm, MsgProxyChannelOpenConfirm_ok m -> roundtrips m) /\
  (forall m : MsgProxyChannelOpenFinalize, MsgProxyChannelOpenFinalize_ok m -> roundtrips m) /\
  (forall m : MsgProxyRecvPacket, MsgProxyRecvPacket_ok m -> roundtrips m) /\
  (forall m : MsgProxyAcknowledgePacket, MsgProxyAcknowledgePacket_ok m -> roundtrips m) /\
  (forall m : MsgResponse, roundtrips m) /\
  (forall m : Params, roundtrips m) /\
  (forall m : GenesisState, roundtrips m).
Proof.
  split_and!; intros m;
    first [by apply roundtrips_ok | intros Hm; apply roundtrips_ok; [exact Hm|apply Hm]].
Qed.

(** C33: decoding is total: on any bytes that a slice can hold, of whatever origin, and
    for any receiver, the Unmarshal of every message ends with a message or an
    error, never in a panic and never without end. *)
Theorem unmarshal_total bz p :
  fits bz ->
  (forall m, (ProxyCS_Unmarshal bz m).1 <> Panic p) /\
  (forall m, (ProxyConsS_Unmarshal bz m).1 <> Panic p) /\
  (forall m, (MultivCS_Unmarshal bz m).1 <> Panic p) /\
  (forall m, (Proof_Unmarshal bz m).1 <> Panic p) /\
  (forall m, (LeafProof_Unmarshal bz m).1 <> Panic p) /\
  (forall m, (MultiProof_Unmarshal bz m).1 <> Panic p) /\
  (forall m, (MsgProxyClientState_Unmarshal bz m).1 <> Panic p) /\
  (forall m, (MsgProxyConnectionOpenTry_Unmarshal bz m).1 <> Panic p) /\
  (forall m, (MsgProxyConnectionOpenAck_Unmarshal bz m).1 <> Panic p) /\
  (forall m, (MsgProxyConnectionOpenConfirm_Unmarshal bz m).1 <> Panic p) /\
  (forall m, (MsgProxyConnectionOpenFinalize_Unmarshal bz m).1 <> Panic p) /\
  (forall m, (MsgProxyChannelOpenTry_Unmarshal bz m).1 <> Panic p) /\
  (forall m, (MsgProxyChannelOpenAck_Unmarshal bz m).1 <> Panic p) /\
  (forall m, (MsgProxyChannelOpenConfirm_Unmarshal bz m).1 <> Panic p) /\
  (forall m, (MsgProxyChannelOpenFinalize_Unmarshal bz m).1 <> Panic p) /\
  (forall m, (MsgProxyRecvPacket_Unmarshal bz m).1 <> Panic p) /\
  (forall m, (MsgProxyAcknowledgePacket_Unmarshal bz m).1 <> Panic p) /\
  (forall m, (MsgResponse_Unmarshal bz m).1 <> Panic p) /\
  (forall m, (Params_Unmarshal bz m).1 <> Panic p) /\
  (forall m, (GenesisState_Unmarshal bz m).1 <> Panic p).
Proof. intros Hbz. split_and!; intros m; exact (pb_unmarshal_total bz m p Hbz). Qed.

End Messages.

#[local] Existing Instances AnyT_pb MerklePrefix_pb Height_pb Version_pb ConnCounterparty_pb
  ConnectionEnd_pb Packet_pb.
#[local] Existing Instances AnyT_laws MerklePrefix_laws Height_laws Version_laws
  ConnCounterparty_laws ConnectionEnd_laws Packet_laws.

(** * The properties at concrete messages *)

Definition pb_conn : ConnectionEnd :=
  mkConnectionEnd "07-ref-1" [mkVersion "1" ["ORDER_ORDERED"; "ORDER_UNORDERED"]] 1
    (mkConnCounterparty "07-ref-2" "" (mkMerklePrefix "ibc")) 5.

Definition pb_try : MsgProxyConnectionOpenTry :=
  let any := Some (mkAny "/client" "state") in
  mkMsgProxyConnectionOpenTry "connection-0" (mkMerklePrefix "ibc") pb_conn any any any
    "p1" "p2" "p3" (mkHeight 0 300) (mkHeight 0 7) "p4" "p5" (mkHeight 1 2) (mkHeight 3 4)
    "signer".

Definition pb_chan (order : Z) : MsgProxyChannelOpenTry :=
  mkMsgProxyChannelOpenTry "07-ref-0" (mkMerklePrefix "ibc") order ["connection-0"; ""; "x"]
    "transfer" "channel-0" "transfer" "ics20-1" "proof" (mkHeight 0 70000) "signer".

Ltac concrete_ok := first [by vm_compute | vm_compute; tauto].

Lemma pb_conn_ok : pb_ok pb_conn.
Proof.
  assert (Forall pb_ok (conn_Versions pb_conn)) as Hv.
  { apply Forall_cons_2; [|apply Forall_nil_2]. concrete_ok. }
  do 2 (split; [first [exact Hv|concrete_ok]|]). split_and!; concrete_ok.
Qed.

Definition pb_proxy_cs : ProxyCS :=
  mkProxyCS (Some (mkAny "/mock.ClientState" "state")) "07-ref-0"
    (Some (mkMerklePrefix "proxy")) (Some (mkMerklePrefix "ibc")).

Definition pb_branch : Proof :=
  mkProof "p" (Some (mkAny "/a" "x")) "q" None (mkHeight 0 300) (mkHeight 1 70000).

Definition pb_multi_proof : MultiProof :=
  mkMultiProof pb_branch [pb_branch; pb_branch] (mkLeafProof "leaf" (mkHeight 0 5)).

Lemma pb_multi_proof_ok : MultiProof_ok pb_multi_proof.
Proof.
  assert (pb_ok pb_branch) as Hb by concrete_ok.
  split; [exact Hb|]. split; [exact (Forall_cons_2 _ _ _ Hb
    (Forall_cons_2 _ _ _ Hb (Forall_nil_2 _)))|]. concrete_ok.
Qed.

Lemma pb_try_ok : MsgProxyConnectionOpenTry_ok pb_try.
Proof.
  do 2 (split; [concrete_ok|]). split; [exact pb_conn_ok|]. split_and!; concrete_ok.
Qed.

Lemma pb_chan_ok : MsgProxyChannelOpenTry_ok (pb_chan (-1)).
Proof. do 2 (split; [concrete_ok|]). split_and!; concrete_ok. Qed.

Lemma messages_roundtrip_witness :
  roundtrips pb_proxy_cs /\ roundtrips pb_multi_proof /\ roundtrips pb_try /\
  roundtrips (pb_chan (-1)).
Proof.
  destruct messages_roundtrip as (H1 & _ & _ & _ & _ & H6 & _ & H8 & _ & _ & _ & H12 & _).
  split_and!; [apply H1; concrete_ok|exact (H6 _ pb_multi_proof_ok)|exact (H8 _ pb_try_ok)|
    exact (H12 _ pb_chan_ok)].
Defined.

(** A field whose length takes the index past the range of int is an error, and so
    is the longest group of an unknown field that does not end. *)
Lemma unmarshal_total_witness :
  let bz := String (ascii_of_N 0xa) (varint (2 ^ 63 - 1)) in
  let group := String (ascii_of_N 0xfb) (String (ascii_of_N 0x7) "") in
  (ProxyCS_Unmarshal bz pb_zero).1 = Err ErrInvalidLength /\
  (forall m, (ProxyCS_Unmarshal bz m).1 <> Panic PStackOverflow) /\
  (MsgProxyRecvPacket_Unmarshal group pb_zero).1 = Err ErrUnexpectedEOF /\
  (forall m, (MsgProxyRecvPacket_Unmarshal group m).1 <> Panic PStackOverflow).
Proof.
  intros bz group. split; [by vm_compute|]. split.
  { exact (proj1 (unmarshal_total bz PStackOverflow ltac:(by vm_compute))). }
  split; [by vm_compute|].
  pose proof (unmarshal_total group PStackOverflow ltac:(by vm_compute)) as H. apply H.
Defined.
