(* ===== verification/Merge.v ===== *)
(** Decoding a concatenation: the Unmarshal of the generated code, given two encodings
    one after the other, does what it does given the first and then the second
    into the same receiver; and given an encoding, it merges the message that was
    encoded into the receiver, field by field: scalars are overwritten, repeated
    fields are appended to, nested messages are merged, unknown fields are passed
    over.  It is the merging of protocol buffers, and what makes messages of
    older and newer versions of a definition readable by each other. *)
From S2P Require Import Prelude.
From S2P Require Import Lib.
From S2P Require Import Wire.
From S2P Require Import Msgs.
From S2P Require Import PbClients.
From S2P Require Import PbTx.
From S2P Require Import WireSpec.
From S2P Require Import Bounds.
From S2P Require Import PbRef.
From S2P Require Import PbSpec.
From S2P Require Import PbTxSpec.

(** * More input after the one that was read *)

Lemma stake_app_le n s b : (n <= slen s)%Z -> stake n (s +:+ b) = stake n s.
Proof.
  revert n. induction s as [|c s IH]; intros n Hn.
  - change (slen "") with 0%Z in Hn. destruct b; simpl; by rewrite (proj2 (Z.leb_le n 0)).
  - rewrite app_str_cons. rewrite slen_cons in Hn. simpl.
    case_match; [done|]. rewrite IH by lia. done.
Qed.

Lemma sdrop_app_le n s b : (n <= slen s)%Z -> sdrop n (s +:+ b) = sdrop n s +:+ b.
Proof.
  revert n. induction s as [|c s IH]; intros n Hn.
  - change (slen "") with 0%Z in Hn. destruct b; simpl; by rewrite (proj2 (Z.leb_le n 0)).
  - rewrite app_str_cons. rewrite slen_cons in Hn. simpl.
    case_match; [done|]. rewrite IH by lia. done.
Qed.

Lemma uvarint_app width s shift acc n rest b :
  uvarint width s shift acc = Ok (n, rest) ->
  uvarint width (s +:+ b) shift acc = Ok (n, rest +:+ b).
Proof.
  revert shift acc. induction s as [|c s IH]; intros shift acc; simpl; case_match; try done.
  case_match; [by intros [= <- <-]|apply IH].
Qed.

Lemma uvarint_shorter width s n rest :
  uvarint width s 0 0 = Ok (n, rest) -> (slen rest < slen s)%Z.
Proof. intros H. pose proof (uvarint_within width s 0 0) as Hw. rewrite H in Hw. apply Hw. Qed.

Lemma read_chunk_app l l' s b chunk rest :
  here l s -> here l' (s +:+ b) -> read_chunk l s = Ok (chunk, rest) ->
  read_chunk l' (s +:+ b) = Ok (chunk, rest +:+ b).
Proof.
  intros Hl Hl' H. destruct (uvarint 64 s 0 0) as [[n s1]|e|p] eqn:Hu;
    [|by unfold read_chunk in H; rewrite Hu in H..].
  rewrite (read_chunk_cases l s n s1 Hl Hu) in H.
  rewrite (read_chunk_cases l' _ n (s1 +:+ b) Hl' (uvarint_app _ _ _ _ _ _ b Hu)).
  destruct (Z.leb_spec (Z.of_N n) (slen s1)) as [Hn|]; [|by case_match].
  injection H as <- <-. pose proof (slen_nonneg b). rewrite slen_app.
  rewrite (proj2 (Z.leb_le _ _)) by lia. by rewrite stake_app_le, sdrop_app_le.
Qed.

(** ** Skipping *)

(** A field that ends within the slice is skipped the same way. *)
Lemma skip_field_rest_app wire pos depth s b pos2 s2 depth2 :
  (0 < pos)%Z -> (pos + slen s < 2 ^ 63)%Z ->
  skip_field_rest wire pos depth s = Ok (pos2, s2, depth2) -> (0 <= pos2 <= pos + slen s)%Z ->
  skip_field_rest wire pos depth (s +:+ b) = Ok (pos2, s2 +:+ b, depth2) /\
  (pos2 + slen s2 = pos + slen s)%Z /\ (slen s2 <= slen s)%Z.
Proof.
  intros Hpos H63 H Hp2. pose proof (slen_nonneg s) as Hs.
  assert (forall n, (0 <= n)%Z -> (pos + n <= pos + slen s)%Z ->
    Ok ((pos + n)%Z, sdrop n (s +:+ b), depth) = Ok ((pos + n)%Z, sdrop n s +:+ b, depth) /\
    (pos + n + slen (sdrop n s) = pos + slen s)%Z /\ (slen (sdrop n s) <= slen s)%Z) as Hdrop.
  { intros n Hn Hle. rewrite sdrop_app_le, slen_sdrop by lia. split; [done|]. lia. }
  destruct wire as [|w]; [|destruct w as [[[]|[]|]|[[]|[]|]|]]; cbn [skip_field_rest] in *; try done;
    try (injection H as <- <- <-; first [apply Hdrop; lia|split; [done|lia]]).
  - destruct (uvarint 64 s 0 0) as [[n s1]|e|p] eqn:Hu; try done.
    rewrite (uvarint_app _ _ _ _ _ _ b Hu). simpl in *. injection H as <- <- <-.
    pose proof (uvarint_shorter _ _ _ _ Hu). rewrite !slen_app. split; [f_equal; f_equal; f_equal; lia|lia].
  - case_match; [done|]. injection H as <- <- <-. split; [done|]. lia.
  - destruct (uvarint 64 s 0 0) as [[n s1]|e|p] eqn:Hu; try done.
    rewrite (uvarint_app _ _ _ _ _ _ b Hu). simpl in *.
    pose proof (uvarint_shorter _ _ _ _ Hu). pose proof (slen_nonneg s1).
    destruct (Z.ltb_spec (to_int64 n) 0); [done|]. injection H as <- <- <-.
    rewrite !slen_app.
    replace (slen s + slen b - (slen s1 + slen b))%Z with (slen s - slen s1)%Z by lia.
    pose proof (to_int64_range n).
    destruct (Z.lt_ge_cases (pos + (slen s - slen s1) + to_int64 n) (2 ^ 63)) as [Hw|Hw].
    + rewrite wrap_int64_small in * by lia. rewrite sdrop_app_le, slen_sdrop by lia.
      split; [done|]. lia.
    + pose proof (wrap_int64_overflow (pos + (slen s - slen s1) + to_int64 n) ltac:(lia)). lia.
Qed.

Lemma skip_rest_app fuel fuel' depth pos s b n :
  (0 <= pos)%Z -> (pos + slen s < 2 ^ 63)%Z -> fuel <= fuel' ->
  skip_rest fuel depth pos s = Ok n -> (n <= pos + slen s)%Z ->
  skip_rest fuel' depth pos (s +:+ b) = Ok n.
Proof.
  revert fuel' depth pos s. induction fuel as [|fuel IH];
    intros fuel' depth pos [|c s0] Hpos H63 Hf H Hn; try done.
  destruct fuel' as [|fuel']; [lia|].
  rewrite app_str_cons. cbn [skip_rest] in *. rewrite <- app_str_cons.
  set (s := String c s0) in *.
  destruct (uvarint 64 s 0 0) as [[wire s1]|e|p] eqn:Hu; try done.
  rewrite (uvarint_app _ _ _ _ _ _ b Hu). simpl obind in *. cbv beta iota in *.
  pose proof (uvarint_shorter _ _ _ _ Hu). rewrite !slen_app.
  replace (slen s + slen b - (slen s1 + slen b))%Z with (slen s - slen s1)%Z by lia.
  destruct (skip_field_rest _ _ _ s1) as [[[pos2 s2] depth2]|e|p] eqn:Hk; try done.
  cbn [obind] in H. destruct (Z.ltb_spec pos2 0) as [|Hp2]; [done|].
  pose proof (skip_field_rest_within (pos + slen s) (N.land wire 7) (pos + (slen s - slen s1)) depth s1
    ltac:(lia) ltac:(lia) H63) as Hw. rewrite Hk in Hw. destruct Hw as [_ Hw].
  destruct (Hw Hp2) as [_ Hplaced].
  assert (pos2 <= pos + slen s)%Z as Hle.
  { destruct (depth2 =? 0)%N; [by injection H as <-|].
    destruct s2 as [|c2 s2]; [by destruct fuel|].
    specialize (Hplaced ltac:(done)). pose proof (slen_nonneg (String c2 s2)). lia. }
  destruct (skip_field_rest_app (N.land wire 7) (pos + (slen s - slen s1)) depth s1 b pos2 s2 depth2
    ltac:(lia) ltac:(lia) Hk ltac:(lia))
    as (-> & Hsum & Hlen). simpl obind. cbv beta iota.
  rewrite (proj2 (Z.ltb_ge pos2 0) Hp2). case_match; [done|].
  apply IH; [done|lia|lia|exact H|lia].
Qed.

Lemma skip_app s b n :
  fits (s +:+ b) -> skip s = Ok n -> (n <= slen s)%Z -> skip (s +:+ b) = Ok n.
Proof.
  intros Hs. destruct (fits_app _ _ Hs) as [Ha _]. rewrite !skip_at by done.
  apply skip_rest_app; [done|exact Ha|].
  rewrite !length_slen, slen_app. pose proof (slen_nonneg b). lia.
Qed.

(** ** Fields *)

Section Fields.
Context {X : Type}.

(** A case that succeeds does the same with more bytes behind the field,
    wherever in a slice it is. *)
Definition case_extends (case : Case X) : Prop :=
  forall l l' wireType s b m rest m',
    here l s -> here l' (s +:+ b) -> case l wireType s m = (Ok rest, m') ->
    case l' wireType (s +:+ b) m = (Ok (rest +:+ b), m').

Ltac chunk_extends b Hl Hl' H :=
  intros l l' wireType s b m rest m' Hl Hl' H;
  unfold case_opt, case_msg, case_rep, case_bytes, case_strings, mbind, mlift, mget, mput, mret in *;
  case_match; [done|];
  match type of H with context [read_chunk ?l ?s] =>
    let chunk := fresh "chunk" in let s1 := fresh "s1" in let E := fresh "E" in
    destruct (read_chunk l s) as [[chunk s1]|?|?] eqn:E; try done;
    rewrite (read_chunk_app _ _ _ b _ _ Hl Hl' E) end.

Lemma case_opt_extends {Y} `{PbMessage Y} name get set :
  case_extends (case_opt (Y := Y) name get set).
Proof.
  chunk_extends b Hl Hl' Hc. destruct (mzoom _ _ _ m) as [[u|e|p] m1]; try done.
  by injection Hc as <- <-.
Qed.

Lemma case_msg_extends {Y} `{PbMessage Y} name get set :
  case_extends (case_msg (Y := Y) name get set).
Proof.
  chunk_extends b Hl Hl' Hc. destruct (mzoom _ _ _ m) as [[u|e|p] m1]; try done.
  by injection Hc as <- <-.
Qed.

Lemma case_rep_extends {Y} `{PbMessage Y} name get set :
  case_extends (case_rep (Y := Y) name get set).
Proof.
  chunk_extends b Hl Hl' Hc. destruct (mzoom _ _ _ m) as [[u|e|p] m1]; try done.
  by injection Hc as <- <-.
Qed.

Lemma case_bytes_extends name set : case_extends (case_bytes name set).
Proof. chunk_extends b Hl Hl' Hc. by injection Hc as <- <-. Qed.

Lemma case_strings_extends name get set : case_extends (case_strings name get set).
Proof. chunk_extends b Hl Hl' Hc. by injection Hc as <- <-. Qed.

Lemma read_uint_app width set s shift acc b (m m' : X) rest :
  read_uint width set s shift acc m = (Ok rest, m') ->
  read_uint width set (s +:+ b) shift acc m = (Ok (rest +:+ b), m').
Proof.
  revert shift acc m. induction s as [|c s IH]; intros shift acc m; rewrite ?app_str_cons;
    cbn [read_uint]; destruct (64 <=? shift)%N; try done.
  unfold mbind, mput. cbv zeta. destruct (_ <? 128)%N; [by intros [= <- <-]|apply IH].
Qed.

Lemma case_uint_extends width name set : case_extends (case_uint width name set).
Proof.
  intros l l' wireType s b m rest m' _ _. unfold case_uint. case_match; [done|].
  unfold mbind, mput. apply read_uint_app.
Qed.

Lemma case_enum_extends name set : case_extends (case_enum name set).
Proof.
  intros l l' wireType s b m rest m' _ _. unfold case_enum. case_match; [done|].
  unfold mbind, mput. apply read_uint_app.
Qed.

Definition fields_extend (fields : Z -> option (Case X)) : Prop :=
  forall n case, fields n = Some case -> case_extends case /\ case_total case.

(** The loop over a slice that it reads to its end goes on with what follows. *)
Lemma rest_loop_app fields l l' b fuel s m m1 fuel' :
  fields_extend fields -> here l s -> here l' (s +:+ b) -> String.length s <= fuel ->
  rest_loop fields l fuel s m = (Ok tt, m1) -> String.length (s +:+ b) <= fuel' ->
  exists fuel'', String.length b <= fuel'' /\
    rest_loop fields l' fuel' (s +:+ b) m = rest_loop fields l' fuel'' b m1.
Proof.
  intros Hfields Hl Hl'. revert s m fuel' Hl Hl'.
  induction fuel as [|fuel IH]; intros s m fuel' Hl Hl' Hf H Hf';
    (destruct s as [|c s0]; [injection H as <-; by exists fuel'|]); [simpl in Hf; lia|].
  destruct fuel' as [|fuel']; [rewrite app_str_cons in Hf'; simpl in Hf'; lia|].
  set (s := String c s0) in *. assert (s <> EmptyString) as Hs by done.
  assert (forall s' m', (slen s' < slen s)%Z -> rest_loop fields l fuel s' m' = (Ok tt, m1) ->
    exists fuel'', String.length b <= fuel'' /\
      rest_loop fields l' fuel' (s' +:+ b) m' = rest_loop fields l' fuel'' b m1) as IH'.
  { intros s' m' Hlt E. rewrite length_slen in Hf, Hf'. rewrite slen_app in Hf'.
    pose proof (slen_nonneg b). unfold here in *. rewrite slen_app in Hl'.
    apply IH; rewrite ?length_slen, ?slen_app; first [exact E|lia]. }
  clear IH. rewrite rest_loop_turn in * by done.
  destruct (uvarint 64 s 0 0) as [[wire rest]|e|p] eqn:Hu; try done.
  unfold mbind, mlift in *. rewrite (uvarint_app _ _ _ _ _ _ b Hu). cbv beta iota zeta in *.
  pose proof (uvarint_shorter _ _ _ _ Hu) as Hr.
  assert (here l rest) as Hlr by (apply (here_shorter l s); [done|lia]).
  assert (here l' (rest +:+ b)) as Hlr'
    by (apply (here_shorter l' (s +:+ b)); [done|rewrite !slen_app; lia]).
  case_match; [done|]. case_match; [done|]. destruct (fields _) as [case|] eqn:Hcase.
  - destruct (Hfields _ _ Hcase) as [Hext Htot].
    destruct (case l _ rest m) as [[rest'|e|p] m'] eqn:E; try done.
    rewrite (Hext _ _ _ _ b _ _ _ Hlr Hlr' E).
    pose proof (Htot l (N.land wire 7) rest m Hlr) as Hw.
    rewrite E in Hw. apply tail_of_slen in Hw. apply (IH' rest' m'); [lia|exact H].
  - destruct (skip s) as [n|e|p] eqn:E; try done.
    destruct (_ || _)%bool eqn:E1 in H; [done|]. destruct (l <? _)%Z eqn:E2 in H; [done|].
    destruct (skip_tests l s n Hl E E1 E2) as [Hn _].
    rewrite (skip_app s b n) by (first [done|lia|unfold fits, here in *; lia]).
    unfold here in *. rewrite slen_app in *. pose proof (slen_nonneg b).
    rewrite wrap_int64_small by lia. rewrite !(proj2 (Z.ltb_ge _ _)) by lia. simpl orb. cbv iota.
    rewrite sdrop_app_le by lia. apply IH'; [rewrite slen_sdrop; lia|exact H].
Qed.

(** Where in the slice the loop starts does not matter when it succeeds. *)
Lemma rest_loop_moved fields l l' fuel fuel' s m r :
  fields_extend fields -> here l s -> here l' s -> String.length s <= fuel ->
  String.length s <= fuel' ->
  rest_loop fields l fuel s m = (Ok tt, r) -> rest_loop fields l' fuel' s m = (Ok tt, r).
Proof.
  intros Hfields Hl Hl' Hf Hf' H.
  pose proof (rest_loop_app fields l l' "" fuel s m r fuel' Hfields Hl) as Happ.
  rewrite app_str_nil_r in Happ. destruct (Happ Hl' Hf H Hf') as (f'' & _ & ->). by destruct f''.
Qed.
End Fields.

(** * Messages *)

(** Decoding [a] into [m] and then [b] is decoding both at once. *)
Definition merges {X} (unmarshal : bytes -> M X unit) : Prop :=
  forall a b m m1 r, fits (a +:+ b) -> unmarshal a m = (Ok tt, m1) ->
    (unmarshal (a +:+ b) m = (Ok tt, r) <-> unmarshal b m1 = (Ok tt, r)).

Lemma unmarshal_merges {X} (fields : Z -> option (Case X)) :
  fields_extend fields -> merges (unmarshal_fields fields).
Proof.
  intros Hfields a b m m1 r Hab.
  assert (fields_total fields) as Htot by (intros n case Hc; by apply (Hfields n)).
  destruct (fits_app _ _ Hab) as [Ha0 Hb0]. rewrite !unmarshal_fields_at by done. intros H.
  assert (forall s, fits s -> here (slen s) s) as Hhere by (unfold here, fits; lia).
  pose proof (fits_app _ _ Hab) as [Ha Hb]. specialize (Hhere _ Hab) as Hl.
  destruct (here_app _ _ _ Hl) as [_ Hlb].
  destruct (rest_loop_app fields _ _ b _ a m m1 _ Hfields (Hhere a Ha) Hl (le_n _) H (le_n _))
    as (fuel & Hf & ->).
  split; apply rest_loop_moved; auto.
Qed.

(** ** Unknown fields *)

(** [s] is one field with a number above [last], of whatever wire type, groups
    included. *)
Definition unknown_field (last : Z) (s : bytes) : Prop :=
  exists wire rest, uvarint 64 s 0 0 = Ok (wire, rest) /\ N.land wire 7 <> 4%N /\
    (last < to_int32 (N.shiftr wire 3))%Z /\ skip s = Ok (slen s).

Lemma unmarshal_unknown {X} (fields : Z -> option (Case X)) last s m :
  fields_total fields -> (0 <= last)%Z -> (forall n, (last < n)%Z -> fields n = None) ->
  fits s -> unknown_field last s -> unmarshal_fields fields s m = (Ok tt, m).
Proof.
  intros Htot Hlast Hnone Hs (wire & rest & Hu & Hw & Hn & Hk).
  rewrite unmarshal_fields_at by done. pose proof (slen_nonneg s).
  destruct s as [|c s0]; [done|]. set (s := String c s0) in *.
  change (String.length s) with (S (String.length s0)). rewrite rest_loop_turn by done.
  unfold mbind, mlift. rewrite Hu. cbv beta iota zeta.
  rewrite (proj2 (N.eqb_neq _ 4)), (proj2 (Z.leb_gt _ 0)), Hnone, Hk by (done || lia).
  unfold fits in Hs. rewrite Z.sub_diag, Z.add_0_l, wrap_int64_small by lia.
  rewrite !(proj2 (Z.ltb_ge _ _)) by lia. simpl orb. cbv iota.
  rewrite sdrop_past by lia. by destruct (String.length s0).
Qed.

(** What the generated Unmarshal makes of a receiver: it reads a concatenation as its
    parts one after the other; the encoding of a message is merged into the
    receiver; a field with a number above [last] leaves the receiver as it
    is. *)
Definition merging {X} (unmarshal : bytes -> M X unit) (ok : X -> Prop) (enc : X -> bytes)
    (merge : X -> X -> X) (last : Z) : Prop :=
  merges unmarshal /\
  (forall m0 m, ok m -> fits (enc m) -> unmarshal (enc m) m0 = (Ok tt, merge m0 m)) /\
  (forall s m, fits s -> unknown_field last s -> unmarshal s m = (Ok tt, m)).

Ltac extend_fields :=
  let H := fresh in
  lazymatch goal with |- fields_extend ?f =>
    let h := get_head f in intros ?? H; try unfold h in H
  end;
  repeat case_match; simplify_eq; split;
  first [apply case_opt_extends | apply case_bytes_extends | apply case_msg_extends
    | apply case_rep_extends | apply case_uint_extends | apply case_strings_extends
    | apply case_enum_extends | apply case_opt_total | apply case_bytes_total
    | apply case_msg_total | apply case_rep_total | apply case_uint_total
    | apply case_strings_total | apply case_enum_total].

(** No case above the last field *)
Ltac no_field :=
  let n := fresh in let H := fresh in let p := fresh in intros n H;
  destruct n as [|p|p]; [lia| |lia];
  do 6 (try reflexivity; try lia; destruct p as [p|p|]); first [reflexivity|lia].

Ltac merging_fields :=
  refine (conj _ (conj _ _));
  [ apply unmarshal_merges; first [extend_fields | by intros n case]
  | intros m0 m Hm Hf; exact (pb_unmarshal_merge m0 m Hm Hf)
  | intros s m Hs Hu; refine (unmarshal_unknown _ _ _ _ _ _ _ Hs Hu);
    [first [total_fields | by intros n case]|lia|no_field] ].

Section Messages.
Context `{PbLaws AnyT, PbLaws MerklePrefix, PbLaws Height, PbLaws ConnectionEnd,
  PbLaws Packet}.

(** * Property *)

(** C34: the decoders merge.  For every message of the repository: if Unmarshal reads
    [a] into a receiver, then reading [a] followed by [b] into it succeeds exactly
    when reading [b] into what [a] left does, and ends with the same message - for
    any bytes, written by this code or not.  Reading the encoding of a message into
    any receiver succeeds and merges it field by field, as X_merge spells it out:
    a string, a byte slice, an integer or an enumeration that is not zero replaces
    the receiver's and a zero one, which is not written, leaves it; repeated fields
    are appended; a nested message is merged into the one of the receiver, and
    allocated if there is none.  A field with a number that the message does not
    have - an integer, a slice, a group - is passed over. *)
Theorem messages_merge :
  merging ProxyCS_Unmarshal ProxyCS_ok ProxyCS_enc ProxyCS_merge 4 /\
  merging ProxyConsS_Unmarshal ProxyConsS_ok ProxyConsS_enc ProxyConsS_merge 1 /\
  merging MultivCS_Unmarshal MultivCS_ok MultivCS_enc MultivCS_merge 2 /\
  merging Proof_Unmarshal Proof_ok Proof_enc Proof_merge 6 /\
  merging LeafProof_Unmarshal LeafProof_ok LeafProof_enc LeafProof_merge 2 /\
  merging MultiProof_Unmarshal MultiProof_ok MultiProof_enc MultiProof_merge 3 /\
  merging MsgProxyClientState_Unmarshal MsgProxyClientState_ok
    MsgProxyClientState_enc MsgProxyClientState_merge 10 /\
  merging MsgProxyConnectionOpenTry_Unmarshal MsgProxyConnectionOpenTry_ok
    MsgProxyConnectionOpenTry_enc MsgProxyConnectionOpenTry_merge 16 /\
  merging MsgProxyConnectionOpenAck_Unmarshal MsgProxyConnectionOpenAck_ok
    MsgProxyConnectionOpenAck_enc MsgProxyConnectionOpenAck_merge 16 /\
  merging MsgProxyConnectionOpenConfirm_Unmarshal MsgProxyConnectionOpenConfirm_ok
    MsgProxyConnectionOpenConfirm_enc MsgProxyConnectionOpenConfirm_merge 7 /\
  merging MsgProxyConnectionOpenFinalize_Unmarshal MsgProxyConnectionOpenFinalize_ok
    MsgProxyConnectionOpenFinalize_enc MsgProxyConnectionOpenFinalize_merge 6 /\
  merging MsgProxyChannelOpenTry_Unmarshal MsgProxyChannelOpenTry_ok
    MsgProxyChannelOpenTry_enc MsgProxyChannelOpenTry_merge 11 /\
  merging MsgProxyChannelOpenAck_Unmarshal MsgProxyChannelOpenAck_ok
    MsgProxyChannelOpenAck_enc MsgProxyChannelOpenAck_merge 12 /\
  merging MsgProxyChannelOpenConfirm_Unmarshal MsgProxyChannelOpenConfirm_ok
    MsgProxyChannelOpenConfirm_enc MsgProxyChannelOpenConfirm_merge 8 /\
  merging MsgProxyChannelOpenFinalize_Unmarshal MsgProxyChannelOpenFinalize_ok
    MsgProxyChannelOpenFinalize_enc MsgProxyChannelOpenFinalize_merge 7 /\
  merging MsgProxyRecvPacket_Unmarshal MsgProxyRecvPacket_ok
    MsgProxyRecvPacket_enc MsgProxyRecvPacket_merge 6 /\
  merging MsgProxyAcknowledgePacket_Unmarshal MsgProxyAcknowledgePacket_ok
    MsgProxyAcknowledgePacket_enc MsgProxyAcknowledgePacket_merge 7 /\
  merging MsgResponse_Unmarshal (fun _ => True) (fun _ => EmptyString) (fun m _ => m) 0 /\
  merging Params_Unmarshal (fun _ => True) (fun _ => EmptyString) (fun m _ => m) 0 /\
  merging GenesisState_Unmarshal (fun _ => True) (fun _ => EmptyString) (fun m _ => m) 0.
Proof. split_and!; merging_fields. Qed.
End Messages.

#[local] Existing Instances AnyT_pb MerklePrefix_pb Height_pb Version_pb ConnCounterparty_pb
  ConnectionEnd_pb Packet_pb.
#[local] Existing Instances AnyT_laws MerklePrefix_laws Height_laws Version_laws
  ConnCounterparty_laws ConnectionEnd_laws Packet_laws.

(** A client state, and behind it another upstream and an unknown group with a field
    in it; two parts of a multi-proof, with a branch in each. *)
Definition later_fields : bytes :=
  String (ascii_of_N 0x7b) (String (ascii_of_N 0x08) (String (ascii_of_N 0x05)
    (String (ascii_of_N 0x7c) (frame 0x12 "07-ref-9")))).

(** A receiver with another prefix, and no inner state *)
Definition pb_receiver : ProxyCS :=
  mkProxyCS None "07-ref-3" (Some (mkMerklePrefix "other")) None.

Definition pb_part : ProxyCS :=
  mkProxyCS (Some (mkAny "/mock.ClientState" "state")) "" (Some (mkMerklePrefix "proxy")) None.

Lemma messages_merge_witness :
  ProxyCS_Unmarshal (ProxyCS_enc pb_proxy_cs +:+ later_fields) pb_zero =
    (Ok tt, set_pcs_UpstreamClientId "07-ref-9" pb_proxy_cs) /\
  MultiProof_Unmarshal (MultiProof_enc pb_multi_proof) pb_multi_proof =
    (Ok tt, mkMultiProof pb_branch [pb_branch; pb_branch; pb_branch; pb_branch]
              (mkLeafProof "leaf" (mkHeight 0 5))) /\
  ProxyCS_Unmarshal (ProxyCS_enc pb_part) pb_receiver =
    (Ok tt, mkProxyCS (Some (mkAny "/mock.ClientState" "state")) "07-ref-3"
              (Some (mkMerklePrefix "proxy")) None) /\
  ProxyCS_Unmarshal (stake 4 later_fields) pb_part = (Ok tt, pb_part).
Proof.
  destruct messages_merge as ((Hcs & Hm & Hu) & _ & _ & _ & _ & (_ & Hmp & _) & _).
  split_and!.
  - apply (Hcs _ _ _ pb_proxy_cs); vm_compute; reflexivity.
  - apply Hmp; [exact pb_multi_proof_ok|by vm_compute].
  - apply (Hm pb_receiver pb_part); concrete_ok.
  - apply Hu; [by vm_compute|]. exists 0x7b%N, (sdrop 1 (stake 4 later_fields)).
    split; [vm_compute; reflexivity|]. split; [vm_compute; discriminate|].
    split; vm_compute; reflexivity.
Defined.
