(* ===== verification/Server.v ===== *)
(** The message server, modules/proxy/keeper/msg_server.go, and the proxy
    module as a state machine: a message is routed to its handler; between two
    messages the libraries' state may change in any way (client updates, new
    blocks, other modules), the proxy store does not. *)
From S2P Require Import Prelude.
From S2P Require Import Lib.
From S2P Require Import Keys.
From S2P Require Import Commitment.
From S2P Require Import Verify.
From S2P Require Import Connection.
From S2P Require Import Channel.
From S2P Require Import PacketFlow.
From S2P Require Import Msgs.

Section Server.
Context `{T : LibTypes, L : !Lib, I : !ClientMethods ClientState, CK : !ClientKeeperI}.

(** [&msg.UpstreamPrefix] *)
Definition addr (p : MerklePrefix) : Prefix := MerklePfx (Some p).

Definition ProxyClientState (msg : MsgProxyClientState) : M World unit :=
  let* clientState := mlift (UnpackClientState (PCS_ClientState msg)) in
  let* consensusState := mlift (UnpackConsensusState (PCS_ConsensusState msg)) in
  Keeper_ClientState (PCS_UpstreamClientId msg) (addr (PCS_UpstreamPrefix msg))
    (PCS_CounterpartyClientId msg) clientState consensusState (PCS_ProofClient msg)
    (PCS_ProofConsensus msg) (PCS_ProofHeight msg) (PCS_ConsensusHeight msg).

Definition ProxyConnectionOpenTry (k : Keeper) (msg : MsgProxyConnectionOpenTry) :
    M World unit :=
  let* downstreamClientState := mlift (UnpackClientState (COT_DownstreamClientState msg)) in
  let* downstreamConsensusState :=
    mlift (UnpackConsensusState (COT_DownstreamConsensusState msg)) in
  let* proxyClientState := mlift (UnpackClientState (COT_ProxyClientState msg)) in
  ConnOpenTry k (COT_ConnectionId msg) (addr (COT_UpstreamPrefix msg)) (COT_Connection msg)
    downstreamClientState downstreamConsensusState proxyClientState (COT_ProofInit msg)
    (COT_ProofClient msg) (COT_ProofConsensus msg) (COT_ProofHeight msg)
    (COT_ConsensusHeight msg) (COT_ProofProxyClient msg) (COT_ProofProxyConsensus msg)
    (COT_ProofProxyHeight msg) (COT_ProxyConsensusHeight msg).

Definition ProxyConnectionOpenAck (k : Keeper) (msg : MsgProxyConnectionOpenAck) :
    M World unit :=
  let* downstreamClientState := mlift (UnpackClientState (COA_DownstreamClientState msg)) in
  let* downstreamConsensusState :=
    mlift (UnpackConsensusState (COA_DownstreamConsensusState msg)) in
  let* proxyClientState := mlift (UnpackClientState (COA_ProxyClientState msg)) in
  ConnOpenAck k (COA_ConnectionId msg) (addr (COA_UpstreamPrefix msg)) (COA_Connection msg)
    downstreamClientState downstreamConsensusState proxyClientState (COA_ProofTry msg)
    (COA_ProofClient msg) (COA_ProofConsensus msg) (COA_ProofHeight msg)
    (COA_ConsensusHeight msg) (COA_ProofProxyClient msg) (COA_ProofProxyConsensus msg)
    (COA_ProofProxyHeight msg) (COA_ProxyConsensusHeight msg).

Definition ProxyConnectionOpenConfirm (msg : MsgProxyConnectionOpenConfirm) : M World unit :=
  ConnOpenConfirm (COC_ConnectionId msg) (COC_UpstreamClientId msg)
    (addr (COC_UpstreamPrefix msg)) (COC_CounterpartyConnectionId msg) (COC_ProofAck msg)
    (COC_ProofHeight msg).

Definition ProxyConnectionOpenFinalize (msg : MsgProxyConnectionOpenFinalize) :
    M World unit :=
  ConnOpenFinalize (COF_ConnectionId msg) (COF_UpstreamClientId msg)
    (addr (COF_UpstreamPrefix msg)) (COF_ProofConfirm msg) (COF_ProofHeight msg).

Definition ProxyChannelOpenTry (msg : MsgProxyChannelOpenTry) : M World unit :=
  ChanOpenTry (HOT_UpstreamClientId msg) (addr (HOT_UpstreamPrefix msg)) (HOT_Order msg)
    (HOT_ConnectionHops msg) (HOT_PortId msg) (HOT_ChannelId msg) (HOT_DownstreamPortId msg)
    (HOT_Version msg) (HOT_ProofInit msg) (HOT_ProofHeight msg).

Definition ProxyChannelOpenAck (msg : MsgProxyChannelOpenAck) : M World unit :=
  ChanOpenAck (HOA_UpstreamClientId msg) (addr (HOA_UpstreamPrefix msg)) (HOA_Order msg)
    (HOA_ConnectionHops msg) (HOA_PortId msg) (HOA_ChannelId msg) (HOA_DownstreamPortId msg)
    (HOA_DownstreamChannelId msg) (HOA_Version msg) (HOA_ProofTry msg) (HOA_ProofHeight msg).

Definition ProxyChannelOpenConfirm (msg : MsgProxyChannelOpenConfirm) : M World unit :=
  ChanOpenConfirm (HOC_UpstreamClientId msg) (addr (HOC_UpstreamPrefix msg))
    (HOC_PortId msg) (HOC_ChannelId msg) (HOC_DownstreamChannelId msg) (HOC_ProofAck msg)
    (HOC_ProofHeight msg).

Definition ProxyChannelOpenFinalize (msg : MsgProxyChannelOpenFinalize) : M World unit :=
  ChanOpenFinalize (HOF_UpstreamClientId msg) (addr (HOF_UpstreamPrefix msg))
    (HOF_PortId msg) (HOF_ChannelId msg) (HOF_ProofConfirm msg) (HOF_ProofHeight msg).

Definition ProxyRecvPacket (msg : MsgProxyRecvPacket) : M World unit :=
  RecvPacket (RPK_UpstreamClientId msg) (addr (RPK_UpstreamPrefix msg)) (RPK_Packet msg)
    (RPK_Proof msg) (RPK_ProofHeight msg).

Definition ProxyAcknowledgePacket (msg : MsgProxyAcknowledgePacket) : M World unit :=
  AcknowledgePacket (APK_UpstreamClientId msg) (addr (APK_UpstreamPrefix msg))
    (APK_Packet msg) (APK_Acknowledgement msg) (APK_Proof msg) (APK_ProofHeight msg).

(** ** The module as a state machine *)

(** The messages of the service (types.MsgServer). *)
Inductive Msg :=
| ClientStateMsg (m : MsgProxyClientState)
| ConnectionOpenTryMsg (m : MsgProxyConnectionOpenTry)
| ConnectionOpenAckMsg (m : MsgProxyConnectionOpenAck)
| ConnectionOpenConfirmMsg (m : MsgProxyConnectionOpenConfirm)
| ConnectionOpenFinalizeMsg (m : MsgProxyConnectionOpenFinalize)
| ChannelOpenTryMsg (m : MsgProxyChannelOpenTry)
| ChannelOpenAckMsg (m : MsgProxyChannelOpenAck)
| ChannelOpenConfirmMsg (m : MsgProxyChannelOpenConfirm)
| ChannelOpenFinalizeMsg (m : MsgProxyChannelOpenFinalize)
| RecvPacketMsg (m : MsgProxyRecvPacket)
| AcknowledgePacketMsg (m : MsgProxyAcknowledgePacket).

Definition handle (k : Keeper) (m : Msg) : M World unit :=
  match m with
  | ClientStateMsg m => ProxyClientState m
  | ConnectionOpenTryMsg m => ProxyConnectionOpenTry k m
  | ConnectionOpenAckMsg m => ProxyConnectionOpenAck k m
  | ConnectionOpenConfirmMsg m => ProxyConnectionOpenConfirm m
  | ConnectionOpenFinalizeMsg m => ProxyConnectionOpenFinalize m
  | ChannelOpenTryMsg m => ProxyChannelOpenTry m
  | ChannelOpenAckMsg m => ProxyChannelOpenAck m
  | ChannelOpenConfirmMsg m => ProxyChannelOpenConfirm m
  | ChannelOpenFinalizeMsg m => ProxyChannelOpenFinalize m
  | RecvPacketMsg m => ProxyRecvPacket m
  | AcknowledgePacketMsg m => ProxyAcknowledgePacket m
  end.

(** One step of the chain as the proxy store sees it.  A message's writes are
    kept even when its handler fails: what is proved does not rest on the
    roll-back of failed transactions. *)
Inductive step (k : Keeper) (allowed : Msg -> Prop) : relation World :=
| step_msg m w : allowed m -> step k allowed w (handle k m w).2
| step_env w e' : step k allowed w (mkWorld e' (w_proxy w)).

Definition reachable (k : Keeper) (allowed : Msg -> Prop) : relation World :=
  rtc (step k allowed).

End Server.
