(* ===== verification/Module.v ===== *)
(** The module's wiring: the types it registers (types/codec.go,
    xx-multiv/types/codec.go), the gRPC service that tx.pb.go generates for it -
    client stubs, handlers and service description -, its genesis
    (types/genesis.go, keeper/genesis.go, types/params.go) and the application
    module (module.go, client/cli/cli.go).  The interface registry, the router
    of messages that services are registered on, gRPC's decoders and interceptors
    and the JSON codec are interfaces or arguments. *)
From S2P Require Import Prelude.
From S2P Require Import Lib.
From S2P Require Import Keys.
From S2P Require Import Commitment.
From S2P Require Import Verify.
From S2P Require Import Msgs.
From S2P Require Import Server.
From S2P Require Import Wire.
From S2P Require Import PbTx.

(** * Registration of types *)

(** The Go types the module registers, and their names (proto.RegisterType) *)
Inductive Concrete :=
| T_MsgProxyClientState
| T_MsgProxyConnectionOpenTry
| T_MsgProxyConnectionOpenAck
| T_MsgProxyConnectionOpenConfirm
| T_MsgProxyConnectionOpenFinalize
| T_MsgProxyChannelOpenTry
| T_MsgProxyChannelOpenAck
| T_MsgProxyChannelOpenConfirm
| T_MsgProxyChannelOpenFinalize
| T_MsgProxyRecvPacket
| T_MsgProxyAcknowledgePacket
| T_ProxyClientState
| T_ProxyConsensusState
| T_MultivClientState
| T_MultiProof.

#[export] Instance Concrete_eq_dec : EqDecision Concrete.
Proof. solve_decision. Defined.

Definition MessageName (t : Concrete) : string :=
  match t with
  | T_MsgProxyClientState => "ibc.proxy.v1.MsgProxyClientState"
  | T_MsgProxyConnectionOpenTry => "ibc.proxy.v1.MsgProxyConnectionOpenTry"
  | T_MsgProxyConnectionOpenAck => "ibc.proxy.v1.MsgProxyConnectionOpenAck"
  | T_MsgProxyConnectionOpenConfirm => "ibc.proxy.v1.MsgProxyConnectionOpenConfirm"
  | T_MsgProxyConnectionOpenFinalize => "ibc.proxy.v1.MsgProxyConnectionOpenFinalize"
  | T_MsgProxyChannelOpenTry => "ibc.proxy.v1.MsgProxyChannelOpenTry"
  | T_MsgProxyChannelOpenAck => "ibc.proxy.v1.MsgProxyChannelOpenAck"
  | T_MsgProxyChannelOpenConfirm => "ibc.proxy.v1.MsgProxyChannelOpenConfirm"
  | T_MsgProxyChannelOpenFinalize => "ibc.proxy.v1.MsgProxyChannelOpenFinalize"
  | T_MsgProxyRecvPacket => "ibc.proxy.v1.MsgProxyRecvPacket"
  | T_MsgProxyAcknowledgePacket => "ibc.proxy.v1.MsgProxyAcknowledgePacket"
  | T_ProxyClientState => "ibc.lightclients.proxy.v1.ClientState"
  | T_ProxyConsensusState => "ibc.lightclients.proxy.v1.ConsensusState"
  | T_MultivClientState => "ibc.lightclients.multiv.v1.ClientState"
  | T_MultiProof => "ibc.lightclients.multiv.v1.MultiProof"
  end.

(** The type URL of an Any *)
Definition TypeURL (t : Concrete) : string := "/" +:+ MessageName t.

(** The interfaces the types are registered for: sdk.Msg and those of
    core/exported *)
Inductive Iface := I_Msg | I_ClientState | I_ConsensusState | I_Proof.

#[export] Instance Iface_eq_dec : EqDecision Iface.
Proof. solve_decision. Defined.

(** codectypes.InterfaceRegistry.  [Resolve] is what unpacking an Any looks up. *)
Class InterfaceRegistry := {
  Registry : Type;
  RegisterImplementations : Iface -> list Concrete -> Registry -> outcome Registry;
  Resolve : Registry -> Iface -> string -> option Concrete
}.

Section Registration.
Context `{InterfaceRegistry}.

(** xx-multiv/types/codec.go *)
Definition Multiv_RegisterInterfaces (registry : Registry) : outcome Registry :=
  let? registry := RegisterImplementations I_ClientState [T_MultivClientState] registry in
  RegisterImplementations I_Proof [T_MultiProof] registry.

(** types/codec.go *)
Definition RegisterInterfaces (registry : Registry) : outcome Registry :=
  let? registry := RegisterImplementations I_Msg
    [T_MsgProxyClientState;
     T_MsgProxyConnectionOpenTry;
     T_MsgProxyConnectionOpenAck;
     T_MsgProxyConnectionOpenConfirm;
     T_MsgProxyConnectionOpenFinalize;
     T_MsgProxyChannelOpenTry;
     T_MsgProxyChannelOpenAck;
     T_MsgProxyChannelOpenConfirm;
     T_MsgProxyChannelOpenFinalize;
     T_MsgProxyRecvPacket;
     T_MsgProxyAcknowledgePacket] registry in
  let? registry := RegisterImplementations I_ClientState [T_ProxyClientState] registry in
  let? registry := RegisterImplementations I_ConsensusState [T_ProxyConsensusState] registry in
  Multiv_RegisterInterfaces registry.

End Registration.

(** * The service *)

(** ** Values of type interface{}

    The messages reach gRPC, and come back from it, as pointers in an interface{}:
    a [Msg], whose constructor is the dynamic type.  [box] is the conversion
    of a pointer to X to interface{}; [unbox] is the type assertion to pointers to X,
    [None] where it panics. *)
Class MsgType (X : Type) := {
  box : X -> Msg;
  unbox : Msg -> option X
}.

#[export] Instance MsgProxyClientState_type : MsgType MsgProxyClientState := {
  box := ClientStateMsg;
  unbox m := match m with ClientStateMsg m => Some m | _ => None end
}.

#[export] Instance MsgProxyConnectionOpenTry_type : MsgType MsgProxyConnectionOpenTry := {
  box := ConnectionOpenTryMsg;
  unbox m := match m with ConnectionOpenTryMsg m => Some m | _ => None end
}.

#[export] Instance MsgProxyConnectionOpenAck_type : MsgType MsgProxyConnectionOpenAck := {
  box := ConnectionOpenAckMsg;
  unbox m := match m with ConnectionOpenAckMsg m => Some m | _ => None end
}.

#[export] Instance MsgProxyConnectionOpenConfirm_type : MsgType MsgProxyConnectionOpenConfirm := {
  box := ConnectionOpenConfirmMsg;
  unbox m := match m with ConnectionOpenConfirmMsg m => Some m | _ => None end
}.

#[export] Instance MsgProxyConnectionOpenFinalize_type : MsgType MsgProxyConnectionOpenFinalize := {
  box := ConnectionOpenFinalizeMsg;
  unbox m := match m with ConnectionOpenFinalizeMsg m => Some m | _ => None end
}.

#[export] Instance MsgProxyChannelOpenTry_type : MsgType MsgProxyChannelOpenTry := {
  box := ChannelOpenTryMsg;
  unbox m := match m with ChannelOpenTryMsg m => Some m | _ => None end
}.

#[export] Instance MsgProxyChannelOpenAck_type : MsgType MsgProxyChannelOpenAck := {
  box := ChannelOpenAckMsg;
  unbox m := match m with ChannelOpenAckMsg m => Some m | _ => None end
}.

#[export] Instance MsgProxyChannelOpenConfirm_type : MsgType MsgProxyChannelOpenConfirm := {
  box := ChannelOpenConfirmMsg;
  unbox m := match m with ChannelOpenConfirmMsg m => Some m | _ => None end
}.

#[export] Instance MsgProxyChannelOpenFinalize_type : MsgType MsgProxyChannelOpenFinalize := {
  box := ChannelOpenFinalizeMsg;
  unbox m := match m with ChannelOpenFinalizeMsg m => Some m | _ => None end
}.

#[export] Instance MsgProxyRecvPacket_type : MsgType MsgProxyRecvPacket := {
  box := RecvPacketMsg;
  unbox m := match m with RecvPacketMsg m => Some m | _ => None end
}.

#[export] Instance MsgProxyAcknowledgePacket_type : MsgType MsgProxyAcknowledgePacket := {
  box := AcknowledgePacketMsg;
  unbox m := match m with AcknowledgePacketMsg m => Some m | _ => None end
}.

(** ** Client stubs *)

(** grpc1.ClientConn: what Invoke(ctx, method, in, out) does.  The replies are empty
    messages. *)
Definition ClientConn (St : Type) := string -> Msg -> M St unit.

Record msgClient (St : Type) := mkMsgClient { cc : ClientConn St }.
Arguments mkMsgClient {St} cc.
Arguments cc {St} m.

Definition NewMsgClient {St} (cc : ClientConn St) : msgClient St := mkMsgClient cc.

Definition Client_ProxyClientState {St} (c : msgClient St) (in_ : MsgProxyClientState) : M St unit :=
  cc c "/ibc.proxy.v1.Msg/ProxyClientState" (box in_) ;;*
  mret tt.

Definition Client_ProxyConnectionOpenTry {St} (c : msgClient St) (in_ : MsgProxyConnectionOpenTry) : M St unit :=
  cc c "/ibc.proxy.v1.Msg/ProxyConnectionOpenTry" (box in_) ;;*
  mret tt.

Definition Client_ProxyConnectionOpenAck {St} (c : msgClient St) (in_ : MsgProxyConnectionOpenAck) : M St unit :=
  cc c "/ibc.proxy.v1.Msg/ProxyConnectionOpenAck" (box in_) ;;*
  mret tt.

Definition Client_ProxyConnectionOpenConfirm {St} (c : msgClient St) (in_ : MsgProxyConnectionOpenConfirm) : M St unit :=
  cc c "/ibc.proxy.v1.Msg/ProxyConnectionOpenConfirm" (box in_) ;;*
  mret tt.

Definition Client_ProxyConnectionOpenFinalize {St} (c : msgClient St) (in_ : MsgProxyConnectionOpenFinalize) : M St unit :=
  cc c "/ibc.proxy.v1.Msg/ProxyConnectionOpenFinalize" (box in_) ;;*
  mret tt.

Definition Client_ProxyChannelOpenTry {St} (c : msgClient St) (in_ : MsgProxyChannelOpenTry) : M St unit :=
  cc c "/ibc.proxy.v1.Msg/ProxyChannelOpenTry" (box in_) ;;*
  mret tt.

Definition Client_ProxyChannelOpenAck {St} (c : msgClient St) (in_ : MsgProxyChannelOpenAck) : M St unit :=
  cc c "/ibc.proxy.v1.Msg/ProxyChannelOpenAck" (box in_) ;;*
  mret tt.

Definition Client_ProxyChannelOpenConfirm {St} (c : msgClient St) (in_ : MsgProxyChannelOpenConfirm) : M St unit :=
  cc c "/ibc.proxy.v1.Msg/ProxyChannelOpenConfirm" (box in_) ;;*
  mret tt.

Definition Client_ProxyChannelOpenFinalize {St} (c : msgClient St) (in_ : MsgProxyChannelOpenFinalize) : M St unit :=
  cc c "/ibc.proxy.v1.Msg/ProxyChannelOpenFinalize" (box in_) ;;*
  mret tt.

Definition Client_ProxyRecvPacket {St} (c : msgClient St) (in_ : MsgProxyRecvPacket) : M St unit :=
  cc c "/ibc.proxy.v1.Msg/ProxyRecvPacket" (box in_) ;;*
  mret tt.

Definition Client_ProxyAcknowledgePacket {St} (c : msgClient St) (in_ : MsgProxyAcknowledgePacket) : M St unit :=
  cc c "/ibc.proxy.v1.Msg/ProxyAcknowledgePacket" (box in_) ;;*
  mret tt.

(** ** Handlers *)

Section Service.
Context `{T : LibTypes, L : !Lib, I : !ClientMethods ClientState, CK : !ClientKeeperI}.

(** dec func(interface{}) error: it is given a pointer to a message of some generated
    type, and may write the message. *)
Definition Decoder := forall X, PbMessage X -> MsgType X -> M X unit.

(** grpc.UnaryServerInfo.  The server is one of the module's: the assertion
    srv.(MsgServer) holds of what [RegisterMsgServer] registers. *)
Record UnaryServerInfo := mkUnaryServerInfo { info_Server : Keeper; FullMethod : string }.

(** grpc.UnaryHandler and grpc.UnaryServerInterceptor *)
Definition UnaryHandler := Msg -> M World unit.
Definition UnaryServerInterceptor := Msg -> UnaryServerInfo -> UnaryHandler -> M World unit.

(** The handler of a method, a function of the server, the decoder and the
    interceptor, nil or not *)
Definition MethodHandler := Keeper -> Decoder -> option UnaryServerInterceptor -> M World unit.

(** The body that is generated for every method: [method] is the server's method,
    [fullMethod] its name. *)
Definition unary_handler {X} `{PbMessage X, MsgType X} (fullMethod : string)
    (method : Keeper -> X -> M World unit) : MethodHandler :=
  fun srv dec interceptor =>
    let '(r, in_) := dec X _ _ pb_zero in
    mlift r ;;*
    match interceptor with
    | None => method srv in_
    | Some interceptor =>
        let info := {| info_Server := srv; FullMethod := fullMethod |} in
        let handler req :=
          match unbox req with
          | Some req => method srv req
          | None => mpanic PTypeAssertion
          end in
        interceptor (box in_) info handler
    end.

Context `{PbMessage AnyT, PbMessage MerklePrefix, PbMessage Height, PbMessage ConnectionEnd,
  PbMessage Packet}.

Definition _Msg_ProxyClientState_Handler : MethodHandler :=
  unary_handler "/ibc.proxy.v1.Msg/ProxyClientState" (fun _ => Server.ProxyClientState).

Definition _Msg_ProxyConnectionOpenTry_Handler : MethodHandler :=
  unary_handler "/ibc.proxy.v1.Msg/ProxyConnectionOpenTry" Server.ProxyConnectionOpenTry.

Definition _Msg_ProxyConnectionOpenAck_Handler : MethodHandler :=
  unary_handler "/ibc.proxy.v1.Msg/ProxyConnectionOpenAck" Server.ProxyConnectionOpenAck.

Definition _Msg_ProxyConnectionOpenConfirm_Handler : MethodHandler :=
  unary_handler "/ibc.proxy.v1.Msg/ProxyConnectionOpenConfirm" (fun _ => Server.ProxyConnectionOpenConfirm).

Definition _Msg_ProxyConnectionOpenFinalize_Handler : MethodHandler :=
  unary_handler "/ibc.proxy.v1.Msg/ProxyConnectionOpenFinalize" (fun _ => Server.ProxyConnectionOpenFinalize).

Definition _Msg_ProxyChannelOpenTry_Handler : MethodHandler :=
  unary_handler "/ibc.proxy.v1.Msg/ProxyChannelOpenTry" (fun _ => Server.ProxyChannelOpenTry).

Definition _Msg_ProxyChannelOpenAck_Handler : MethodHandler :=
  unary_handler "/ibc.proxy.v1.Msg/ProxyChannelOpenAck" (fun _ => Server.ProxyChannelOpenAck).

Definition _Msg_ProxyChannelOpenConfirm_Handler : MethodHandler :=
  unary_handler "/ibc.proxy.v1.Msg/ProxyChannelOpenConfirm" (fun _ => Server.ProxyChannelOpenConfirm).

Definition _Msg_ProxyChannelOpenFinalize_Handler : MethodHandler :=
  unary_handler "/ibc.proxy.v1.Msg/ProxyChannelOpenFinalize" (fun _ => Server.ProxyChannelOpenFinalize).

Definition _Msg_ProxyRecvPacket_Handler : MethodHandler :=
  unary_handler "/ibc.proxy.v1.Msg/ProxyRecvPacket" (fun _ => Server.ProxyRecvPacket).

Definition _Msg_ProxyAcknowledgePacket_Handler : MethodHandler :=
  unary_handler "/ibc.proxy.v1.Msg/ProxyAcknowledgePacket" (fun _ => Server.ProxyAcknowledgePacket).

(** grpc.ServiceDesc, with its methods' names and handlers.  The service has no
    streams. *)
Record ServiceDesc := mkServiceDesc {
  ServiceName : string;
  Methods : list (string * MethodHandler);
  Metadata : string
}.

Definition _Msg_serviceDesc : ServiceDesc := {|
  ServiceName := "ibc.proxy.v1.Msg";
  Methods := [
    ("ProxyClientState", _Msg_ProxyClientState_Handler);
    ("ProxyConnectionOpenTry", _Msg_ProxyConnectionOpenTry_Handler);
    ("ProxyConnectionOpenAck", _Msg_ProxyConnectionOpenAck_Handler);
    ("ProxyConnectionOpenConfirm", _Msg_ProxyConnectionOpenConfirm_Handler);
    ("ProxyConnectionOpenFinalize", _Msg_ProxyConnectionOpenFinalize_Handler);
    ("ProxyChannelOpenTry", _Msg_ProxyChannelOpenTry_Handler);
    ("ProxyChannelOpenAck", _Msg_ProxyChannelOpenAck_Handler);
    ("ProxyChannelOpenConfirm", _Msg_ProxyChannelOpenConfirm_Handler);
    ("ProxyChannelOpenFinalize", _Msg_ProxyChannelOpenFinalize_Handler);
    ("ProxyRecvPacket", _Msg_ProxyRecvPacket_Handler);
    ("ProxyAcknowledgePacket", _Msg_ProxyAcknowledgePacket_Handler)
  ];
  Metadata := "ibc/modules/proxy/tx.proto"
|}.

End Service.

(** The server that cfg.MsgServer() gives: on a chain of the SDK, its router of
    messages (MsgServiceRouter), over the interface registry it was given.
    Registering a service may panic.  [Handler] is what the chain runs for a message
    of a given type URL. *)
Class MsgRouter `{T : LibTypes} `{InterfaceRegistry} := {
  Router : Type;
  router_registry : Router -> Registry;
  RegisterService : ServiceDesc -> Keeper -> Router -> outcome Router;
  Handler : Router -> string -> option UnaryHandler
}.

Section Register.
Context `{T : LibTypes, L : !Lib, I : !ClientMethods ClientState, CK : !ClientKeeperI}.
Context `{PbMessage AnyT, PbMessage MerklePrefix, PbMessage Height, PbMessage ConnectionEnd,
  PbMessage Packet}.
Context `{IR : InterfaceRegistry, R : !MsgRouter}.

Definition RegisterMsgServer (s : Router) (srv : Keeper) : outcome Router :=
  RegisterService _Msg_serviceDesc srv s.

End Register.

(** * Genesis *)

Definition DefaultParams : Params := mkParams.
Definition DefaultGenesisState : GenesisState := mkGenesisState.

(** GenesisState.Validate *)
Definition Genesis_Validate (gs : GenesisState) : outcome unit := Ok tt.

(** codec.JSONCodec at GenesisState *)
Class JSONCodec := {
  cdc_MarshalJSON : GenesisState -> outcome bytes;
  cdc_UnmarshalJSON : bytes -> outcome GenesisState
}.

(** cobra.Command: what cli.go sets of it *)
Record Command := mkCommand {
  Use : string;
  Short : string;
  DisableFlagParsing : bool;
  SuggestionsMinimumDistance : Z;
  ValidatesSubcommand : bool  (* RunE: client.ValidateCmd *)
}.

Definition GetQueryCmd : Command :=
  mkCommand "ibc-proxy" "IBC proxy query subcommands" true 2 false.

Definition NewTxCmd : Command :=
  mkCommand "ibc-proxy" "IBC proxy transaction subcommands" true 2 true.

(** * The application module *)

Section AppModule.
Context `{T : LibTypes, L : !Lib, I : !ClientMethods ClientState, CK : !ClientKeeperI}.
Context `{J : JSONCodec}.

(** keeper/genesis.go *)
Definition InitGenesis (k : Keeper) (state : GenesisState) : M World unit := mret tt.
Definition ExportGenesis (k : Keeper) : M World GenesisState := mret mkGenesisState.

(** ** AppModuleBasic *)

Record AppModuleBasic := mkAppModuleBasic {}.

Definition Name : string := ModuleName.

(** The registries of other packages that the module adds nothing to, as what the
    call leaves of them: the amino codec, the REST router, the gateway's mux *)
Definition RegisterLegacyAminoCodec {LegacyAmino} (cdc : LegacyAmino) : LegacyAmino := cdc.
Definition RegisterRESTRoutes {ClientCtx Router} (clientCtx : ClientCtx) (rtr : Router) : Router :=
  rtr.
Definition RegisterGRPCGatewayRoutes {ClientCtx ServeMux} (clientCtx : ClientCtx)
    (mux : ServeMux) : ServeMux := mux.

Definition Basic_RegisterInterfaces `{InterfaceRegistry} (registry : Registry) :
    outcome Registry := RegisterInterfaces registry.

Definition DefaultGenesis : outcome bytes := must (cdc_MarshalJSON DefaultGenesisState).

Definition ValidateGenesis (bz : bytes) : outcome unit :=
  let? gs := omap_err (fun err => Wrapf err "failed to unmarshal %s genesis state" [ModuleName])
    (cdc_UnmarshalJSON bz) in
  Genesis_Validate gs.

Definition GetTxCmd : Command := NewTxCmd.
Definition Basic_GetQueryCmd : Command := GetQueryCmd.

(** ** AppModule *)

Record AppModule := mkAppModule { basic : AppModuleBasic; keeper : Keeper }.

Definition NewAppModule (k : Keeper) : AppModule := mkAppModule mkAppModuleBasic k.

(** abci.ValidatorUpdate lists are always empty. *)
Definition App_InitGenesis (am : AppModule) (data : bytes) : M World (list unit) :=
  let* genesisState := mlift (must (cdc_UnmarshalJSON data)) in
  InitGenesis (keeper am) genesisState ;;*
  mret [].

Definition App_ExportGenesis (am : AppModule) : M World bytes :=
  let* gs := ExportGenesis (keeper am) in
  mlift (must (cdc_MarshalJSON gs)).

Definition RegisterInvariants {InvariantRegistry} (am : AppModule) (ir : InvariantRegistry) :
    InvariantRegistry := ir.

(** sdk.Route{}: no path and no handler *)
Record SdkRoute {Handler : Type} := mkRoute { route_path : string; route_handler : option Handler }.
Arguments SdkRoute : clear implicits.

Definition Route {Handler} (am : AppModule) : SdkRoute Handler := mkRoute _ "" None.

Definition LegacyQuerierHandler {LegacyAmino Querier} (am : AppModule) (cdc : LegacyAmino) :
    option Querier := None.

Definition App_QuerierRoute (am : AppModule) : string := QuerierRoute.

(** module.Configurator: [MsgServer] is its cfg.MsgServer(). *)
Record Configurator `{R : MsgRouter} := mkConfigurator { MsgServer : Router }.

(** The server as the call leaves it *)
Definition RegisterServices `{PbMessage AnyT, PbMessage MerklePrefix, PbMessage Height,
    PbMessage ConnectionEnd, PbMessage Packet} `{IR : InterfaceRegistry, R : !MsgRouter}
    (am : AppModule) (cfg : Configurator) : outcome Router :=
  RegisterMsgServer (MsgServer cfg) (keeper am).

Definition ConsensusVersion (am : AppModule) : N := 1.

Definition BeginBlock (am : AppModule) : M World unit := mret tt.
Definition EndBlock (am : AppModule) : M World (list unit) := mret [].

End AppModule.
