(* ===== verification/Scenario.v ===== *)
(** A concrete deployment on the reference libraries, in which the witnesses of
    the keeper's theorems are evaluated: upstream chain A (client "07-ref-0" on
    the proxy, prefix "ibc"), downstream chain B, and the messages a relayer
    sends to the proxy for a handshake opened by A and then for one opened by
    B, a channel and packets. *)
From S2P Require Import Prelude.
From S2P Require Import Lib.
From S2P Require Import RefLib.
From S2P Require Import Dispatch.
From S2P Require Import Keys.
From S2P Require Import Commitment.
From S2P Require Import Verify.
From S2P Require Import Connection.
From S2P Require Import Channel.
From S2P Require Import PacketFlow.
From S2P Require Import Msgs.
From S2P Require Import Server.

#[export] Existing Instances ref_types ref_lib ref_keeper.

(** The interface exported.ClientState, with room for six nested wrappers. *)
#[export] Instance ref_iface : ClientMethods ClientState := dispatch ref_client 6.

Definition h (n : N) : Height := mkHeight 0 n.
Definition ibc : MerklePrefix := mkMerklePrefix "ibc".
Definition proxy_keeper : Keeper := NewKeeper "proxy" "ibc".

Definition enc_client (c : ClientState) : string := Codec.encode (H := ClientState_codec) c.
Definition enc_cons (c : ConsensusState) : string := Codec.encode (H := ConsensusState_codec) c.
Definition enc_conn (c : ConnectionEnd) : string :=
  tag (Codec.encode (H := ConnectionEnd_codec) c).
Definition enc_chan (c : Channel) : string := tag (Codec.encode (H := Channel_codec) c).
Definition any_cons (c : ConsensusState) : option AnyT := Some (mkAny "consensus" (enc_cons c)).

(** The proxy chain as B's proxy client sees it. *)
Definition self_client : ClientState := CSExt (mkRefClient (h 5)).
Definition self_cons : ConsensusState := ConsExt (T := ref_types) [].
Definition proxy_cs : ProxyCS :=
  mkProxyCS (pack_client self_client) "07-ref-0" (Some (mkMerklePrefix "proxy")) (Some ibc).
Definition proxy_cons : ProxyConsS := mkProxyConsS (any_cons self_cons).

(** B: its client of the proxy, committed at height 20. *)
Definition root_B : list (string * string) :=
  [("ibc/clients/xx-proxy-0/clientState", enc_client (CSProxy proxy_cs));
   ("ibc/clients/xx-proxy-0/consensusStates/0-5", enc_cons (ConsProxy proxy_cons))].
Definition client_B : ClientState := CSExt (mkRefClient (h 20)).
Definition cons_B : ConsensusState := ConsExt (T := ref_types) root_B.

Definition version1 : Version := mkVersion "1" ["ORDER_ORDERED"; "ORDER_UNORDERED"].

Definition conn_A (st : Z) (cp : string) : ConnectionEnd :=
  mkConnectionEnd "07-ref-1" [version1] st (mkConnCounterparty "xx-proxy-0" cp ibc) 0.

Definition chan_A (st : Z) (cp : string) : Channel :=
  mkChannel st 1 (mkChanCounterparty "transfer" cp) ["connection-0"] "ics20-1".

(** A channel that B opened, over the connection that B opened *)
Definition chan_B (st : Z) : Channel :=
  mkChannel st 1 (mkChanCounterparty "transfer" "channel-6") ["connection-9"] "ics20-1".

Definition packet_A : Packet :=
  mkPacket 1 "transfer" "channel-0" "transfer" "channel-7" "data" (h 100) 0.
Definition packet_B : Packet :=
  mkPacket 4 "transfer" "channel-7" "transfer" "channel-0" "data'" (h 100) 0.

(** A: what it committed at heights 10, 11, 12. *)
Definition root_A10 : list (string * string) :=
  [("ibc/clients/07-ref-1/clientState", enc_client client_B);
   ("ibc/clients/07-ref-1/consensusStates/0-20", enc_cons cons_B);
   ("ibc/connections/connection-0", enc_conn (conn_A conn_INIT ""));
   ("ibc/connections/connection-9", enc_conn (conn_A conn_TRYOPEN "connection-5"));
   ("ibc/channelEnds/ports/transfer/channels/channel-0", enc_chan (chan_A chan_INIT ""));
   ("ibc/commitments/ports/transfer/channels/channel-0/sequences/1", "commit:data")].
Definition root_A11 : list (string * string) :=
  [("ibc/connections/connection-0", enc_conn (conn_A conn_OPEN "connection-3"));
   ("ibc/connections/connection-9", enc_conn (conn_A conn_OPEN "connection-5"));
   ("ibc/channelEnds/ports/transfer/channels/channel-0", enc_chan (chan_A chan_INIT ""));
   ("ibc/channelEnds/ports/transfer/channels/channel-8",
     enc_chan (chan_A chan_TRYOPEN "channel-7"));
   ("ibc/channelEnds/ports/transfer/channels/channel-9", enc_chan (chan_B chan_TRYOPEN))].
Definition root_A12 : list (string * string) :=
  [("ibc/channelEnds/ports/transfer/channels/channel-0", enc_chan (chan_A chan_OPEN "channel-7"));
   ("ibc/channelEnds/ports/transfer/channels/channel-8", enc_chan (chan_A chan_OPEN "channel-7"));
   ("ibc/channelEnds/ports/transfer/channels/channel-9", enc_chan (chan_B chan_OPEN));
   ("ibc/commitments/ports/transfer/channels/channel-0/sequences/1", "commit:data");
   ("ibc/commitments/ports/transfer/channels/channel-8/sequences/2", "commit:early");
   ("ibc/acks/ports/transfer/channels/channel-0/sequences/4", "ack:ok");
   ("ibc/acks/ports/transfer/channels/channel-9/sequences/5", "ack:ok")].

Definition cons_key (n : N) : string := ConsensusStateKey (h n).

Definition ext0 : RefState := {|
  rs_clients := {["07-ref-0" := enc_client (CSExt (mkRefClient (h 12)))]};
  rs_stores := {["client/07-ref-0" :=
     <[cons_key 10 := enc_cons (ConsExt (T := ref_types) root_A10)]>
    (<[cons_key 11 := enc_cons (ConsExt (T := ref_types) root_A11)]>
     {[cons_key 12 := enc_cons (ConsExt (T := ref_types) root_A12)]})]};
  rs_self := {[cons_key 5 := enc_cons self_cons]};
  rs_next := 0
|}.

(** The proxy starts with an empty store. *)
Definition w0 : World := mkWorld (ext0 : ExtState) (∅ : gmap string string).

(** ** Messages *)

Definition try_msg (id : string) (c : ConnectionEnd) : MsgProxyConnectionOpenTry :=
  mkMsgProxyConnectionOpenTry id ibc c (pack_client client_B) (any_cons cons_B)
    (pack_client (CSProxy proxy_cs)) "" "" "" (h 10) (h 20) "" "" (h 20) (h 5) "relayer".

Definition ack_msg (id : string) (c : ConnectionEnd) : MsgProxyConnectionOpenAck :=
  mkMsgProxyConnectionOpenAck id ibc c (pack_client client_B) (any_cons cons_B)
    (pack_client (CSProxy proxy_cs)) "" "" "" (h 10) (h 20) "" "" (h 20) (h 5) "relayer".

Definition conn_try : Msg :=
  ConnectionOpenTryMsg (try_msg "connection-0" (conn_A conn_INIT "")).
Definition conn_confirm : Msg :=
  ConnectionOpenConfirmMsg (mkMsgProxyConnectionOpenConfirm "connection-0" "07-ref-0" ibc
    "connection-3" "" (h 11) "relayer").
Definition conn_ack : Msg :=
  ConnectionOpenAckMsg (ack_msg "connection-9" (conn_A conn_TRYOPEN "connection-5")).
Definition conn_finalize : Msg :=
  ConnectionOpenFinalizeMsg (mkMsgProxyConnectionOpenFinalize "connection-9" "07-ref-0" ibc
    "" (h 11) "relayer").

Definition chan_try_at (n : N) : Msg :=
  ChannelOpenTryMsg (mkMsgProxyChannelOpenTry "07-ref-0" ibc 1 ["connection-0"] "transfer"
    "channel-0" "transfer" "ics20-1" "" (h n) "relayer").
Definition chan_try : Msg := chan_try_at 11.
Definition chan_confirm : Msg :=
  ChannelOpenConfirmMsg (mkMsgProxyChannelOpenConfirm "07-ref-0" ibc "transfer" "channel-0"
    "channel-7" "" (h 12) "relayer").
Definition chan_ack : Msg :=
  ChannelOpenAckMsg (mkMsgProxyChannelOpenAck "07-ref-0" ibc 1 ["connection-0"] "transfer"
    "channel-8" "transfer" "channel-7" "ics20-1" "" (h 11) "relayer").
Definition chan_finalize : Msg :=
  ChannelOpenFinalizeMsg (mkMsgProxyChannelOpenFinalize "07-ref-0" ibc "transfer" "channel-8"
    "" (h 12) "relayer").
Definition recv : Msg :=
  RecvPacketMsg (mkMsgProxyRecvPacket "07-ref-0" ibc packet_A "" (h 12) "relayer").
Definition ack : Msg :=
  AcknowledgePacketMsg (mkMsgProxyAcknowledgePacket "07-ref-0" ibc packet_B "ok" "" (h 12)
    "relayer").

(** The same for the channel that B opened over connection-9 *)
Definition chan_ack_B : Msg :=
  ChannelOpenAckMsg (mkMsgProxyChannelOpenAck "07-ref-0" ibc 1 ["connection-9"] "transfer"
    "channel-9" "transfer" "channel-6" "ics20-1" "" (h 11) "relayer").
Definition chan_finalize_B : Msg :=
  ChannelOpenFinalizeMsg (mkMsgProxyChannelOpenFinalize "07-ref-0" ibc "transfer" "channel-9"
    "" (h 12) "relayer").
Definition packet_back : Packet :=
  mkPacket 5 "transfer" "channel-6" "transfer" "channel-9" "data'" (h 100) 0.
Definition ack_back : Msg :=
  AcknowledgePacketMsg (mkMsgProxyAcknowledgePacket "07-ref-0" ibc packet_back "ok" "" (h 12)
    "relayer").

Definition early_packet : Packet :=
  mkPacket 2 "transfer" "channel-8" "transfer" "channel-7" "early" (h 100) 0.
Definition recv_early : Msg :=
  RecvPacketMsg (mkMsgProxyRecvPacket "07-ref-0" ibc early_packet "" (h 12) "relayer").
Definition client_msg : Msg :=
  ClientStateMsg (mkMsgProxyClientState "07-ref-0" ibc "07-ref-1" (pack_client client_B)
    (any_cons cons_B) "" "" (h 10) (h 20) "relayer").

(** The world after some messages, and the results of the handlers. *)
Fixpoint run (ms : list Msg) (w : World) : World :=
  match ms with [] => w | m :: ms => run ms (handle proxy_keeper m w).2 end.

Fixpoint results (ms : list Msg) (w : World) : list (outcome unit) :=
  match ms with
  | [] => []
  | m :: ms => (handle proxy_keeper m w).1 :: results ms (handle proxy_keeper m w).2
  end.

Definition whole_flow : list Msg :=
  [conn_try; conn_confirm; conn_ack; conn_finalize; chan_try; chan_confirm; chan_ack;
   chan_finalize; recv; ack].

(** The whole flow succeeds, message by message. *)
Example whole_flow_results : results whole_flow w0 = replicate 10 (Ok tt).
Proof. vm_compute. reflexivity. Qed.

Lemma run_reachable ms w (allowed : Msg -> Prop) :
  Forall allowed ms -> reachable proxy_keeper allowed w (run ms w).
Proof.
  intros H. revert w. induction H as [|m ms Hm _ IH]; intros w; simpl; [apply rtc_refl|].
  eapply rtc_l; [by apply step_msg | apply IH].
Qed.

Lemma run_app ms ms' w : run (ms ++ ms') w = run ms' (run ms w).
Proof. revert w. induction ms as [|m ms IH]; intros w; [done|apply IH]. Qed.

(** The result of a call, checked by evaluation, with its state left as it is. *)
Lemma pair_result {A S} (x : outcome A * S) (o : outcome A) : x.1 = o -> x = (o, x.2).
Proof. destruct x. simpl. by intros ->. Qed.

(** The world just after a message, when its handler succeeds. *)
Definition after (m : Msg) (w : World) : World := (handle proxy_keeper m w).2.

Lemma handled m w :
  (handle proxy_keeper m w).1 = Ok tt -> handle proxy_keeper m w = (Ok tt, after m w).
Proof. apply pair_result. Qed.

(** ** A downstream chain that tracks the proxy with a proxy client *)

Definition store_C : KVStore := ref_store "client/xx-proxy-0".
Definition wrapped_root (root : list (string * string)) : ConsensusState :=
  ConsProxy (mkProxyConsS (any_cons (ConsExt (T := ref_types) root))).

(** Its state, when the proxy committed [root] at height 5. *)
Definition ext_C (root : list (string * string)) : RefState := {|
  rs_clients := ∅;
  rs_stores := {["client/xx-proxy-0" := {[cons_key 5 := enc_cons (wrapped_root root)]}]};
  rs_self := ∅;
  rs_next := 0
|}.

Definition root_6 : list (string * string) := [("proxy/a", "b")].
Definition header_6 : RefHeader := mkRefHeader (h 5) (h 6) root_6.
