(* ===== verification/ModuleSpec.v ===== *)
(** The module's wiring (Module.v) does its job: what the module registers is
    found by the registry, a client stub names the method that serves its message,
    the generated handlers serve the messages of their type with any decoder and
    interceptor, a router of messages that registers them runs the message server
    for every message, and the genesis functions accept what they export - which
    is nothing. *)
From S2P Require Import Prelude.
From S2P Require Import Lib.
From S2P Require Import Keys.
From S2P Require Import Commitment.
From S2P Require Import Verify.
From S2P Require Import Msgs.
From S2P Require Import Server.
From S2P Require Import Wire.
From S2P Require Import PbTx.
From S2P Require Import WireSpec.
From S2P Require Import PbRef.
From S2P Require Import PbTxSpec.
From S2P Require Import Module.
From S2P Require Import RefLib.
From S2P Require Import Dispatch.
From S2P Require Import Scenario.

(** * Registration *)

(** The type registered for each message of the service *)
Definition type_of (m : Msg) : Concrete :=
  match m with
  | ClientStateMsg _ => T_MsgProxyClientState
  | ConnectionOpenTryMsg _ => T_MsgProxyConnectionOpenTry
  | ConnectionOpenAckMsg _ => T_MsgProxyConnectionOpenAck
  | ConnectionOpenConfirmMsg _ => T_MsgProxyConnectionOpenConfirm
  | ConnectionOpenFinalizeMsg _ => T_MsgProxyConnectionOpenFinalize
  | ChannelOpenTryMsg _ => T_MsgProxyChannelOpenTry
  | ChannelOpenAckMsg _ => T_MsgProxyChannelOpenAck
  | ChannelOpenConfirmMsg _ => T_MsgProxyChannelOpenConfirm
  | ChannelOpenFinalizeMsg _ => T_MsgProxyChannelOpenFinalize
  | RecvPacketMsg _ => T_MsgProxyRecvPacket
  | AcknowledgePacketMsg _ => T_MsgProxyAcknowledgePacket
  end.

(** The interface each type is an implementation of *)
Definition iface_of (t : Concrete) : Iface :=
  match t with
  | T_ProxyClientState | T_MultivClientState => I_ClientState
  | T_ProxyConsensusState => I_ConsensusState
  | T_MultiProof => I_Proof
  | _ => I_Msg
  end.

Definition all_types : list Concrete :=
  [T_MsgProxyClientState; T_MsgProxyConnectionOpenTry; T_MsgProxyConnectionOpenAck;
   T_MsgProxyConnectionOpenConfirm; T_MsgProxyConnectionOpenFinalize; T_MsgProxyChannelOpenTry;
   T_MsgProxyChannelOpenAck; T_MsgProxyChannelOpenConfirm; T_MsgProxyChannelOpenFinalize;
   T_MsgProxyRecvPacket; T_MsgProxyAcknowledgePacket; T_ProxyClientState;
   T_ProxyConsensusState; T_MultivClientState; T_MultiProof].

Lemma all_types_complete t : t ∈ all_types.
Proof. destruct t; apply list_elem_of_In; vm_compute; tauto. Qed.

(** No two types share a URL. *)
#[export] Instance TypeURL_inj : Inj (=) (=) TypeURL.
Proof. intros [] []; try done; intros H; vm_compute in H; discriminate H. Qed.

Definition find_type (url : string) (ts : list Concrete) : option Concrete :=
  List.find (fun t => bool_decide (TypeURL t = url)) ts.

Lemma find_type_Some url ts t : find_type url ts = Some t -> t ∈ ts /\ TypeURL t = url.
Proof.
  intros [Hin Hb]%List.find_some. apply bool_decide_eq_true in Hb.
  by split; [apply list_elem_of_In|].
Qed.

Lemma find_type_in ts t : t ∈ ts -> find_type (TypeURL t) ts = Some t.
Proof.
  intros Hin%list_elem_of_In. destruct (find_type (TypeURL t) ts) as [t'|] eqn:E.
  - apply find_type_Some in E as [_ E]. by apply (inj TypeURL) in E as ->.
  - eapply List.find_none in E; [|exact Hin]. by rewrite bool_decide_eq_true_2 in E.
Qed.

(** What the SDK says of its registry: types can be registered under an interface
    when none of their URLs is taken by another type, and are found there
    afterwards; nothing else changes. *)
Class RegistryLaws `{InterfaceRegistry} : Prop := {
  law_register i ts reg :
    (forall t t', t ∈ ts -> Resolve reg i (TypeURL t) = Some t' -> t' = t) ->
    exists reg', RegisterImplementations i ts reg = Ok reg' /\
      forall i' url, Resolve reg' i' url =
        if decide (i' = i) then
          match find_type url ts with Some t => Some t | None => Resolve reg i url end
        else Resolve reg i' url
}.

Section Registration.
Context `{RegistryLaws}.

(** [reg'] is [reg] with the types [ts], each under its interface. *)
Definition extends (ts : list Concrete) (reg reg' : Registry) : Prop :=
  forall i url, Resolve reg' i url =
    match find_type url ts with
    | Some t => if decide (iface_of t = i) then Some t else Resolve reg i url
    | None => Resolve reg i url
    end.

Lemma register_extends i done ts reg0 reg :
  extends done reg0 reg -> Forall (fun t => iface_of t = i) ts ->
  (forall t, Resolve reg0 (iface_of t) (TypeURL t) = None) ->
  Forall (fun t => t ∉ done) ts ->
  exists reg', RegisterImplementations i ts reg = Ok reg' /\ extends (ts ++ done) reg0 reg'.
Proof.
  intros Hext Hi Hfree Hnew. rewrite Forall_forall in Hi. rewrite Forall_forall in Hnew.
  destruct (law_register i ts reg) as (reg' & Hreg & Hres).
  { intros t t' Hin Ht. rewrite Hext in Ht.
    destruct (find_type (TypeURL t) done) as [t1|] eqn:E.
    - apply find_type_Some in E as [E1 E2]. apply (inj TypeURL) in E2 as ->.
      by destruct (Hnew t Hin).
    - by rewrite <- (Hi t Hin), Hfree in Ht. }
  exists reg'. split; [done|]. intros i' url. rewrite Hres.
  assert (find_type url (ts ++ done) =
    match find_type url ts with Some t => Some t | None => find_type url done end) as ->.
  { unfold find_type. clear. induction ts as [|t ts IH]; simpl; [done|]. by case_bool_decide. }
  destruct (find_type url ts) as [t|] eqn:E.
  - apply find_type_Some in E as [Hin <-]. rewrite (Hi t Hin).
    destruct (decide (i' = i)) as [->|]; [by rewrite decide_True|].
    rewrite decide_False by congruence. rewrite Hext.
    destruct (find_type (TypeURL t) done) as [t1|] eqn:E; [|done].
    apply find_type_Some in E as [E1 E2]. apply (inj TypeURL) in E2 as ->.
    by destruct (Hnew t Hin).
  - destruct (decide (i' = i)) as [->|]; apply Hext.
Qed.

(** One registration: types not registered so far are added. *)
Ltac register_step :=
  lazymatch goal with
  | Hfree : forall t, Resolve ?reg0 (iface_of t) (TypeURL t) = None, Hext : extends ?done ?reg0 ?reg
    |- context [RegisterImplementations ?i ?ts ?reg] =>
      let reg' := fresh "reg'" in let Hreg := fresh "Hreg" in let Hext' := fresh "Hext" in
      destruct (register_extends i done ts reg0 reg Hext ltac:(by repeat constructor) Hfree
        ltac:(apply (bool_decide_unpack _); by vm_compute)) as (reg' & Hreg & Hext');
      rewrite Hreg; clear Hreg Hext; simpl obind; simpl app in Hext'
  end.

Lemma RegisterInterfaces_extends reg :
  (forall t, Resolve reg (iface_of t) (TypeURL t) = None) ->
  exists reg' ts, RegisterInterfaces reg = Ok reg' /\ extends ts reg reg' /\ forall t, t ∈ ts.
Proof.
  intros Hfree. unfold RegisterInterfaces, Multiv_RegisterInterfaces.
  assert (extends [] reg reg) as Hext by (intros i url; done).
  do 5 register_step.
  match goal with H : extends ?ts reg ?r |- _ => exists r, ts; split_and!; [done|exact H|] end.
  intros []; apply list_elem_of_In; vm_compute; tauto.
Qed.

Lemma extends_resolves ts reg reg' t :
  extends ts reg reg' -> t ∈ ts -> Resolve reg' (iface_of t) (TypeURL t) = Some t.
Proof. intros Hext Hin. by rewrite Hext, (find_type_in _ _ Hin), decide_True. Qed.

(** C37: registration is complete.  On a registry where none of the module's type
    URLs is taken under its interface, [RegisterInterfaces] does not panic; after
    it every message of the service resolves as an sdk.Msg, and the client
    states, the consensus state and the proof of both light clients resolve under
    their interfaces; the registry is otherwise the old one. *)
Theorem registration_complete reg :
  (forall t, Resolve reg (iface_of t) (TypeURL t) = None) ->
  exists reg', RegisterInterfaces reg = Ok reg' /\
    (forall m, Resolve reg' I_Msg (TypeURL (type_of m)) = Some (type_of m)) /\
    (forall t, Resolve reg' (iface_of t) (TypeURL t) = Some t) /\
    (forall i url, (forall t, iface_of t = i -> TypeURL t <> url) ->
       Resolve reg' i url = Resolve reg i url).
Proof.
  intros Hfree. destruct (RegisterInterfaces_extends reg Hfree) as (reg1 & ts & Hr & Hext & Hin).
  exists reg1. pose proof (fun t => extends_resolves ts reg reg1 t Hext (Hin t)) as Hall.
  split_and!; [done| |done|].
  - intros m. rewrite <- (Hall (type_of m)). by destruct m.
  - intros i url Hn. rewrite Hext. destruct (find_type url ts) as [t|] eqn:E; [|done].
    apply find_type_Some in E as [_ Eu]. rewrite decide_False; [done|]. intros Hi.
    by destruct (Hn t Hi).
Qed.
End Registration.

(** * The service *)

(** What a decoder makes of a new message: of one generated type, and of the type
    registered as [t] *)
Definition decoded {X} `{PbMessage X, MsgType X} (dec : Decoder) : outcome Msg :=
  let '(r, m) := dec X _ _ pb_zero in
  let? _ := r in Ok (box m).

(** A decoder that writes nothing, as routers use when they have the message; one
    that fails with the type of what it is given; and the one of gRPC, for the
    bytes of a request *)
Definition noop : Decoder := fun _ _ _ => mret tt.
Definition report : Decoder := fun _ _ _ in_ => (Err (ExtError (TypeURL (type_of (box in_)))), in_).
Definition from_wire (bz : bytes) : Decoder := fun _ _ _ => pb_Unmarshal bz.

Section Service.
Context `{T : LibTypes, L : !Lib, I : !ClientMethods ClientState, CK : !ClientKeeperI}.

(** An interceptor that hands over another request *)
Definition pass (req : Msg) : UnaryServerInterceptor := fun _ _ handler => handler req.

Section Wire.
Context `{PbMessage AnyT, PbMessage MerklePrefix, PbMessage Height, PbMessage ConnectionEnd,
  PbMessage Packet}.

Definition decode (dec : Decoder) (t : Concrete) : outcome Msg :=
  match t with
  | T_MsgProxyClientState => decoded (X := MsgProxyClientState) dec
  | T_MsgProxyConnectionOpenTry => decoded (X := MsgProxyConnectionOpenTry) dec
  | T_MsgProxyConnectionOpenAck => decoded (X := MsgProxyConnectionOpenAck) dec
  | T_MsgProxyConnectionOpenConfirm => decoded (X := MsgProxyConnectionOpenConfirm) dec
  | T_MsgProxyConnectionOpenFinalize => decoded (X := MsgProxyConnectionOpenFinalize) dec
  | T_MsgProxyChannelOpenTry => decoded (X := MsgProxyChannelOpenTry) dec
  | T_MsgProxyChannelOpenAck => decoded (X := MsgProxyChannelOpenAck) dec
  | T_MsgProxyChannelOpenConfirm => decoded (X := MsgProxyChannelOpenConfirm) dec
  | T_MsgProxyChannelOpenFinalize => decoded (X := MsgProxyChannelOpenFinalize) dec
  | T_MsgProxyRecvPacket => decoded (X := MsgProxyRecvPacket) dec
  | T_MsgProxyAcknowledgePacket => decoded (X := MsgProxyAcknowledgePacket) dec
  | _ => Panic PTypeAssertion
  end.

(** m.Marshal() of a message in an interface{} *)
Definition Msg_Marshal (m : Msg) : outcome bytes :=
  match m with
  | ClientStateMsg m => Marshal m
  | ConnectionOpenTryMsg m => Marshal m
  | ConnectionOpenAckMsg m => Marshal m
  | ConnectionOpenConfirmMsg m => Marshal m
  | ConnectionOpenFinalizeMsg m => Marshal m
  | ChannelOpenTryMsg m => Marshal m
  | ChannelOpenAckMsg m => Marshal m
  | ChannelOpenConfirmMsg m => Marshal m
  | ChannelOpenFinalizeMsg m => Marshal m
  | RecvPacketMsg m => Marshal m
  | AcknowledgePacketMsg m => Marshal m
  end.

(** The client stub for a message *)
Definition call {St} (m : Msg) (c : msgClient St) : M St unit :=
  match m with
  | ClientStateMsg m => Client_ProxyClientState c m
  | ConnectionOpenTryMsg m => Client_ProxyConnectionOpenTry c m
  | ConnectionOpenAckMsg m => Client_ProxyConnectionOpenAck c m
  | ConnectionOpenConfirmMsg m => Client_ProxyConnectionOpenConfirm c m
  | ConnectionOpenFinalizeMsg m => Client_ProxyConnectionOpenFinalize c m
  | ChannelOpenTryMsg m => Client_ProxyChannelOpenTry c m
  | ChannelOpenAckMsg m => Client_ProxyChannelOpenAck c m
  | ChannelOpenConfirmMsg m => Client_ProxyChannelOpenConfirm c m
  | ChannelOpenFinalizeMsg m => Client_ProxyChannelOpenFinalize c m
  | RecvPacketMsg m => Client_ProxyRecvPacket c m
  | AcknowledgePacketMsg m => Client_ProxyAcknowledgePacket c m
  end.

Definition full_name (n : string) : string :=
  "/" +:+ ServiceName _Msg_serviceDesc +:+ "/" +:+ n.

(** The contract of a method: it makes a new message of its type, has it decoded, and
    then, when there is no interceptor, gives it to the server; an interceptor gets
    the message, the method's name and a function that gives the server any
    message of the type. *)
Definition serves (n : string) (t : Concrete) (h : MethodHandler) : Prop :=
  forall srv, exists handler : UnaryHandler,
    (forall req, handler req =
       if decide (type_of req = t) then handle srv req else mpanic PTypeAssertion) /\
    forall dec ic w, h srv dec ic w =
      match decode dec t with
      | Ok m =>
          match ic with
          | None => handle srv m w
          | Some ic => ic m {| info_Server := srv; FullMethod := full_name n |} handler w
          end
      | Err e => (Err e, w)
      | Panic p => (Panic p, w)
      end.

Lemma unary_serves {X} `{PbMessage X, MsgType X} n t (method : Keeper -> X -> M World unit) :
  (forall dec, decode dec t = decoded (X := X) dec) ->
  (forall srv m, handle srv (box m) = method srv m) ->
  (forall m, type_of (box m) = t) ->
  (forall req, match unbox req with Some m => req = box m | None => type_of req <> t end) ->
  serves n t (unary_handler (full_name n) method).
Proof.
  intros Hdec Hm Ht Hreq srv.
  exists (fun req => match unbox req with Some req => method srv req | None => mpanic PTypeAssertion end).
  split; [|intros dec ic w; rewrite Hdec; unfold decoded].
  - intros req. specialize (Hreq req). destruct (unbox req) as [m|].
    + rewrite Hreq, (decide_True _ _ (Ht m)). symmetry. apply Hm.
    + by rewrite decide_False.
  - unfold unary_handler. destruct (dec X _ _ pb_zero) as [[[]|e|p] m]; simpl; try done.
    destruct ic as [ic|]; unfold mbind, mlift; simpl; [done|by rewrite Hm].
Qed.

Ltac serve := apply unary_serves; try done; intros []; done.

Lemma method_names_distinct : NoDup (map fst (Methods _Msg_serviceDesc)).
Proof. apply (bool_decide_unpack _). by vm_compute. Qed.

(** The types of the messages, in the order of the service's methods *)
Definition msg_types : list Concrete :=
  [T_MsgProxyClientState; T_MsgProxyConnectionOpenTry; T_MsgProxyConnectionOpenAck;
   T_MsgProxyConnectionOpenConfirm; T_MsgProxyConnectionOpenFinalize; T_MsgProxyChannelOpenTry;
   T_MsgProxyChannelOpenAck; T_MsgProxyChannelOpenConfirm; T_MsgProxyChannelOpenFinalize;
   T_MsgProxyRecvPacket; T_MsgProxyAcknowledgePacket].

Lemma msg_types_msg t : t ∈ msg_types <-> iface_of t = I_Msg.
Proof.
  rewrite list_elem_of_In. split; [|destruct t; intros E; first [discriminate E|simpl; tauto]].
  simpl. intros Hin. by repeat (destruct Hin as [<-|Hin]; [reflexivity|]).
Qed.

Lemma type_of_msg m : type_of m ∈ msg_types.
Proof. apply msg_types_msg. by destruct m. Qed.

Lemma methods_serve :
  Forall2 (fun p t => iface_of t = I_Msg /\ serves p.1 t p.2) (Methods _Msg_serviceDesc) msg_types.
Proof. repeat apply Forall2_cons_2; try apply Forall2_nil_2; (split; [reflexivity|serve]). Qed.

Lemma method_serves n h :
  (n, h) ∈ Methods _Msg_serviceDesc -> exists t, iface_of t = I_Msg /\ serves n t h.
Proof.
  intros (i & Hi)%list_elem_of_lookup.
  destruct (Forall2_lookup_l _ _ _ _ _ methods_serve Hi) as (t & _ & Ht). by exists t.
Qed.

Lemma after_reply {St} (c : M St unit) w : (c ;;* mret tt) w = c w.
Proof. unfold mbind, mret. by destruct (c w) as [[[]| |] ?]. Qed.

(** A stub names the method that serves its message. *)
Lemma stub_calls m :
  exists n h, (n, h) ∈ Methods _Msg_serviceDesc /\ serves n (type_of m) h /\
    forall St (c : msgClient St) w, call m c w = cc c (full_name n) m w.
Proof.
  destruct m; do 2 eexists; (split; [|split; [|intros St c w; apply after_reply]]);
    try (apply list_elem_of_In; simpl; tauto); serve.
Qed.

(** ** Registration on a router *)

(** A method with a type of its own asks the decoder for a message of it, and hands
    over to the interceptor. *)
Definition asks_for (h : MethodHandler) (url : string) : Prop :=
  forall srv ic w, h srv report ic w = (Err (ExtError url), w).

Lemma serves_asks n t h : iface_of t = I_Msg -> serves n t h -> asks_for h (TypeURL t).
Proof.
  intros Ht Hs srv ic w. destruct (Hs srv) as (hd & _ & ->). by destruct t.
Qed.

Lemma serves_pass n h k m w :
  serves n (type_of m) h -> h k noop (Some (pass m)) w = handle k m w.
Proof.
  intros Hs. destruct (Hs k) as (hd & Hhd & ->).
  assert (exists z, decode noop (type_of m) = Ok z) as [z ->] by (destruct m; by eexists).
  unfold pass. by rewrite Hhd, decide_True.
Qed.

End Wire.

(** What the SDK says of its router of messages: it asks each method of a service for
    the type of its message, panics when the interface registry does not know
    the type or when it is taken, and from then on runs the method for the
    messages of the type - already decoded, so with a decoder that does nothing,
    and an interceptor that hands the message over. *)
Class RouterLaws `{R : MsgRouter (T := T)} : Prop := {
  law_RegisterService (d : ServiceDesc) (urls : list string) srv s :
    Forall2 (fun p url => asks_for p.2 url) (Methods d) urls -> NoDup urls ->
    (forall url, url ∈ urls ->
       (exists i t, Resolve (router_registry s) i url = Some t) /\ Handler s url = None) ->
    exists s', RegisterService d srv s = Ok s' /\
      Forall2 (fun p url => exists hd, Handler s' url = Some hd /\
                 forall req w, hd req w = p.2 srv noop (Some (pass req)) w) (Methods d) urls /\
      forall url, url ∉ urls -> Handler s' url = Handler s url
}.

Section Router.
Context `{PbMessage AnyT, PbMessage MerklePrefix, PbMessage Height, PbMessage ConnectionEnd,
  PbMessage Packet}.
Context `{IR : InterfaceRegistry, R : !MsgRouter, RL : !RouterLaws}.

(** The router runs the handler of the message server for every message. *)
Definition routed (k : Keeper) (s : Router) : Prop :=
  forall m, exists hd, Handler s (TypeURL (type_of m)) = Some hd /\ forall w, hd m w = handle k m w.

Lemma services_routed am cfg :
  (forall t, t ∈ msg_types ->
     (exists i t', Resolve (router_registry (MsgServer cfg)) i (TypeURL t) = Some t') /\
     Handler (MsgServer cfg) (TypeURL t) = None) ->
  exists s, RegisterServices am cfg = Ok s /\ routed (keeper am) s /\
    forall url, (forall t, t ∈ msg_types -> TypeURL t <> url) -> Handler s url = Handler (MsgServer cfg) url.
Proof.
  intros Hfree.
  destruct (law_RegisterService _Msg_serviceDesc (TypeURL <$> msg_types) (keeper am) (MsgServer cfg))
    as (s & Hs & Hh & Hn).
  - apply Forall2_fmap_r. eapply Forall2_impl; [apply methods_serve|].
    intros [n h] t [Ht Hs]. by eapply serves_asks.
  - apply (NoDup_fmap_2 _). apply (bool_decide_unpack _). by vm_compute.
  - intros url (t & -> & Ht)%list_elem_of_fmap. by apply Hfree.
  - exists s. split_and!; [exact Hs| |].
    + intros m. apply Forall2_fmap_r in Hh.
      destruct (proj1 (list_elem_of_lookup _ _) (type_of_msg m)) as [i Hi].
      destruct (Forall2_lookup_r _ _ _ _ _ methods_serve Hi) as ([n h] & Hi' & _ & Hs').
      destruct (Forall2_lookup_lr _ _ _ _ _ _ Hh Hi' Hi) as (hd & Hhd & Hrun).
      exists hd. split; [done|]. intros w. rewrite Hrun. by eapply serves_pass.
    + intros url Hu. apply Hn. intros (t & -> & Ht)%list_elem_of_fmap. by apply (Hu t Ht).
Qed.
End Router.

(** ** Encoded messages *)

Section Encoded.
Context `{PbLaws AnyT, PbLaws MerklePrefix, PbLaws Height, PbLaws ConnectionEnd, PbLaws Packet}.

(** The messages whose encoding a slice can hold *)
Definition msg_ok (m : Msg) : Prop :=
  match m with
  | ClientStateMsg m => MsgProxyClientState_ok m
  | ConnectionOpenTryMsg m => MsgProxyConnectionOpenTry_ok m
  | ConnectionOpenAckMsg m => MsgProxyConnectionOpenAck_ok m
  | ConnectionOpenConfirmMsg m => MsgProxyConnectionOpenConfirm_ok m
  | ConnectionOpenFinalizeMsg m => MsgProxyConnectionOpenFinalize_ok m
  | ChannelOpenTryMsg m => MsgProxyChannelOpenTry_ok m
  | ChannelOpenAckMsg m => MsgProxyChannelOpenAck_ok m
  | ChannelOpenConfirmMsg m => MsgProxyChannelOpenConfirm_ok m
  | ChannelOpenFinalizeMsg m => MsgProxyChannelOpenFinalize_ok m
  | RecvPacketMsg m => MsgProxyRecvPacket_ok m
  | AcknowledgePacketMsg m => MsgProxyAcknowledgePacket_ok m
  end.

Lemma decoded_total {X} `{PbLaws X, MsgType X} bz :
  fits bz ->
  (exists m : X, decoded (X := X) (from_wire bz) = Ok (box m)) \/
  (exists e, decoded (X := X) (from_wire bz) = Err e).
Proof.
  intros Hf. unfold decoded, from_wire. pose proof (fun p => pb_unmarshal_total bz pb_zero p Hf) as Hp.
  destruct (pb_Unmarshal bz pb_zero) as [[[]|e|p] m]; [left; by exists m|right; by exists e|].
  by destruct (Hp p).
Qed.

Lemma decode_total t bz :
  t ∈ msg_types -> fits bz ->
  (exists m, type_of m = t /\ decode (from_wire bz) t = Ok m) \/
  (exists e, decode (from_wire bz) t = Err e).
Proof.
  intros Ht%msg_types_msg Hf. destruct t; try discriminate Ht; simpl;
    (lazymatch goal with |- context [decoded (X := ?X)] =>
       destruct (decoded_total (X := X) bz Hf) as [[m ->]|[e ->]] end;
     [left; by exists (box m)|right; by exists e]).
Qed.

Lemma decoded_enc {X} `{PbLaws X, MsgType X} (m : X) :
  pb_ok m -> fits (pb_enc m) ->
  exists bz, fits bz /\ Marshal m = Ok bz /\ decoded (X := X) (from_wire bz) = Ok (box m).
Proof.
  intros Hm Hf. exists (pb_enc m). unfold decoded, from_wire.
  by rewrite Marshal_ok, pb_unmarshal_ok.
Qed.

Lemma decode_enc m :
  msg_ok m ->
  exists bz, fits bz /\ Msg_Marshal m = Ok bz /\ decode (from_wire bz) (type_of m) = Ok m.
Proof.
  destruct m as [m|m|m|m|m|m|m|m|m|m|m]; intros Hm;
    destruct (decoded_enc m) as (bz & Hf & HM & Hd); try exact Hm; try apply Hm;
    (exists bz; split_and!; [exact Hf|exact HM|exact Hd]).
Qed.

(** C36: the service delivers.  Each of the eleven client stubs gives its message,
    unchanged, to the connection under the full name of a method of the
    service, and returns what the connection answers; the method of that name,
    and there is one, serves that type of message.  Every method of the
    service serves one of the types: whatever the server, the decoder, and the
    interceptor - or none - it has a new message of its type decoded, returns
    the decoder's error without any effect, and otherwise gives the decoded
    message to the handler of that type, or to the interceptor with the method's
    full name and the function that handles messages of that type, and panics on
    any other.  Decoding the bytes of a request gives a message of the type or an
    error, and gives back the message that was encoded. *)
Theorem service_delivers :
  (forall m, exists n h, (n, h) ∈ Methods _Msg_serviceDesc /\ serves n (type_of m) h /\
     forall St (c : msgClient St) w, call m c w = cc c (full_name n) m w) /\
  NoDup (map fst (Methods _Msg_serviceDesc)) /\
  (forall n h, (n, h) ∈ Methods _Msg_serviceDesc ->
     exists t, iface_of t = I_Msg /\ serves n t h) /\
  (forall t bz, iface_of t = I_Msg -> fits bz ->
     (exists m, type_of m = t /\ decode (from_wire bz) t = Ok m) \/
     (exists e, decode (from_wire bz) t = Err e)) /\
  (forall m, msg_ok m ->
     exists bz, Msg_Marshal m = Ok bz /\ decode (from_wire bz) (type_of m) = Ok m).
Proof.
  split; [apply stub_calls|]. split; [apply method_names_distinct|]. split_and!.
  - intros n h Hin. by apply method_serves.
  - intros t bz Ht%msg_types_msg. by apply decode_total.
  - intros m (bz & _ & Hm & Hd)%decode_enc. by exists bz.
Qed.
End Encoded.

End Service.

(** * Genesis *)

(** What the codec promises of GenesisState: it writes it, and reads back what it
    wrote. *)
Class JSONLaws `{JSONCodec} : Prop := {
  law_json gs : exists bz, cdc_MarshalJSON gs = Ok bz /\ cdc_UnmarshalJSON bz = Ok gs
}.

Section Genesis.
Context `{T : LibTypes, L : !Lib, I : !ClientMethods ClientState, CK : !ClientKeeperI}.
Context `{JSONLaws}.

(** C38: genesis.  Exporting reads nothing and changes nothing: the same bytes come out
    of every state, those of [DefaultGenesis].  They pass [ValidateGenesis], and
    starting from them gives the chain no part of the store back: whatever
    connections, channels and commitments the proxy held when it exported, the
    world that imports is left exactly as it was.  Bytes the codec does not read
    are an error of [ValidateGenesis] and a panic of [InitGenesis]. *)
Theorem genesis_restores_nothing am (w w' : World) :
  exists bz, App_ExportGenesis am w = (Ok bz, w) /\ DefaultGenesis = Ok bz /\
    ValidateGenesis bz = Ok tt /\ App_InitGenesis am bz w' = (Ok [], w') /\
    (forall bad e, cdc_UnmarshalJSON bad = Err e ->
       (exists e', ValidateGenesis bad = Err e') /\ exists p, App_InitGenesis am bad w' = (Panic p, w')).
Proof.
  destruct (law_json mkGenesisState) as (bz & Hm & Hu). exists bz.
  unfold App_ExportGenesis, DefaultGenesis, ValidateGenesis, App_InitGenesis, InitGenesis,
    DefaultGenesisState.
  split_and!.
  - unfold mbind, mret, mlift, ExportGenesis. simpl. by rewrite Hm.
  - by rewrite Hm.
  - by rewrite Hu.
  - unfold mbind, mret, mlift. simpl. by rewrite Hu.
  - intros bad e He. rewrite He. split; [by eexists|]. by eexists.
Qed.
End Genesis.

(** * Reference instances and witnesses *)

(** A registry as the list of what was registered, newest first.  Like the SDK's
    it panics when a URL is registered twice for different types. *)
Definition ref_resolve (reg : list (Iface * Concrete)) (i : Iface) (url : string) :
    option Concrete :=
  snd <$> List.find (fun '(i', t) => bool_decide (i' = i /\ TypeURL t = url)) reg.

Fixpoint ref_register (i : Iface) (ts : list Concrete) (reg : list (Iface * Concrete)) :
    outcome (list (Iface * Concrete)) :=
  match ts with
  | [] => Ok reg
  | t :: ts =>
      match ref_resolve reg i (TypeURL t) with
      | Some t' => if decide (t' = t) then ref_register i ts reg else Panic (PExt "conflict")
      | None => ref_register i ts ((i, t) :: reg)
      end
  end.

#[local] Instance ref_registry : InterfaceRegistry := {
  Registry := list (Iface * Concrete);
  RegisterImplementations := ref_register;
  Resolve := ref_resolve
}.

Lemma ref_resolve_cons i t reg i' url :
  ref_resolve ((i, t) :: reg) i' url =
  if decide (i = i' /\ TypeURL t = url) then Some t else ref_resolve reg i' url.
Proof. unfold ref_resolve. simpl. case_bool_decide; case_decide; tauto. Qed.

#[local] Instance ref_registry_laws : RegistryLaws.
Proof.
  constructor. intros i ts. simpl.
  induction ts as [|t ts IH]; intros reg Hfree; cbn [ref_register].
  { exists reg. split; [done|]. intros i' url. by destruct (decide _) as [->|]. }
  assert (Hfind : forall url, find_type url (t :: ts) =
    if decide (TypeURL t = url) then Some t else find_type url ts).
  { intros url. unfold find_type. simpl. by case_bool_decide; case_decide. }
  destruct (ref_resolve reg i (TypeURL t)) as [t'|] eqn:E.
  - assert (t' = t) as -> by (eapply Hfree; [left|done]). rewrite decide_True by done.
    destruct (IH reg) as (reg' & -> & Hres); [intros; eapply Hfree; [by right|done]|].
    exists reg'. split; [done|]. intros i' url. rewrite Hres, Hfind.
    destruct (decide (i' = i)) as [->|]; [|done].
    destruct (decide (TypeURL t = url)) as [<-|]; [|done].
    destruct (find_type (TypeURL t) ts) as [t1|] eqn:E1; [|done].
    apply find_type_Some in E1 as [_ E1]. by apply (inj TypeURL) in E1 as ->.
  - destruct (IH ((i, t) :: reg)) as (reg' & -> & Hres).
    { intros t1 t' Hin. rewrite ref_resolve_cons. destruct (decide _) as [[_ Hu]|].
      - apply (inj TypeURL) in Hu as ->. by intros [= ->].
      - apply Hfree. by right. }
    exists reg'. split; [done|]. intros i' url. rewrite Hres, Hfind, ref_resolve_cons.
    destruct (decide (i' = i)) as [->|].
    + destruct (decide (TypeURL t = url)) as [<-|].
      * destruct (find_type (TypeURL t) ts) as [t1|] eqn:E1; [|by rewrite decide_True].
        apply find_type_Some in E1 as [_ E1]. by apply (inj TypeURL) in E1 as ->.
      * by rewrite (decide_False (P := i = i /\ TypeURL t = url)) by tauto.
    + rewrite ref_resolve_cons, decide_False; [done|]. intros [? _]. congruence.
Qed.

(** On a registry with no entry; a second registration conflicts with nothing. *)
Lemma registration_complete_witness :
  exists reg', @RegisterInterfaces ref_registry [] = Ok reg' /\
    Resolve reg' I_Msg "/ibc.proxy.v1.MsgProxyRecvPacket" = Some T_MsgProxyRecvPacket /\
    Resolve reg' I_ClientState "/ibc.proxy.v1.MsgProxyRecvPacket" = None /\
    @RegisterInterfaces ref_registry reg' = Ok reg'.
Proof.
  destruct (@registration_complete ref_registry _ [] (fun t => eq_refl)) as (reg' & Hr & Hm & _ & Hn).
  exists reg'. split_and!; [exact Hr|exact (Hm recv)| |].
  - rewrite Hn; [reflexivity|]. by intros [].
  - vm_compute in Hr. injection Hr as <-. vm_compute. reflexivity.
Defined.

#[local] Instance ref_json : JSONCodec := {
  cdc_MarshalJSON _ := Ok "{}";
  cdc_UnmarshalJSON bz := if decide (bz = "{}") then Ok mkGenesisState else Err (ExtError "json")
}.

#[local] Instance ref_json_laws : JSONLaws.
Proof. constructor. intros []. by eexists. Qed.

(** The proxy has a connection, exports, and a new chain starts from that. *)
Lemma genesis_restores_nothing_witness :
  let am := NewAppModule proxy_keeper in
  let w := run [conn_try] w0 in
  is_Some (conn_at (w_proxy w) "07-ref-0" "ibc" "connection-0") /\
  exists bz, App_ExportGenesis am w = (Ok bz, w) /\ ValidateGenesis bz = Ok tt /\
    App_InitGenesis am bz w0 = (Ok [], w0) /\
    conn_at (w_proxy w0) "07-ref-0" "ibc" "connection-0" = None.
Proof.
  intros am w. split.
  - eexists. vm_compute. reflexivity.
  - destruct (genesis_restores_nothing am w w0) as (bz & He & _ & Hv & Hi & _).
    exists bz. split_and!; [exact He|exact Hv|exact Hi|vm_compute; reflexivity].
Defined.

(** A router as its registry and the list of its routes.  The type of a method's
    message is what the method shows to the decoder, on a world of no importance. *)
Fixpoint ref_routes (known : string -> bool) (ms : list (string * MethodHandler)) (srv : Keeper)
    (routes : list (string * UnaryHandler)) : outcome (list (string * UnaryHandler)) :=
  match ms with
  | [] => Ok routes
  | (_, h) :: ms =>
      match (h proxy_keeper report None w0).1 with
      | Err (ExtError url) =>
          if known url && bool_decide (url ∉ map fst routes) then
            ref_routes known ms srv
              ((url, fun req => h srv noop (Some (pass req))) :: routes)
          else Panic (PExt "can't register")
      | _ => Panic (PExt "no type")
      end
  end.

Definition ref_handler (routes : list (string * UnaryHandler)) (url : string) : option UnaryHandler :=
  snd <$> List.find (fun p => bool_decide (fst p = url)) routes.

Definition ref_known (reg : list (Iface * Concrete)) (url : string) : bool :=
  bool_decide (url ∈ map (fun p => TypeURL (snd p)) reg).

#[local] Instance ref_router : MsgRouter := {
  Router := list (Iface * Concrete) * list (string * UnaryHandler);
  router_registry := fst;
  RegisterService d srv s :=
    let? routes := ref_routes (ref_known (fst s)) (Methods d) srv (snd s) in Ok (fst s, routes);
  Handler s url := ref_handler (snd s) url
}.

Lemma ref_handler_None routes url : ref_handler routes url = None -> url ∉ map fst routes.
Proof.
  unfold ref_handler. intros Hn (p & Hp & Hin)%list_elem_of_fmap.
  destruct (List.find _ routes) eqn:E; [done|].
  eapply List.find_none in E; [|by apply list_elem_of_In].
  by rewrite bool_decide_eq_true_2 in E.
Qed.

Lemma ref_handler_cons url' hd routes url :
  ref_handler ((url', hd) :: routes) url = if decide (url' = url) then Some hd else ref_handler routes url.
Proof. unfold ref_handler. simpl. by case_bool_decide; case_decide. Qed.

Lemma ref_routes_ok known srv ms urls routes :
  Forall2 (fun p url => asks_for p.2 url) ms urls -> NoDup urls ->
  (forall url, url ∈ urls -> known url = true /\ ref_handler routes url = None) ->
  exists routes', ref_routes known ms srv routes = Ok routes' /\
    Forall2 (fun p url => exists hd, ref_handler routes' url = Some hd /\
               forall req w, hd req w = p.2 srv noop (Some (pass req)) w) ms urls /\
    forall url, url ∉ urls -> ref_handler routes' url = ref_handler routes url.
Proof.
  intros Hf. revert routes. induction Hf as [|[n h] url ms urls Hh Hf IH]; intros routes Hnd Hfree.
  { by exists routes. }
  apply NoDup_cons in Hnd as [Hnew Hnd]. simpl. rewrite Hh. simpl.
  destruct (Hfree url ltac:(left)) as [-> Hno%ref_handler_None].
  rewrite bool_decide_eq_true_2 by done. simpl.
  destruct (IH ((url, fun req => h srv noop (Some (pass req))) :: routes) Hnd) as (routes' & Hr & Hall & Hrest).
  { intros url' Hin. destruct (Hfree url' ltac:(by right)) as [Hk Hn']. split; [done|].
    rewrite ref_handler_cons, decide_False by (by intros ->). done. }
  exists routes'. split_and!; [exact Hr| |].
  - constructor; [|exact Hall]. eexists. rewrite (Hrest url Hnew), ref_handler_cons, decide_True by done.
    split; [reflexivity|]. done.
  - intros url' Hn'. rewrite not_elem_of_cons in Hn'. rewrite Hrest, ref_handler_cons by tauto.
    by rewrite decide_False by (intros ->; tauto).
Qed.

#[local] Instance ref_router_laws : RouterLaws (R := ref_router).
Proof.
  constructor. intros d urls srv [reg routes] Hf Hnd Hfree. simpl in *.
  destruct (ref_routes_ok (ref_known reg) srv (Methods d) urls routes Hf Hnd) as (routes' & -> & Hr).
  - intros url Hin. destruct (Hfree url Hin) as [(i & t & Ht) Hn]. split; [|done].
    apply bool_decide_eq_true_2. unfold ref_resolve in Ht.
    destruct (List.find _ reg) as [[i' t']|] eqn:E; [|discriminate Ht].
    apply List.find_some in E as [Hin' [_ Hu]%bool_decide_eq_true].
    apply list_elem_of_fmap. exists (i', t'). split; [done|]. by apply list_elem_of_In.
  - eexists. split; [reflexivity|]. exact Hr.
Qed.

#[local] Existing Instances AnyT_pb MerklePrefix_pb Height_pb Version_pb ConnCounterparty_pb
  ConnectionEnd_pb Packet_pb.
#[local] Existing Instances AnyT_laws MerklePrefix_laws Height_laws Version_laws
  ConnCounterparty_laws ConnectionEnd_laws Packet_laws.

(** The relayer's receipt of A's packet after the handshakes: encoded, it is handled by
    the method of the service that its stub names, directly and through an
    interceptor. *)
Lemma service_delivers_witness :
  let w := run [conn_try; conn_confirm; chan_try; chan_confirm] w0 in
  exists n h bz, (n, h) ∈ Methods _Msg_serviceDesc /\ Msg_Marshal recv = Ok bz /\
    (forall (c : msgClient World) w, call recv c w = cc c (full_name n) recv w) /\
    (h proxy_keeper (from_wire bz) None w).1 = Ok tt /\
    (h proxy_keeper noop (Some (pass recv)) w).1 = Ok tt /\
    (h proxy_keeper noop (Some (pass conn_try)) w).1 = Panic PTypeAssertion.
Proof.
  intros w.
  destruct (@service_delivers _ _ _ _ _ _ _ _ _ _ _ _ _ _) as (Hc & _ & _ & _ & He).
  destruct (He recv) as (bz & Hbz & Hdec).
  { split_and!; first [by vm_compute | vm_compute; tauto]. }
  destruct (Hc recv) as (n & h & Hin & Hs & Hcall). destruct (Hs proxy_keeper) as (hd & Hhd & Hh).
  assert ((handle proxy_keeper recv w).1 = Ok tt) as Hrun by (vm_compute; reflexivity).
  exists n, h, bz. split_and!; [exact Hin|exact Hbz|intros c; apply Hcall|..]; rewrite Hh.
  - rewrite Hdec. exact Hrun.
  - simpl. unfold pass. rewrite Hhd. exact Hrun.
  - simpl. unfold pass. rewrite Hhd. reflexivity.
Defined.
