(* ===== verification/Claims.v ===== *)
(** The contract of the proxy store, apart from the handlers.  A [Claim] is a
    fact about the upstream chain; it has a place in the store, a value, and a
    proof obligation: the light client the proxy runs for the upstream
    accepted it.  The proxy is specified as a machine whose only transition is
    to commit a claim that was accepted; the [VerifyAndProxy...] functions of
    Verify.v implement that transition ([proxies] lemmas below). *)
From S2P Require Import Prelude.
From S2P Require Import Lib.
From S2P Require Import Keys.
From S2P Require Import Commitment.
From S2P Require Import Verify.

Section Claims.
Context `{T : LibTypes, L : !Lib, I : !ClientMethods ClientState, CK : !ClientKeeperI}.

Inductive Claim :=
| ClientClaim (clientID : string) (cs : ClientState)
| ConsensusClaim (clientID : string) (h : Height) (cs : ConsensusState)
| ConnectionClaim (connectionID : string) (c : ConnectionEnd)
| ChannelClaim (portID channelID : string) (c : Channel)
| PacketClaim (portID channelID : string) (sequence : N) (commitment : bytes)
| AckClaim (portID channelID : string) (sequence : N) (acknowledgement : bytes)
| ReceiptAbsenceClaim (portID channelID : string) (sequence : N)
| NextSequenceClaim (portID channelID : string) (sequence : N).

Inductive Kind := KClient | KConnection | KChannel | KPacket.

Definition claim_kind (c : Claim) : Kind :=
  match c with
  | ClientClaim _ _ | ConsensusClaim _ _ _ => KClient
  | ConnectionClaim _ _ => KConnection
  | ChannelClaim _ _ _ => KChannel
  | _ => KPacket
  end.

(** The ICS-24 path of the claim on the upstream chain. *)
Definition claim_key (c : Claim) : bytes :=
  match c with
  | ClientClaim id _ => FullClientStateKey id
  | ConsensusClaim id h _ => FullConsensusStateKey id h
  | ConnectionClaim id _ => ConnectionKey id
  | ChannelClaim p c _ => ChannelKey p c
  | PacketClaim p c n _ => PacketCommitmentKey p c n
  | AckClaim p c n _ => PacketAcknowledgementKey p c n
  | ReceiptAbsenceClaim p c n => PacketReceiptKey p c n
  | NextSequenceClaim p c _ => NextSequenceRecvKey p c
  end.

(** The value committed for the claim. *)
Definition claim_value (c : Claim) : outcome bytes :=
  match c with
  | ClientClaim _ cs => MarshalClientState cs
  | ConsensusClaim _ _ cs => MarshalConsensusState cs
  | ConnectionClaim _ c => cdc_MarshalConnection c
  | ChannelClaim _ _ c => cdc_MarshalChannel c
  | PacketClaim _ _ _ v => Ok v
  | AckClaim _ _ _ a => Ok (CommitAcknowledgement a)
  | ReceiptAbsenceClaim _ _ _ => Ok (String (ascii_of_N 1) EmptyString)
  | NextSequenceClaim _ _ n => Ok (Uint64ToBigEndian n)
  end.

(** The call to the upstream's light client that accepts the claim. *)
Definition claim_check (target : ClientState) (store : KVStore) (pfx : Prefix)
    (h : Height) (proof : bytes) (delay : N) (c : Claim) : M ExtState unit :=
  match c with
  | ClientClaim id cs => cs_VerifyClientState target store h pfx id proof cs
  | ConsensusClaim id ch cs =>
      cs_VerifyClientConsensusState target store h id ch pfx proof cs
  | ConnectionClaim id c => cs_VerifyConnectionState target store h pfx proof id c
  | ChannelClaim p id c => cs_VerifyChannelState target store h pfx proof p id c
  | PacketClaim p id n v =>
      cs_VerifyPacketCommitment target store h delay 0 pfx proof p id n v
  | AckClaim p id n a =>
      cs_VerifyPacketAcknowledgement target store h delay 0 pfx proof p id n a
  | ReceiptAbsenceClaim p id n =>
      cs_VerifyPacketReceiptAbsence target store h delay 0 pfx proof p id n
  | NextSequenceClaim p id n =>
      cs_VerifyNextSequenceRecv target store h delay 0 pfx proof p id n
  end.

(** The light client the proxy runs under [up] accepted the claim, in some
    state of the libraries, for some height, proof and delay. *)
Definition accepted (up : string) (pfx : Prefix) (c : Claim) : Prop :=
  exists e e' target h proof delay,
    ck_GetClientState up e = Ok (Some target) /\
    claim_check target (ck_ClientStore up) pfx h proof delay c e = (Ok tt, e').

(** [kv'] is [kv] with the claim committed. *)
Definition committed (up : string) (pfx : Prefix) (c : Claim) (kv kv' : ProxyKV) : Prop :=
  exists b v, Prefix_Bytes pfx = Ok b /\ claim_value c = Ok v /\
    kv' = kv_set (path_head up b +:+ claim_key c) v kv.

(** The abstract machine. *)
Inductive spec_step : relation ProxyKV :=
| spec_commit up pfx c kv kv' :
    accepted up pfx c -> committed up pfx c kv kv' -> spec_step kv kv'.

(** A key-value pair that an accepted claim accounts for. *)
Definition justified (k v : bytes) : Prop :=
  exists up pfx b c, Prefix_Bytes pfx = Ok b /\ k = path_head up b +:+ claim_key c /\
    claim_value c = Ok v /\ accepted up pfx c.

(** ** What a [VerifyAndProxy...] function does *)

(** It fails without touching the store, or commits one accepted claim. *)
Definition proxies (up : string) (pfx : Prefix) (c : Claim) (m : M World unit) : Prop :=
  forall w r w', m w = (r, w') ->
    (is_ok r = false /\ w_proxy w' = w_proxy w) \/
    (r = Ok tt /\ accepted up pfx c /\ committed up pfx c (w_proxy w) (w_proxy w')).

Lemma mext_run {A} (m : M ExtState A) w r w' :
  mext m w = (r, w') -> m (w_ext w) = (r, w_ext w') /\ w_proxy w' = w_proxy w.
Proof.
  unfold mext, mzoom. destruct (m (w_ext w)) as [o e]. intros [= <- <-]. done.
Qed.

Lemma mext_proxy {A} (m : M ExtState A) w : w_proxy (mext m w).2 = w_proxy w.
Proof. unfold mext, mzoom. by destruct (m (w_ext w)) as [o e]. Qed.

Lemma targetClient_run up w r w' :
  targetClient up w = (r, w') ->
  w' = w /\ (forall c, r = Ok c -> ck_GetClientState up (w_ext w) = Ok (Some c)).
Proof.
  unfold targetClient, mbind, mread, mret, mfail. intros H.
  destruct (ck_GetClientState up (w_ext w)) as [[c|]|e|p]; simplify_eq/=; naive_solver.
Qed.

(** The shape shared by the eight [Verify...] functions. *)
Lemma verify_run up (f : error -> error) (call : ClientState -> M ExtState unit) w r w' :
  mbind (targetClient up) (fun c => mmap_err f (mext (call c))) w = (r, w') ->
  w_proxy w' = w_proxy w /\
  (r = Ok tt -> exists target, ck_GetClientState up (w_ext w) = Ok (Some target) /\
     call target (w_ext w) = (Ok tt, w_ext w')).
Proof.
  unfold mbind. destruct (targetClient up w) as [o w1] eqn:Ht.
  apply targetClient_run in Ht as [-> Ht].
  destruct o as [c|e|p]; [|naive_solver..].
  specialize (Ht c eq_refl). unfold mmap_err.
  destruct (mext (call c) w) as [o w2] eqn:Hm.
  apply mext_run in Hm as [Hm Hw]. intros [= <- <-]. split; [done|].
  intros H. destruct o as [[]|e|p]; simplify_eq/=. eauto.
Qed.

Lemma proxies_intro up pfx c verify set :
  (forall w r w', verify w = (r, w') ->
     w_proxy w' = w_proxy w /\ (r = Ok tt -> accepted up pfx c)) ->
  (forall w r w', set w = (r, w') ->
     (is_ok r = false /\ w_proxy w' = w_proxy w) \/
     (r = Ok tt /\ committed up pfx c (w_proxy w) (w_proxy w'))) ->
  proxies up pfx c (verify ;;* set).
Proof.
  intros Hv Hs w r w' H. unfold mbind in H.
  destruct (verify w) as [o w1] eqn:E. apply Hv in E as [Hp Hacc].
  destruct o as [[]|e|p]; simplify_eq/=; [|by left..].
  apply Hs in H as [[? ?]|[? ?]]; [left|right]; rewrite <- ?Hp; eauto.
Qed.

Section WithLaws.
Context `{LL : !LibLaws}.

(** The shape shared by the [SetProxy...] functions. *)
Lemma set_store_run up pfx key (value : outcome bytes) w r w' :
  mbind (mlift (ProxyStore pfx up))
    (fun s => mbind (mlift (must value)) (fun bz => store_Set s key bz)) w = (r, w') ->
  (is_ok r = false /\ w_proxy w' = w_proxy w) \/
  (r = Ok tt /\ exists b v, Prefix_Bytes pfx = Ok b /\ value = Ok v /\
     w_proxy w' = kv_set (path_head up b +:+ key) v (w_proxy w)).
Proof.
  unfold mbind, mlift. destruct (ProxyStore pfx up) as [s|e|p] eqn:Hs;
    [|intros [= <- <-]; by left..].
  destruct (ProxyStore_key _ _ _ key Hs) as (b & Hb & Hk).
  destruct value as [v|e|p]; simpl; [|intros [= <- <-]; by left..].
  unfold store_Set, mput. rewrite Hk. intros [= <- <-]. right. eauto 6.
Qed.

Lemma set_client_store_run up pfx id key (value : outcome bytes) w r w' :
  mbind (mlift (ProxyClientStore pfx up id))
    (fun s => mbind (mlift (must value)) (fun bz => store_Set s key bz)) w = (r, w') ->
  (is_ok r = false /\ w_proxy w' = w_proxy w) \/
  (r = Ok tt /\ exists b v, Prefix_Bytes pfx = Ok b /\ value = Ok v /\
     w_proxy w' =
       kv_set (path_head up b +:+ ("clients/" +:+ id +:+ "/" +:+ key)) v (w_proxy w)).
Proof.
  unfold mbind, mlift. destruct (ProxyClientStore pfx up id) as [s|e|p] eqn:Hs;
    [|intros [= <- <-]; by left..].
  destruct (ProxyClientStore_key _ _ _ _ key Hs) as (b & Hb & Hk).
  destruct value as [v|e|p]; simpl; [|intros [= <- <-]; by left..].
  unfold store_Set, mput. rewrite Hk. intros [= <- <-]. right. eauto 6.
Qed.

Lemma VerifyAndProxyClientState_proxies up pfx id h proof cs :
  proxies up pfx (ClientClaim id cs) (VerifyAndProxyClientState up pfx id h proof cs).
Proof.
  apply proxies_intro.
  - intros w r w' H. apply verify_run in H as [? H]. split; [done|].
    intros Hr. destruct (H Hr) as (target & Ht & Hc).
    exists (w_ext w), (w_ext w'), target, h, proof, 0%N. done.
  - intros w r w' H. apply set_client_store_run in H as [?|(? & b & v & Hb & Hv & ?)].
    + by left.
    + right. split; [done|]. exists b, v. simpl. by rewrite law_FullClientStateKey.
Qed.

Lemma VerifyAndProxyClientConsensusState_proxies up pfx id h ch proof cs :
  proxies up pfx (ConsensusClaim id ch cs)
    (VerifyAndProxyClientConsensusState up pfx id h ch proof cs).
Proof.
  apply proxies_intro.
  - intros w r w' H. apply verify_run in H as [? H]. split; [done|].
    intros Hr. destruct (H Hr) as (target & Ht & Hc).
    exists (w_ext w), (w_ext w'), target, h, proof, 0%N. done.
  - intros w r w' H. apply set_client_store_run in H as [?|(? & b & v & Hb & Hv & ?)].
    + by left.
    + right. split; [done|]. exists b, v. simpl. by rewrite law_FullConsensusStateKey.
Qed.

(** The other six: the value is [claim_value], the key [claim_key], under
    [ProxyStore]. *)
Lemma proxies_store up pfx c verify set :
  (forall w r w', verify w = (r, w') ->
     w_proxy w' = w_proxy w /\ (r = Ok tt -> accepted up pfx c)) ->
  (forall w, set w = mbind (mlift (ProxyStore pfx up))
     (fun s => mbind (mlift (must (claim_value c)))
                 (fun bz => store_Set s (claim_key c) bz)) w) ->
  proxies up pfx c (verify ;;* set).
Proof.
  intros Hv Hset. apply proxies_intro; [done|].
  intros w r w' H. rewrite Hset in H.
  apply set_store_run in H as [?|(? & b & v & ? & ? & ?)]; [by left|].
  right. split; [done|]. exists b, v. done.
Qed.

Ltac verify_accepted h proof delay :=
  intros w r w' H; apply verify_run in H as [? H]; split; [done|];
  intros Hr; destruct (H Hr) as (target & Ht & Hc);
  exists (w_ext w), (w_ext w'), target, h, proof, delay; done.

Lemma VerifyAndProxyConnectionState_proxies up pfx c h proof id :
  proxies up pfx (ConnectionClaim id c)
    (VerifyAndProxyConnectionState up pfx c h proof id).
Proof. apply proxies_store; [verify_accepted h proof 0%N | done]. Qed.

Lemma VerifyAndProxyChannelState_proxies up pfx h proof port id c :
  proxies up pfx (ChannelClaim port id c)
    (VerifyAndProxyChannelState up pfx h proof port id c).
Proof. apply proxies_store; [verify_accepted h proof 0%N | done]. Qed.

Lemma VerifyAndProxyPacketCommitment_proxies up pfx conn h proof port id n v :
  proxies up pfx (PacketClaim port id n v)
    (VerifyAndProxyPacketCommitment up pfx conn h proof port id n v).
Proof. apply proxies_store; [verify_accepted h proof (conn_DelayPeriod conn) | done]. Qed.

Lemma VerifyAndProxyPacketAcknowledgement_proxies up pfx conn h proof port id n a :
  proxies up pfx (AckClaim port id n a)
    (VerifyAndProxyPacketAcknowledgement up pfx conn h proof port id n a).
Proof. apply proxies_store; [verify_accepted h proof (conn_DelayPeriod conn) | done]. Qed.

Lemma VerifyAndProxyPacketReceiptAbsence_proxies up pfx conn h proof port id n :
  proxies up pfx (ReceiptAbsenceClaim port id n)
    (VerifyAndProxyPacketReceiptAbsence up pfx conn h proof port id n).
Proof. apply proxies_store; [verify_accepted h proof (conn_DelayPeriod conn) | done]. Qed.

Lemma VerifyAndProxyNextSequenceRecv_proxies up pfx conn h proof port id n :
  proxies up pfx (NextSequenceClaim port id n)
    (VerifyAndProxyNextSequenceRecv up pfx conn h proof port id n).
Proof. apply proxies_store; [verify_accepted h proof (conn_DelayPeriod conn) | done]. Qed.

(** ** The successful runs, exactly *)

(** The light client registered for [up] accepts the claim now, and the claim
    is committed. *)
Definition proxied (up : string) (pfx : Prefix) (c : Claim) (h : Height) (proof : bytes)
    (delay : N) : relation World := fun w w' =>
  (exists target, ck_GetClientState up (w_ext w) = Ok (Some target) /\
     claim_check target (ck_ClientStore up) pfx h proof delay c (w_ext w) =
       (Ok tt, w_ext w')) /\
  committed up pfx c (w_proxy w) (w_proxy w').

Lemma verify_ok up (f : error -> error) (call : ClientState -> M ExtState unit) w w' :
  mbind (targetClient up) (fun c => mmap_err f (mext (call c))) w = (Ok tt, w') <->
  (exists target, ck_GetClientState up (w_ext w) = Ok (Some target) /\
     call target (w_ext w) = (Ok tt, w_ext w')) /\ w_proxy w' = w_proxy w.
Proof.
  split.
  - intros H. apply verify_run in H as [? H]. auto.
  - intros [(target & Ht & Hc) Hp]. unfold targetClient, mbind, mread, mret.
    rewrite Ht. apply mmap_err_Ok. unfold mext, mzoom. rewrite Hc.
    destruct w as [e p], w' as [e' p']. simpl in *. by subst.
Qed.

Lemma set_store_ok up pfx key (value : outcome bytes) w w' :
  mbind (mlift (ProxyStore pfx up))
    (fun s => mbind (mlift (must value)) (fun bz => store_Set s key bz)) w = (Ok tt, w') <->
  w_ext w' = w_ext w /\ exists b v, Prefix_Bytes pfx = Ok b /\ value = Ok v /\
     w_proxy w' = kv_set (path_head up b +:+ key) v (w_proxy w).
Proof.
  unfold ProxyStore, mbind, mlift. destruct (Prefix_Bytes pfx) as [b|e|p]; simpl;
    [|split; [done|naive_solver]..].
  destruct value as [v|e|p]; simpl; [|split; [done|naive_solver]..].
  unfold store_Set, mput. simpl. rewrite law_prefix_key. fold (path_head up b).
  destruct w' as [e' p']. split; [intros [= <- <-]; eauto 6|].
  simpl. intros (-> & ? & ? & [= <-] & [= <-] & ->). done.
Qed.

Lemma set_client_store_ok up pfx id key (value : outcome bytes) w w' :
  mbind (mlift (ProxyClientStore pfx up id))
    (fun s => mbind (mlift (must value)) (fun bz => store_Set s key bz)) w = (Ok tt, w') <->
  w_ext w' = w_ext w /\ exists b v, Prefix_Bytes pfx = Ok b /\ value = Ok v /\
     w_proxy w' =
       kv_set (path_head up b +:+ ("clients/" +:+ id +:+ "/" +:+ key)) v (w_proxy w).
Proof.
  unfold ProxyClientStore, ProxyStore, mbind, mlift.
  destruct (Prefix_Bytes pfx) as [b|e|p]; simpl; [|split; [done|naive_solver]..].
  destruct value as [v|e|p]; simpl; [|split; [done|naive_solver]..].
  unfold store_Set, mput. simpl. rewrite !law_prefix_key. fold (path_head up b).
  destruct w' as [e' p']. rewrite !app_str_assoc.
  split; [intros [= <- <-]; eauto 6|].
  simpl. intros (-> & ? & ? & [= <-] & [= <-] & ->). done.
Qed.

Lemma proxied_intro up pfx c h proof delay verify set w w' :
  (forall w w', verify w = (Ok tt, w') <->
     (exists target, ck_GetClientState up (w_ext w) = Ok (Some target) /\
        claim_check target (ck_ClientStore up) pfx h proof delay c (w_ext w) =
          (Ok tt, w_ext w')) /\ w_proxy w' = w_proxy w) ->
  (forall w w', set w = (Ok tt, w') <->
     w_ext w' = w_ext w /\ committed up pfx c (w_proxy w) (w_proxy w')) ->
  mbind verify (fun _ => set) w = (Ok tt, w') <-> proxied up pfx c h proof delay w w'.
Proof.
  intros Hv Hs. rewrite mbind_Ok. unfold proxied. split.
  - intros ([] & w1 & [Ht Hp]%Hv & [He Hc]%Hs). rewrite He, <- Hp. done.
  - intros [Ht Hc]. exists tt, (mkWorld (w_ext w') (w_proxy w)).
    rewrite Hv, Hs. done.
Qed.

Ltac proxied_store :=
  apply proxied_intro; intros w1 w2;
    [apply verify_ok | unfold committed; rewrite <- set_store_ok; done].

Lemma VerifyAndProxyClientState_ok up pfx id h proof cs w w' :
  VerifyAndProxyClientState up pfx id h proof cs w = (Ok tt, w') <->
  proxied up pfx (ClientClaim id cs) h proof 0 w w'.
Proof.
  apply proxied_intro; intros w1 w2; [apply verify_ok|].
  unfold committed. simpl. rewrite law_FullClientStateKey. apply set_client_store_ok.
Qed.

Lemma VerifyAndProxyClientConsensusState_ok up pfx id h ch proof cs w w' :
  VerifyAndProxyClientConsensusState up pfx id h ch proof cs w = (Ok tt, w') <->
  proxied up pfx (ConsensusClaim id ch cs) h proof 0 w w'.
Proof.
  apply proxied_intro; intros w1 w2; [apply verify_ok|].
  unfold committed. simpl. rewrite law_FullConsensusStateKey. apply set_client_store_ok.
Qed.

Lemma VerifyAndProxyConnectionState_ok up pfx c h proof id w w' :
  VerifyAndProxyConnectionState up pfx c h proof id w = (Ok tt, w') <->
  proxied up pfx (ConnectionClaim id c) h proof 0 w w'.
Proof. proxied_store. Qed.

Lemma VerifyAndProxyChannelState_ok up pfx h proof port id c w w' :
  VerifyAndProxyChannelState up pfx h proof port id c w = (Ok tt, w') <->
  proxied up pfx (ChannelClaim port id c) h proof 0 w w'.
Proof. proxied_store. Qed.

Lemma VerifyAndProxyPacketCommitment_ok up pfx conn h proof port id n v w w' :
  VerifyAndProxyPacketCommitment up pfx conn h proof port id n v w = (Ok tt, w') <->
  proxied up pfx (PacketClaim port id n v) h proof (conn_DelayPeriod conn) w w'.
Proof. proxied_store. Qed.

Lemma VerifyAndProxyPacketAcknowledgement_ok up pfx conn h proof port id n a w w' :
  VerifyAndProxyPacketAcknowledgement up pfx conn h proof port id n a w = (Ok tt, w') <->
  proxied up pfx (AckClaim port id n a) h proof (conn_DelayPeriod conn) w w'.
Proof. proxied_store. Qed.

End WithLaws.
End Claims.
