(* ===== verification/ProxySpec.v ===== *)
(** The proxy client of ProxyClient.v: the keys its extractor store rewrites,
    what the inner client reads through it, what updates store, and what the
    verification functions delegate. *)
From S2P Require Import Prelude.
From S2P Require Import Lib.
From S2P Require Import Keys.
From S2P Require Import ProxyClient.
From S2P Require Import RefLib.
From S2P Require Import Dispatch.
From S2P Require Import Scenario.
From S2P Require Multiv.

(** * Digits and prefixes of byte strings *)

Lemma strip_prefix_Some p s r : strip_prefix p s = Some r <-> s = p +:+ r.
Proof.
  revert s. induction p as [|x p IH]; intros s; simpl.
  - rewrite app_str_nil. naive_solver.
  - rewrite app_str_cons. destruct s as [|y s]; [naive_solver|].
    destruct (decide (x = y)) as [->|Hne].
    + rewrite bool_decide_eq_true_2 by done. rewrite IH. naive_solver.
    + rewrite bool_decide_eq_false_2 by done. naive_solver.
Qed.

Lemma skip_digits_app a r : all_digits a = true -> skip_digits (a +:+ r) = skip_digits r.
Proof.
  induction a as [|x a IH]; [done|]. rewrite app_str_cons. simpl.
  intros [-> H]%andb_prop. by apply IH.
Qed.

Lemma skip_digits_split s : exists a, all_digits a = true /\ s = a +:+ skip_digits s.
Proof.
  induction s as [|x s (a & Ha & Hs)]; [by exists ""|]. simpl.
  destruct (is_digit x) eqn:Hx; [|by exists ""].
  exists (String x a). simpl. rewrite Hx, Ha, app_str_cons. split; [done|]. by f_equal.
Qed.

Lemma digits1_split s r : digits1 s = Some r -> exists a, digits a = true /\ s = a +:+ r.
Proof.
  destruct s as [|x s]; [done|]. simpl. destruct (is_digit x) eqn:Hx; [|done].
  intros [= <-]. destruct (skip_digits_split s) as (a & Ha & Hs).
  exists (String x a). unfold digits. simpl. rewrite Hx, Ha, app_str_cons. by rewrite <- Hs.
Qed.

Lemma digits1_app a r :
  digits a = true -> (forall x s, r = String x s -> is_digit x = false) ->
  digits1 (a +:+ r) = Some r.
Proof.
  intros [Ha Hne]%andb_prop Hr. destruct a as [|x a]; [done|].
  rewrite app_str_cons. simpl in Ha |- *. apply andb_prop in Ha as [-> Ha].
  rewrite skip_digits_app by done. destruct r as [|y r]; [done|].
  simpl. by rewrite (Hr y r eq_refl).
Qed.

Section ProxySpec.
Context `{T : LibTypes, L : !Lib}.

Lemma regexp_match key :
  consensusStateKeyRegexp_Match key = true <->
  exists a b, key = KeyConsensusStatePrefix +:+ "/" +:+ a +:+ "-" +:+ b /\
    digits a = true /\ digits b = true.
Proof.
  unfold consensusStateKeyRegexp_Match. split.
  - destruct (strip_prefix _ key) as [r|] eqn:Hs; [|done].
    apply strip_prefix_Some in Hs as ->.
    destruct (digits1 r) as [[|x r']|] eqn:Hr; [done| |done].
    apply digits1_split in Hr as (a & Ha & ->).
    intros [->%bool_decide_eq_true H]%andb_prop.
    destruct (digits1 r') as [[|]|] eqn:Hr'; [|done..].
    apply digits1_split in Hr' as (b & Hb & ->).
    exists a, b. rewrite app_str_nil_r. split; [|done]. by rewrite app_str_assoc.
  - intros (a & b & -> & Ha & Hb).
    rewrite (proj2 (strip_prefix_Some (KeyConsensusStatePrefix +:+ "/") _ (a +:+ "-" +:+ b)))
      by (by rewrite app_str_assoc).
    rewrite (digits1_app a) by (try done; by intros x s [= <- _]).
    simpl. rewrite app_str_nil.
    pose proof (digits1_app b "" Hb ltac:(done)) as H. rewrite app_str_nil_r in H.
    by rewrite H.
Qed.

(** ** The extractor store *)

Lemma extractor_Get_other st key s :
  consensusStateKeyRegexp_Match key = false ->
  st_Get (NewProxyExtractorStore st) key s = st_Get st key s.
Proof.
  intros H. simpl. unfold proxyExtractorStore_Get. rewrite H. simpl.
  apply mbind_mret.
Qed.

Lemma extractor_Get_wrapped st key s bz s' pcs inner bz' :
  consensusStateKeyRegexp_Match key = true ->
  st_Get st key s = (Ok (Some bz), s') -> bz <> "" ->
  UnmarshalConsensusState bz = Ok (ConsProxy pcs) ->
  UnpackConsensusState (pcons_ProxyConsensusState pcs) = Ok inner ->
  MarshalConsensusState inner = Ok bz' ->
  st_Get (NewProxyExtractorStore st) key s = (Ok (Some bz'), s').
Proof.
  intros Hm Hg Hne Hu Hi Hb. simpl. unfold proxyExtractorStore_Get.
  rewrite (mbind_run _ _ _ _ _ Hg), Hm. destruct bz; [done|]. simpl.
  unfold mbind, mlift, GetProxyConsensusState. rewrite Hu. simpl. rewrite Hi. simpl.
  by rewrite Hb.
Qed.

Context `{I : !ClientMethods ClientState}.

Lemma GetProxyClientState_ok cs c :
  GetProxyClientState cs = Ok c <-> UnpackClientState (pcs_ProxyClientState cs) = Ok c.
Proof. apply must_Ok. Qed.

(** A call on the wrapped state. *)
Lemma with_inner {A} cs inner (f : ClientState -> M ExtState A) s :
  UnpackClientState (pcs_ProxyClientState cs) = Ok inner ->
  mbind (mlift (GetProxyClientState cs)) f s = f inner s.
Proof. intros H%GetProxyClientState_ok. unfold mbind, mlift. by rewrite H. Qed.

Lemma with_underlying {A} (cs : MultivCS) inner (f : ClientState -> M ExtState A) s :
  UnpackClientState (mcs_UnderlyingClientState cs) = Ok inner ->
  mbind (mlift (Multiv.GetUnderlyingClientState cs)) f s = f inner s.
Proof.
  intros H. unfold mbind, mlift, Multiv.GetUnderlyingClientState. by rewrite H.
Qed.

(** * Properties *)

(** C24: the extractor store is the store it wraps, but for the consensus
    states: under the key of a consensus state, the inner client gets the
    encoding of the consensus state packed in the proxy consensus state that
    is stored; every other key, and every operation but Get, is passed
    through. *)
Theorem extractor_store_spec `{CK : !ClientKeeperI, LL : !LibLaws} st s s' :
  (forall h pcs inner bz bz',
     st_Get st (ConsensusStateKey h) s = (Ok (Some bz), s') ->
     MarshalConsensusState (ConsProxy pcs) = Ok bz ->
     UnpackConsensusState (pcons_ProxyConsensusState pcs) = Ok inner ->
     MarshalConsensusState inner = Ok bz' ->
     st_Get (NewProxyExtractorStore st) (ConsensusStateKey h) s = (Ok (Some bz'), s')) /\
  (forall h, st_Get st (ConsensusStateKey h) s = (Ok None, s') ->
     st_Get (NewProxyExtractorStore st) (ConsensusStateKey h) s = (Ok None, s')) /\
  (forall key, (forall a b, key = KeyConsensusStatePrefix +:+ "/" +:+ a +:+ "-" +:+ b ->
                  digits a && digits b = false) ->
     st_Get (NewProxyExtractorStore st) key s = st_Get st key s) /\
  st_Has (NewProxyExtractorStore st) = st_Has st /\
  st_Set (NewProxyExtractorStore st) = st_Set st /\
  st_Delete (NewProxyExtractorStore st) = st_Delete st /\
  st_Iterator (NewProxyExtractorStore st) = st_Iterator st.
Proof.
  split_and!; try done.
  - intros h pcs inner bz bz' Hg [Hu Hne]%law_consensus_codec Hi Hb.
    eapply extractor_Get_wrapped; [|done..].
    apply regexp_match. destruct (law_ConsensusStateKey h) as (a & b & H). by exists a, b.
  - intros h Hg. simpl. unfold proxyExtractorStore_Get. rewrite (mbind_run _ _ _ _ _ Hg).
    by destruct (consensusStateKeyRegexp_Match _).
  - intros key Hk. apply extractor_Get_other. apply not_true_is_false.
    intros (a & b & Ha & Hd & Hd')%regexp_match. apply Hk in Ha.
    by rewrite Hd, Hd' in Ha.
Qed.

(** C25: a header update wraps what the inner client returns: it succeeds
    exactly when the inner client's update does, on the extractor store, and
    both results can be packed; the new client differs from the old one in its
    inner state only, and the states packed are the inner client's. *)
Theorem header_update_spec `{CK : !ClientKeeperI, LL : !LibLaws} cs store header s r s' :
  CheckHeaderAndUpdateState cs store header s = (Ok r, s') <->
  exists inner c cons any any',
    UnpackClientState (pcs_ProxyClientState cs) = Ok inner /\
    cs_CheckHeaderAndUpdateState inner (NewProxyExtractorStore store) header s =
      (Ok (c, cons), s') /\
    PackClientState (Some c) = Ok any /\ PackConsensusState (Some cons) = Ok any' /\
    r = (CSProxy (mkProxyCS (Some any) (pcs_UpstreamClientId cs) (pcs_ProxyPrefix cs)
                    (pcs_IbcPrefix cs)),
         ConsProxy (mkProxyConsS (Some any'))) /\
    UnpackClientState (Some any) = Ok c /\ UnpackConsensusState (Some any') = Ok cons.
Proof.
  unfold CheckHeaderAndUpdateState. split.
  - intros (inner & Hi%GetProxyClientState_ok & H)%mlift_bind_Ok.
    apply mbind_Ok in H as ([c cons] & s1 & Hc & H).
    apply mlift_bind_Ok in H as (any & Ha & H).
    apply mlift_bind_Ok in H as (any' & Ha' & [= <- <-]).
    exists inner, c, cons, any, any'. split_and!; try done.
    + by apply law_pack_client.
    + by apply law_pack_consensus.
  - intros (inner & c & cons & any & any' & Hi%GetProxyClientState_ok & Hc & Ha & Ha' & -> & _).
    apply mlift_bind_Ok. exists inner. split; [done|].
    apply mbind_Ok. exists (c, cons), s'. split; [done|].
    apply mlift_bind_Ok. exists any. split; [done|].
    apply mlift_bind_Ok. by exists any'.
Qed.

(** C26: the consensus state that an update returns, once the client keeper has
    stored it, is the one the inner client itself returned when the inner
    client reads it back through the extractor store. *)
Theorem update_extract_roundtrip `{CK : !ClientKeeperI, LL : !LibLaws}
    cs store header s c' cons' s' h bz st s1 :
  CheckHeaderAndUpdateState cs store header s = (Ok (c', cons'), s') ->
  MarshalConsensusState cons' = Ok bz ->
  st_Get st (ConsensusStateKey h) s1 = (Ok (Some bz), s1) ->
  exists inner c cons, UnpackClientState (pcs_ProxyClientState cs) = Ok inner /\
    cs_CheckHeaderAndUpdateState inner (NewProxyExtractorStore store) header s =
      (Ok (c, cons), s') /\
    forall bz', MarshalConsensusState cons = Ok bz' ->
      st_Get (NewProxyExtractorStore st) (ConsensusStateKey h) s1 = (Ok (Some bz'), s1).
Proof.
  unfold CheckHeaderAndUpdateState.
  intros (inner & Hi%GetProxyClientState_ok & H)%mlift_bind_Ok Hbz Hg.
  apply mbind_Ok in H as ([c cons] & s2 & Hc & H).
  apply mlift_bind_Ok in H as (any & Ha & H).
  apply mlift_bind_Ok in H as (any' & Ha'%law_pack_consensus & [= <- <- <-]).
  exists inner, c, cons. split; [done|]. split; [done|]. intros bz' Hb'.
  apply law_consensus_codec in Hbz as [Hu Hne].
  eapply extractor_Get_wrapped; [|done..].
  apply regexp_match. destruct (law_ConsensusStateKey h) as (a & b & H). by exists a, b.
Qed.

(** All the fields that Initialize asks for. *)
Definition complete (cs : ProxyCS) : Prop :=
  is_Some (pcs_ProxyClientState cs) /\ is_Some (pcs_IbcPrefix cs) /\
  is_Some (pcs_ProxyPrefix cs).

(** An error of the registered kind [e] *)
Definition fails_with {A} (e : sdk_error) (o : outcome A) : Prop :=
  exists e', o = Err e' /\ error_root e' = Sdk e.

(** One branch of Initialize. *)
Ltac init_case :=
  split_and!; try split; simpl; intros; destruct_and?;
  repeat match goal with
  | H : is_Some None |- _ => by destruct H
  | H : exists _, _ |- _ => destruct H
  | H : ~ (is_Some _ /\ is_Some _ /\ is_Some _) |- _ => by destruct H; eauto
  | H : forall pcs, Some (ConsProxy ?p) <> Some (ConsProxy pcs) |- _ => by destruct (H p)
  end;
  destruct_and?; simplify_eq; try done;
  first [congruence | by eexists | split_and!; eauto 10 | by eauto 10].

(** C31: initialisation writes nothing, whatever happens, and succeeds exactly when
    the client state has its inner state and both prefixes, the consensus state
    is a proxy consensus state, and what both of them pack can be unpacked.  Its
    errors are, in this order: ErrInvalidClient for an incomplete client state;
    ErrInvalidConsensus for a missing consensus state; ErrInvalidClient for an
    inner client state that does not unpack; ErrInvalidConsensus for a consensus
    state of another type; ErrInvalidConsensus for one whose inner state does not
    unpack.  It panics only if unpacking panics. *)
Theorem initialize_spec cs st o s :
  (Initialize cs st o s).2 = s /\
  ((Initialize cs st o s).1 = Ok tt <->
     complete cs /\
     exists pcs c cons, o = Some (ConsProxy pcs) /\
       UnpackClientState (pcs_ProxyClientState cs) = Ok c /\
       UnpackConsensusState (pcons_ProxyConsensusState pcs) = Ok cons) /\
  (~ complete cs -> fails_with ErrInvalidClient (Initialize cs st o s).1) /\
  (complete cs -> o = None -> fails_with ErrInvalidConsensus (Initialize cs st o s).1) /\
  (complete cs -> o <> None -> forall e, UnpackClientState (pcs_ProxyClientState cs) = Err e ->
     fails_with ErrInvalidClient (Initialize cs st o s).1) /\
  (complete cs -> forall c, UnpackClientState (pcs_ProxyClientState cs) = Ok c ->
     (forall pcs, o <> Some (ConsProxy pcs)) ->
     fails_with ErrInvalidConsensus (Initialize cs st o s).1) /\
  (complete cs -> forall c, UnpackClientState (pcs_ProxyClientState cs) = Ok c ->
     forall pcs e, o = Some (ConsProxy pcs) ->
     UnpackConsensusState (pcons_ProxyConsensusState pcs) = Err e ->
     fails_with ErrInvalidConsensus (Initialize cs st o s).1) /\
  (forall p, (Initialize cs st o s).1 = Panic p ->
     UnpackClientState (pcs_ProxyClientState cs) = Panic p \/
     exists pcs, o = Some (ConsProxy pcs) /\
       UnpackConsensusState (pcons_ProxyConsensusState pcs) = Panic p).
Proof.
  unfold Initialize, complete.
  destruct (pcs_ProxyClientState cs) as [a|]; [|init_case].
  destruct (pcs_IbcPrefix cs) as [i|]; [|init_case].
  destruct (pcs_ProxyPrefix cs) as [p|]; [|init_case].
  destruct o as [cons|]; [|init_case].
  unfold mbind, mlift, mret.
  destruct (UnpackClientState (Some a)) as [c|e|e] eqn:Ha; simpl; [|init_case..].
  destruct cons as [pcs|x]; [|init_case].
  destruct (UnpackConsensusState (pcons_ProxyConsensusState pcs)) eqn:Hc; simpl; init_case.
Qed.

(** The path the downstream builds is the path the proxy wrote: the prefix
    the proxy client hands to its inner client is the proxy store's prefix
    followed by a path prefix which, joined to an upstream path by "/", is the
    key ProxyKey gives on the proxy for the same upstream. *)
Theorem proxied_path_agrees cs pfx p :
  proxied_prefix cs pfx = Ok p ->
  exists path, p = MultiPfx (MerklePfx (pcs_ProxyPrefix cs)) path /\
    forall key, ProxyKey pfx (pcs_UpstreamClientId cs) key = Ok (path +:+ "/" +:+ key).
Proof.
  intros (b & Hb & [= <-])%obind_Ok. eexists. split; [done|]. intros key.
  unfold ProxyKey. rewrite Hb. simpl. by rewrite !app_str_assoc.
Qed.

(** C40: CheckSubstituteAndUpdateState of both clients drops the error of the
    client they wrap: what they return is a function of the first result of the
    inner call alone, so that an inner failure that comes with a client state
    is reported as success, and any other inner error is replaced by that of
    packing. *)
Theorem substitute_drops_error cs mcs inner o e sub sub_st subst_st s s' :
  UnpackClientState (pcs_ProxyClientState cs) = Ok inner ->
  UnpackClientState (mcs_UnderlyingClientState mcs) = Ok inner ->
  cs_CheckSubstituteAndUpdateState inner sub_st subst_st sub s = (Ok (o, Some e), s') ->
  (forall any, PackClientState o = Ok any ->
     CheckSubstituteAndUpdateState cs sub_st subst_st sub s =
       (Ok (Some (CSProxy (set_ProxyClientState cs any)), None), s') /\
     Multiv.CheckSubstituteAndUpdateState mcs sub_st subst_st sub s =
       (Ok (Some (CSMultiv (Multiv.set_UnderlyingClientState mcs any)), None), s')) /\
  (forall e', PackClientState o = Err e' ->
     CheckSubstituteAndUpdateState cs sub_st subst_st sub s = (Ok (None, Some e'), s') /\
     Multiv.CheckSubstituteAndUpdateState mcs sub_st subst_st sub s =
       (Ok (None, Some e'), s')).
Proof.
  intros Hi Hi' Hc. unfold CheckSubstituteAndUpdateState, Multiv.CheckSubstituteAndUpdateState.
  rewrite (with_inner cs inner), (with_underlying mcs inner) by done.
  rewrite !(mbind_run _ _ _ _ _ Hc). split; intros ? ->; done.
Qed.


End ProxySpec.

(** ** Witnesses: the downstream chain of Scenario.v *)
Section Witnesses.

Lemma extractor_store_spec_witness :
  st_Get (NewProxyExtractorStore store_C) (ConsensusStateKey (h 5)) (ext_C root_6) =
    (Ok (Some (enc_cons (ConsExt (T := ref_types) root_6))), ext_C root_6) /\
  st_Get (NewProxyExtractorStore store_C) "clientState" (ext_C root_6) =
    st_Get store_C "clientState" (ext_C root_6).
Proof.
  destruct (@extractor_store_spec _ _ _ ref_laws store_C (ext_C root_6) (ext_C root_6))
    as (H1 & _ & H2 & _).
  split.
  - apply (H1 (h 5) (mkProxyConsS (any_cons (ConsExt (T := ref_types) root_6)))
      (ConsExt (T := ref_types) root_6) (enc_cons (wrapped_root root_6)));
      vm_compute; reflexivity.
  - apply H2. intros a b H. discriminate H.
Defined.

Definition updated : M RefState (ClientState * ConsensusState) :=
  CheckHeaderAndUpdateState proxy_cs store_C header_6.
Definition client_6 : ClientState :=
  CSProxy (mkProxyCS (pack_client (CSExt (mkRefClient (h 6)))) "07-ref-0"
    (Some (mkMerklePrefix "proxy")) (Some ibc)).

Lemma updated_ok : updated (ext_C []) = (Ok (client_6, wrapped_root root_6), (updated (ext_C [])).2).
Proof. apply pair_result. vm_compute. reflexivity. Qed.

Lemma header_update_spec_witness :
  updated (ext_C []) = (Ok (client_6, wrapped_root root_6), (updated (ext_C [])).2) /\
  exists inner c cons,
    UnpackClientState (pcs_ProxyClientState proxy_cs) = Ok inner /\
    cs_CheckHeaderAndUpdateState inner (NewProxyExtractorStore store_C) header_6 (ext_C []) =
      (Ok (c, cons), (updated (ext_C [])).2).
Proof.
  split; [exact updated_ok|].
  destruct (proj1 (@header_update_spec _ _ ref_iface _ ref_laws proxy_cs store_C header_6
    (ext_C []) _ _) updated_ok) as (inner & c & cons & _ & _ & Hi & Hc & _).
  exists inner, c, cons. split; [exact Hi|exact Hc].
Defined.

Lemma update_extract_roundtrip_witness :
  exists cons, forall bz', MarshalConsensusState cons = Ok bz' ->
    st_Get (NewProxyExtractorStore store_C) (ConsensusStateKey (h 5)) (ext_C root_6) =
      (Ok (Some bz'), ext_C root_6).
Proof.
  destruct (@update_extract_roundtrip _ _ ref_iface _ ref_laws proxy_cs store_C header_6
    (ext_C []) client_6 (wrapped_root root_6) _ (h 5) (enc_cons (wrapped_root root_6)) store_C
    (ext_C root_6) updated_ok eq_refl) as (inner & c & cons & _ & _ & H).
  - vm_compute. reflexivity.
  - exists cons. exact H.
Defined.

Lemma proxied_path_agrees_witness :
  proxied_prefix proxy_cs (MerklePfx (Some ibc)) =
    Ok (MultiPfx (MerklePfx (Some (mkMerklePrefix "proxy"))) "07-ref-0/ibc") /\
  exists path, MultiPfx (MerklePfx (Some (mkMerklePrefix "proxy"))) "07-ref-0/ibc" =
      MultiPfx (MerklePfx (pcs_ProxyPrefix proxy_cs)) path /\
    ProxyKey (MerklePfx (Some ibc)) "07-ref-0" "connections/connection-0" =
      Ok (path +:+ "/" +:+ "connections/connection-0").
Proof.
  assert (proxied_prefix proxy_cs (MerklePfx (Some ibc)) =
    Ok (MultiPfx (MerklePfx (Some (mkMerklePrefix "proxy"))) "07-ref-0/ibc")) as H by reflexivity.
  split; [exact H|].
  destruct (@proxied_path_agrees _ _ _ _ _ H) as (path & Hp & Hk).
  exists path. split; [exact Hp|apply Hk].
Defined.

(** A substitute that the reference client refuses. *)
Definition multiv_cs : MultivCS := mkMultivCS (pcs_ProxyClientState proxy_cs) 1.

Lemma substitute_drops_error_witness :
  exists e', CheckSubstituteAndUpdateState proxy_cs store_C store_C (CSProxy proxy_cs) (ext_C []) =
      (Ok (None, Some e'), ext_C []) /\ e' <> ExtError "substitute client type".
Proof.
  exists (ExtError "cannot proto marshal nil"). split; [|discriminate].
  apply (@substitute_drops_error _ _ ref_iface proxy_cs multiv_cs self_client None
    (ExtError "substitute client type") (CSProxy proxy_cs) store_C store_C (ext_C []) (ext_C []));
    reflexivity.
Defined.

(** CheckMisbehaviourAndUpdateState hands the raw store to the inner client,
    where every other call hands it the extractor store: in a state where the
    client is active and takes updates, the inner client cannot read its own
    consensus states when it checks misbehaviour. *)
Theorem misbehaviour_raw_store :
  (Status proxy_cs store_C (ext_C [])).1 = Ok "Active" /\
  (updated (ext_C [])).1 = Ok (client_6, wrapped_root root_6) /\
  (CheckMisbehaviourAndUpdateState proxy_cs store_C tt (ext_C [])).1 =
    Err (ExtError "invalid consensus type").
Proof. vm_compute. repeat split. Qed.
End Witnesses.
