(* ===== verification/MultivSpec.v ===== *)
(** The multi-stage client of Multiv.v against its contract: a chain of proxies,
    each verified under the one before, that ends at the proxy under which the
    state asked for is verified. *)
From S2P Require Import Prelude.
From S2P Require Import Lib.
From S2P Require Import Multiv.
From S2P Require Import RefLib.
From S2P Require Import Dispatch.
From S2P Require Import Scenario.
From S2P Require ProxyClient.

Section MultivSpec.
Context `{T : LibTypes, L : !Lib, I : !ClientMethods ClientState}.

(** * The contract *)

(** A proxy: its client and consensus state. *)
Abbreviation Stage := (ProxyCS * ProxyConsS)%type.

(** [t] is verified under the stage [p] by the proof [b]. *)
Definition verified_link (p : Stage) (b : Proof) (t : Stage) (e e' : ExtState) : Prop :=
  unpackProxyClientState (Proof_ClientState b) = Ok t.1 /\
  unpackProxyConsensusState (Proof_ConsensusState b) = Ok t.2 /\
  exists store e1 e2,
    makeMemStore (ConsProxy p.2) (ProofHeight b) e = (Ok store, e1) /\
    ProxyClient.IBCVerifyClientState p.1 store (ProofHeight b)
      (MerklePfx (pcs_IbcPrefix p.1)) (pcs_UpstreamClientId p.1) (ClientProof b)
      (CSProxy t.1) e1 = (Ok tt, e2) /\
    ProxyClient.IBCVerifyClientConsensusState p.1 store (ProofHeight b)
      (pcs_UpstreamClientId p.1) (ConsensusHeight b) (MerklePfx (pcs_IbcPrefix p.1))
      (ConsensusProof b) (ConsProxy t.2) e2 = (Ok tt, e').

Inductive proxy_chain : Stage -> list Proof -> Stage -> ExtState -> ExtState -> Prop :=
| chain_nil p e : proxy_chain p [] p e e
| chain_cons p b bs t q e e1 e2 :
    verified_link p b t e e1 -> proxy_chain t bs q e1 e2 -> proxy_chain p (b :: bs) q e e2.

(** The head of the proof is verified by the underlying client. *)
Definition verified_head (cs : MultivCS) (store : KVStore) (height : Height) (prefix : Prefix)
    (id : string) (b : Proof) (t : Stage) (e e' : ExtState) : Prop :=
  unpackProxyClientState (Proof_ClientState b) = Ok t.1 /\
  unpackProxyConsensusState (Proof_ConsensusState b) = Ok t.2 /\
  exists inner e1, UnpackClientState (mcs_UnderlyingClientState cs) = Ok inner /\
    cs_VerifyClientState inner store height prefix id (ClientProof b) (CSProxy t.1) e =
      (Ok tt, e1) /\
    cs_VerifyClientConsensusState inner store height id (ConsensusHeight b) prefix
      (ConsensusProof b) (ConsProxy t.2) e1 = (Ok tt, e').

(** The whole proof: as many branches as the client's depth, the head at the
    height asked for, and the chain from the head to the stage [q]. *)
Definition multi_stage (cs : MultivCS) (store : KVStore) (height : Height) (prefix : Prefix)
    (id : string) (proof : MultiProof) (q : Stage) (e e' : ExtState) : Prop :=
  N.of_nat (length (Branches proof)) = mcs_Depth cs /\
  Height_EQ (ProofHeight (Head proof)) height = true /\
  exists t e1, verified_head cs store height prefix id (Head proof) t e e1 /\
    proxy_chain t (Branches proof) q e1 e'.

(** * The code implements it *)

Lemma verifyBranch_ok p b t e e' :
  verifyBranch p.1 p.2 b e = (Ok t, e') <-> verified_link p b t e e'.
Proof.
  unfold verifyBranch, verified_link. split.
  - intros (t1 & H1 & (t2 & H2 & H)%mlift_bind_Ok)%mlift_bind_Ok.
    apply mbind_Ok in H as (store & e1 & Hs & H).
    apply mbind_Ok in H as ([] & e2 & Hc & H).
    apply mbind_Ok in H as ([] & e3 & Hk & [= <- <-]). simpl. eauto 8.
  - destruct t as [t1 t2]. simpl. intros (H1 & H2 & store & e1 & e2 & Hs & Hc & Hk).
    apply mlift_bind_Ok. exists t1. split; [done|].
    apply mlift_bind_Ok. exists t2. split; [done|].
    apply mbind_Ok. exists store, e1. split; [done|].
    apply mbind_Ok. exists tt, e2. split; [done|].
    apply mbind_Ok. by exists tt, e'.
Qed.

Lemma verifyBranches_ok bs p q e e' :
  verifyBranches p.1 p.2 bs e = (Ok q, e') <-> proxy_chain p bs q e e'.
Proof.
  revert p e. induction bs as [|b bs IH]; intros p e; simpl.
  - split; [intros [= <- <-]; destruct p; constructor|].
    inversion 1; subst. by destruct q.
  - rewrite mbind_Ok. split.
    + intros (t & e1 & Hb%verifyBranch_ok & H). econstructor; [done|].
      apply IH. by destruct t.
    + inversion 1 as [|? ? ? t ? ? e1 ? Hb Hc]; subst. exists t, e1.
      split; [by apply verifyBranch_ok|]. apply IH in Hc. by destruct t.
Qed.

Lemma validateProof_ok cs proof :
  validateProof cs proof = Ok tt <-> N.of_nat (length (Branches proof)) = mcs_Depth cs.
Proof.
  unfold validateProof.
  destruct (N.eqb_spec (N.of_nat (length (Branches proof))) (mcs_Depth cs)); simpl; naive_solver.
Qed.

Lemma GetUnderlyingClientState_ok cs c :
  GetUnderlyingClientState cs = Ok c <-> UnpackClientState (mcs_UnderlyingClientState cs) = Ok c.
Proof. apply must_Ok. Qed.

Lemma verifyProxyState_ok cs store height prefix id proof q e e' :
  verifyProxyState cs store height prefix id proof e = (Ok q, e') <->
  multi_stage cs store height prefix id proof q e e'.
Proof.
  unfold verifyProxyState, multi_stage, verified_head. split.
  - intros ([] & Hd%validateProof_ok & H)%mlift_bind_Ok. split; [done|].
    apply mbind_Ok in H as ([] & e1 & [Hh [= <-]]%guard_Ok & H). split; [done|].
    apply mlift_bind_Ok in H as (t1 & H1 & H).
    apply mlift_bind_Ok in H as (inner & Hi & H).
    apply mbind_Ok in H as ([] & e2 & Hc & H).
    apply mlift_bind_Ok in H as (t2 & H2 & H).
    apply mlift_bind_Ok in H as (inner' & Hi' & H).
    assert (inner' = inner) as -> by congruence. apply GetUnderlyingClientState_ok in Hi.
    apply mbind_Ok in H as ([] & e3 & Hk & H).
    exists (t1, t2), e3. split; [eauto 7|]. by apply (verifyBranches_ok _ (t1, t2)).
  - intros (Hd & Hh & t & e3 & (H1 & H2 & inner & e2 & Hi & Hc & Hk) & H).
    apply GetUnderlyingClientState_ok in Hi.
    apply mlift_bind_Ok. exists tt. split; [by apply validateProof_ok|].
    apply mbind_Ok. exists tt, e. split; [by apply guard_Ok|].
    apply mlift_bind_Ok. exists t.1. split; [done|].
    apply mlift_bind_Ok. exists inner. split; [done|].
    apply mbind_Ok. exists tt, e2. split; [done|].
    apply mlift_bind_Ok. exists t.2. split; [done|].
    apply mlift_bind_Ok. exists inner. split; [done|].
    apply mbind_Ok. exists tt, e3. split; [done|]. by apply verifyBranches_ok.
Qed.

(** What holds of the head and passes along links holds of the last stage. *)
Lemma proxy_chain_ind_trust (Trusted : Stage -> Prop) p bs q e e' :
  (forall p b t e e', Trusted p -> verified_link p b t e e' -> Trusted t) ->
  proxy_chain p bs q e e' -> Trusted p -> Trusted q.
Proof. intros Hl. induction 1 as [|p b bs t q e e1 e2 Hb _ IH]; eauto. Qed.

(** The shape of the two verification functions. *)
Lemma verify_leaf_ok cs store height prefix id bz
    (leaf : MultiProof -> ProxyCS -> KVStore -> M ExtState unit) e e' :
  (let* proof := mlift (unmarshalProof bz) in
   let* (pcs, pcons) := verifyProxyState cs store height prefix id proof in
   let* mem := makeMemStore (ConsProxy pcons) (Leaf_ProofHeight (Leaf proof)) in
   leaf proof pcs mem) e = (Ok tt, e') <->
  exists proof q e1 mem e2,
    unmarshalProof bz = Ok proof /\
    multi_stage cs store height prefix id proof q e e1 /\
    makeMemStore (ConsProxy q.2) (Leaf_ProofHeight (Leaf proof)) e1 = (Ok mem, e2) /\
    leaf proof q.1 mem e2 = (Ok tt, e').
Proof.
  split.
  - intros (proof & Hp & H)%mlift_bind_Ok.
    apply mbind_Ok in H as (q & e1 & Hq%verifyProxyState_ok & H). destruct q as [q1 q2].
    apply mbind_Ok in H as (mem & e2 & Hm & H). by exists proof, (q1, q2), e1, mem, e2.
  - intros (proof & [q1 q2] & e1 & mem & e2 & Hp & Hq & Hm & H).
    apply mlift_bind_Ok. exists proof. split; [done|].
    apply mbind_Ok. exists (q1, q2), e1. split; [by apply verifyProxyState_ok|].
    apply mbind_Ok. by exists mem, e2.
Qed.

(** * Properties *)

(** C12: multi-stage verification refines its contract.  Verifying a client
    state, or a consensus state, succeeds exactly when the proof decodes to as
    many branches as the depth, with its head at the height asked for and
    verified by the underlying client, each branch is verified under the stage
    before it, and the state asked for is verified, by the last proxy's own
    client of the chain beyond, on the last consensus state. *)
Theorem multiv_state_spec cs store height prefix id bz e e' :
  let last_stage (leaf : MultiProof -> ProxyCS -> KVStore -> M ExtState unit) :=
    exists proof q e1 mem e2,
      unmarshalProof bz = Ok proof /\
      multi_stage cs store height prefix id proof q e e1 /\
      makeMemStore (ConsProxy q.2) (Leaf_ProofHeight (Leaf proof)) e1 = (Ok mem, e2) /\
      leaf proof q.1 mem e2 = (Ok tt, e') in
  (forall c, VerifyClientState cs store height prefix id bz c e = (Ok tt, e') <->
     last_stage (fun proof q mem =>
       ProxyClient.IBCVerifyClientState q mem (Leaf_ProofHeight (Leaf proof))
         (MerklePfx (pcs_IbcPrefix q)) (pcs_UpstreamClientId q) (Leaf_Proof (Leaf proof)) c)) /\
  (forall ch c, VerifyClientConsensusState cs store height id ch prefix bz c e = (Ok tt, e') <->
     last_stage (fun proof q mem =>
       ProxyClient.IBCVerifyClientConsensusState q mem (Leaf_ProofHeight (Leaf proof))
         (pcs_UpstreamClientId q) ch (MerklePfx (pcs_IbcPrefix q)) (Leaf_Proof (Leaf proof)) c)).
Proof.
  intros last_stage. split.
  - intros c. apply (verify_leaf_ok cs store height prefix id bz (fun proof q mem =>
      ProxyClient.IBCVerifyClientState q mem (Leaf_ProofHeight (Leaf proof))
         (MerklePfx (pcs_IbcPrefix q)) (pcs_UpstreamClientId q) (Leaf_Proof (Leaf proof)) c)).
  - intros ch c. apply (verify_leaf_ok cs store height prefix id bz (fun proof q mem =>
      ProxyClient.IBCVerifyClientConsensusState q mem (Leaf_ProofHeight (Leaf proof))
         (pcs_UpstreamClientId q) ch (MerklePfx (pcs_IbcPrefix q)) (Leaf_Proof (Leaf proof)) c)).
Qed.

(** A proof of the wrong depth, or whose head is not at the height asked
    for, is refused before any client is called: both verifications fail and
    nothing changes. *)
Theorem multiv_bad_shape cs store height prefix id ch bz proof c k e :
  unmarshalProof bz = Ok proof ->
  N.of_nat (length (Branches proof)) <> mcs_Depth cs \/
  Height_EQ (ProofHeight (Head proof)) height = false ->
  (exists err, VerifyClientState cs store height prefix id bz c e = (Err err, e)) /\
  (exists err, VerifyClientConsensusState cs store height id ch prefix bz k e = (Err err, e)).
Proof.
  intros Hp Hbad.
  assert (exists err, verifyProxyState cs store height prefix id proof e = (Err err, e))
    as [err Hv].
  { unfold verifyProxyState, validateProof, mbind, mlift.
    destruct (N.eqb_spec (N.of_nat (length (Branches proof))) (mcs_Depth cs)); simpl; [|by eexists].
    destruct Hbad as [|Hh]; [done|]. rewrite Hh. by eexists. }
  unfold VerifyClientState, VerifyClientConsensusState, mbind, mlift. rewrite Hp, Hv. eauto.
Qed.

(** C13: trust propagates: a property of proxies that the underlying client
    guarantees for the head, and that each verification of one proxy's states
    under another preserves, holds of the proxy that verifies the leaf. *)
Theorem multiv_trust (Trusted : Stage -> Prop) cs store height prefix id bz c e e' :
  (forall b t e e', verified_head cs store height prefix id b t e e' -> Trusted t) ->
  (forall p b t e e', Trusted p -> verified_link p b t e e' -> Trusted t) ->
  VerifyClientState cs store height prefix id bz c e = (Ok tt, e') ->
  exists proof q e1 mem e2, unmarshalProof bz = Ok proof /\ Trusted q /\
    makeMemStore (ConsProxy q.2) (Leaf_ProofHeight (Leaf proof)) e1 = (Ok mem, e2) /\
    ProxyClient.IBCVerifyClientState q.1 mem (Leaf_ProofHeight (Leaf proof))
      (MerklePfx (pcs_IbcPrefix q.1)) (pcs_UpstreamClientId q.1) (Leaf_Proof (Leaf proof)) c e2 =
      (Ok tt, e').
Proof.
  intros Hhead Hlink (proof & Hp & H)%mlift_bind_Ok.
  apply mbind_Ok in H as (q & e1 & (_ & _ & t & e0 & Ht & Hq)%verifyProxyState_ok & H).
  apply Hhead in Ht. pose proof (proxy_chain_ind_trust Trusted _ _ _ _ _ Hlink Hq Ht) as Hq'.
  destruct q as [q1 q2]. apply mbind_Ok in H as (mem & e2 & Hm & H).
  by exists proof, (q1, q2), e1, mem, e2.
Qed.

End MultivSpec.

(** ** Witnesses: a chain D that verifies, through the proxies P1 (of chain B)
    and P2 (of chain C), a client state held by A *)
Section Witnesses.

Definition stage_client (n : N) (id : string) : ProxyCS :=
  mkProxyCS (pack_client (CSExt (mkRefClient (h n)))) id (Some (mkMerklePrefix "proxy"))
    (Some ibc).
Definition stage_cons (root : list (string * string)) : ProxyConsS :=
  mkProxyConsS (any_cons (ConsExt (T := ref_types) root)).

(** What P2 committed: the client state of A's that D asks for. *)
Definition root_P2 : list (string * string) :=
  [("ibc/clients/07-a/clientState", enc_client self_client);
   ("ibc/clients/07-a/consensusStates/0-3", enc_cons self_cons)].
Definition P2 : ProxyCS := stage_client 6 "07-a".
Definition P2_cons : ProxyConsS := stage_cons root_P2.

(** What P1 committed: its client of P2. *)
Definition root_P1 : list (string * string) :=
  [("ibc/clients/proxy-2/clientState", enc_client (CSProxy P2));
   ("ibc/clients/proxy-2/consensusStates/0-6", enc_cons (ConsProxy P2_cons))].
Definition P1 : ProxyCS := stage_client 7 "proxy-2".
Definition P1_cons : ProxyConsS := stage_cons root_P1.

(** What D's own client sees: the client of P1. *)
Definition root_head : list (string * string) :=
  [("ibc/clients/proxy-1/clientState", enc_client (CSProxy P1));
   ("ibc/clients/proxy-1/consensusStates/0-7", enc_cons (ConsProxy P1_cons))].

Definition ext_D : RefState := {|
  rs_clients := ∅;
  rs_stores := {["client/multi-0" :=
    {[cons_key 9 := enc_cons (ConsExt (T := ref_types) root_head)]}]};
  rs_self := ∅;
  rs_next := 0
|}.
Definition store_D : KVStore := ref_store "client/multi-0".
Definition client_D (depth : N) : MultivCS := mkMultivCS (pack_client (CSExt (mkRefClient (h 9)))) depth.

Definition any_pcons (c : ProxyConsS) : option AnyT :=
  Some (mkAny "consensus" (enc_cons (ConsProxy c))).
Definition proof_D : MultiProof := {|
  Head := mkProof "" (pack_client (CSProxy P1)) "" (any_pcons P1_cons) (h 9) (h 7);
  Branches := [mkProof "" (pack_client (CSProxy P2)) "" (any_pcons P2_cons) (h 7) (h 6)];
  Leaf := mkLeafProof "" (h 6)
|}.
Definition proof_bytes : string := Codec.encode (H := MultiProof_codec) proof_D.

Definition verify_D (depth : N) : M RefState unit :=
  VerifyClientState (client_D depth) store_D (h 9) (MerklePfx (Some ibc)) "proxy-1"
    proof_bytes self_client.
Definition verify_cons_D (depth : N) : M RefState unit :=
  VerifyClientConsensusState (client_D depth) store_D (h 9) "proxy-1" (h 3)
    (MerklePfx (Some ibc)) proof_bytes self_cons.

Lemma verify_D_ok : verify_D 1 ext_D = (Ok tt, (verify_D 1 ext_D).2).
Proof. apply pair_result. vm_compute. reflexivity. Qed.

Lemma verify_cons_D_ok : verify_cons_D 1 ext_D = (Ok tt, (verify_cons_D 1 ext_D).2).
Proof. apply pair_result. vm_compute. reflexivity. Qed.

(** Both verifications succeed on this chain. *)
Lemma multiv_state_spec_witness :
  verify_D 1 ext_D = (Ok tt, (verify_D 1 ext_D).2) /\
  (exists q e1, multi_stage (client_D 1) store_D (h 9) (MerklePfx (Some ibc)) "proxy-1" proof_D
     q ext_D e1) /\
  exists proof, unmarshalProof proof_bytes = Ok proof /\ length (Branches proof) = 1%nat.
Proof.
  split; [exact verify_D_ok|].
  pose proof (proj1 (@multiv_state_spec _ _ ref_iface (client_D 1) store_D (h 9)
    (MerklePfx (Some ibc)) "proxy-1" proof_bytes ext_D (verify_D 1 ext_D).2) self_client) as H1.
  pose proof (proj2 (@multiv_state_spec _ _ ref_iface (client_D 1) store_D (h 9)
    (MerklePfx (Some ibc)) "proxy-1" proof_bytes ext_D (verify_cons_D 1 ext_D).2) (h 3) self_cons)
    as H2.
  split.
  - destruct (proj1 H1 verify_D_ok) as (proof & q & e1 & mem & e2 & Hp & Hq & _).
    assert (Ok proof = Ok proof_D) as [= ->] by (rewrite <- Hp; vm_compute; reflexivity).
    exists q, e1. exact Hq.
  - destruct (proj1 H2 verify_cons_D_ok) as (proof & q & e1 & mem & e2 & Hp & [Hd _] & _).
    exists proof. split; [exact Hp|]. simpl in Hd. lia.
Defined.

Lemma multiv_bad_shape_witness :
  (exists err, verify_D 2 ext_D = (Err err, ext_D)) /\
  (exists err, verify_cons_D 2 ext_D = (Err err, ext_D)).
Proof.
  apply (@multiv_bad_shape _ _ ref_iface (client_D 2) store_D (h 9) (MerklePfx (Some ibc))
    "proxy-1" (h 3) proof_bytes proof_D); [vm_compute; reflexivity|left; discriminate].
Defined.

(** "Its client state was unpacked from an Any" is such a property. *)
Lemma multiv_trust_witness :
  verify_D 1 ext_D = (Ok tt, (verify_D 1 ext_D).2) /\
  exists (q : ProxyCS * ProxyConsS) any, unpackProxyClientState any = Ok q.1.
Proof.
  split; [exact verify_D_ok|].
  destruct (@multiv_trust _ _ ref_iface
    (fun q => exists any, unpackProxyClientState any = Ok q.1)
    (client_D 1) store_D (h 9) (MerklePfx (Some ibc)) "proxy-1" proof_bytes self_client ext_D
    (verify_D 1 ext_D).2) as (proof & q & e1 & mem & e2 & _ & Hq & _);
    [intros b t e e' [H _]; eexists; exact H
    |intros p b t e e' _ [H _]; eexists; exact H
    |exact verify_D_ok
    |exists q; exact Hq].
Defined.
End Witnesses.
