(* ===== verification/Paths.v ===== *)
(** The paths of the proxy store.  The keeper's writes (keeper/commitment.go, by
    prefix stores) and the key functions of types/keys.go name the same keys;
    what is written is read back; and the key determines the commitment when
    client identifier and prefix have no "/" - and only then. *)
From S2P Require Import Prelude.
From S2P Require Import Lib.
From S2P Require Import Keys.
From S2P Require Import Commitment.
From S2P Require Import Verify.
From S2P Require Import Server.
From S2P Require Import Claims.
From S2P Require Import RefLib.
From S2P Require Import Dispatch.
From S2P Require Import Scenario.

Section Paths.
Context `{T : LibTypes, L : !Lib, CK : !ClientKeeperI, LL : !LibLaws}.

(** [m] writes [v] under the key [k], and does nothing else. *)
Definition writes (m : M World unit) (k : outcome bytes) (v : outcome bytes) : Prop :=
  forall w w', m w = (Ok tt, w') <->
    exists key value, k = Ok key /\ v = Ok value /\
      w' = mkWorld (w_ext w) (kv_set key value (w_proxy w)).

Lemma writes_intro m pfx up key v :
  (forall w w', m w = (Ok tt, w') <->
     w_ext w' = w_ext w /\ exists b x, Prefix_Bytes pfx = Ok b /\ v = Ok x /\
       w_proxy w' = kv_set (path_head up b +:+ key) x (w_proxy w)) ->
  writes m (ProxyKey pfx up key) v.
Proof.
  intros H w w'. rewrite H. split.
  - intros (He & b & x & Hb & Hx & E). exists (path_head up b +:+ key), x.
    rewrite ProxyKey_head. split; [eauto|]. split; [done|].
    destruct w'; simpl in *; by subst.
  - intros (k & x & (b & Hb & ->)%ProxyKey_head & Hx & ->). split; [done|]. by exists b, x.
Qed.

Lemma SetProxyClientState_writes pfx id up cs :
  writes (SetProxyClientState pfx id up cs) (ProxyClientStateKey pfx up id)
    (MarshalClientState cs).
Proof.
  apply writes_intro. intros w w'. rewrite law_FullClientStateKey.
  apply set_client_store_ok.
Qed.

Lemma SetProxyClientConsensusState_writes pfx id up h cs :
  writes (SetProxyClientConsensusState pfx id up h cs) (ProxyConsensusStateKey pfx up id h)
    (MarshalConsensusState cs).
Proof.
  apply writes_intro. intros w w'. rewrite law_FullConsensusStateKey.
  apply set_client_store_ok.
Qed.

Lemma SetProxyConnection_writes pfx up id c :
  writes (SetProxyConnection pfx up id c) (ProxyConnectionKey pfx up id)
    (cdc_MarshalConnection c).
Proof. apply writes_intro. intros w w'. apply set_store_ok. Qed.

Lemma SetProxyChannel_writes pfx up port id c :
  writes (SetProxyChannel pfx up port id c) (ProxyChannelKey pfx up port id)
    (cdc_MarshalChannel c).
Proof. apply writes_intro. intros w w'. apply set_store_ok. Qed.

Lemma SetProxyPacketCommitment_writes pfx up port id n v :
  writes (SetProxyPacketCommitment pfx up port id n v)
    (ProxyPacketCommitmentKey pfx up port id n) (Ok v).
Proof. apply writes_intro. intros w w'. apply (set_store_ok up pfx _ (Ok v)). Qed.

Lemma SetProxyPacketAcknowledgement_writes pfx up port id n a :
  writes (SetProxyPacketAcknowledgement pfx up port id n a)
    (ProxyAcknowledgementKey pfx up port id n) (Ok (CommitAcknowledgement a)).
Proof.
  apply writes_intro. intros w w'. apply (set_store_ok up pfx _ (Ok (CommitAcknowledgement a))).
Qed.

Lemma SetProxyPacketReceiptAbsence_writes pfx up port id n :
  writes (SetProxyPacketReceiptAbsence pfx up port id n)
    (ProxyKey pfx up (PacketReceiptKey port id n)) (Ok (String (ascii_of_N 1) "")).
Proof.
  apply writes_intro. intros w w'. apply (set_store_ok up pfx _ (Ok (String (ascii_of_N 1) ""))).
Qed.

Lemma SetProxyNextSequenceRecv_writes pfx up port id n :
  writes (SetProxyNextSequenceRecv pfx up port id n)
    (ProxyKey pfx up (NextSequenceRecvKey port id)) (Ok (Uint64ToBigEndian n)).
Proof.
  apply writes_intro. intros w w'. apply (set_store_ok up pfx _ (Ok (Uint64ToBigEndian n))).
Qed.

(** Reads look the same keys up. *)
Lemma client_store_read {A} pfx up id key (dec : bytes -> outcome A) w b v a :
  Prefix_Bytes pfx = Ok b ->
  kv_get (w_proxy w) (path_head up b +:+ ("clients/" +:+ id +:+ "/" +:+ key)) = Some v ->
  v <> "" -> dec v = Ok a ->
  (let* store := mlift (ProxyClientStore pfx up id) in
   let* bz := store_Get store key in
   match found_bytes bz with
   | None => mret None
   | Some bz => let* cs := mlift (must (dec bz)) in mret (Some cs)
   end) w = (Ok (Some a), w).
Proof.
  intros Hb Hv Hne Ha. unfold ProxyClientStore, ProxyStore, mbind, mlift, store_Get, mget.
  rewrite Hb. simpl. rewrite !law_prefix_key. fold (path_head up b).
  rewrite !app_str_assoc. rewrite Hv. destruct v; [done|]. simpl. by rewrite Ha.
Qed.

(** * Properties *)

(** C28: the paths agree: every SetProxy... of the keeper, on success, writes
    exactly the value it is given, encoded, under the key that types/keys.go
    gives for the commitment (the receipt and next-sequence commitments, which
    have no key function, under ProxyKey of their ICS-24 path). *)
Theorem keeper_paths pfx up :
  (forall id cs, writes (SetProxyClientState pfx id up cs)
     (ProxyClientStateKey pfx up id) (MarshalClientState cs)) /\
  (forall id h cs, writes (SetProxyClientConsensusState pfx id up h cs)
     (ProxyConsensusStateKey pfx up id h) (MarshalConsensusState cs)) /\
  (forall id c, writes (SetProxyConnection pfx up id c)
     (ProxyConnectionKey pfx up id) (cdc_MarshalConnection c)) /\
  (forall port id c, writes (SetProxyChannel pfx up port id c)
     (ProxyChannelKey pfx up port id) (cdc_MarshalChannel c)) /\
  (forall port id n v, writes (SetProxyPacketCommitment pfx up port id n v)
     (ProxyPacketCommitmentKey pfx up port id n) (Ok v)) /\
  (forall port id n a, writes (SetProxyPacketAcknowledgement pfx up port id n a)
     (ProxyAcknowledgementKey pfx up port id n) (Ok (CommitAcknowledgement a))) /\
  (forall port id n, writes (SetProxyPacketReceiptAbsence pfx up port id n)
     (ProxyKey pfx up (PacketReceiptKey port id n)) (Ok (String (ascii_of_N 1) ""))) /\
  (forall port id n, writes (SetProxyNextSequenceRecv pfx up port id n)
     (ProxyKey pfx up (NextSequenceRecvKey port id)) (Ok (Uint64ToBigEndian n))).
Proof.
  split_and!; intros.
  - apply SetProxyClientState_writes.
  - apply SetProxyClientConsensusState_writes.
  - apply SetProxyConnection_writes.
  - apply SetProxyChannel_writes.
  - apply SetProxyPacketCommitment_writes.
  - apply SetProxyPacketAcknowledgement_writes.
  - apply SetProxyPacketReceiptAbsence_writes.
  - apply SetProxyNextSequenceRecv_writes.
Qed.

(** C29: what a SetProxy... wrote, the GetProxy... of the same arguments reads
    back, for the four commitments the keeper reads. *)
Theorem commitment_roundtrip pfx up w w' :
  (forall id cs, SetProxyClientState pfx id up cs w = (Ok tt, w') ->
     GetProxyClientState pfx id up w' = (Ok (Some cs), w')) /\
  (forall id h cs, SetProxyClientConsensusState pfx id up h cs w = (Ok tt, w') ->
     GetProxyClientConsensusState pfx id up h w' = (Ok (Some cs), w')) /\
  (forall id c, SetProxyConnection pfx up id c w = (Ok tt, w') ->
     GetProxyConnection pfx up id w' = (Ok (Some c), w')) /\
  (forall port id c, SetProxyChannel pfx up port id c w = (Ok tt, w') ->
     GetProxyChannel pfx up port id w' = (Ok (Some c), w')).
Proof.
  split_and!.
  - intros id cs (_ & b & v & Hb & [Hu Hne]%law_client_codec & E)%set_client_store_ok.
    eapply client_store_read; [done| |done|done]. rewrite E. apply law_get_set_eq.
  - intros id h cs (_ & b & v & Hb & [Hu Hne]%law_consensus_codec & E)%set_client_store_ok.
    eapply client_store_read; [done| |done|done]. rewrite E. apply law_get_set_eq.
  - intros id c (_ & b & v & Hb & Hv & E)%set_store_ok.
    eapply GetProxyConnection_eval; [done|]. rewrite E. by apply conn_at_set_eq.
  - intros port id c (_ & b & v & Hb & Hv & E)%set_store_ok.
    eapply GetProxyChannel_eval; [done|]. rewrite E. by apply chan_at_set_eq.
Qed.

(** C27: the key determines the upstream client, its prefix and the upstream
    path, when neither the client identifiers nor the prefixes have a "/". *)
Theorem proxy_key_injective pfx pfx' b b' up up' key key' k :
  Prefix_Bytes pfx = Ok b -> Prefix_Bytes pfx' = Ok b' ->
  no_char "/" up = true -> no_char "/" up' = true ->
  no_char "/" b = true -> no_char "/" b' = true ->
  ProxyKey pfx up key = Ok k -> ProxyKey pfx' up' key' = Ok k ->
  up = up' /\ b = b' /\ key = key'.
Proof.
  intros Hb Hb' Hu Hu' Hs Hs' (b1 & H1 & ->)%ProxyKey_head (b2 & H2 & E)%ProxyKey_head.
  assert (b1 = b /\ b2 = b') as [-> ->] by (split; congruence).
  by apply path_head_inj in E.
Qed.

End Paths.

(** ** Witnesses *)
Section Witnesses.

Lemma keeper_paths_witness :
  ProxyConnectionKey (addr ibc) "07-ref-0" "connection-0" =
    Ok "07-ref-0/ibc/connections/connection-0" /\
  writes (SetProxyConnection (addr ibc) "07-ref-0" "connection-0" (conn_A conn_INIT ""))
    (ProxyConnectionKey (addr ibc) "07-ref-0" "connection-0")
    (cdc_MarshalConnection (conn_A conn_INIT "")).
Proof.
  split; [reflexivity|].
  apply (proj1 (proj2 (proj2 (@keeper_paths _ _ _ ref_laws (addr ibc) "07-ref-0")))).
Defined.

Definition w_set : World :=
  (SetProxyConnection (addr ibc) "07-ref-0" "connection-0" (conn_A conn_INIT "") w0).2.

Lemma commitment_roundtrip_witness :
  GetProxyConnection (addr ibc) "07-ref-0" "connection-0" w_set =
    (Ok (Some (conn_A conn_INIT "")), w_set).
Proof.
  apply (proj1 (proj2 (proj2 (@commitment_roundtrip _ _ _ ref_laws (addr ibc) "07-ref-0"
    w0 w_set)))).
  apply pair_result. vm_compute. reflexivity.
Defined.

Lemma proxy_key_injective_witness :
  ProxyKey (addr ibc) "07-ref-0" "connections/connection-0" =
    Ok "07-ref-0/ibc/connections/connection-0" /\
  "07-ref-0" = "07-ref-0" /\ "ibc" = "ibc" /\
  "connections/connection-0" = "connections/connection-0".
Proof.
  split; [reflexivity|].
  apply (@proxy_key_injective _ _ (addr ibc) (addr ibc) "ibc" "ibc" "07-ref-0" "07-ref-0"
    "connections/connection-0" "connections/connection-0"
    "07-ref-0/ibc/connections/connection-0"); reflexivity.
Defined.

(** A receipt that A does not have, at height 12. *)
Definition absence : M World unit :=
  VerifyAndProxyPacketReceiptAbsence "07-ref-0" (addr ibc) (conn_A conn_OPEN "connection-3")
    (h 12) "" "transfer" "channel-0" 9.

(** The path format alone does not bind a path to one commitment when a
    prefix may have a "/": the client state of a client named "connections"
    under the prefix "p" and a connection named "clientState" under the prefix
    "p/clients" share their path. *)
Theorem proxy_key_collision :
  let p := addr (mkMerklePrefix "p") in
  let q := addr (mkMerklePrefix "p/clients") in
  ProxyClientStateKey p "07-ref-0" "connections" =
    Ok "07-ref-0/p/clients/connections/clientState" /\
  ProxyConnectionKey q "07-ref-0" "clientState" =
    ProxyClientStateKey p "07-ref-0" "connections".
Proof. split; reflexivity. Qed.

End Witnesses.
