(* ===== verification/Soundness.v ===== *)
(** Soundness of the proxy: whatever messages are handled, in whatever order and
    with whatever results, the proxy store moves only by committing claims that
    the upstream's light client accepted (refinement of the abstract machine of
    Claims.v), so that every pair in it is accounted for; and a message only
    writes under the path of its own upstream client and prefix. *)
From S2P Require Import Prelude.
From S2P Require Import Lib.
From S2P Require Import Keys.
From S2P Require Import Commitment.
From S2P Require Import Verify.
From S2P Require Import Connection.
From S2P Require Import Channel.
From S2P Require Import PacketFlow.
From S2P Require Import Msgs.
From S2P Require Import Server.
From S2P Require Import Claims.
From S2P Require Import RefLib.
From S2P Require Import Scenario.

Section Handlers.
Context `{T : LibTypes, L : !Lib, I : !ClientMethods ClientState, CK : !ClientKeeperI}.
Context `{LL : !LibLaws}.

(** A relation kept by library calls, and by committing a claim for the clients
    and prefixes of [Q], is kept by every handler working for those. *)
Context (R : relation World) `{!PreOrder R} (Q : string -> Prefix -> Kind -> Prop).
Context (R_ext : forall A (m : M ExtState A), steps R (mext m)).
Context (R_claim : forall up pfx c m,
  Q up pfx (claim_kind c) -> proxies up pfx c m -> steps R m).

Lemma steps_mread {A} (f : ExtState -> outcome A) : steps R (mread f).
Proof. intros w. simpl. reflexivity. Qed.

Lemma steps_GetProxyConnection pfx up id : steps R (GetProxyConnection pfx up id).
Proof.
  intros w. destruct (GetProxyConnection pfx up id w) as [r w'] eqn:H.
  apply GetProxyConnection_run in H as [-> _]. simpl. reflexivity.
Qed.

Lemma steps_GetProxyChannel pfx up port id : steps R (GetProxyChannel pfx up port id).
Proof.
  intros w. destruct (GetProxyChannel pfx up port id w) as [r w'] eqn:H.
  apply GetProxyChannel_run in H as [-> _]. simpl. reflexivity.
Qed.

Hint Resolve R_ext steps_mread steps_GetProxyConnection steps_GetProxyChannel : go_steps.
Hint Extern 2 (steps R (VerifyAndProxyClientState _ _ _ _ _ _)) =>
  eapply R_claim; [|apply VerifyAndProxyClientState_proxies] : go_steps.
Hint Extern 2 (steps R (VerifyAndProxyClientConsensusState _ _ _ _ _ _ _)) =>
  eapply R_claim; [|apply VerifyAndProxyClientConsensusState_proxies] : go_steps.
Hint Extern 2 (steps R (VerifyAndProxyConnectionState _ _ _ _ _ _)) =>
  eapply R_claim; [|apply VerifyAndProxyConnectionState_proxies] : go_steps.
Hint Extern 2 (steps R (VerifyAndProxyChannelState _ _ _ _ _ _ _)) =>
  eapply R_claim; [|apply VerifyAndProxyChannelState_proxies] : go_steps.
Hint Extern 2 (steps R (VerifyAndProxyPacketCommitment _ _ _ _ _ _ _ _ _)) =>
  eapply R_claim; [|apply VerifyAndProxyPacketCommitment_proxies] : go_steps.
Hint Extern 2 (steps R (VerifyAndProxyPacketAcknowledgement _ _ _ _ _ _ _ _ _)) =>
  eapply R_claim; [|apply VerifyAndProxyPacketAcknowledgement_proxies] : go_steps.

Lemma steps_validateSelfClient k cs : steps R (validateSelfClient k cs).
Proof. unfold validateSelfClient. steps_auto. Qed.

Lemma steps_getSelfConsensusState h : steps R (getSelfConsensusState h).
Proof. unfold getSelfConsensusState. steps_auto. Qed.

Hint Resolve steps_validateSelfClient steps_getSelfConsensusState : go_steps.

Lemma steps_produceVerificationArgs k cs h : steps R (produceVerificationArgs k cs h).
Proof. unfold produceVerificationArgs. steps_auto. Qed.

(** The upstream client of a handshake is the one named in the proxy client. *)
Lemma produceVerificationArgs_up k cs h w pcs cons up w' :
  produceVerificationArgs k cs h w = (Ok (pcs, cons, up), w') ->
  cs = CSProxy pcs /\ up = pcs_UpstreamClientId pcs.
Proof.
  unfold produceVerificationArgs. destruct cs as [c|c|c]; intros H; run_ok H;
    try by simplify_eq/=.
Qed.

Lemma steps_Keeper_ClientState up pfx id cs cons p1 p2 h ch :
  Q up pfx KClient -> steps R (Keeper_ClientState up pfx id cs cons p1 p2 h ch).
Proof. intros HQ. unfold Keeper_ClientState. steps_auto. Qed.

Lemma steps_ConnOpenTry k id pfx c dcs dcons pcs p1 p2 p3 h ch p4 p5 ph pch :
  (forall cs kd, pcs = CSProxy cs -> kd = KClient \/ kd = KConnection ->
     Q (pcs_UpstreamClientId cs) pfx kd) ->
  steps R (ConnOpenTry k id pfx c dcs dcons pcs p1 p2 p3 h ch p4 p5 ph pch).
Proof.
  intros HQ w. unfold ConnOpenTry.
  apply steps_mbind_run; [done|apply steps_produceVerificationArgs|].
  intros [[cs cons] up] w1 [-> ->]%produceVerificationArgs_up.
  pose proof (HQ cs KClient eq_refl (or_introl eq_refl)) as HQ1.
  pose proof (HQ cs KConnection eq_refl (or_intror eq_refl)) as HQ2. revert w1.
  match goal with |- forall w1, R w1 (?m w1).2 => change (steps R m) end.
  steps_auto.
Qed.

Lemma steps_ConnOpenAck k id pfx c dcs dcons pcs p1 p2 p3 h ch p4 p5 ph pch :
  (forall cs kd, pcs = CSProxy cs -> kd = KClient \/ kd = KConnection ->
     Q (pcs_UpstreamClientId cs) pfx kd) ->
  steps R (ConnOpenAck k id pfx c dcs dcons pcs p1 p2 p3 h ch p4 p5 ph pch).
Proof.
  intros HQ w. unfold ConnOpenAck.
  apply steps_mbind_run; [done|apply steps_produceVerificationArgs|].
  intros [[cs cons] up] w1 [-> ->]%produceVerificationArgs_up.
  pose proof (HQ cs KClient eq_refl (or_introl eq_refl)) as HQ1.
  pose proof (HQ cs KConnection eq_refl (or_intror eq_refl)) as HQ2. revert w1.
  match goal with |- forall w1, R w1 (?m w1).2 => change (steps R m) end.
  steps_auto.
Qed.

Lemma steps_ConnOpenConfirm id up pfx cid p h :
  Q up pfx KConnection -> steps R (ConnOpenConfirm id up pfx cid p h).
Proof. intros HQ. unfold ConnOpenConfirm. steps_auto. Qed.

Lemma steps_ConnOpenFinalize id up pfx p h :
  Q up pfx KConnection -> steps R (ConnOpenFinalize id up pfx p h).
Proof. intros HQ. unfold ConnOpenFinalize. steps_auto. Qed.

Lemma steps_ChanOpenTry up pfx o hops a b c v p h :
  Q up pfx KChannel -> steps R (ChanOpenTry up pfx o hops a b c v p h).
Proof. intros HQ. unfold ChanOpenTry. steps_auto. Qed.

Lemma steps_ChanOpenAck up pfx o hops a b c d v p h :
  Q up pfx KChannel -> steps R (ChanOpenAck up pfx o hops a b c d v p h).
Proof. intros HQ. unfold ChanOpenAck. steps_auto. Qed.

Lemma steps_ChanOpenConfirm up pfx a b c p h :
  Q up pfx KChannel -> steps R (ChanOpenConfirm up pfx a b c p h).
Proof. intros HQ. unfold ChanOpenConfirm. steps_auto. Qed.

Lemma steps_ChanOpenFinalize up pfx a b p h :
  Q up pfx KChannel -> steps R (ChanOpenFinalize up pfx a b p h).
Proof. intros HQ. unfold ChanOpenFinalize. steps_auto. Qed.

Lemma steps_RecvPacket up pfx pkt p h : Q up pfx KPacket -> steps R (RecvPacket up pfx pkt p h).
Proof. intros HQ. unfold RecvPacket. steps_auto. Qed.

Lemma steps_AcknowledgePacket up pfx pkt a p h :
  Q up pfx KPacket -> steps R (AcknowledgePacket up pfx pkt a p h).
Proof. intros HQ. unfold AcknowledgePacket. steps_auto. Qed.

End Handlers.

Section Messages.
Context `{T : LibTypes, L : !Lib, I : !ClientMethods ClientState, CK : !ClientKeeperI}.
Context `{LL : !LibLaws}.

(** The upstream client and prefix a message works for. *)
Definition scope (m : Msg) (up : string) (pfx : Prefix) : Prop :=
  match m with
  | ClientStateMsg m => up = PCS_UpstreamClientId m /\ pfx = addr (PCS_UpstreamPrefix m)
  | ConnectionOpenTryMsg m =>
      (exists cs, UnpackClientState (COT_ProxyClientState m) = Ok (CSProxy cs) /\
         up = pcs_UpstreamClientId cs) /\ pfx = addr (COT_UpstreamPrefix m)
  | ConnectionOpenAckMsg m =>
      (exists cs, UnpackClientState (COA_ProxyClientState m) = Ok (CSProxy cs) /\
         up = pcs_UpstreamClientId cs) /\ pfx = addr (COA_UpstreamPrefix m)
  | ConnectionOpenConfirmMsg m =>
      up = COC_UpstreamClientId m /\ pfx = addr (COC_UpstreamPrefix m)
  | ConnectionOpenFinalizeMsg m =>
      up = COF_UpstreamClientId m /\ pfx = addr (COF_UpstreamPrefix m)
  | ChannelOpenTryMsg m => up = HOT_UpstreamClientId m /\ pfx = addr (HOT_UpstreamPrefix m)
  | ChannelOpenAckMsg m => up = HOA_UpstreamClientId m /\ pfx = addr (HOA_UpstreamPrefix m)
  | ChannelOpenConfirmMsg m => up = HOC_UpstreamClientId m /\ pfx = addr (HOC_UpstreamPrefix m)
  | ChannelOpenFinalizeMsg m => up = HOF_UpstreamClientId m /\ pfx = addr (HOF_UpstreamPrefix m)
  | RecvPacketMsg m => up = RPK_UpstreamClientId m /\ pfx = addr (RPK_UpstreamPrefix m)
  | AcknowledgePacketMsg m => up = APK_UpstreamClientId m /\ pfx = addr (APK_UpstreamPrefix m)
  end.

Lemma steps_handle (R : relation World) `{!PreOrder R} (Q : string -> Prefix -> Kind -> Prop) k m :
  (forall A (m : M ExtState A), steps R (mext m)) ->
  (forall up pfx c m, Q up pfx (claim_kind c) -> proxies up pfx c m -> steps R m) ->
  (forall up pfx kd, scope m up pfx -> Q up pfx kd) ->
  steps R (handle k m).
Proof.
  intros Hext Hclaim HQ. destruct m as [m|m|m|m|m|m|m|m|m|m|m]; simpl in HQ |- *.
  - unfold ProxyClientState. repeat (apply steps_mbind; [done|apply steps_mlift; done|intros ?]).
    by eapply steps_Keeper_ClientState, HQ.
  - intros w. unfold ProxyConnectionOpenTry. do 2 (apply steps_mbind_run;
      [done|apply steps_mlift; done|intros ? ? [= ? <-]]).
    apply steps_mbind_run; [done|apply steps_mlift; done|intros pcs ? [= Hpcs <-]].
    eapply steps_ConnOpenTry; [done..|]. intros cs kd -> _. apply HQ. eauto.
  - intros w. unfold ProxyConnectionOpenAck. do 2 (apply steps_mbind_run;
      [done|apply steps_mlift; done|intros ? ? [= ? <-]]).
    apply steps_mbind_run; [done|apply steps_mlift; done|intros pcs ? [= Hpcs <-]].
    eapply steps_ConnOpenAck; [done..|]. intros cs kd -> _. apply HQ. eauto.
  - by eapply steps_ConnOpenConfirm, HQ.
  - by eapply steps_ConnOpenFinalize, HQ.
  - by eapply steps_ChanOpenTry, HQ.
  - by eapply steps_ChanOpenAck, HQ.
  - by eapply steps_ChanOpenConfirm, HQ.
  - by eapply steps_ChanOpenFinalize, HQ.
  - by eapply steps_RecvPacket, HQ.
  - by eapply steps_AcknowledgePacket, HQ.
Qed.

(** ** Refinement of the abstract machine *)

Definition refines : relation World := fun w w' => rtc spec_step (w_proxy w) (w_proxy w').

#[export] Instance refines_preorder : PreOrder refines.
Proof. split; [intros w; apply rtc_refl | intros w1 w2 w3; unfold refines; apply transitivity]. Qed.

Lemma mext_refines A (m : M ExtState A) : steps refines (mext m).
Proof. intros w. unfold refines. rewrite mext_proxy. apply rtc_refl. Qed.

Lemma proxies_refines up pfx c m : proxies up pfx c m -> steps refines m.
Proof.
  intros Hm w. destruct (m w) as [r w'] eqn:E. unfold refines; simpl.
  apply Hm in E as [[_ ->]|(_ & Ha & Hc)]; [apply rtc_refl|].
  apply rtc_once. by eapply spec_commit.
Qed.

Lemma handle_refines k m : steps refines (handle k m).
Proof.
  apply (steps_handle refines (fun _ _ _ => True)); [apply mext_refines| |done].
  intros up pfx c m' _. apply proxies_refines.
Qed.

Lemma step_refines k allowed w w' : step k allowed w w' -> refines w w'.
Proof. intros [m w1 _|w1 e']; [apply handle_refines | apply rtc_refl]. Qed.

Lemma reachable_refines k allowed w w' : reachable k allowed w w' -> refines w w'.
Proof.
  induction 1 as [w|w1 w2 w3 H _ IH]; [apply rtc_refl|].
  etransitivity; [by eapply step_refines | done].
Qed.

(** Every pair of the store is accounted for by an accepted claim. *)
Definition all_justified (kv : ProxyKV) : Prop :=
  forall k v, kv_get kv k = Some v -> justified k v.

Lemma spec_step_justified kv kv' : spec_step kv kv' -> all_justified kv -> all_justified kv'.
Proof.
  intros [up pfx c ? ? Ha (b & v & Hb & Hv & ->)] Hkv k' v' Hk.
  destruct (decide (k' = path_head up b +:+ claim_key c)) as [->|Hne].
  - rewrite law_get_set_eq in Hk. injection Hk as <-. by exists up, pfx, b, c.
  - rewrite law_get_set_ne in Hk by done. by apply Hkv.
Qed.

(** ** Isolation *)

(** [k] is a path of the upstream client [up] and the prefix [pfx]. *)
Definition under (up : string) (pfx : Prefix) (k : bytes) : Prop :=
  exists b rest, Prefix_Bytes pfx = Ok b /\ k = path_head up b +:+ rest.

Definition untouched (P : bytes -> Prop) : relation World := fun w w' =>
  forall k, P k -> kv_get (w_proxy w') k = kv_get (w_proxy w) k.

#[export] Instance untouched_preorder P : PreOrder (untouched P).
Proof.
  split; [by intros w k|]. intros w1 w2 w3 H12 H23 k Hk. by rewrite H23, H12.
Qed.

Lemma mext_untouched P A (m : M ExtState A) : steps (untouched P) (mext m).
Proof. intros w k _. by rewrite mext_proxy. Qed.

Lemma proxies_untouched (P : bytes -> Prop) up pfx c m :
  (forall k, P k -> ~ under up pfx k) -> proxies up pfx c m -> steps (untouched P) m.
Proof.
  intros HP Hm w. destruct (m w) as [r w'] eqn:E. intros k Hk; simpl.
  apply Hm in E as [[_ ->]|(_ & _ & b & v & Hb & _ & ->)]; [done|].
  apply law_get_set_ne. intros <-. apply (HP _ Hk). by exists b, (claim_key c).
Qed.

(** * Properties *)

(** C2: the proxy commits nothing that was not verified.  From a store whose
    pairs are accounted for (an empty one, for instance), after any messages
    with any results and any activity of the rest of the chain, every
    key-value pair of the proxy store is the path and the value of a claim
    about the upstream that the upstream's light client on the proxy
    accepted. *)
Theorem proxy_store_sound k allowed w w' :
  all_justified (w_proxy w) -> reachable k allowed w w' -> all_justified (w_proxy w').
Proof.
  intros Hw Hr%reachable_refines. revert Hw. unfold refines in Hr.
  induction Hr as [kv|kv1 kv2 kv3 H _ IH]; [done|].
  intros Hkv. by apply IH, (spec_step_justified kv1).
Qed.

(** The message server implements the abstract machine: the effect of a
    message on the proxy store, success or failure, is a sequence of commits of
    claims accepted by the upstream's light client. *)
Theorem handle_refines_spec k m w r w' :
  handle k m w = (r, w') -> rtc spec_step (w_proxy w) (w_proxy w').
Proof. intros H. pose proof (handle_refines k m w) as Hs. by rewrite H in Hs. Qed.

(** C10: isolation of upstreams: a message leaves every key alone that is not
    under the path of its own upstream client and prefix, whatever its
    result. *)
Theorem handle_isolation k m w r w' key :
  handle k m w = (r, w') ->
  (forall up pfx, scope m up pfx -> ~ under up pfx key) ->
  kv_get (w_proxy w') key = kv_get (w_proxy w) key.
Proof.
  intros H Hkey.
  pose proof (steps_handle (untouched (eq key)) (fun up pfx _ => scope m up pfx) k m) as Hs.
  specialize (Hs (mext_untouched _)). rewrite (eq_refl : w' = (r, w').2), <- H.
  apply Hs; [|done..].
  intros up pfx c m' Hsc. apply proxies_untouched.
  intros ? <-. by apply Hkey.
Qed.

End Messages.

(** ** Witnesses *)
Section Witnesses.

Lemma w0_justified : all_justified (w_proxy w0).
Proof. intros k v. simpl. by rewrite lookup_empty. Qed.

Lemma proxy_store_sound_witness :
  reachable proxy_keeper (fun _ => True) w0 (run whole_flow w0) /\
  is_Some (kv_get (w_proxy (run whole_flow w0))
    "07-ref-0/ibc/commitments/ports/transfer/channels/channel-0/sequences/1") /\
  all_justified (w_proxy (run whole_flow w0)).
Proof.
  assert (reachable proxy_keeper (fun _ => True) w0 (run whole_flow w0)) as Hr.
  { apply run_reachable. by apply Forall_true. }
  split; [exact Hr|]. split; [vm_compute; eauto|].
  apply (@proxy_store_sound _ _ _ _ ref_laws proxy_keeper (fun _ => True) w0 _ w0_justified Hr).
Defined.

Lemma handle_refines_spec_witness :
  exists w', handle proxy_keeper conn_try w0 = (Ok tt, w') /\
    rtc spec_step (w_proxy w0) (w_proxy w').
Proof.
  exists (handle proxy_keeper conn_try w0).2.
  assert (handle proxy_keeper conn_try w0 = (Ok tt, (handle proxy_keeper conn_try w0).2)) as H.
  { apply pair_result. vm_compute. reflexivity. }
  split; [exact H|].
  exact (@handle_refines_spec _ _ _ _ ref_laws proxy_keeper conn_try w0 _ _ H).
Defined.

Lemma handle_isolation_witness :
  exists w', handle proxy_keeper conn_try w0 = (Ok tt, w') /\
    kv_get (w_proxy w') "07-ref-1/ibc/connections/connection-0" =
    kv_get (w_proxy w0) "07-ref-1/ibc/connections/connection-0".
Proof.
  exists (handle proxy_keeper conn_try w0).2.
  assert (handle proxy_keeper conn_try w0 = (Ok tt, (handle proxy_keeper conn_try w0).2)) as H.
  { apply pair_result. vm_compute. reflexivity. }
  split; [exact H|].
  apply (@handle_isolation _ _ _ _ ref_laws proxy_keeper conn_try w0 _ _ _ H).
  intros up pfx ((cs & Hcs & ->) & ->) (b & rest & Hb & Hk).
  vm_compute in Hcs. injection Hcs as <-. injection Hb as <-.
  vm_compute in Hk. discriminate Hk.
Defined.
End Witnesses.
