(* ===== verification/ConnSpec.v ===== *)
(** Functional specifications of the four connection handlers of
    keeper/connection.go: when a call succeeds and with which effect, and which
    error each guard gives. *)
From S2P Require Import Prelude.
From S2P Require Import Lib.
From S2P Require Import Keys.
From S2P Require Import Commitment.
From S2P Require Import Verify.
From S2P Require Import Connection.
From S2P Require Import Msgs.
From S2P Require Import Server.
From S2P Require Import Claims.
From S2P Require Import RefLib.
From S2P Require Import Dispatch.
From S2P Require Import Scenario.
From S2P Require Import Soundness.
From S2P Require ProxyClient.

Section ConnSpec.
Context `{T : LibTypes, L : !Lib, I : !ClientMethods ClientState, CK : !ClientKeeperI}.
Context `{LL : !LibLaws}.

Lemma GetProxyConnection_some pfx up id c w w' :
  GetProxyConnection pfx up id w = (Ok (Some c), w') <->
  w' = w /\ exists b, Prefix_Bytes pfx = Ok b /\ conn_at (w_proxy w) up b id = Some c.
Proof.
  split.
  - intros [-> H]%GetProxyConnection_run. split; [done|]. by apply H.
  - intros (-> & b & Hb & Hc). by eapply GetProxyConnection_eval.
Qed.

(** Nothing is stored for the connection. *)
Definition conn_free (w : World) (up b id : string) : Prop :=
  found_bytes (kv_get (w_proxy w) (path_head up b +:+ ConnectionKey id)) = None.

Lemma conn_free_at w up b id : conn_free w up b id -> conn_at (w_proxy w) up b id = None.
Proof. unfold conn_free, conn_at. by intros ->. Qed.

Lemma GetProxyConnection_none pfx up id w w' :
  GetProxyConnection pfx up id w = (Ok None, w') <->
  w' = w /\ exists b, Prefix_Bytes pfx = Ok b /\ conn_free w up b id.
Proof.
  unfold GetProxyConnection, ProxyStore, mbind, mlift, store_Get, mget, conn_free.
  destruct (Prefix_Bytes pfx) as [b|e|p]; simpl; [|naive_solver..].
  rewrite law_prefix_key. fold (path_head up b).
  destruct (found_bytes _) as [bz|] eqn:E.
  - destruct (cdc_UnmarshalConnection bz); simpl; naive_solver congruence.
  - unfold mret. split; [intros [= <-]; eauto|]. by intros [-> _].
Qed.

(** ** Confirm and Finalize *)

Lemma ConnOpenConfirm_ok id up pfx cid p h w w' :
  ConnOpenConfirm id up pfx cid p h w = (Ok tt, w') <->
  exists b c, Prefix_Bytes pfx = Ok b /\ conn_at (w_proxy w) up b id = Some c /\
    conn_State c = conn_INIT /\
    proxied up pfx (ConnectionClaim id
      (set_Counterparty_ConnectionId cid (set_State conn_OPEN c))) h p 0 w w'.
Proof.
  unfold ConnOpenConfirm. rewrite mbind_Ok. split.
  - intros (o & w1 & Hg & H). destruct o as [c|]; [|done].
    apply GetProxyConnection_some in Hg as (-> & b & Hb & Hc).
    destruct (Z.eqb_spec (conn_State c) conn_INIT) as [Hi|]; simpl in H; [|done].
    apply VerifyAndProxyConnectionState_ok in H. eauto 8.
  - intros (b & c & Hb & Hc & Hi & H). exists (Some c), w.
    rewrite GetProxyConnection_some, Hi. split; [eauto|].
    by apply VerifyAndProxyConnectionState_ok.
Qed.

Lemma ConnOpenFinalize_ok id up pfx p h w w' :
  ConnOpenFinalize id up pfx p h w = (Ok tt, w') <->
  exists b c, Prefix_Bytes pfx = Ok b /\ conn_at (w_proxy w) up b id = Some c /\
    conn_State c = conn_TRYOPEN /\
    proxied up pfx (ConnectionClaim id (set_State conn_OPEN c)) h p 0 w w'.
Proof.
  unfold ConnOpenFinalize. rewrite mbind_Ok. split.
  - intros (o & w1 & Hg & H). destruct o as [c|]; [|done].
    apply GetProxyConnection_some in Hg as (-> & b & Hb & Hc).
    destruct (Z.eqb_spec (conn_State c) conn_TRYOPEN) as [Hi|]; simpl in H; [|done].
    apply VerifyAndProxyConnectionState_ok in H. eauto 8.
  - intros (b & c & Hb & Hc & Hi & H). exists (Some c), w.
    rewrite GetProxyConnection_some, Hi. split; [eauto|].
    by apply VerifyAndProxyConnectionState_ok.
Qed.

(** ** Try and Ack *)

(** What the handshake demands of the proxy client that the downstream chain
    keeps: it tracks this proxy, with this proxy's store names, and its inner
    client of the proxy chain passes the keeper's self check. *)
Definition same_bytes (p q : Prefix) : Prop :=
  exists b, Prefix_Bytes p = Ok b /\ Prefix_Bytes q = Ok b.

Definition tracks_this_proxy (k : Keeper) (pcs : ProxyCS) (e e' : ExtState) : Prop :=
  same_bytes (GetIBCCommitmentPrefix k) (MerklePfx (pcs_IbcPrefix pcs)) /\
  same_bytes (GetProxyCommitmentPrefix k) (MerklePfx (pcs_ProxyPrefix pcs)) /\
  exists inner, UnpackClientState (pcs_ProxyClientState pcs) = Ok inner /\
    ck_ValidateSelfClient inner e = (Ok tt, e').

Lemma same_bytes_guard {A} p q (f : bytes -> bytes -> error) (m : M World A) w a w' :
  mbind (mlift (Prefix_Bytes p)) (fun b1 => mbind (mlift (Prefix_Bytes q)) (fun b2 =>
    if negb (bool_decide (b1 = b2)) then mfail (f b1 b2) else m)) w = (Ok a, w') <->
  same_bytes p q /\ m w = (Ok a, w').
Proof.
  unfold same_bytes. rewrite mlift_bind_Ok. setoid_rewrite mlift_bind_Ok.
  setoid_rewrite guard_Ok. setoid_rewrite bool_decide_eq_true. naive_solver.
Qed.

Lemma mext_ok {A} (m : M ExtState A) w a w' :
  mext m w = (Ok a, w') <-> m (w_ext w) = (Ok a, w_ext w') /\ w_proxy w' = w_proxy w.
Proof.
  split; [apply mext_run|]. unfold mext, mzoom. intros [-> Hp].
  destruct w'. simpl in *. by subst.
Qed.

Lemma validateSelfClient_ok k pcs w w' :
  validateSelfClient k pcs w = (Ok tt, w') <->
  tracks_this_proxy k pcs (w_ext w) (w_ext w') /\ w_proxy w' = w_proxy w.
Proof.
  unfold validateSelfClient, tracks_this_proxy. rewrite !same_bytes_guard, mlift_bind_Ok.
  setoid_rewrite mext_ok. setoid_rewrite must_Ok. naive_solver.
Qed.

(** The consensus state the downstream chain must hold for the proxy. *)
Definition self_consensus (h : Height) (e : ExtState) (cons : ProxyConsS) : Prop :=
  exists c any, ck_GetSelfConsensusState h e = Ok (Some c) /\
    PackConsensusState (Some c) = Ok any /\ cons = mkProxyConsS (Some any).

Lemma getSelfConsensusState_ok h w cons w' :
  getSelfConsensusState h w = (Ok cons, w') <->
  self_consensus h (w_ext w) cons /\ w' = w.
Proof.
  unfold getSelfConsensusState, self_consensus, mread. rewrite mbind_Ok. split.
  - intros ([c|] & w1 & [= Hc <-] & H); [|done].
    apply mlift_bind_Ok in H as (any & Ha & [= <- <-]). eauto 6.
  - intros [(c & any & Hc & Ha & ->) ->]. exists (Some c), w. rewrite Hc.
    split; [done|]. apply mlift_bind_Ok. eauto.
Qed.

Lemma produceVerificationArgs_ok k cs h w pcs cons up w' :
  produceVerificationArgs k cs h w = (Ok (pcs, cons, up), w') <->
  cs = CSProxy pcs /\ up = pcs_UpstreamClientId pcs /\
  tracks_this_proxy k pcs (w_ext w) (w_ext w') /\
  self_consensus h (w_ext w') cons /\ w_proxy w' = w_proxy w.
Proof.
  unfold produceVerificationArgs. destruct cs as [c|c|c].
  - rewrite mbind_Ok. split.
    + intros ([] & w1 & [Ht Hp]%validateSelfClient_ok & H).
      apply mbind_Ok in H as (cons' & w2 & [Hs ->]%getSelfConsensusState_ok & H).
      unfold mret in H. by simplify_eq.
    + intros ([= ->] & -> & Ht & Hs & Hp). exists tt, w'.
      rewrite validateSelfClient_ok. split; [done|].
      apply mbind_Ok. exists cons, w'. by rewrite getSelfConsensusState_ok.
  - rewrite mlift_bind_Ok. split; [by intros (? & _ & ?)|]. by intros [? _].
  - rewrite mlift_bind_Ok. split; [by intros (? & _ & ?)|]. by intros [? _].
Qed.

(** The states of the downstream chain are accepted, in turn, by its own
    light client, on the store the proxied consensus state makes. *)
Definition downstream_accepts (dcs : ClientState) (dcons : ConsensusState)
    (c : ConnectionEnd) (pcs : ProxyCS) (cons : ProxyConsS) (ph pch : Height)
    (p4 p5 : bytes) (e e' : ExtState) : Prop :=
  exists d store e1 e2,
    unwrapMultiv dcs = Ok d /\
    makeMemStore dcons ph e = (Ok store, e1) /\
    cs_VerifyClientState d store ph (MerklePfx (Some (cc_Prefix (conn_Counterparty c))))
      (cc_ClientId (conn_Counterparty c)) p4 (CSProxy pcs) e1 = (Ok tt, e2) /\
    cs_VerifyClientConsensusState d store ph (cc_ClientId (conn_Counterparty c)) pch
      (MerklePfx (Some (cc_Prefix (conn_Counterparty c)))) p5 (ConsProxy cons) e2 =
      (Ok tt, e').

(** The five verifications of a first handshake message, in the order of the
    code, and what is committed. *)
Definition handshake_opened (k : Keeper) (id : string) (pfx : Prefix) (c : ConnectionEnd)
    (dcs : ClientState) (dcons : ConsensusState) (proxyClient : ClientState)
    (p1 p2 p3 : bytes) (h ch : Height) (p4 p5 : bytes) (ph pch : Height)
    (w w' : World) : Prop :=
  exists pcs cons b w1 w2 w3 w4,
    let up := pcs_UpstreamClientId pcs in
    proxyClient = CSProxy pcs /\
    tracks_this_proxy k pcs (w_ext w) (w_ext w1) /\
    self_consensus pch (w_ext w1) cons /\
    w_proxy w1 = w_proxy w /\
    Prefix_Bytes pfx = Ok b /\ conn_free w up b id /\
    proxied up pfx (ClientClaim (conn_ClientId c) dcs) h p2 0 w1 w2 /\
    proxied up pfx (ConsensusClaim (conn_ClientId c) ch dcons) h p3 0 w2 w3 /\
    downstream_accepts dcs dcons c pcs cons ph pch p4 p5 (w_ext w3) (w_ext w4) /\
    w_proxy w4 = w_proxy w3 /\
    proxied up pfx (ConnectionClaim id c) h p1 0 w4 w'.

(** The two handlers run the same body under different state guards. *)
Definition handshake_tail (id : string) (pfx : Prefix) (c : ConnectionEnd)
    (dcs : ClientState) (dcons : ConsensusState) (p1 p2 p3 : bytes) (h ch : Height)
    (p4 p5 : bytes) (ph pch : Height) (pcs : ProxyCS) (cons : ProxyConsS) (up : string) :
    M World unit :=
  VerifyAndProxyClientState up pfx (conn_ClientId c) h p2 dcs ;;*
  VerifyAndProxyClientConsensusState up pfx (conn_ClientId c) h ch p3 dcons ;;*
  let* d := mlift (unwrapMultiv dcs) in
  let* store := mext (makeMemStore dcons ph) in
  mext (cs_VerifyClientState d store ph
         (MerklePfx (Some (cc_Prefix (conn_Counterparty c))))
         (cc_ClientId (conn_Counterparty c)) p4 (CSProxy pcs)) ;;*
  mext (cs_VerifyClientConsensusState d store ph
         (cc_ClientId (conn_Counterparty c)) pch
         (MerklePfx (Some (cc_Prefix (conn_Counterparty c)))) p5 (ConsProxy cons)) ;;*
  VerifyAndProxyConnectionState up pfx c h p1 id.

Lemma downstream_accepts_ok {A} dcs dcons c pcs cons ph pch p4 p5 (m : M World A) w a w' :
  (let* d := mlift (unwrapMultiv dcs) in
   let* store := mext (makeMemStore dcons ph) in
   mext (cs_VerifyClientState d store ph
          (MerklePfx (Some (cc_Prefix (conn_Counterparty c))))
          (cc_ClientId (conn_Counterparty c)) p4 (CSProxy pcs)) ;;*
   mext (cs_VerifyClientConsensusState d store ph
          (cc_ClientId (conn_Counterparty c)) pch
          (MerklePfx (Some (cc_Prefix (conn_Counterparty c)))) p5 (ConsProxy cons)) ;;* m) w
    = (Ok a, w') <->
  exists w1, downstream_accepts dcs dcons c pcs cons ph pch p4 p5 (w_ext w) (w_ext w1) /\
    w_proxy w1 = w_proxy w /\ m w1 = (Ok a, w').
Proof.
  rewrite mlift_bind_Ok. split.
  - intros (d & Hd & H).
    apply mbind_Ok in H as (store & w1 & [Hm Hp1]%mext_ok & H).
    apply mbind_Ok in H as ([] & w2 & [H1 Hp2]%mext_ok & H).
    apply mbind_Ok in H as ([] & w3 & [H2 Hp3]%mext_ok & H).
    exists w3. split; [by exists d, store, (w_ext w1), (w_ext w2)|].
    split; [congruence|done].
  - intros (w1 & (d & store & e1 & e2 & Hd & Hm & H1 & H2) & Hp & H). exists d. split; [done|].
    rewrite mbind_Ok. exists store, (mkWorld e1 (w_proxy w)). rewrite mext_ok. split; [done|].
    rewrite mbind_Ok. exists tt, (mkWorld e2 (w_proxy w)). rewrite mext_ok. split; [done|].
    rewrite mbind_Ok. exists tt, w1. rewrite mext_ok. done.
Qed.

Lemma handshake_tail_ok id pfx c dcs dcons p1 p2 p3 h ch p4 p5 ph pch pcs cons up w w' :
  handshake_tail id pfx c dcs dcons p1 p2 p3 h ch p4 p5 ph pch pcs cons up w = (Ok tt, w') <->
  exists w2 w3 w4,
    proxied up pfx (ClientClaim (conn_ClientId c) dcs) h p2 0 w w2 /\
    proxied up pfx (ConsensusClaim (conn_ClientId c) ch dcons) h p3 0 w2 w3 /\
    downstream_accepts dcs dcons c pcs cons ph pch p4 p5 (w_ext w3) (w_ext w4) /\
    w_proxy w4 = w_proxy w3 /\
    proxied up pfx (ConnectionClaim id c) h p1 0 w4 w'.
Proof.
  unfold handshake_tail. split.
  - intros H.
    apply mbind_Ok in H as ([] & w2 & H2%VerifyAndProxyClientState_ok & H).
    apply mbind_Ok in H as ([] & w3 & H3%VerifyAndProxyClientConsensusState_ok & H).
    apply downstream_accepts_ok in H as (w4 & H4 & Hp & H%VerifyAndProxyConnectionState_ok).
    by exists w2, w3, w4.
  - intros (w2 & w3 & w4 & H2%VerifyAndProxyClientState_ok &
      H3%VerifyAndProxyClientConsensusState_ok & H4 & Hp & H%VerifyAndProxyConnectionState_ok).
    apply mbind_Ok. exists tt, w2. split; [done|].
    apply mbind_Ok. exists tt, w3. split; [done|].
    apply downstream_accepts_ok. by exists w4.
Qed.

Lemma handshake_ok (k : Keeper) id pfx c dcs dcons proxyClient p1 p2 p3 h ch p4 p5 ph pch
    (st : Z) (f : string -> error) e w w' :
  (let* (pcs, pcn, up) := produceVerificationArgs k proxyClient pch in
   let* found := GetProxyConnection pfx up id in
   match found with
   | Some _ => mfail (f up)
   | None => if negb (conn_State c =? st)%Z then mfail e
             else handshake_tail id pfx c dcs dcons p1 p2 p3 h ch p4 p5 ph pch pcs pcn up
   end) w = (Ok tt, w') <->
  conn_State c = st /\
  handshake_opened k id pfx c dcs dcons proxyClient p1 p2 p3 h ch p4 p5 ph pch w w'.
Proof.
  rewrite mbind_Ok. unfold handshake_opened. split.
  - intros ([[pcs pcn] up] & w1 & (-> & -> & Ht & Hs & Hp)%produceVerificationArgs_ok & H).
    apply mbind_Ok in H as ([c0|] & w2 & Hg & H); [done|].
    apply GetProxyConnection_none in Hg as (-> & b & Hb & Hf).
    apply guard_Ok in H as [Hi%Z.eqb_eq H]. split; [done|].
    apply handshake_tail_ok in H as (w2 & w3 & w4 & H).
    exists pcs, pcn, b, w1, w2, w3, w4. unfold conn_free in *. rewrite Hp in Hf. done.
  - intros (Hi & pcs & pcn & b & w1 & w2 & w3 & w4 & -> & Ht & Hs & Hp & Hb & Hf & H).
    exists (pcs, pcn, pcs_UpstreamClientId pcs), w1.
    rewrite produceVerificationArgs_ok. split; [done|].
    rewrite mbind_Ok. exists None, w1. rewrite GetProxyConnection_none.
    unfold conn_free in *. rewrite <- Hp in Hf. split; [eauto|].
    rewrite guard_Ok, Z.eqb_eq. split; [done|].
    apply handshake_tail_ok. by exists w2, w3, w4.
Qed.

Lemma ConnOpenTry_ok k id pfx c dcs dcons pcs p1 p2 p3 h ch p4 p5 ph pch w w' :
  ConnOpenTry k id pfx c dcs dcons pcs p1 p2 p3 h ch p4 p5 ph pch w = (Ok tt, w') <->
  conn_State c = conn_INIT /\
  handshake_opened k id pfx c dcs dcons pcs p1 p2 p3 h ch p4 p5 ph pch w w'.
Proof. apply handshake_ok. Qed.

Lemma ConnOpenAck_ok k id pfx c dcs dcons pcs p1 p2 p3 h ch p4 p5 ph pch w w' :
  ConnOpenAck k id pfx c dcs dcons pcs p1 p2 p3 h ch p4 p5 ph pch w = (Ok tt, w') <->
  conn_State c = conn_TRYOPEN /\
  handshake_opened k id pfx c dcs dcons pcs p1 p2 p3 h ch p4 p5 ph pch w w'.
Proof. apply handshake_ok. Qed.

(** What is read back after a successful commit. *)
Lemma committed_connection_read up pfx id c w w' :
  committed up pfx (ConnectionClaim id c) (w_proxy w) (w_proxy w') ->
  GetProxyConnection pfx up id w' = (Ok (Some c), w').
Proof.
  intros (b & v & Hb & Hv & E). apply GetProxyConnection_some. split; [done|].
  exists b. split; [done|]. rewrite E. by apply conn_at_set_eq.
Qed.

(** * Properties *)

(** C14: a ConnectionOpenTry message (upstream in INIT, downstream about to
    answer) succeeds exactly when its states unpack, the connection is in INIT
    and unknown, the proxy client the downstream keeps tracks this proxy and
    the consensus state it holds is the proxy's own, and the upstream's client
    and then the downstream's accept, in order, the downstream client, its
    consensus state, the downstream's view of this proxy and the connection;
    the client, the consensus state and the connection are then committed. *)
Theorem conn_open_try_spec k m w w' :
  handle k (ConnectionOpenTryMsg m) w = (Ok tt, w') <->
  exists dcs dcons pcs,
    UnpackClientState (COT_DownstreamClientState m) = Ok dcs /\
    UnpackConsensusState (COT_DownstreamConsensusState m) = Ok dcons /\
    UnpackClientState (COT_ProxyClientState m) = Ok pcs /\
    conn_State (COT_Connection m) = conn_INIT /\
    handshake_opened k (COT_ConnectionId m) (MerklePfx (Some (COT_UpstreamPrefix m)))
      (COT_Connection m) dcs dcons pcs (COT_ProofInit m) (COT_ProofClient m)
      (COT_ProofConsensus m) (COT_ProofHeight m) (COT_ConsensusHeight m)
      (COT_ProofProxyClient m) (COT_ProofProxyConsensus m) (COT_ProofProxyHeight m)
      (COT_ProxyConsensusHeight m) w w'.
Proof.
  simpl. unfold ProxyConnectionOpenTry. split.
  - intros (dcs & H1 & (dcons & H2 & (pcs & H3 & H)%mlift_bind_Ok)%mlift_bind_Ok)%mlift_bind_Ok.
    apply ConnOpenTry_ok in H as [Hi H]. by exists dcs, dcons, pcs.
  - intros (dcs & dcons & pcs & H1 & H2 & H3 & Hi & H).
    apply mlift_bind_Ok. exists dcs. split; [done|].
    apply mlift_bind_Ok. exists dcons. split; [done|].
    apply mlift_bind_Ok. exists pcs. split; [done|]. by apply ConnOpenTry_ok.
Qed.

(** C15: a ConnectionOpenAck message (handshake opened by the downstream, upstream
    in TRYOPEN) succeeds exactly under the same verifications, for a connection
    in TRYOPEN. *)
Theorem conn_open_ack_spec k m w w' :
  handle k (ConnectionOpenAckMsg m) w = (Ok tt, w') <->
  exists dcs dcons pcs,
    UnpackClientState (COA_DownstreamClientState m) = Ok dcs /\
    UnpackConsensusState (COA_DownstreamConsensusState m) = Ok dcons /\
    UnpackClientState (COA_ProxyClientState m) = Ok pcs /\
    conn_State (COA_Connection m) = conn_TRYOPEN /\
    handshake_opened k (COA_ConnectionId m) (MerklePfx (Some (COA_UpstreamPrefix m)))
      (COA_Connection m) dcs dcons pcs (COA_ProofTry m) (COA_ProofClient m)
      (COA_ProofConsensus m) (COA_ProofHeight m) (COA_ConsensusHeight m)
      (COA_ProofProxyClient m) (COA_ProofProxyConsensus m) (COA_ProofProxyHeight m)
      (COA_ProxyConsensusHeight m) w w'.
Proof.
  simpl. unfold ProxyConnectionOpenAck. split.
  - intros (dcs & H1 & (dcons & H2 & (pcs & H3 & H)%mlift_bind_Ok)%mlift_bind_Ok)%mlift_bind_Ok.
    apply ConnOpenAck_ok in H as [Hi H]. by exists dcs, dcons, pcs.
  - intros (dcs & dcons & pcs & H1 & H2 & H3 & Hi & H).
    apply mlift_bind_Ok. exists dcs. split; [done|].
    apply mlift_bind_Ok. exists dcons. split; [done|].
    apply mlift_bind_Ok. exists pcs. split; [done|]. by apply ConnOpenAck_ok.
Qed.

(** What a Confirm message asks for and does: the connection is stored in INIT and the
    upstream's client accepts the same connection, OPEN and with the counterparty's
    connection identifier of the message, which replaces the stored one and is
    what is read afterwards. *)
Definition conn_confirmed (m : MsgProxyConnectionOpenConfirm) (w w' : World) : Prop :=
  let up := COC_UpstreamClientId m in
  let pfx := MerklePfx (Some (COC_UpstreamPrefix m)) in
  exists c c', GetProxyConnection pfx up (COC_ConnectionId m) w = (Ok (Some c), w) /\
    conn_State c = conn_INIT /\
    c' = mkConnectionEnd (conn_ClientId c) (conn_Versions c) conn_OPEN
           (mkConnCounterparty (cc_ClientId (conn_Counterparty c))
              (COC_CounterpartyConnectionId m) (cc_Prefix (conn_Counterparty c)))
           (conn_DelayPeriod c) /\
    proxied up pfx (ConnectionClaim (COC_ConnectionId m) c') (COC_ProofHeight m)
      (COC_ProofAck m) 0 w w' /\
    GetProxyConnection pfx up (COC_ConnectionId m) w' = (Ok (Some c'), w').

(** And a Finalize message: from TRYOPEN, with nothing but the state changed *)
Definition conn_finalized (m : MsgProxyConnectionOpenFinalize) (w w' : World) : Prop :=
  let up := COF_UpstreamClientId m in
  let pfx := MerklePfx (Some (COF_UpstreamPrefix m)) in
  exists c c', GetProxyConnection pfx up (COF_ConnectionId m) w = (Ok (Some c), w) /\
    conn_State c = conn_TRYOPEN /\
    c' = mkConnectionEnd (conn_ClientId c) (conn_Versions c) conn_OPEN
           (conn_Counterparty c) (conn_DelayPeriod c) /\
    proxied up pfx (ConnectionClaim (COF_ConnectionId m) c') (COF_ProofHeight m)
      (COF_ProofConfirm m) 0 w w' /\
    GetProxyConnection pfx up (COF_ConnectionId m) w' = (Ok (Some c'), w').

Lemma conn_open_confirm_spec k m w w' :
  handle k (ConnectionOpenConfirmMsg m) w = (Ok tt, w') <-> conn_confirmed m w w'.
Proof.
  unfold conn_confirmed. simpl. unfold ProxyConnectionOpenConfirm. rewrite ConnOpenConfirm_ok.
  setoid_rewrite GetProxyConnection_some at 1. split.
  - intros (b & c & Hb & Hc & Hi & H). exists c. eexists. split; [eauto|].
    split_and!; [done..|]. eapply committed_connection_read, H.
  - intros (c & c' & [_ (b & Hb & Hc)] & Hi & -> & H & _). by exists b, c.
Qed.

Lemma conn_open_finalize_spec k m w w' :
  handle k (ConnectionOpenFinalizeMsg m) w = (Ok tt, w') <-> conn_finalized m w w'.
Proof.
  unfold conn_finalized. simpl. unfold ProxyConnectionOpenFinalize. rewrite ConnOpenFinalize_ok.
  setoid_rewrite GetProxyConnection_some at 1. split.
  - intros (b & c & Hb & Hc & Hi & H). exists c. eexists. split; [eauto|].
    split_and!; [done..|]. eapply committed_connection_read, H.
  - intros (c & c' & [_ (b & Hb & Hc)] & Hi & -> & H & _). by exists b, c.
Qed.

(** The guards of Confirm and Finalize: an unknown connection gives
    ErrConnectionNotFound and a connection in another state
    ErrInvalidConnectionState; no client is asked and nothing changes. *)
Lemma conn_step_errors id up pfx cid p h b w :
  Prefix_Bytes pfx = Ok b ->
  (conn_free w up b id -> forall m, m = ConnOpenConfirm id up pfx cid p h \/
     m = ConnOpenFinalize id up pfx p h ->
     exists e, m w = (Err e, w) /\ error_root e = Sdk ErrConnectionNotFound) /\
  (forall c, conn_at (w_proxy w) up b id = Some c ->
     (conn_State c <> conn_INIT -> exists e,
        ConnOpenConfirm id up pfx cid p h w = (Err e, w) /\
        error_root e = Sdk ErrInvalidConnectionState) /\
     (conn_State c <> conn_TRYOPEN -> exists e,
        ConnOpenFinalize id up pfx p h w = (Err e, w) /\
        error_root e = Sdk ErrInvalidConnectionState)).
Proof.
  intros Hb. split.
  - intros Hf m Hm.
    assert (GetProxyConnection pfx up id w = (Ok None, w)) as Hg
      by (apply GetProxyConnection_none; eauto).
    eexists. destruct Hm as [-> | ->]; [unfold ConnOpenConfirm|unfold ConnOpenFinalize];
      by rewrite (mbind_run _ _ _ _ _ Hg).
  - intros c Hc.
    assert (GetProxyConnection pfx up id w = (Ok (Some c), w)) as Hg
      by (apply GetProxyConnection_some; eauto).
    split; intros Hi%Z.eqb_neq; eexists; [unfold ConnOpenConfirm|unfold ConnOpenFinalize];
      by rewrite (mbind_run _ _ _ _ _ Hg), Hi.
Qed.

(** C16: completing a connection.  A ConnectionOpenConfirm message succeeds exactly when
    the connection is stored in INIT and the upstream's client accepts it OPEN with
    the counterparty's identifier of the message, a ConnectionOpenFinalize
    message exactly when it is stored in TRYOPEN and accepted OPEN; what was
    accepted replaces the stored connection and is what is read afterwards.
    For an unknown connection both give ErrConnectionNotFound and for one in
    another state ErrInvalidConnectionState, without asking any client and
    without any effect. *)
Theorem conn_completion_spec k w :
  (forall m w', handle k (ConnectionOpenConfirmMsg m) w = (Ok tt, w') <-> conn_confirmed m w w') /\
  (forall m w', handle k (ConnectionOpenFinalizeMsg m) w = (Ok tt, w') <-> conn_finalized m w w') /\
  (forall id up pfx cid p h p' h' s b,
     let confirm := ConnectionOpenConfirmMsg
       (mkMsgProxyConnectionOpenConfirm id up pfx cid p h s) in
     let finalize := ConnectionOpenFinalizeMsg
       (mkMsgProxyConnectionOpenFinalize id up pfx p' h' s) in
     let refused m err := exists e, handle k m w = (Err e, w) /\ error_root e = Sdk err in
     Prefix_Bytes (addr pfx) = Ok b ->
     (conn_free w up b id -> refused confirm ErrConnectionNotFound /\
        refused finalize ErrConnectionNotFound) /\
     (forall c, conn_at (w_proxy w) up b id = Some c ->
        (conn_State c <> conn_INIT -> refused confirm ErrInvalidConnectionState) /\
        (conn_State c <> conn_TRYOPEN -> refused finalize ErrInvalidConnectionState))).
Proof.
  split; [intros; apply conn_open_confirm_spec|].
  split; [intros; apply conn_open_finalize_spec|].
  intros id up pfx cid p h p' h' s b confirm finalize refused Hb.
  destruct (conn_step_errors id up (addr pfx) cid p h b w Hb) as [H1 H2].
  destruct (conn_step_errors id up (addr pfx) cid p' h' b w Hb) as [H1' H2'].
  split.
  - intros Hf. split; [apply (H1 Hf); by left|apply (H1' Hf); by right].
  - intros c Hc. split; [apply (H2 c Hc)|apply (H2' c Hc)].
Qed.

(** The calls that leave the proxy store alone. *)
Definition same_store : relation World := fun w w' => w_proxy w' = w_proxy w.

#[export] Instance same_store_preorder : PreOrder same_store.
Proof. split; unfold same_store; [by intros w|congruence]. Qed.

Lemma produceVerificationArgs_store k pcs h : steps same_store (produceVerificationArgs k pcs h).
Proof. apply steps_produceVerificationArgs; [apply _|]. intros A m w. apply mext_proxy. Qed.

(** The first two steps of both handlers when the connection is stored. *)
Lemma replay_fails k pcs h pfx id b c (f : ProxyCS * ProxyConsS * string -> M World unit) w r w' :
  Prefix_Bytes pfx = Ok b ->
  (forall cs, pcs = CSProxy cs ->
     conn_at (w_proxy w) (pcs_UpstreamClientId cs) b id = Some c) ->
  (forall cs pcn up w1, GetProxyConnection pfx up id w1 = (Ok (Some c), w1) ->
     exists e, f (cs, pcn, up) w1 = (Err e, w1)) ->
  mbind (produceVerificationArgs k pcs h) f w = (r, w') ->
  is_ok r = false /\ w_proxy w' = w_proxy w.
Proof.
  intros Hb Hc Hf H. pose proof (produceVerificationArgs_store k pcs h w) as Hs.
  unfold mbind in H.
  destruct (produceVerificationArgs k pcs h w) as [[[[cs pcn] up]|e|p] w1] eqn:E;
    simpl in Hs; [|by simplify_eq/=..].
  apply produceVerificationArgs_up in E as [-> ->].
  destruct (Hf cs pcn (pcs_UpstreamClientId cs) w1) as [e He].
  - apply GetProxyConnection_some. split; [done|]. exists b. rewrite Hs. eauto.
  - rewrite He in H. by simplify_eq/=.
Qed.

(** No handshake is opened twice: when a connection is already stored, a
    first handshake message for it (Try or Ack) fails, whatever it carries, and
    leaves the proxy store as it was. *)
Theorem conn_open_no_overwrite k m id upc w r w' c :
  (exists t, m = ConnectionOpenTryMsg t /\ id = COT_ConnectionId t /\
     upc = (COT_ProxyClientState t, COT_UpstreamPrefix t)) \/
  (exists a, m = ConnectionOpenAckMsg a /\ id = COA_ConnectionId a /\
     upc = (COA_ProxyClientState a, COA_UpstreamPrefix a)) ->
  (forall cs, UnpackClientState upc.1 = Ok (CSProxy cs) ->
     conn_at (w_proxy w) (pcs_UpstreamClientId cs) (KeyPrefix upc.2) id = Some c) ->
  handle k m w = (r, w') ->
  is_ok r = false /\ w_proxy w' = w_proxy w.
Proof.
  intros [(t & -> & -> & ->)|(t & -> & -> & ->)] Hc H; simpl in H, Hc;
    apply mlift_bind_run in H as [[? ->]|(dcs & _ & H)]; try done;
    apply mlift_bind_run in H as [[? ->]|(dcons & _ & H)]; try done;
    apply mlift_bind_run in H as [[? ->]|(pcs & Hu & H)]; try done.
  all: first [unfold ConnOpenTry in H | unfold ConnOpenAck in H];
    eapply replay_fails in H; [exact H|apply law_merkle_bytes| |].
  all: try (intros cs ->; by apply Hc).
  all: intros ? ? ? w1 Hg; eexists; etransitivity; [by eapply mbind_run, Hg|reflexivity].
Qed.

End ConnSpec.

(** ** Witnesses *)
Section Witnesses.

Lemma conn_open_try_spec_witness :
  handle proxy_keeper conn_try w0 = (Ok tt, after conn_try w0) /\
  exists dcs dcons pcs,
    UnpackClientState (pack_client client_B) = Ok dcs /\
    handshake_opened proxy_keeper "connection-0" (MerklePfx (Some ibc)) (conn_A conn_INIT "")
      dcs dcons pcs "" "" "" (h 10) (h 20) "" "" (h 20) (h 5) w0 (after conn_try w0).
Proof.
  assert (handle proxy_keeper conn_try w0 = (Ok tt, after conn_try w0)) as H
    by (apply handled; vm_compute; reflexivity).
  split; [exact H|].
  destruct (proj1 (@conn_open_try_spec _ _ _ _ ref_laws proxy_keeper
    (try_msg "connection-0" (conn_A conn_INIT "")) w0 _) H)
    as (dcs & dcons & pcs & H1 & _ & _ & _ & H2).
  exists dcs, dcons, pcs. split; [exact H1|exact H2].
Defined.

Lemma conn_open_ack_spec_witness :
  handle proxy_keeper conn_ack w0 = (Ok tt, after conn_ack w0) /\
  exists dcs dcons pcs,
    UnpackClientState (pack_client client_B) = Ok dcs /\
    handshake_opened proxy_keeper "connection-9" (MerklePfx (Some ibc))
      (conn_A conn_TRYOPEN "connection-5")
      dcs dcons pcs "" "" "" (h 10) (h 20) "" "" (h 20) (h 5) w0 (after conn_ack w0).
Proof.
  assert (handle proxy_keeper conn_ack w0 = (Ok tt, after conn_ack w0)) as H
    by (apply handled; vm_compute; reflexivity).
  split; [exact H|].
  destruct (proj1 (@conn_open_ack_spec _ _ _ _ ref_laws proxy_keeper
    (ack_msg "connection-9" (conn_A conn_TRYOPEN "connection-5")) w0 _) H)
    as (dcs & dcons & pcs & H1 & _ & _ & _ & H2).
  exists dcs, dcons, pcs. split; [exact H1|exact H2].
Defined.

Definition w1 : World := after conn_try w0.
Definition w2 : World := after conn_ack w0.

(** A's connection is confirmed and B's finalized; an unknown one is not found, and
    Finalize is refused for one that is in INIT. *)
Lemma conn_completion_spec_witness :
  handle proxy_keeper conn_confirm w1 = (Ok tt, after conn_confirm w1) /\
  conn_finalized (mkMsgProxyConnectionOpenFinalize "connection-9" "07-ref-0" ibc "" (h 11)
    "relayer") w2 (after conn_finalize w2) /\
  (exists c, GetProxyConnection (MerklePfx (Some ibc)) "07-ref-0" "connection-0"
      (after conn_confirm w1) = (Ok (Some c), after conn_confirm w1) /\ conn_State c = conn_OPEN) /\
  (exists e, handle proxy_keeper conn_confirm w0 = (Err e, w0) /\
     error_root e = Sdk ErrConnectionNotFound) /\
  (exists e, handle proxy_keeper (ConnectionOpenFinalizeMsg
       (mkMsgProxyConnectionOpenFinalize "connection-0" "07-ref-0" ibc "" (h 11) "relayer")) w1 =
       (Err e, w1) /\ error_root e = Sdk ErrInvalidConnectionState).
Proof.
  assert (handle proxy_keeper conn_confirm w1 = (Ok tt, after conn_confirm w1)) as H
    by (apply handled; vm_compute; reflexivity).
  assert (handle proxy_keeper conn_finalize w2 = (Ok tt, after conn_finalize w2)) as H2
    by (apply handled; vm_compute; reflexivity).
  pose proof (fun w => @conn_completion_spec _ _ _ _ ref_laws proxy_keeper w) as Hspec.
  split; [exact H|]. split; [by apply (proj1 (proj2 (Hspec w2)))|]. split; [|split].
  - destruct (proj1 (proj1 (Hspec w1) _ _) H) as (c & c' & _ & _ & Hc & _ & Hr).
    exists c'. split; [exact Hr|by rewrite Hc].
  - apply (proj2 (proj2 (Hspec w0)) "connection-0" "07-ref-0" ibc "connection-3" "" (h 11) "" (h 11)
      "relayer" "ibc" eq_refl). reflexivity.
  - apply (proj2 (proj2 (Hspec w1)) "connection-0" "07-ref-0" ibc "" "" (h 11) "" (h 11)
      "relayer" "ibc" eq_refl) with (c := conn_A conn_INIT ""); [vm_compute; reflexivity|discriminate].
Defined.

(** The first message of the handshake, sent again. *)
Lemma conn_open_no_overwrite_witness :
  is_ok (handle proxy_keeper conn_try w1).1 = false /\
  w_proxy (handle proxy_keeper conn_try w1).2 = w_proxy w1.
Proof.
  apply (@conn_open_no_overwrite _ _ _ _ ref_laws proxy_keeper conn_try "connection-0"
    (pack_client (CSProxy proxy_cs), ibc) w1 _ _ (conn_A conn_INIT "")).
  - left. exists (try_msg "connection-0" (conn_A conn_INIT "")). repeat split.
  - intros cs Hcs. vm_compute in Hcs. injection Hcs as <-. vm_compute. reflexivity.
  - apply surjective_pairing.
Defined.
End Witnesses.
