(* ===== verification/ChanSpec.v ===== *)
(** Functional specifications of the channel handlers of keeper/channel.go and
    of the packet handlers of keeper/packet.go: when a call succeeds, and with
    which effect. *)
From S2P Require Import Prelude.
From S2P Require Import Lib.
From S2P Require Import Keys.
From S2P Require Import Commitment.
From S2P Require Import Verify.
From S2P Require Import Connection.
From S2P Require Import Channel.
From S2P Require Import PacketFlow.
From S2P Require Import Msgs.
From S2P Require Import Server.
From S2P Require Import Claims.
From S2P Require Import RefLib.
From S2P Require Import Dispatch.
From S2P Require Import Scenario.
From S2P Require Import Soundness.
From S2P Require Import ConnSpec.

Section ChanSpec.
Context `{T : LibTypes, L : !Lib, I : !ClientMethods ClientState, CK : !ClientKeeperI}.
Context `{LL : !LibLaws}.

Lemma GetProxyChannel_some pfx up port id c w w' :
  GetProxyChannel pfx up port id w = (Ok (Some c), w') <->
  w' = w /\ exists b, Prefix_Bytes pfx = Ok b /\ chan_at (w_proxy w) up b port id = Some c.
Proof.
  split.
  - intros [-> H]%GetProxyChannel_run. split; [done|]. by apply H.
  - intros (-> & b & Hb & Hc). by eapply GetProxyChannel_eval.
Qed.

(** The connection under a channel: stored for the same upstream and prefix. *)
Definition hop_connection (w : World) (up : string) (pfx : Prefix) (hop : string)
    (c : ConnectionEnd) : Prop :=
  exists b, Prefix_Bytes pfx = Ok b /\ conn_at (w_proxy w) up b hop = Some c.

Definition stored_channel (w : World) (up : string) (pfx : Prefix) (port id : string)
    (c : Channel) : Prop :=
  exists b, Prefix_Bytes pfx = Ok b /\ chan_at (w_proxy w) up b port id = Some c.

(** A single version, negotiated, that supports the ordering. *)
Definition order_supported (order : Z) (c : ConnectionEnd) : Prop :=
  exists v, conn_Versions c = [v] /\ VerifySupportedFeature v (Order_String order) = true.

Lemma validateChannelOrder_ok order c :
  validateChannelOrder order c = Ok tt <-> order_supported order c.
Proof.
  unfold validateChannelOrder, order_supported.
  destruct (conn_Versions c) as [|v [|v' vs]].
  - split; [done|]. by intros (? & ? & _).
  - destruct (VerifySupportedFeature v (Order_String order)) eqn:E; simpl.
    + split; [by exists v|done].
    + split; [done|]. intros (? & [= <-] & ?). congruence.
  - split; [done|]. by intros (? & ? & _).
Qed.

(** A bind whose first call only reads. *)
Lemma bind_connection_ok {A} pfx up hop (f : option ConnectionEnd -> M World A) w a w' :
  (forall s s', f None s = (Ok a, s') -> False) ->
  mbind (GetProxyConnection pfx up hop) f w = (Ok a, w') <->
  exists c, hop_connection w up pfx hop c /\ f (Some c) w = (Ok a, w').
Proof.
  intros Hn. rewrite mbind_Ok. split.
  - intros ([c|] & w1 & Hg & H); [|by apply Hn in H].
    apply GetProxyConnection_some in Hg as [-> Hc]. by exists c.
  - intros (c & Hc & H). exists (Some c), w. by rewrite GetProxyConnection_some.
Qed.

Lemma bind_channel_ok {A} pfx up port id (f : option Channel -> M World A) w a w' :
  (forall s s', f None s = (Ok a, s') -> False) ->
  mbind (GetProxyChannel pfx up port id) f w = (Ok a, w') <->
  exists c, stored_channel w up pfx port id c /\ f (Some c) w = (Ok a, w').
Proof.
  intros Hn. rewrite mbind_Ok. split.
  - intros ([c|] & w1 & Hg & H); [|by apply Hn in H].
    apply GetProxyChannel_some in Hg as [-> Hc]. by exists c.
  - intros (c & Hc & H). exists (Some c), w. by rewrite GetProxyChannel_some.
Qed.

Lemma hops_one {A} (hops : list string) e (f : string -> M World A) w a w' :
  (if negb (length hops =? 1)%nat then mfail e
   else mbind (mlift (first_hop hops)) f) w = (Ok a, w') <->
  exists hop, hops = [hop] /\ f hop w = (Ok a, w').
Proof.
  rewrite guard_Ok, mlift_bind_Ok, Nat.eqb_eq. split.
  - intros (Hl & hop & Hh & H). exists hop. split; [|done].
    destruct hops as [|? [|]]; simpl in *; [done| |done]. congruence.
  - intros (hop & -> & H). eauto.
Qed.

(** ** Channel handshake *)

Lemma ChanOpenTry_ok up pfx o hops port id dport v p h w w' :
  ChanOpenTry up pfx o hops port id dport v p h w = (Ok tt, w') <->
  exists hop c, hops = [hop] /\ hop_connection w up pfx hop c /\ order_supported o c /\
    proxied up pfx (ChannelClaim port id
      (mkChannel chan_INIT o (mkChanCounterparty dport "") [hop] v)) h p 0 w w'.
Proof.
  unfold ChanOpenTry. rewrite hops_one.
  setoid_rewrite bind_connection_ok; [|done].
  setoid_rewrite mlift_bind_Ok. setoid_rewrite VerifyAndProxyChannelState_ok.
  setoid_rewrite <- validateChannelOrder_ok. split.
  - intros (hop & -> & c & Hc & [] & Ho & H). eauto 8.
  - intros (hop & c & -> & Hc & Ho & H). eauto 8.
Qed.

Lemma ChanOpenAck_ok up pfx o hops port id dport dchan v p h w w' :
  ChanOpenAck up pfx o hops port id dport dchan v p h w = (Ok tt, w') <->
  exists hop c, hops = [hop] /\ hop_connection w up pfx hop c /\
    conn_State c = conn_OPEN /\ order_supported o c /\
    proxied up pfx (ChannelClaim port id
      (mkChannel chan_TRYOPEN o (mkChanCounterparty dport dchan) [hop] v)) h p 0 w w'.
Proof.
  unfold ChanOpenAck. rewrite hops_one.
  setoid_rewrite bind_connection_ok; [|done].
  setoid_rewrite guard_Ok. setoid_rewrite Z.eqb_eq.
  setoid_rewrite mlift_bind_Ok. setoid_rewrite VerifyAndProxyChannelState_ok.
  setoid_rewrite <- validateChannelOrder_ok. split.
  - intros (hop & -> & c & Hc & Hi & [] & Ho & H). eauto 9.
  - intros (hop & c & -> & Hc & Hi & Ho & H). eauto 9.
Qed.

Definition first_of (hops : list string) (hop : string) : Prop := exists rest, hops = hop :: rest.

Lemma first_hop_ok hops hop : first_hop hops = Ok hop <-> first_of hops hop.
Proof. unfold first_of. destruct hops; simpl; naive_solver. Qed.

Lemma ChanOpenConfirm_ok up pfx port id dchan p h w w' :
  ChanOpenConfirm up pfx port id dchan p h w = (Ok tt, w') <->
  exists ch hop c, stored_channel w up pfx port id ch /\
    chan_State ch = chan_INIT /\ chc_ChannelId (chan_Counterparty ch) = "" /\
    first_of (chan_ConnectionHops ch) hop /\ hop_connection w up pfx hop c /\
    conn_State c = conn_OPEN /\
    proxied up pfx (ChannelClaim port id
      (mkChannel chan_OPEN (chan_Ordering ch)
         (mkChanCounterparty (chc_PortId (chan_Counterparty ch)) dchan)
         (chan_ConnectionHops ch) (chan_Version ch))) h p 0 w w'.
Proof.
  unfold ChanOpenConfirm. rewrite bind_channel_ok by done.
  setoid_rewrite guard_Ok. setoid_rewrite guard_Ok. setoid_rewrite mlift_bind_Ok.
  setoid_rewrite bind_connection_ok; [|done]. setoid_rewrite guard_Ok.
  setoid_rewrite bool_decide_eq_true. setoid_rewrite Z.eqb_eq.
  setoid_rewrite first_hop_ok. setoid_rewrite VerifyAndProxyChannelState_ok.
  split.
  - intros (ch & Hch & He & Hi & hop & Hh & c & Hc & Ho & H). by exists ch, hop, c.
  - intros (ch & hop & c & Hch & Hi & He & Hh & Hc & Ho & H). exists ch.
    do 3 (split; [done|]). exists hop. split; [done|]. by exists c.
Qed.

Lemma ChanOpenFinalize_ok up pfx port id p h w w' :
  ChanOpenFinalize up pfx port id p h w = (Ok tt, w') <->
  exists ch hop c, stored_channel w up pfx port id ch /\
    chan_State ch = chan_TRYOPEN /\
    first_of (chan_ConnectionHops ch) hop /\ hop_connection w up pfx hop c /\
    conn_State c = conn_OPEN /\
    proxied up pfx (ChannelClaim port id
      (mkChannel chan_OPEN (chan_Ordering ch) (chan_Counterparty ch)
         (chan_ConnectionHops ch) (chan_Version ch))) h p 0 w w'.
Proof.
  unfold ChanOpenFinalize. rewrite bind_channel_ok by done.
  setoid_rewrite guard_Ok. setoid_rewrite mlift_bind_Ok.
  setoid_rewrite bind_connection_ok; [|done]. setoid_rewrite guard_Ok.
  setoid_rewrite Z.eqb_eq.
  setoid_rewrite first_hop_ok. setoid_rewrite VerifyAndProxyChannelState_ok.
  split.
  - intros (ch & Hch & Hi & hop & Hh & c & Hc & Ho & H). by exists ch, hop, c.
  - intros (ch & hop & c & Hch & Hi & Hh & Hc & Ho & H). exists ch.
    do 2 (split; [done|]). exists hop. split; [done|]. by exists c.
Qed.

(** ** Packets *)

Lemma RecvPacket_ok up pfx pkt p h w w' :
  RecvPacket up pfx pkt p h w = (Ok tt, w') <->
  exists ch hop c,
    stored_channel w up pfx (pkt_SourcePort pkt) (pkt_SourceChannel pkt) ch /\
    chan_Counterparty ch =
      mkChanCounterparty (pkt_DestinationPort pkt) (pkt_DestinationChannel pkt) /\
    first_of (chan_ConnectionHops ch) hop /\ hop_connection w up pfx hop c /\
    proxied up pfx (PacketClaim (pkt_SourcePort pkt) (pkt_SourceChannel pkt)
      (pkt_Sequence pkt) (CommitPacket pkt)) h p (conn_DelayPeriod c) w w'.
Proof.
  unfold RecvPacket. rewrite bind_channel_ok by done.
  setoid_rewrite guard_Ok. setoid_rewrite guard_Ok. setoid_rewrite mlift_bind_Ok.
  setoid_rewrite bind_connection_ok; [|done].
  setoid_rewrite bool_decide_eq_true.
  setoid_rewrite first_hop_ok. setoid_rewrite VerifyAndProxyPacketCommitment_ok.
  split.
  - intros (ch & Hch & Hp & Hd & hop & Hh & c & Hc & H). exists ch, hop, c.
    split_and!; try done. by destruct (chan_Counterparty ch); simpl in *; subst.
  - intros (ch & hop & c & Hch & Hcp & Hh & Hc & H). exists ch. rewrite Hcp.
    do 3 (split; [done|]). exists hop. split; [done|]. by exists c.
Qed.

Lemma AcknowledgePacket_ok up pfx pkt a p h w w' :
  AcknowledgePacket up pfx pkt a p h w = (Ok tt, w') <->
  exists ch hop c,
    stored_channel w up pfx (pkt_DestinationPort pkt) (pkt_DestinationChannel pkt) ch /\
    first_of (chan_ConnectionHops ch) hop /\ hop_connection w up pfx hop c /\
    proxied up pfx (AckClaim (pkt_DestinationPort pkt) (pkt_DestinationChannel pkt)
      (pkt_Sequence pkt) a) h p (conn_DelayPeriod c) w w'.
Proof.
  unfold AcknowledgePacket. rewrite bind_channel_ok by done.
  setoid_rewrite mlift_bind_Ok.
  setoid_rewrite bind_connection_ok; [|done].
  setoid_rewrite first_hop_ok. setoid_rewrite VerifyAndProxyPacketAcknowledgement_ok.
  split.
  - intros (ch & Hch & hop & Hh & c & Hc & H). by exists ch, hop, c.
  - intros (ch & hop & c & Hch & Hh & Hc & H). exists ch.
    split; [done|]. exists hop. split; [done|]. by exists c.
Qed.

(** ** Reading back, and failing atomically *)

Lemma committed_channel_read up pfx port id c w w' :
  committed up pfx (ChannelClaim port id c) (w_proxy w) (w_proxy w') ->
  GetProxyChannel pfx up port id w' = (Ok (Some c), w').
Proof.
  intros (b & v & Hb & Hv & E). apply GetProxyChannel_some. split; [done|].
  exists b. split; [done|]. rewrite E. by apply chan_at_set_eq.
Qed.

(** A call that commits all or nothing. *)
Definition atomic (m : M World unit) : Prop :=
  forall w r w', m w = (r, w') -> r = Ok tt \/ w_proxy w' = w_proxy w.

Lemma atomic_proxies up pfx c m : proxies up pfx c m -> atomic m.
Proof. intros Hm w r w' [[_ H]|[H _]]%Hm; [by right|by left]. Qed.

Lemma atomic_mfail e : atomic (mfail e).
Proof. intros w r w' [= <- <-]. by right. Qed.

Lemma atomic_bind {A} (m : M World A) f :
  steps same_store m -> (forall a, atomic (f a)) -> atomic (mbind m f).
Proof.
  intros Hm Hf w r w' H. specialize (Hm w). unfold mbind in H.
  destruct (m w) as [[a|e|p] w1]; simpl in Hm; [|simplify_eq/=; by right..].
  apply Hf in H as [H|H]; [by left|right]. by rewrite H.
Qed.

Ltac atomic_auto :=
  repeat first
    [ apply atomic_mfail
    | eapply atomic_proxies;
      first [ apply VerifyAndProxyConnectionState_proxies
            | apply VerifyAndProxyChannelState_proxies
            | apply VerifyAndProxyPacketCommitment_proxies
            | apply VerifyAndProxyPacketAcknowledgement_proxies ]
    | apply atomic_bind;
      [ first [ apply steps_GetProxyConnection, _ | apply steps_GetProxyChannel, _
              | apply steps_mlift, _ ] | intros ? ]
    | case_match ].

(** The messages with a single claim. *)
Definition single_claim (m : Msg) : Prop :=
  match m with
  | ClientStateMsg _ | ConnectionOpenTryMsg _ | ConnectionOpenAckMsg _ => False
  | _ => True
  end.

Lemma handle_single_atomic k m : single_claim m -> atomic (handle k m).
Proof.
  destruct m as [m|m|m|m|m|m|m|m|m|m|m]; simpl; try done; intros _.
  - unfold ProxyConnectionOpenConfirm, ConnOpenConfirm. atomic_auto.
  - unfold ProxyConnectionOpenFinalize, ConnOpenFinalize. atomic_auto.
  - unfold ProxyChannelOpenTry, ChanOpenTry. atomic_auto.
  - unfold ProxyChannelOpenAck, ChanOpenAck. atomic_auto.
  - unfold ProxyChannelOpenConfirm, ChanOpenConfirm. atomic_auto.
  - unfold ProxyChannelOpenFinalize, ChanOpenFinalize. atomic_auto.
  - unfold ProxyRecvPacket, RecvPacket. atomic_auto.
  - unfold ProxyAcknowledgePacket, AcknowledgePacket. atomic_auto.
Qed.

(** * Properties *)

(** All or nothing: when a message that carries a single claim (every one
    but ClientState, ConnectionOpenTry and ConnectionOpenAck) does not succeed,
    the proxy store is what it was, without any help of a transaction. *)
Theorem single_claim_atomic k m w r w' :
  single_claim m -> handle k m w = (r, w') -> r <> Ok tt -> w_proxy w' = w_proxy w.
Proof. intros Hm H Hr. by destruct (handle_single_atomic k m Hm w r w' H). Qed.

(** C17: a ChannelOpenTry message (channel in INIT on the upstream) succeeds
    exactly when it names one hop, the connection of that hop is stored for the
    same upstream with a single version that supports the ordering, and the
    upstream's client accepts the channel in INIT with no counterparty channel;
    that channel is committed and is what is read afterwards. *)
Theorem chan_open_try_spec k m w w' :
  let up := HOT_UpstreamClientId m in
  let pfx := MerklePfx (Some (HOT_UpstreamPrefix m)) in
  handle k (ChannelOpenTryMsg m) w = (Ok tt, w') <->
  exists hop c ch, HOT_ConnectionHops m = [hop] /\
    hop_connection w up pfx hop c /\ order_supported (HOT_Order m) c /\
    ch = mkChannel chan_INIT (HOT_Order m) (mkChanCounterparty (HOT_DownstreamPortId m) "")
           [hop] (HOT_Version m) /\
    proxied up pfx (ChannelClaim (HOT_PortId m) (HOT_ChannelId m) ch) (HOT_ProofHeight m)
      (HOT_ProofInit m) 0 w w' /\
    GetProxyChannel pfx up (HOT_PortId m) (HOT_ChannelId m) w' = (Ok (Some ch), w').
Proof.
  intros up pfx. simpl. unfold ProxyChannelOpenTry. rewrite ChanOpenTry_ok. split.
  - intros (hop & c & Hh & Hc & Ho & H). exists hop, c. eexists. split_and!; [done..|].
    eapply committed_channel_read, H.
  - intros (hop & c & ch & Hh & Hc & Ho & -> & H & _). by exists hop, c.
Qed.

(** C18: a ChannelOpenAck message (channel in TRYOPEN on the upstream) succeeds
    exactly under the same conditions and when the connection is OPEN, for the
    channel in TRYOPEN with its counterparty. *)
Theorem chan_open_ack_spec k m w w' :
  let up := HOA_UpstreamClientId m in
  let pfx := MerklePfx (Some (HOA_UpstreamPrefix m)) in
  handle k (ChannelOpenAckMsg m) w = (Ok tt, w') <->
  exists hop c ch, HOA_ConnectionHops m = [hop] /\
    hop_connection w up pfx hop c /\ conn_State c = conn_OPEN /\
    order_supported (HOA_Order m) c /\
    ch = mkChannel chan_TRYOPEN (HOA_Order m)
           (mkChanCounterparty (HOA_DownstreamPortId m) (HOA_DownstreamChannelId m))
           [hop] (HOA_Version m) /\
    proxied up pfx (ChannelClaim (HOA_PortId m) (HOA_ChannelId m) ch) (HOA_ProofHeight m)
      (HOA_ProofTry m) 0 w w' /\
    GetProxyChannel pfx up (HOA_PortId m) (HOA_ChannelId m) w' = (Ok (Some ch), w').
Proof.
  intros up pfx. simpl. unfold ProxyChannelOpenAck. rewrite ChanOpenAck_ok. split.
  - intros (hop & c & Hh & Hc & Hi & Ho & H). exists hop, c. eexists. split_and!; [done..|].
    eapply committed_channel_read, H.
  - intros (hop & c & ch & Hh & Hc & Hi & Ho & -> & H & _). by exists hop, c.
Qed.

(** What a ChannelOpenConfirm message asks for and does: the channel is stored in INIT
    with no counterparty channel, its connection is stored and OPEN, and the
    upstream's client accepts the channel, OPEN and with the counterparty channel
    of the message. *)
Definition chan_confirmed (m : MsgProxyChannelOpenConfirm) (w w' : World) : Prop :=
  let up := HOC_UpstreamClientId m in
  let pfx := MerklePfx (Some (HOC_UpstreamPrefix m)) in
  exists ch hop c ch', stored_channel w up pfx (HOC_PortId m) (HOC_ChannelId m) ch /\
    chan_State ch = chan_INIT /\ chc_ChannelId (chan_Counterparty ch) = "" /\
    first_of (chan_ConnectionHops ch) hop /\ hop_connection w up pfx hop c /\
    conn_State c = conn_OPEN /\
    ch' = mkChannel chan_OPEN (chan_Ordering ch)
            (mkChanCounterparty (chc_PortId (chan_Counterparty ch)) (HOC_DownstreamChannelId m))
            (chan_ConnectionHops ch) (chan_Version ch) /\
    proxied up pfx (ChannelClaim (HOC_PortId m) (HOC_ChannelId m) ch') (HOC_ProofHeight m)
      (HOC_ProofAck m) 0 w w' /\
    GetProxyChannel pfx up (HOC_PortId m) (HOC_ChannelId m) w' = (Ok (Some ch'), w').

(** And a ChannelOpenFinalize message: from TRYOPEN, with nothing but the state changed *)
Definition chan_finalized (m : MsgProxyChannelOpenFinalize) (w w' : World) : Prop :=
  let up := HOF_UpstreamClientId m in
  let pfx := MerklePfx (Some (HOF_UpstreamPrefix m)) in
  exists ch hop c ch', stored_channel w up pfx (HOF_PortId m) (HOF_ChannelId m) ch /\
    chan_State ch = chan_TRYOPEN /\
    first_of (chan_ConnectionHops ch) hop /\ hop_connection w up pfx hop c /\
    conn_State c = conn_OPEN /\
    ch' = mkChannel chan_OPEN (chan_Ordering ch) (chan_Counterparty ch)
            (chan_ConnectionHops ch) (chan_Version ch) /\
    proxied up pfx (ChannelClaim (HOF_PortId m) (HOF_ChannelId m) ch') (HOF_ProofHeight m)
      (HOF_ProofConfirm m) 0 w w' /\
    GetProxyChannel pfx up (HOF_PortId m) (HOF_ChannelId m) w' = (Ok (Some ch'), w').

Lemma chan_open_confirm_spec k m w w' :
  handle k (ChannelOpenConfirmMsg m) w = (Ok tt, w') <-> chan_confirmed m w w'.
Proof.
  unfold chan_confirmed. simpl. unfold ProxyChannelOpenConfirm. rewrite ChanOpenConfirm_ok. split.
  - intros (ch & hop & c & Hch & Hi & He & Hh & Hc & Ho & H). exists ch, hop, c. eexists.
    split_and!; [done..|]. eapply committed_channel_read, H.
  - intros (ch & hop & c & ch' & Hch & Hi & He & Hh & Hc & Ho & -> & H & _).
    by exists ch, hop, c.
Qed.

Lemma chan_open_finalize_spec k m w w' :
  handle k (ChannelOpenFinalizeMsg m) w = (Ok tt, w') <-> chan_finalized m w w'.
Proof.
  unfold chan_finalized. simpl. unfold ProxyChannelOpenFinalize. rewrite ChanOpenFinalize_ok. split.
  - intros (ch & hop & c & Hch & Hi & Hh & Hc & Ho & H). exists ch, hop, c. eexists.
    split_and!; [done..|]. eapply committed_channel_read, H.
  - intros (ch & hop & c & ch' & Hch & Hi & Hh & Hc & Ho & -> & H & _).
    by exists ch, hop, c.
Qed.

(** The guards of both: a channel in another state, and one whose connection is not
    OPEN, are refused. *)
Lemma chan_confirm_refused up pfx port id dchan p h ch w :
  stored_channel w up pfx port id ch ->
  (chan_State ch <> chan_INIT \/ chc_ChannelId (chan_Counterparty ch) <> "" \/
   exists hop c, first_of (chan_ConnectionHops ch) hop /\ hop_connection w up pfx hop c /\
     conn_State c <> conn_OPEN) ->
  exists e, ChanOpenConfirm up pfx port id dchan p h w = (Err e, w).
Proof.
  intros Hch H.
  assert (GetProxyChannel pfx up port id w = (Ok (Some ch), w)) as Hg
    by (by apply GetProxyChannel_some).
  unfold ChanOpenConfirm. rewrite (mbind_run _ _ _ _ _ Hg).
  case_bool_decide as He; [|by eexists]. simpl.
  destruct (Z.eqb_spec (chan_State ch) chan_INIT) as [Hi|]; [|by eexists]. simpl.
  destruct H as [|[|(hop & c & [rest Hh] & Hc & Ho%Z.eqb_neq)]]; [done..|].
  rewrite Hh. simpl.
  assert (GetProxyConnection pfx up hop w = (Ok (Some c), w)) as Hg'
    by (by apply GetProxyConnection_some).
  unfold mbind, mlift. rewrite Hg', Ho. by eexists.
Qed.

Lemma chan_finalize_refused up pfx port id p h ch w :
  stored_channel w up pfx port id ch ->
  (chan_State ch <> chan_TRYOPEN \/
   exists hop c, first_of (chan_ConnectionHops ch) hop /\ hop_connection w up pfx hop c /\
     conn_State c <> conn_OPEN) ->
  exists e, ChanOpenFinalize up pfx port id p h w = (Err e, w).
Proof.
  intros Hch H.
  assert (GetProxyChannel pfx up port id w = (Ok (Some ch), w)) as Hg
    by (by apply GetProxyChannel_some).
  unfold ChanOpenFinalize. rewrite (mbind_run _ _ _ _ _ Hg).
  destruct (Z.eqb_spec (chan_State ch) chan_TRYOPEN) as [Hi|]; [|by eexists]. simpl.
  destruct H as [|(hop & c & [rest Hh] & Hc & Ho%Z.eqb_neq)]; [done..|].
  rewrite Hh. simpl.
  assert (GetProxyConnection pfx up hop w = (Ok (Some c), w)) as Hg'
    by (by apply GetProxyConnection_some).
  unfold mbind, mlift. rewrite Hg', Ho. by eexists.
Qed.

(** C19: completing a channel.  A ChannelOpenConfirm message succeeds exactly when the
    channel is stored in INIT with no counterparty channel, its connection is
    stored and OPEN and the upstream's client accepts the channel OPEN with the
    counterparty channel of the message; a ChannelOpenFinalize message exactly
    when it is stored in TRYOPEN, its connection is OPEN and the client accepts it
    OPEN; what was accepted replaces the stored channel and is what is read
    afterwards.  A channel in another state and one whose connection is not
    OPEN are refused without any effect. *)
Theorem chan_completion_spec k w :
  (forall m w', handle k (ChannelOpenConfirmMsg m) w = (Ok tt, w') <-> chan_confirmed m w w') /\
  (forall m w', handle k (ChannelOpenFinalizeMsg m) w = (Ok tt, w') <-> chan_finalized m w w') /\
  (forall up pfx port id dchan p h p' h' s ch,
     let refused m := exists e, handle k m w = (Err e, w) in
     let closed := exists hop c, first_of (chan_ConnectionHops ch) hop /\
       hop_connection w up (addr pfx) hop c /\ conn_State c <> conn_OPEN in
     stored_channel w up (addr pfx) port id ch ->
     (chan_State ch <> chan_INIT \/ chc_ChannelId (chan_Counterparty ch) <> "" \/ closed ->
        refused (ChannelOpenConfirmMsg
          (mkMsgProxyChannelOpenConfirm up pfx port id dchan p h s))) /\
     (chan_State ch <> chan_TRYOPEN \/ closed ->
        refused (ChannelOpenFinalizeMsg (mkMsgProxyChannelOpenFinalize up pfx port id p' h' s)))).
Proof.
  split; [intros; apply chan_open_confirm_spec|].
  split; [intros; apply chan_open_finalize_spec|].
  intros up pfx port id dchan p h p' h' s ch refused closed Hch.
  split; intros H; [by eapply chan_confirm_refused|by eapply chan_finalize_refused].
Qed.

(** C20: a RecvPacket message succeeds exactly when the packet's source channel
    is stored for the upstream with the packet's destination as counterparty,
    the connection of its first hop is stored, and the upstream's client
    accepts the packet commitment, with the connection's delay; the commitment
    is then committed under the packet's path. *)
Theorem recv_packet_spec k m w w' :
  let up := RPK_UpstreamClientId m in
  let pfx := MerklePfx (Some (RPK_UpstreamPrefix m)) in
  let pkt := RPK_Packet m in
  handle k (RecvPacketMsg m) w = (Ok tt, w') <->
  exists ch hop c,
    stored_channel w up pfx (pkt_SourcePort pkt) (pkt_SourceChannel pkt) ch /\
    chan_Counterparty ch =
      mkChanCounterparty (pkt_DestinationPort pkt) (pkt_DestinationChannel pkt) /\
    first_of (chan_ConnectionHops ch) hop /\ hop_connection w up pfx hop c /\
    proxied up pfx (PacketClaim (pkt_SourcePort pkt) (pkt_SourceChannel pkt)
      (pkt_Sequence pkt) (CommitPacket pkt)) (RPK_ProofHeight m) (RPK_Proof m)
      (conn_DelayPeriod c) w w'.
Proof. intros up pfx pkt. apply RecvPacket_ok. Qed.

(** C21: an AcknowledgePacket message succeeds exactly when the packet's
    destination channel and the connection of its first hop are stored and the
    upstream's client accepts the acknowledgement, with the connection's delay;
    the commitment of the acknowledgement is then committed.  Neither the
    connection nor the channel has to be OPEN, and the packet's source is not
    compared with the channel's counterparty, although the comment in
    AcknowledgePacket says that connection and channel must both be open. *)
Theorem acknowledge_packet_spec k m w w' :
  let up := APK_UpstreamClientId m in
  let pfx := MerklePfx (Some (APK_UpstreamPrefix m)) in
  let pkt := APK_Packet m in
  handle k (AcknowledgePacketMsg m) w = (Ok tt, w') <->
  exists ch hop c,
    stored_channel w up pfx (pkt_DestinationPort pkt) (pkt_DestinationChannel pkt) ch /\
    first_of (chan_ConnectionHops ch) hop /\ hop_connection w up pfx hop c /\
    proxied up pfx (AckClaim (pkt_DestinationPort pkt) (pkt_DestinationChannel pkt)
      (pkt_Sequence pkt) (APK_Acknowledgement m)) (APK_ProofHeight m) (APK_Proof m)
      (conn_DelayPeriod c) w w'.
Proof. intros up pfx pkt. apply AcknowledgePacket_ok. Qed.

(** C22: a ClientState message succeeds exactly when its states unpack and the
    upstream's client accepts the client state, then the consensus state, of
    the counterparty client; both are then committed, in that order. *)
Theorem client_state_spec k m w w' :
  let up := PCS_UpstreamClientId m in
  let pfx := MerklePfx (Some (PCS_UpstreamPrefix m)) in
  handle k (ClientStateMsg m) w = (Ok tt, w') <->
  exists cs cons w1,
    UnpackClientState (PCS_ClientState m) = Ok cs /\
    UnpackConsensusState (PCS_ConsensusState m) = Ok cons /\
    proxied up pfx (ClientClaim (PCS_CounterpartyClientId m) cs) (PCS_ProofHeight m)
      (PCS_ProofClient m) 0 w w1 /\
    proxied up pfx (ConsensusClaim (PCS_CounterpartyClientId m) (PCS_ConsensusHeight m) cons)
      (PCS_ProofHeight m) (PCS_ProofConsensus m) 0 w1 w'.
Proof.
  intros up pfx. simpl. unfold ProxyClientState, Keeper_ClientState. split.
  - intros (cs & H1 & (cons & H2 & H)%mlift_bind_Ok)%mlift_bind_Ok.
    apply mbind_Ok in H as ([] & w1 & H3%VerifyAndProxyClientState_ok & H).
    apply mbind_Ok in H as ([] & w2 & H4%VerifyAndProxyClientConsensusState_ok & H).
    unfold mret in H. simplify_eq. by exists cs, cons, w1.
  - intros (cs & cons & w1 & H1 & H2 & H3%VerifyAndProxyClientState_ok &
      H4%VerifyAndProxyClientConsensusState_ok).
    apply mlift_bind_Ok. exists cs. split; [done|].
    apply mlift_bind_Ok. exists cons. split; [done|].
    apply mbind_Ok. exists tt, w1. split; [done|].
    apply mbind_Ok. by exists tt, w'.
Qed.

End ChanSpec.

(** ** Witnesses *)
Section Witnesses.

Definition world_open : World := run [conn_try; conn_confirm] w0.
Definition world_try : World := run [conn_try; conn_confirm; chan_try] w0.
Definition world_ack : World := run [conn_try; conn_confirm; chan_ack] w0.
Definition world_chans : World :=
  run [conn_try; conn_confirm; chan_try; chan_confirm; chan_ack; chan_finalize] w0.

(** Confirming a channel nobody proxied. *)
Lemma single_claim_atomic_witness :
  (exists e, (handle proxy_keeper chan_confirm w0).1 = Err e) /\
  w_proxy (handle proxy_keeper chan_confirm w0).2 = w_proxy w0.
Proof.
  split; [eexists; vm_compute; reflexivity|].
  apply (@single_claim_atomic _ _ _ _ ref_laws proxy_keeper chan_confirm w0 _ _
    Logic.I (surjective_pairing _)).
  vm_compute. discriminate.
Defined.

Lemma chan_open_try_spec_witness :
  handle proxy_keeper chan_try world_open = (Ok tt, after chan_try world_open) /\
  GetProxyChannel (MerklePfx (Some ibc)) "07-ref-0" "transfer" "channel-0"
    (after chan_try world_open) = (Ok (Some (chan_A chan_INIT "")), after chan_try world_open).
Proof.
  assert (handle proxy_keeper chan_try world_open = (Ok tt, after chan_try world_open)) as H
    by (apply handled; vm_compute; reflexivity).
  split; [exact H|].
  destruct (proj1 (@chan_open_try_spec _ _ _ _ ref_laws proxy_keeper
    (mkMsgProxyChannelOpenTry "07-ref-0" ibc 1 ["connection-0"] "transfer"
       "channel-0" "transfer" "ics20-1" "" (h 11) "relayer") world_open _) H)
    as (hop & c & ch & [= <-] & _ & _ & -> & _ & H2).
  exact H2.
Defined.

Lemma chan_open_ack_spec_witness :
  handle proxy_keeper chan_ack world_open = (Ok tt, after chan_ack world_open) /\
  GetProxyChannel (MerklePfx (Some ibc)) "07-ref-0" "transfer" "channel-8"
    (after chan_ack world_open) =
    (Ok (Some (chan_A chan_TRYOPEN "channel-7")), after chan_ack world_open).
Proof.
  assert (handle proxy_keeper chan_ack world_open = (Ok tt, after chan_ack world_open)) as H
    by (apply handled; vm_compute; reflexivity).
  split; [exact H|].
  destruct (proj1 (@chan_open_ack_spec _ _ _ _ ref_laws proxy_keeper
    (mkMsgProxyChannelOpenAck "07-ref-0" ibc 1 ["connection-0"] "transfer"
       "channel-8" "transfer" "channel-7" "ics20-1" "" (h 11) "relayer") world_open _) H)
    as (hop & c & ch & [= <-] & _ & _ & _ & -> & _ & H2).
  exact H2.
Defined.

(** A's channel is confirmed and B's finalized; a channel that is OPEN is not confirmed
    again. *)
Lemma chan_completion_spec_witness :
  handle proxy_keeper chan_confirm world_try = (Ok tt, after chan_confirm world_try) /\
  chan_finalized (mkMsgProxyChannelOpenFinalize "07-ref-0" ibc "transfer" "channel-8" "" (h 12)
    "relayer") world_ack (after chan_finalize world_ack) /\
  (exists c, GetProxyChannel (MerklePfx (Some ibc)) "07-ref-0" "transfer" "channel-0"
      (after chan_confirm world_try) = (Ok (Some c), after chan_confirm world_try) /\
     chan_State c = chan_OPEN) /\
  (exists e, handle proxy_keeper chan_confirm world_chans = (Err e, world_chans)).
Proof.
  assert (handle proxy_keeper chan_confirm world_try = (Ok tt, after chan_confirm world_try)) as H
    by (apply handled; vm_compute; reflexivity).
  assert (handle proxy_keeper chan_finalize world_ack = (Ok tt, after chan_finalize world_ack)) as H2
    by (apply handled; vm_compute; reflexivity).
  pose proof (fun w => @chan_completion_spec _ _ _ _ ref_laws proxy_keeper w) as Hspec.
  split; [exact H|]. split; [by apply (proj1 (proj2 (Hspec world_ack)))|]. split.
  - destruct (proj1 (proj1 (Hspec world_try) _ _) H)
      as (ch & hop & c & ch' & _ & _ & _ & _ & _ & _ & Hch & _ & Hr).
    exists ch'. split; [exact Hr|by rewrite Hch].
  - apply (proj2 (proj2 (Hspec world_chans)) "07-ref-0" ibc "transfer" "channel-0" "channel-7" ""
      (h 12) "" (h 12) "relayer" (chan_A chan_OPEN "channel-7")).
    + exists "ibc". split; [reflexivity|vm_compute; reflexivity].
    + left. discriminate.
Defined.

Lemma recv_packet_spec_witness :
  handle proxy_keeper recv world_chans = (Ok tt, after recv world_chans) /\
  kv_get (w_proxy (after recv world_chans))
    "07-ref-0/ibc/commitments/ports/transfer/channels/channel-0/sequences/1" =
    Some (CommitPacket packet_A).
Proof.
  assert (handle proxy_keeper recv world_chans = (Ok tt, after recv world_chans)) as H
    by (apply handled; vm_compute; reflexivity).
  split; [exact H|].
  destruct (proj1 (@recv_packet_spec _ _ _ _ ref_laws proxy_keeper
    (mkMsgProxyRecvPacket "07-ref-0" ibc packet_A "" (h 12) "relayer") world_chans _) H)
    as (ch & hop & c & _ & _ & _ & _ & _ & (b & v & [= <-] & [= <-] & E)).
  rewrite E. apply (@law_get_set_eq _ _ _ ref_laws).
Defined.

Lemma acknowledge_packet_spec_witness :
  handle proxy_keeper ack world_chans = (Ok tt, after ack world_chans) /\
  kv_get (w_proxy (after ack world_chans))
    "07-ref-0/ibc/acks/ports/transfer/channels/channel-0/sequences/4" =
    Some (CommitAcknowledgement "ok").
Proof.
  assert (handle proxy_keeper ack world_chans = (Ok tt, after ack world_chans)) as H
    by (apply handled; vm_compute; reflexivity).
  split; [exact H|].
  destruct (proj1 (@acknowledge_packet_spec _ _ _ _ ref_laws proxy_keeper
    (mkMsgProxyAcknowledgePacket "07-ref-0" ibc packet_B "ok" "" (h 12) "relayer")
    world_chans _) H)
    as (ch & hop & c & _ & _ & _ & _ & (b & v & [= <-] & [= <-] & E)).
  rewrite E. apply (@law_get_set_eq _ _ _ ref_laws).
Defined.

Lemma client_state_spec_witness :
  handle proxy_keeper client_msg w0 = (Ok tt, after client_msg w0) /\
  exists w1, proxied "07-ref-0" (MerklePfx (Some ibc)) (ClientClaim "07-ref-1" client_B)
    (h 10) "" 0 w0 w1.
Proof.
  assert (handle proxy_keeper client_msg w0 = (Ok tt, after client_msg w0)) as H
    by (apply handled; vm_compute; reflexivity).
  split; [exact H|].
  destruct (proj1 (@client_state_spec _ _ _ _ ref_laws proxy_keeper
    (mkMsgProxyClientState "07-ref-0" ibc "07-ref-1" (pack_client client_B)
       (any_cons cons_B) "" "" (h 10) (h 20) "relayer") w0 _) H)
    as (cs & cons & w1 & H1 & _ & H2 & _).
  vm_compute in H1. injection H1 as <-. exists w1. exact H2.
Defined.
End Witnesses.
