(* ===== verification/Order.v ===== *)
(** The order of a message's effects, on success and on failure.  Each message
    carries a fixed sequence of claims; a handler commits them in that order,
    each after it was accepted, and stops at the first thing that goes wrong.  So
    what a failed or panicking message leaves behind is known without any
    help of a transaction: a strict initial part of its claims. *)
From S2P Require Import Prelude.
From S2P Require Import Lib.
From S2P Require Import Keys.
From S2P Require Import Commitment.
From S2P Require Import Verify.
From S2P Require Import Connection.
From S2P Require Import Channel.
From S2P Require Import PacketFlow.
From S2P Require Import Msgs.
From S2P Require Import Server.
From S2P Require Import Claims.
From S2P Require Import RefLib.
From S2P Require Import Dispatch.
From S2P Require Import Scenario.
From S2P Require Import Soundness.
From S2P Require Import ConnSpec.
From S2P Require Import ChanSpec.

Section Order.
Context `{T : LibTypes, L : !Lib, I : !ClientMethods ClientState, CK : !ClientKeeperI}.
Context `{LL : !LibLaws}.

(** What a claim is about, apart from its identifiers and its value *)
Inductive Shape :=
| AClient | AConsensus | AConnection | AChannel | APacket | AnAck | AnAbsence | ASequence.

Definition shape (c : Claim) : Shape :=
  match c with
  | ClientClaim _ _ => AClient
  | ConsensusClaim _ _ _ => AConsensus
  | ConnectionClaim _ _ => AConnection
  | ChannelClaim _ _ _ => AChannel
  | PacketClaim _ _ _ _ => APacket
  | AckClaim _ _ _ _ => AnAck
  | ReceiptAbsenceClaim _ _ _ => AnAbsence
  | NextSequenceClaim _ _ _ => ASequence
  end.

(** The claims that a message carries, in their order *)
Definition msg_shapes (m : Msg) : list Shape :=
  match m with
  | ClientStateMsg _ => [AClient; AConsensus]
  | ConnectionOpenTryMsg _ | ConnectionOpenAckMsg _ => [AClient; AConsensus; AConnection]
  | ConnectionOpenConfirmMsg _ | ConnectionOpenFinalizeMsg _ => [AConnection]
  | ChannelOpenTryMsg _ | ChannelOpenAckMsg _
  | ChannelOpenConfirmMsg _ | ChannelOpenFinalizeMsg _ => [AChannel]
  | RecvPacketMsg _ => [APacket]
  | AcknowledgePacketMsg _ => [AnAck]
  end.

(** A sequence of commits of accepted claims of one upstream and prefix *)
Inductive commits (up : string) (pfx : Prefix) : list Claim -> relation ProxyKV :=
| commits_nil kv : commits up pfx [] kv kv
| commits_cons c cs kv kv1 kv2 :
    accepted up pfx c -> committed up pfx c kv kv1 -> commits up pfx cs kv1 kv2 ->
    commits up pfx (c :: cs) kv kv2.

Lemma commits_none up pfx kv kv' : commits up pfx [] kv kv' -> kv' = kv.
Proof. by inversion 1. Qed.

(** [l] is an initial part of [l'] but not all of it. *)
Definition cut_short {A} (l l' : list A) : Prop := exists a rest, l' = l ++ a :: rest.

(** The call commits claims of the shapes [ks] in order: all of them if it succeeds,
    not all of them if it does not. *)
Definition writes (up : string) (pfx : Prefix) (ks : list Shape) (m : M World unit) : Prop :=
  forall w r w', m w = (r, w') -> exists cs,
    commits up pfx cs (w_proxy w) (w_proxy w') /\
    (r = Ok tt -> map shape cs = ks) /\ (is_ok r = false -> cut_short (map shape cs) ks).

Lemma cut_short_nil {A} (l : list A) : l <> [] -> cut_short [] l.
Proof. destruct l as [|a l]; [done|]. by exists a, l. Qed.

Lemma writes_fail up pfx ks e : ks <> [] -> writes up pfx ks (mfail e).
Proof.
  intros Hk w r w' [= <- <-]. exists []. split; [constructor|]. split; [done|].
  intros _. by apply cut_short_nil.
Qed.

(** A call that does not touch the store, before others *)
Lemma writes_read {A} up pfx ks (m : M World A) f :
  steps same_store m -> ks <> [] -> (forall a, writes up pfx ks (f a)) ->
  writes up pfx ks (mbind m f).
Proof.
  intros Hm Hk Hf w r w' H. specialize (Hm w). unfold mbind in H.
  destruct (m w) as [[a|e|p] w1]; simpl in Hm.
  - apply Hf in H. by rewrite Hm in H.
  - injection H as <- <-. exists []. rewrite Hm. split; [constructor|]. split; [done|].
    intros _. by apply cut_short_nil.
  - injection H as <- <-. exists []. rewrite Hm. split; [constructor|]. split; [done|].
    intros _. by apply cut_short_nil.
Qed.

(** A claim, before others *)
Lemma writes_claim up pfx c ks m (f : unit -> M World unit) :
  proxies up pfx c m -> writes up pfx ks (f tt) -> writes up pfx (shape c :: ks) (mbind m f).
Proof.
  intros Hm Hf w r w' H. unfold mbind in H. destruct (m w) as [o w1] eqn:E.
  apply Hm in E as [[Ho E]|(-> & Ha & Hc)].
  - assert (is_ok r = false /\ w_proxy w' = w_proxy w) as [Hr ->]
      by (destruct o; simplify_eq/=; by split).
    exists []. split; [constructor|]. split; [intros ->; discriminate|]. intros _. by exists (shape c), ks.
  - apply Hf in H as (cs & Hcs & Hok & Hno). exists (c :: cs). simpl.
    split; [by econstructor|]. split.
    + intros Hr. by rewrite Hok.
    + intros Hr. destruct (Hno Hr) as (k & rest & ->). by exists k, rest.
Qed.

Lemma writes_done up pfx : writes up pfx [] (mret tt).
Proof. intros w r w' [= <- <-]. exists []. split; [constructor|]. split; [done|discriminate]. Qed.

(** The last claim *)
Lemma writes_last up pfx c m : proxies up pfx c m -> writes up pfx [shape c] m.
Proof.
  intros Hm w r w' [[Hr ->]|(-> & Ha & Hc)]%Hm.
  - exists []. split; [constructor|]. split; [intros ->; discriminate|]. intros _. by exists (shape c), [].
  - exists [c]. split; [by eapply commits_cons; [| |constructor]|]. split; [done|discriminate].
Qed.

Ltac order_step :=
  first
    [ apply writes_done
    | by apply writes_fail
    | eapply (writes_last _ _ (ConnectionClaim _ _)), VerifyAndProxyConnectionState_proxies
    | eapply (writes_last _ _ (ChannelClaim _ _ _)), VerifyAndProxyChannelState_proxies
    | eapply (writes_last _ _ (PacketClaim _ _ _ _)), VerifyAndProxyPacketCommitment_proxies
    | eapply (writes_last _ _ (AckClaim _ _ _ _)), VerifyAndProxyPacketAcknowledgement_proxies
    | eapply (writes_claim _ _ (ClientClaim _ _)); [apply VerifyAndProxyClientState_proxies|]
    | eapply (writes_claim _ _ (ConsensusClaim _ _ _));
        [apply VerifyAndProxyClientConsensusState_proxies|]
    | apply writes_read;
        [ first [ apply steps_GetProxyConnection, _ | apply steps_GetProxyChannel, _
                | apply steps_mlift, _ | intros ?; apply mext_proxy ]
        | done | intros ? ]
    | case_match ].

Ltac in_order := repeat order_step.

(** The same for some upstream and prefix of [P], from a given state *)
Definition writes_for (P : string -> Prefix -> Prop) (ks : list Shape) (m : M World unit)
    (w : World) : Prop :=
  forall r w', m w = (r, w') -> exists up pfx cs, (cs = [] \/ P up pfx) /\
    commits up pfx cs (w_proxy w) (w_proxy w') /\
    (r = Ok tt -> map shape cs = ks) /\ (is_ok r = false -> cut_short (map shape cs) ks).

Lemma writes_for_intro (P : string -> Prefix -> Prop) up pfx ks m w :
  P up pfx -> writes up pfx ks m -> writes_for P ks m w.
Proof.
  intros HP Hm r w' (cs & Hc & Hok & Hno)%Hm. exists up, pfx, cs.
  split; [by right|done].
Qed.

Lemma writes_for_read {A} P ks (m : M World A) f w :
  steps same_store m -> ks <> [] ->
  (forall a w1, m w = (Ok a, w1) -> writes_for P ks (f a) w1) -> writes_for P ks (mbind m f) w.
Proof.
  intros Hm Hk Hf r w' H. specialize (Hm w). unfold mbind in H.
  destruct (m w) as [[a|e|p] w1] eqn:E; simpl in Hm.
  - specialize (Hf a w1 eq_refl r w' H). by rewrite Hm in Hf.
  - injection H as <- <-. exists "", (addr (mkMerklePrefix "")), []. rewrite Hm.
    split; [by left|]. split; [constructor|]. split; [done|]. intros _. by apply cut_short_nil.
  - injection H as <- <-. exists "", (addr (mkMerklePrefix "")), []. rewrite Hm.
    split; [by left|]. split; [constructor|]. split; [done|]. intros _. by apply cut_short_nil.
Qed.

(** ConnOpenTry and ConnOpenAck, for the upstream that the proxy client names *)
Lemma ConnOpenTry_in_order (P : string -> Prefix -> Prop) k id pfx c dcs dcons pcs p1 p2 p3 h ch
    p4 p5 ph pch w :
  (forall cs, pcs = CSProxy cs -> P (pcs_UpstreamClientId cs) pfx) ->
  writes_for P [AClient; AConsensus; AConnection]
    (ConnOpenTry k id pfx c dcs dcons pcs p1 p2 p3 h ch p4 p5 ph pch) w.
Proof.
  intros HP. unfold ConnOpenTry.
  apply writes_for_read; [apply produceVerificationArgs_store|done|].
  intros [[cs cons] up] w1 [Hcs ->]%produceVerificationArgs_up.
  eapply writes_for_intro; [by apply HP|]. in_order.
Qed.

Lemma ConnOpenAck_in_order (P : string -> Prefix -> Prop) k id pfx c dcs dcons pcs p1 p2 p3 h ch
    p4 p5 ph pch w :
  (forall cs, pcs = CSProxy cs -> P (pcs_UpstreamClientId cs) pfx) ->
  writes_for P [AClient; AConsensus; AConnection]
    (ConnOpenAck k id pfx c dcs dcons pcs p1 p2 p3 h ch p4 p5 ph pch) w.
Proof.
  intros HP. unfold ConnOpenAck.
  apply writes_for_read; [apply produceVerificationArgs_store|done|].
  intros [[cs cons] up] w1 [Hcs ->]%produceVerificationArgs_up.
  eapply writes_for_intro; [by apply HP|]. in_order.
Qed.

Ltac unpack := apply writes_for_read; [apply steps_mlift, _|done|intros ? ? [= ? <-]].

Lemma handle_in_order k m w : writes_for (scope m) (msg_shapes m) (handle k m) w.
Proof.
  destruct m as [m|m|m|m|m|m|m|m|m|m|m]; simpl msg_shapes; cbn [handle].
  - unfold ProxyClientState, Keeper_ClientState. do 2 unpack.
    eapply writes_for_intro; [by split|]. in_order.
  - unfold ProxyConnectionOpenTry. do 3 unpack. apply ConnOpenTry_in_order.
    intros cs ->. split; [by eexists|done].
  - unfold ProxyConnectionOpenAck. do 3 unpack. apply ConnOpenAck_in_order.
    intros cs ->. split; [by eexists|done].
  - eapply writes_for_intro; [by split|].
    unfold ProxyConnectionOpenConfirm, ConnOpenConfirm. in_order.
  - eapply writes_for_intro; [by split|].
    unfold ProxyConnectionOpenFinalize, ConnOpenFinalize. in_order.
  - eapply writes_for_intro; [by split|]. unfold ProxyChannelOpenTry, ChanOpenTry. in_order.
  - eapply writes_for_intro; [by split|]. unfold ProxyChannelOpenAck, ChanOpenAck. in_order.
  - eapply writes_for_intro; [by split|].
    unfold ProxyChannelOpenConfirm, ChanOpenConfirm. in_order.
  - eapply writes_for_intro; [by split|].
    unfold ProxyChannelOpenFinalize, ChanOpenFinalize. in_order.
  - eapply writes_for_intro; [by split|]. unfold ProxyRecvPacket, RecvPacket. in_order.
  - eapply writes_for_intro; [by split|].
    unfold ProxyAcknowledgePacket, AcknowledgePacket. in_order.
Qed.

(** * Property *)

(** C23: messages take effect in order, and stop where they fail.  Whatever the result
    of a message - success, an error or a panic, in any state - its effect on the
    proxy store is a sequence of commits of claims accepted by the light client of
    its own upstream, under its own prefix: the client state, then the consensus
    state, then the connection, as far as the message carries them.  The message
    succeeds exactly when it committed all of its claims; otherwise what stays is
    a strict initial part, which is nothing for the eight messages that carry a
    single claim. *)
Theorem messages_take_effect_in_order k m w r w' :
  handle k m w = (r, w') ->
  exists up pfx cs,
    (cs = [] \/ scope m up pfx) /\ commits up pfx cs (w_proxy w) (w_proxy w') /\
    (r = Ok tt <-> map shape cs = msg_shapes m) /\
    (r <> Ok tt <-> cut_short (map shape cs) (msg_shapes m)) /\
    (single_claim m -> r <> Ok tt -> w_proxy w' = w_proxy w).
Proof.
  intros H. destruct (handle_in_order k m w r w' H) as (up & pfx & cs & HP & Hc & Hok & Hno).
  assert (r = Ok tt \/ is_ok r = false) as Hr by (destruct r as [[]|e|p]; auto).
  assert (cut_short (map shape cs) (msg_shapes m) -> map shape cs <> msg_shapes m) as Hne.
  { intros (a & rest & E) E'. rewrite E' in E. apply (f_equal length) in E.
    rewrite length_app in E. simpl in E. lia. }
  exists up, pfx, cs. split_and!; [done|done|..].
  - split; [done|]. intros E. destruct Hr as [Hr|Hr]; [done|]. by destruct (Hne (Hno Hr)).
  - split; [intros Hn; by destruct Hr as [Hr|Hr]; [|apply Hno]|].
    intros Hs ->. by apply (Hne Hs), Hok.
  - intros Hm Hn. destruct Hr as [Hr|Hr]; [done|]. destruct (Hno Hr) as (a & rest & E).
    assert (length (msg_shapes m) = 1) as Hl by (by destruct m).
    rewrite E, length_app in Hl. simpl in Hl. destruct cs as [|c cs]; [|simpl in Hl; lia].
    by eapply commits_none.
Qed.
End Order.

(** ** Witness: a ConnectionOpenTry whose consensus state is not on A at the height it
    gives: the client state stays, the rest does not. *)
Section Witness.

Definition conn_try_wrong : Msg :=
  ConnectionOpenTryMsg (mkMsgProxyConnectionOpenTry "connection-0" ibc (conn_A conn_INIT "")
    (pack_client client_B) (any_cons cons_B) (pack_client (CSProxy proxy_cs)) "" "" ""
    (h 10) (h 21) "" "" (h 20) (h 5) "relayer").

Lemma messages_take_effect_in_order_witness :
  (exists e, (handle proxy_keeper conn_try_wrong w0).1 = Err e) /\
  is_Some (kv_get (w_proxy (after conn_try_wrong w0)) "07-ref-0/ibc/clients/07-ref-1/clientState") /\
  exists up pfx cs, cs <> [] /\
    commits up pfx cs (w_proxy w0) (w_proxy (after conn_try_wrong w0)) /\
    cut_short (map shape cs) [AClient; AConsensus; AConnection].
Proof.
  assert (exists e, (handle proxy_keeper conn_try_wrong w0).1 = Err e) as [e He]
    by (eexists; vm_compute; reflexivity).
  assert (is_Some (kv_get (w_proxy (after conn_try_wrong w0))
    "07-ref-0/ibc/clients/07-ref-1/clientState")) as Hk by (eexists; vm_compute; reflexivity).
  split; [by exists e|]. split; [exact Hk|].
  destruct (@messages_take_effect_in_order _ _ _ _ ref_laws proxy_keeper conn_try_wrong w0 (Err e)
    (after conn_try_wrong w0)) as (up & pfx & cs & _ & Hc & _ & Hno & _); [by apply pair_result|].
  exists up, pfx, cs. split; [|split; [exact Hc|by apply Hno]].
  intros ->. rewrite (commits_none _ _ _ _ Hc) in Hk. destruct Hk as [v Hv]. discriminate Hv.
Defined.
End Witness.
