(* ===== verification/Handshake.v ===== *)
(** The connection handshake as a state machine over every history of messages:
    what a proxied connection can become, and the functional behaviour of the
    four handlers of keeper/connection.go. *)
From S2P Require Import Prelude.
From S2P Require Import Lib.
From S2P Require Import Keys.
From S2P Require Import Commitment.
From S2P Require Import Verify.
From S2P Require Import Connection.
From S2P Require Import Channel.
From S2P Require Import PacketFlow.
From S2P Require Import Msgs.
From S2P Require Import Server.
From S2P Require Import Claims.
From S2P Require Import RefLib.
From S2P Require Import Scenario.
From S2P Require Import Soundness.
From S2P Require ProxyClient.

(** * The contract: the moves of a connection *)

Inductive conn_step : option ConnectionEnd -> option ConnectionEnd -> Prop :=
| step_new c :
    conn_State c = conn_INIT \/ conn_State c = conn_TRYOPEN -> conn_step None (Some c)
| step_confirm c id :
    conn_State c = conn_INIT ->
    conn_step (Some c) (Some (set_Counterparty_ConnectionId id (set_State conn_OPEN c)))
| step_finalize c :
    conn_State c = conn_TRYOPEN -> conn_step (Some c) (Some (set_State conn_OPEN c)).

Definition conn_evolves : relation (option ConnectionEnd) := rtc conn_step.

Lemma conn_open_stuck c o :
  conn_State c = conn_OPEN -> conn_evolves (Some c) o -> o = Some c.
Proof.
  intros Hc H. inversion H as [|? y ? Hs]; subst; [done|].
  inversion Hs; subst; unfold conn_INIT, conn_TRYOPEN, conn_OPEN in *; congruence.
Qed.

(** The fields no move changes. *)
Definition same_identity (c c' : ConnectionEnd) : Prop :=
  conn_ClientId c = conn_ClientId c' /\ conn_Versions c = conn_Versions c' /\
  conn_DelayPeriod c = conn_DelayPeriod c' /\
  cc_ClientId (conn_Counterparty c) = cc_ClientId (conn_Counterparty c') /\
  cc_Prefix (conn_Counterparty c) = cc_Prefix (conn_Counterparty c').

Lemma conn_evolves_identity o o' c :
  conn_evolves o o' -> o = Some c ->
  exists c', o' = Some c' /\ same_identity c c' /\ (c' = c \/ conn_State c' = conn_OPEN).
Proof.
  intros H. revert c. induction H as [o|o1 o2 o3 H12 H23 IH]; intros c ->.
  - exists c. unfold same_identity. eauto 10.
  - inversion H12 as [|c1 id Hc|c1 Hc]; subst;
      destruct (IH _ eq_refl) as (c' & -> & (?&?&?&?&?) & Hst); exists c';
      unfold same_identity; simpl in *; repeat split; try congruence;
      right; by destruct Hst as [-> | ?].
Qed.

Section Evolution.
Context `{T : LibTypes, L : !Lib, I : !ClientMethods ClientState, CK : !ClientKeeperI}.
Context `{LL : !LibLaws}.

(** Paths that can be read back: no "/" in the client identifier and the prefix. *)
Definition separated (up b : string) : Prop := no_char "/" up = true /\ no_char "/" b = true.

Definition separated_prefix (pfx : Prefix) : Prop :=
  forall b, Prefix_Bytes pfx = Ok b -> no_char "/" b = true.

Definition conn_frame : relation World := fun w w' =>
  forall up b id, separated up b ->
    conn_at (w_proxy w') up b id = conn_at (w_proxy w) up b id.

Definition conns_evolve : relation World := fun w w' =>
  forall up b id, separated up b ->
    conn_evolves (conn_at (w_proxy w) up b id) (conn_at (w_proxy w') up b id).

#[export] Instance conn_frame_preorder : PreOrder conn_frame.
Proof.
  split; [by intros w ?|]. intros w1 w2 w3 H12 H23 up b id Hs. by rewrite H23, H12.
Qed.

#[export] Instance conns_evolve_preorder : PreOrder conns_evolve.
Proof.
  split; [intros w ????; apply rtc_refl|]. intros w1 w2 w3 H12 H23 up b id Hs.
  unfold conn_evolves. etransitivity; [by apply H12 | by apply H23].
Qed.

Lemma frame_evolves w w' : conn_frame w w' -> conns_evolve w w'.
Proof. intros H up b id Hs. rewrite (H up b id Hs). apply rtc_refl. Qed.

Lemma mext_frame A (m : M ExtState A) : steps conn_frame (mext m).
Proof. intros w up b id _. by rewrite mext_proxy. Qed.

Lemma accepted_up up pfx c : accepted up pfx c -> no_char "/" up = true.
Proof. intros (? & ? & ? & ? & ? & ? & H & _). by eapply law_client_id. Qed.

(** The paths of the other claims are never paths of connections. *)
Lemma claim_key_not_connection c id :
  claim_kind c <> KConnection -> claim_key c <> ConnectionKey id.
Proof.
  rewrite law_ConnectionKey. intros Hk.
  destruct c as [?|?|?|?|p c n ?|p c n ?|p c n|p c n]; simpl in *; try done.
  - by rewrite law_FullClientStateKey.
  - by rewrite law_FullConsensusStateKey.
  - by rewrite law_ChannelKey.
  - by destruct (law_PacketCommitmentKey p c n) as [r ->].
  - by destruct (law_PacketAcknowledgementKey p c n) as [r ->].
  - by destruct (law_PacketReceiptKey p c n) as [r ->].
  - by destruct (law_NextSequenceRecvKey p c) as [r ->].
Qed.

Lemma commit_frame up pfx c w w' :
  separated_prefix pfx -> claim_kind c <> KConnection -> accepted up pfx c ->
  committed up pfx c (w_proxy w) (w_proxy w') -> conn_frame w w'.
Proof.
  intros Hp Hk Ha%accepted_up (b & v & Hb & _ & Heq) up' b' id [Hu' Hb'].
  rewrite Heq. apply conn_at_set_ne. intros H.
  apply path_head_inj in H as (_ & _ & H); [|by auto..].
  by apply (claim_key_not_connection _ _ Hk) in H.
Qed.

Lemma proxies_frame up pfx c m :
  separated_prefix pfx -> claim_kind c <> KConnection -> proxies up pfx c m ->
  steps conn_frame m.
Proof.
  intros Hp Hk Hm w. destruct (m w) as [r w'] eqn:E.
  apply Hm in E as [[_ E]|(_ & Ha & Hc)]; simpl; [|by eapply commit_frame].
  intros up' b' id _. by rewrite E.
Qed.

(** Committing a connection is a move, when the guard holds where it is read. *)
Lemma proxies_connection_evolves up pfx id c' m w :
  separated_prefix pfx -> proxies up pfx (ConnectionClaim id c') m ->
  (forall b, Prefix_Bytes pfx = Ok b ->
     conn_step (conn_at (w_proxy w) up b id) (Some c')) ->
  conns_evolve w (m w).2.
Proof.
  intros Hp Hm Hg. destruct (m w) as [r w'] eqn:E.
  apply Hm in E as [[_ E]|(_ & Ha%accepted_up & b & v & Hb & Hv & E)];
    intros up' b' id' [Hu' Hb']; simpl; rewrite E; [apply rtc_refl|].
  destruct (decide (path_head up b +:+ ConnectionKey id =
                    path_head up' b' +:+ ConnectionKey id')) as [H|H].
  - apply path_head_inj in H as (<- & <- & H); [|by auto..].
    rewrite !law_ConnectionKey in H. apply app_str_inj_l in H as <-.
    simpl. rewrite (conn_at_set_eq _ _ _ _ _ _ Hv). apply rtc_once. by apply Hg.
  - simpl. rewrite conn_at_set_ne by done. apply rtc_refl.
Qed.

(** ** The handlers *)

Definition other_kinds (up : string) (pfx : Prefix) (kd : Kind) : Prop :=
  separated_prefix pfx /\ kd <> KConnection.

Lemma frame_claim up pfx c m :
  other_kinds up pfx (claim_kind c) -> proxies up pfx c m -> steps conn_frame m.
Proof. intros [? ?]. by apply proxies_frame. Qed.

(** Prove a goal [conns_evolve w (m w').2] along the calls of [m] that leave
    the connections alone. *)
Ltac frame_step :=
  lazymatch goal with
  | HF : conn_frame ?w ?w1 |- conns_evolve ?w (mbind ?m ?f ?w1).2 =>
      apply (steps_frame_bind _ conn_frame m f w w1 HF);
        [ | exact (frame_evolves w) | let w2 := fresh "w" in
            intros ? w2 ?HF; clear HF ]
  end.

Lemma ConnOpen_tail_evolves up pfx id c h p w w1 :
  separated_prefix pfx ->
  (forall b, Prefix_Bytes pfx = Ok b -> conn_at (w_proxy w) up b id = None) ->
  conn_State c = conn_INIT \/ conn_State c = conn_TRYOPEN ->
  conn_frame w w1 ->
  conns_evolve w (VerifyAndProxyConnectionState up pfx c h p id w1).2.
Proof.
  intros Hp Hnone Hc HF. etransitivity; [by apply frame_evolves|].
  destruct (VerifyAndProxyConnectionState up pfx c h p id w1) as [r w'] eqn:E.
  pose proof (VerifyAndProxyConnectionState_proxies up pfx c h p id) as Hm.
  destruct (Hm _ _ _ E) as [[_ E']|(_ & Ha%accepted_up & b & v & Hb & _)].
  - intros up' b' id' _. simpl. rewrite E'. apply rtc_refl.
  - replace w' with (VerifyAndProxyConnectionState up pfx c h p id w1).2 by (by rewrite E).
    simpl. eapply proxies_connection_evolves; [done..|].
    intros b' Hb'. assert (b' = b) as -> by congruence.
    rewrite (HF up b id) by (split; auto). rewrite (Hnone b Hb). by constructor.
Qed.

Lemma GetProxyConnection_bind {A} pfx up id (f : option ConnectionEnd -> M World A) w :
  (forall o b, Prefix_Bytes pfx = Ok b -> conn_at (w_proxy w) up b id = o ->
     conns_evolve w (f o w).2) ->
  conns_evolve w (mbind (GetProxyConnection pfx up id) f w).2.
Proof.
  intros Hf. unfold mbind. destruct (GetProxyConnection pfx up id w) as [r w'] eqn:E.
  apply GetProxyConnection_run in E as [-> E].
  destruct r as [o|e|p]; [|reflexivity..].
  destruct (E o eq_refl) as (b & Hb & Ho). by eapply Hf.
Qed.

Lemma ConnOpenTry_evolves k id pfx c dcs dcons pcs p1 p2 p3 h ch p4 p5 ph pch :
  separated_prefix pfx ->
  steps conns_evolve (ConnOpenTry k id pfx c dcs dcons pcs p1 p2 p3 h ch p4 p5 ph pch).
Proof.
  intros Hp w. unfold ConnOpenTry. apply steps_mbind_run; [apply _| |].
  { eapply steps_produceVerificationArgs; [apply _|]. intros A m w'.
    apply frame_evolves, mext_frame. }
  intros [[cs cons] up] w1 _. apply GetProxyConnection_bind.
  intros [c0|] b Hb Hnone; [reflexivity|].
  destruct (Z.eqb_spec (conn_State c) conn_INIT) as [Hc|]; simpl; [|reflexivity].
  assert (conn_frame w1 w1) as HF by reflexivity.
  frame_step; [eapply frame_claim, VerifyAndProxyClientState_proxies; by split|].
  frame_step; [eapply frame_claim, VerifyAndProxyClientConsensusState_proxies; by split|].
  frame_step; [apply steps_mlift, _|]. do 3 (frame_step; [apply mext_frame|]).
  apply ConnOpen_tail_evolves; [done| |by left|done].
  intros b' Hb'. by assert (b' = b) as -> by congruence.
Qed.

Lemma ConnOpenAck_evolves k id pfx c dcs dcons pcs p1 p2 p3 h ch p4 p5 ph pch :
  separated_prefix pfx ->
  steps conns_evolve (ConnOpenAck k id pfx c dcs dcons pcs p1 p2 p3 h ch p4 p5 ph pch).
Proof.
  intros Hp w. unfold ConnOpenAck. apply steps_mbind_run; [apply _| |].
  { eapply steps_produceVerificationArgs; [apply _|]. intros A m w'.
    apply frame_evolves, mext_frame. }
  intros [[cs cons] up] w1 _. apply GetProxyConnection_bind.
  intros [c0|] b Hb Hnone; [reflexivity|].
  destruct (Z.eqb_spec (conn_State c) conn_TRYOPEN) as [Hc|]; simpl; [|reflexivity].
  assert (conn_frame w1 w1) as HF by reflexivity.
  frame_step; [eapply frame_claim, VerifyAndProxyClientState_proxies; by split|].
  frame_step; [eapply frame_claim, VerifyAndProxyClientConsensusState_proxies; by split|].
  frame_step; [apply steps_mlift, _|]. do 3 (frame_step; [apply mext_frame|]).
  apply ConnOpen_tail_evolves; [done| |by right|done].
  intros b' Hb'. by assert (b' = b) as -> by congruence.
Qed.

Lemma ConnOpenConfirm_evolves id up pfx cid p h :
  separated_prefix pfx -> steps conns_evolve (ConnOpenConfirm id up pfx cid p h).
Proof.
  intros Hp w. unfold ConnOpenConfirm. apply GetProxyConnection_bind.
  intros [c|] b Hb Hc; [|reflexivity].
  destruct (Z.eqb_spec (conn_State c) conn_INIT) as [Hi|]; simpl; [|reflexivity].
  eapply proxies_connection_evolves; [done|apply VerifyAndProxyConnectionState_proxies|].
  intros b' Hb'. assert (b' = b) as -> by congruence. rewrite Hc. by constructor.
Qed.

Lemma ConnOpenFinalize_evolves id up pfx p h :
  separated_prefix pfx -> steps conns_evolve (ConnOpenFinalize id up pfx p h).
Proof.
  intros Hp w. unfold ConnOpenFinalize. apply GetProxyConnection_bind.
  intros [c|] b Hb Hc; [|reflexivity].
  destruct (Z.eqb_spec (conn_State c) conn_TRYOPEN) as [Hi|]; simpl; [|reflexivity].
  eapply proxies_connection_evolves; [done|apply VerifyAndProxyConnectionState_proxies|].
  intros b' Hb'. assert (b' = b) as -> by congruence. rewrite Hc. by constructor.
Qed.

(** ** Every message, every history *)

Definition upstream_prefix (m : Msg) : MerklePrefix :=
  match m with
  | ClientStateMsg m => PCS_UpstreamPrefix m
  | ConnectionOpenTryMsg m => COT_UpstreamPrefix m
  | ConnectionOpenAckMsg m => COA_UpstreamPrefix m
  | ConnectionOpenConfirmMsg m => COC_UpstreamPrefix m
  | ConnectionOpenFinalizeMsg m => COF_UpstreamPrefix m
  | ChannelOpenTryMsg m => HOT_UpstreamPrefix m
  | ChannelOpenAckMsg m => HOA_UpstreamPrefix m
  | ChannelOpenConfirmMsg m => HOC_UpstreamPrefix m
  | ChannelOpenFinalizeMsg m => HOF_UpstreamPrefix m
  | RecvPacketMsg m => RPK_UpstreamPrefix m
  | AcknowledgePacketMsg m => APK_UpstreamPrefix m
  end.

(** A message whose upstream prefix has no "/". *)
Definition separated_msg (m : Msg) : Prop :=
  no_char "/" (KeyPrefix (upstream_prefix m)) = true.

Lemma separated_msg_prefix m : separated_msg m -> separated_prefix (addr (upstream_prefix m)).
Proof. intros H b. unfold addr. rewrite law_merkle_bytes. by intros [= <-]. Qed.

Lemma mext_evolve A (m : M ExtState A) : steps conns_evolve (mext m).
Proof. intros w. apply frame_evolves, mext_frame. Qed.

Lemma claim_evolve up pfx c m :
  other_kinds up pfx (claim_kind c) -> proxies up pfx c m -> steps conns_evolve m.
Proof. intros HQ Hm w. by eapply frame_evolves, frame_claim. Qed.

Lemma handle_evolves k m : separated_msg m -> steps conns_evolve (handle k m).
Proof.
  intros Hm%separated_msg_prefix.
  assert (forall kd, kd <> KConnection -> forall up,
    other_kinds up (addr (upstream_prefix m)) kd) as HQ by (intros; by split).
  pose proof mext_evolve as HE. pose proof claim_evolve as HC.
  destruct m as [m|m|m|m|m|m|m|m|m|m|m]; simpl in Hm, HQ |- *.
  - unfold ProxyClientState. do 2 (apply steps_mbind; [apply _|apply steps_mlift, _|intros ?]).
    eapply steps_Keeper_ClientState; [apply _|done..|]. by apply HQ.
  - do 3 (apply steps_mbind; [apply _|apply steps_mlift, _|intros ?]).
    by apply ConnOpenTry_evolves.
  - do 3 (apply steps_mbind; [apply _|apply steps_mlift, _|intros ?]).
    by apply ConnOpenAck_evolves.
  - by apply ConnOpenConfirm_evolves.
  - by apply ConnOpenFinalize_evolves.
  - eapply steps_ChanOpenTry; [apply _|done..|]. by apply HQ.
  - eapply steps_ChanOpenAck; [apply _|done..|]. by apply HQ.
  - eapply steps_ChanOpenConfirm; [apply _|done..|]. by apply HQ.
  - eapply steps_ChanOpenFinalize; [apply _|done..|]. by apply HQ.
  - eapply steps_RecvPacket; [apply _|done..|]. by apply HQ.
  - eapply steps_AcknowledgePacket; [apply _|done..|]. by apply HQ.
Qed.

Lemma reachable_evolves k allowed w w' :
  (forall m, allowed m -> separated_msg m) -> reachable k allowed w w' -> conns_evolve w w'.
Proof.
  intros Hall. induction 1 as [w|w1 w2 w3 H _ IH]; [reflexivity|].
  etransitivity; [|exact IH]. destruct H as [m w1 Hm|w1 e']; [by apply handle_evolves, Hall|].
  by apply frame_evolves.
Qed.

(** * Properties *)

(** C4: the life of a connection.  Over every history of messages whose
    upstream prefixes have no "/", whatever their order and results, what is
    stored for a connection only moves from nothing to INIT or TRYOPEN, from
    INIT to OPEN with the counterparty's identifier filled in, and from
    TRYOPEN to OPEN; its client, versions, delay period and the counterparty's
    client and prefix are fixed by its first message; and once OPEN it is final:
    nothing changes or removes it. *)
Theorem connection_lifecycle k allowed w w' up b id :
  (forall m, allowed m -> separated_msg m) -> reachable k allowed w w' ->
  no_char "/" up = true -> no_char "/" b = true ->
  conn_evolves (conn_at (w_proxy w) up b id) (conn_at (w_proxy w') up b id) /\
  (forall c, conn_at (w_proxy w) up b id = Some c ->
     exists c', conn_at (w_proxy w') up b id = Some c' /\ same_identity c c' /\
       (c' = c \/ conn_State c' = conn_OPEN)) /\
  (forall c, conn_at (w_proxy w) up b id = Some c -> conn_State c = conn_OPEN ->
     conn_at (w_proxy w') up b id = Some c).
Proof.
  intros Hall Hr Hu Hb. pose proof (reachable_evolves k allowed w w' Hall Hr) as He.
  split; [by apply He|]. split.
  - intros c Hc. eapply conn_evolves_identity; [by apply He|done].
  - intros c Hc Ho. apply (conn_open_stuck c); [done|]. rewrite <- Hc. by apply He.
Qed.

End Evolution.

(** ** Witnesses: the whole flow of Scenario.v *)
Section Witnesses.

Lemma whole_flow_separated : Forall separated_msg whole_flow.
Proof. repeat constructor. Qed.

Definition flow_end : World := run whole_flow w0.
Definition conn_open_A : ConnectionEnd := conn_A conn_OPEN "connection-3".

Definition w2' : World := run [conn_try; conn_confirm] w0.
Definition later : list Msg := [conn_try; conn_ack; conn_confirm; chan_try; chan_confirm; recv].

Lemma later_separated : Forall separated_msg later.
Proof. repeat constructor. Qed.

Lemma connection_lifecycle_witness :
  conn_at (w_proxy flow_end) "07-ref-0" "ibc" "connection-0" = Some conn_open_A /\
  conn_evolves (conn_at (w_proxy w0) "07-ref-0" "ibc" "connection-0")
    (conn_at (w_proxy flow_end) "07-ref-0" "ibc" "connection-0") /\
  conn_at (w_proxy w2') "07-ref-0" "ibc" "connection-0" = Some conn_open_A /\
  conn_at (w_proxy (run later w2')) "07-ref-0" "ibc" "connection-0" = Some conn_open_A.
Proof.
  assert (conn_at (w_proxy w2') "07-ref-0" "ibc" "connection-0" = Some conn_open_A) as H
    by (vm_compute; reflexivity).
  split; [vm_compute; reflexivity|]. split; [|split; [exact H|]].
  - apply (@connection_lifecycle _ _ _ _ ref_laws proxy_keeper separated_msg w0 flow_end);
      [tauto|apply run_reachable, whole_flow_separated|reflexivity|reflexivity].
  - refine (proj2 (proj2 (@connection_lifecycle _ _ _ _ ref_laws proxy_keeper separated_msg w2'
      (run later w2') "07-ref-0" "ibc" "connection-0" _ _ eq_refl eq_refl)) _ H eq_refl);
      [tauto|apply run_reachable, later_separated].
Defined.

End Witnesses.
