(* ===== verification/ChannelInv.v ===== *)
(** Channels over every history of messages: a channel beyond INIT always sits
    on an OPEN connection; and the two liberties the handlers take, shown on
    concrete flows (a proxied channel falls back to INIT; a packet is proxied
    for a channel that is not OPEN). *)
From S2P Require Import Prelude.
From S2P Require Import Lib.
From S2P Require Import Keys.
From S2P Require Import Commitment.
From S2P Require Import Verify.
From S2P Require Import Connection.
From S2P Require Import Channel.
From S2P Require Import PacketFlow.
From S2P Require Import Msgs.
From S2P Require Import Server.
From S2P Require Import Claims.
From S2P Require Import RefLib.
From S2P Require Import Dispatch.
From S2P Require Import Scenario.
From S2P Require Import Soundness.
From S2P Require Import ConnSpec.
From S2P Require Import ChanSpec.
From S2P Require Import Handshake.

Section Invariant.
Context `{T : LibTypes, L : !Lib, I : !ClientMethods ClientState, CK : !ClientKeeperI}.
Context `{LL : !LibLaws}.

(** The connection of the channel's first hop is stored, and OPEN. *)
Definition on_open_connection (kv : ProxyKV) (up b : string) (ch : Channel) : Prop :=
  exists hop c, first_of (chan_ConnectionHops ch) hop /\ conn_at kv up b hop = Some c /\
    conn_State c = conn_OPEN.

Definition channel_inv (w : World) : Prop :=
  forall up b port id ch, separated up b ->
    chan_at (w_proxy w) up b port id = Some ch -> chan_State ch <> chan_INIT ->
    on_open_connection (w_proxy w) up b ch.

Definition chan_frame : relation World := fun w w' =>
  forall up b port id, separated up b ->
    chan_at (w_proxy w') up b port id = chan_at (w_proxy w) up b port id.

#[export] Instance chan_frame_preorder : PreOrder chan_frame.
Proof.
  split; [by intros w ?|]. intros w1 w2 w3 H12 H23 up b port id Hs. by rewrite H23, H12.
Qed.

Lemma claim_key_not_channel c port id :
  claim_kind c <> KChannel -> claim_key c <> ChannelKey port id.
Proof.
  rewrite law_ChannelKey. intros Hk.
  destruct c as [?|?|?|?|p c n ?|p c n ?|p c n|p c n]; simpl in *; try done.
  - by rewrite law_FullClientStateKey.
  - by rewrite law_FullConsensusStateKey.
  - by rewrite law_ConnectionKey.
  - by destruct (law_PacketCommitmentKey p c n) as [r ->].
  - by destruct (law_PacketAcknowledgementKey p c n) as [r ->].
  - by destruct (law_PacketReceiptKey p c n) as [r ->].
  - by destruct (law_NextSequenceRecvKey p c) as [r ->].
Qed.

Lemma claim_chan_frame up pfx c m :
  separated_prefix pfx /\ claim_kind c <> KChannel -> proxies up pfx c m ->
  steps chan_frame m.
Proof.
  intros [Hp Hk] Hm w. destruct (m w) as [r w'] eqn:E.
  apply Hm in E as [[_ E]|(_ & Ha%accepted_up & b & v & Hb & _ & E)];
    intros up' b' port id [Hu' Hb']; simpl; rewrite E; [done|].
  apply chan_at_set_ne. intros H.
  apply path_head_inj in H as (_ & _ & H); [|by auto..].
  by apply (claim_key_not_channel _ _ _ Hk) in H.
Qed.

Lemma mext_chan_frame A (m : M ExtState A) : steps chan_frame (mext m).
Proof. intros w up b port id _. by rewrite mext_proxy. Qed.

(** OPEN connections stay, so frames keep the invariant. *)
Lemma on_open_connection_evolves w w' up b ch :
  separated up b -> conns_evolve w w' ->
  on_open_connection (w_proxy w) up b ch -> on_open_connection (w_proxy w') up b ch.
Proof.
  intros Hs He (hop & c & Hh & Hc & Ho). exists hop, c. split; [done|]. split; [|done].
  apply (conn_open_stuck c); [done|]. rewrite <- Hc. by apply He.
Qed.

Lemma channel_inv_frame w w' :
  chan_frame w w' -> conns_evolve w w' -> channel_inv w -> channel_inv w'.
Proof.
  intros Hf He Hi up b port id ch Hs Hc Hst. rewrite (Hf up b port id Hs) in Hc.
  eapply on_open_connection_evolves; [done..|]. by eapply Hi.
Qed.

Lemma channel_inv_commit up pfx port id ch w w' :
  separated_prefix pfx -> no_char "/" up = true -> conns_evolve w w' ->
  committed up pfx (ChannelClaim port id ch) (w_proxy w) (w_proxy w') ->
  (chan_State ch <> chan_INIT -> forall b, Prefix_Bytes pfx = Ok b ->
     on_open_connection (w_proxy w) up b ch) ->
  channel_inv w -> channel_inv w'.
Proof.
  intros Hp Hup He (b & v & Hb & Hv & E) Hch Hi up' b' port' id' ch' Hs Hc Hst.
  pose proof Hs as [Hu' Hb']. eapply on_open_connection_evolves; [done..|].
  rewrite E in Hc. simpl in Hc.
  destruct (decide (path_head up b +:+ ChannelKey port id =
                    path_head up' b' +:+ ChannelKey port' id')) as [H|H].
  - apply path_head_inj in H as (<- & <- & H); [|by auto..].
    unfold chan_at in Hc. rewrite <- H in Hc.
    fold (chan_at (kv_set (path_head up b +:+ ChannelKey port id) v (w_proxy w))
            up b port id) in Hc.
    rewrite (chan_at_set_eq _ _ _ _ _ _ _ Hv) in Hc. injection Hc as <-. by apply Hch.
  - rewrite chan_at_set_ne in Hc by done. by eapply Hi.
Qed.

(** The channel a message of the channel handshake names: upstream client, port
    and channel identifier. *)
Definition channel_of (m : Msg) : option (string * string * string) :=
  match m with
  | ChannelOpenTryMsg m => Some (HOT_UpstreamClientId m, HOT_PortId m, HOT_ChannelId m)
  | ChannelOpenAckMsg m => Some (HOA_UpstreamClientId m, HOA_PortId m, HOA_ChannelId m)
  | ChannelOpenConfirmMsg m => Some (HOC_UpstreamClientId m, HOC_PortId m, HOC_ChannelId m)
  | ChannelOpenFinalizeMsg m => Some (HOF_UpstreamClientId m, HOF_PortId m, HOF_ChannelId m)
  | _ => None
  end.

(** The other messages commit claims of the other kinds only, so they keep any
    relation that those keep. *)
Lemma other_msg_steps (R : relation World) `{!PreOrder R} k m :
  (forall A (m : M ExtState A), steps R (mext m)) ->
  (forall up pfx c m, separated_prefix pfx /\ claim_kind c <> KChannel ->
     proxies up pfx c m -> steps R m) ->
  separated_msg m -> channel_of m = None -> steps R (handle k m).
Proof.
  intros HE HC Hm%separated_msg_prefix Hc.
  set (Q := fun (_ : string) (pfx : Prefix) kd => separated_prefix pfx /\ kd <> KChannel).
  assert (forall up kd, kd <> KChannel -> Q up (addr (upstream_prefix m)) kd) as HQ by done.
  change (forall up pfx c m, Q up pfx (claim_kind c) -> proxies up pfx c m -> steps R m) in HC.
  destruct m as [m|m|m|m|m|m|m|m|m|m|m]; simpl in Hm, HQ |- *; try done.
  - do 2 (apply steps_mbind; [apply _|apply steps_mlift, _|intros ?]).
    eapply (steps_Keeper_ClientState R Q); [done..|]. by apply HQ.
  - do 3 (apply steps_mbind; [apply _|apply steps_mlift, _|intros ?]).
    eapply (steps_ConnOpenTry R Q); [done..|]. intros cs kd _ Hkd. apply HQ.
    by destruct Hkd as [-> | ->].
  - do 3 (apply steps_mbind; [apply _|apply steps_mlift, _|intros ?]).
    eapply (steps_ConnOpenAck R Q); [done..|]. intros cs kd _ Hkd. apply HQ.
    by destruct Hkd as [-> | ->].
  - eapply (steps_ConnOpenConfirm R Q); [done..|]. by apply HQ.
  - eapply (steps_ConnOpenFinalize R Q); [done..|]. by apply HQ.
  - eapply (steps_RecvPacket R Q); [done..|]. by apply HQ.
  - eapply (steps_AcknowledgePacket R Q); [done..|]. by apply HQ.
Qed.

Lemma other_msg_chan_frame k m :
  separated_msg m -> channel_of m = None -> steps chan_frame (handle k m).
Proof. apply other_msg_steps; [apply _|apply mext_chan_frame|apply claim_chan_frame]. Qed.

(** A channel message that succeeds commits one channel: of one hop, or with the
    hops the channel had; and beyond INIT its connection is OPEN. *)
Definition commits_channel (pfx : Prefix) (channel : string * string * string) (w w' : World) :
    Prop :=
  let '(up, port, id) := channel in
  exists ch h p, proxied up pfx (ChannelClaim port id ch) h p 0 w w' /\
    ((exists hop, chan_ConnectionHops ch = [hop]) \/
     (exists ch0, stored_channel w up pfx port id ch0 /\
        chan_ConnectionHops ch = chan_ConnectionHops ch0)) /\
    (chan_State ch <> chan_INIT -> exists hop c, first_of (chan_ConnectionHops ch) hop /\
        hop_connection w up pfx hop c /\ conn_State c = conn_OPEN).

Lemma channel_msg_commits k m channel w w' :
  channel_of m = Some channel -> handle k m w = (Ok tt, w') ->
  commits_channel (addr (upstream_prefix m)) channel w w'.
Proof.
  destruct m as [m|m|m|m|m|m|m|m|m|m|m]; simpl; intros [= <-] E.
  - apply ChanOpenTry_ok in E as (hop & c & _ & _ & _ & H). do 3 eexists.
    split; [exact H|]. split; [by left; eexists|]. intros Hne. by destruct Hne.
  - apply ChanOpenAck_ok in E as (hop & c & Hh & Hc' & Ho & _ & H). do 3 eexists.
    split; [exact H|]. split; [by left; eexists|]. intros _. exists hop, c. by split; [exists []|].
  - apply ChanOpenConfirm_ok in E as (ch & hop & c & Hs & _ & _ & Hh & Hc' & Ho & H).
    do 3 eexists. split; [exact H|]. split; [by right; eexists|]. intros _. by exists hop, c.
  - apply ChanOpenFinalize_ok in E as (ch & hop & c & Hs & _ & Hh & Hc' & Ho & H).
    do 3 eexists. split; [exact H|]. split; [by right; eexists|]. intros _. by exists hop, c.
Qed.

(** A channel message succeeds, committing a channel, or leaves the store. *)
Lemma channel_msg_cases k m channel w :
  channel_of m = Some channel ->
  let w' := (handle k m w).2 in
  commits_channel (addr (upstream_prefix m)) channel w w' \/ w_proxy w' = w_proxy w.
Proof.
  intros Hc w'. assert (single_claim m) as Hs by (by destruct m).
  pose proof (handle_single_atomic k m Hs w) as Ha. unfold w'.
  destruct (handle k m w) as [r w1] eqn:E. simpl.
  destruct (Ha _ _ eq_refl) as [-> | Hsame]; [left|by right]. by eapply channel_msg_commits.
Qed.

Lemma channel_msg_inv k m channel w :
  separated_msg m -> channel_of m = Some channel ->
  channel_inv w -> channel_inv (handle k m w).2.
Proof.
  intros Hm Hc Hi. pose proof (separated_msg_prefix m Hm) as Hp.
  pose proof (handle_evolves k m Hm w) as He.
  destruct channel as [[up port] id]. destruct (channel_msg_cases k m _ w Hc) as
    [(ch & h & p & [(target & Ht & _) Hk] & _ & Hst)|Hsame].
  - eapply channel_inv_commit; [exact Hp|by eapply law_client_id|exact He|exact Hk| |done].
    intros Hne b Hb. destruct (Hst Hne) as (hop & c & Hh & (b' & Hb' & Hcon) & Ho).
    exists hop, c. assert (b' = b) as -> by congruence. done.
  - eapply channel_inv_frame; [|done..]. intros up' b' port' id' _. by rewrite Hsame.
Qed.

(** * Properties *)

(** C5: over every history of messages whose upstream prefixes have no "/",
    starting from a store where it holds (an empty one, for instance), every
    stored channel beyond INIT has the connection of its first hop stored for
    the same upstream, and OPEN. *)
Theorem channels_on_open_connections k allowed w w' :
  (forall m, allowed m -> separated_msg m) -> reachable k allowed w w' ->
  channel_inv w -> channel_inv w'.
Proof.
  intros Hall. induction 1 as [w|w1 w2 w3 H _ IH]; [done|]. intros Hi. apply IH.
  destruct H as [m w1 Hm%Hall|w1 e']; [|exact Hi].
  destruct (channel_of m) as [channel|] eqn:Hc; [by eapply channel_msg_inv|].
  eapply channel_inv_frame; [by apply other_msg_chan_frame|by apply handle_evolves|done].
Qed.

End Invariant.

(** ** Witness, and the liberties of the handlers *)
Section Witnesses.

Lemma w0_channel_inv : channel_inv w0.
Proof.
  intros up b port id ch _ H. unfold chan_at in H. simpl in H.
  rewrite lookup_empty in H. discriminate H.
Qed.

Lemma channels_on_open_connections_witness :
  chan_at (w_proxy flow_end) "07-ref-0" "ibc" "transfer" "channel-0" =
    Some (chan_A chan_OPEN "channel-7") /\
  on_open_connection (w_proxy flow_end) "07-ref-0" "ibc" (chan_A chan_OPEN "channel-7").
Proof.
  assert (chan_at (w_proxy flow_end) "07-ref-0" "ibc" "transfer" "channel-0" =
    Some (chan_A chan_OPEN "channel-7")) as H by (vm_compute; reflexivity).
  split; [exact H|].
  apply (@channels_on_open_connections _ _ _ _ ref_laws proxy_keeper separated_msg w0 flow_end
    (fun m Hm => Hm) (run_reachable _ w0 _ whole_flow_separated) w0_channel_inv
    "07-ref-0" "ibc" "transfer" "channel-0"); [split; reflexivity|exact H|discriminate].
Defined.

(** ChanOpenTry has no "already exists" test: while the upstream's client
    still accepts a proof of the channel in INIT (an older height), the message
    sent again puts a channel the proxy holds OPEN back to INIT. *)
Theorem chan_open_try_resets_open :
  let w := run [conn_try; conn_confirm; chan_try; chan_confirm] w0 in
  chan_at (w_proxy w) "07-ref-0" "ibc" "transfer" "channel-0" =
    Some (chan_A chan_OPEN "channel-7") /\
  (handle proxy_keeper chan_try w).1 = Ok tt /\
  chan_at (w_proxy (after chan_try w)) "07-ref-0" "ibc" "transfer" "channel-0" =
    Some (chan_A chan_INIT "").
Proof. vm_compute. repeat split. Qed.

(** RecvPacket does not look at the states: a packet is proxied for a
    channel the proxy holds in TRYOPEN. *)
Theorem recv_packet_not_open :
  let w := run [conn_try; conn_confirm; chan_ack] w0 in
  chan_at (w_proxy w) "07-ref-0" "ibc" "transfer" "channel-8" =
    Some (chan_A chan_TRYOPEN "channel-7") /\
  (handle proxy_keeper recv_early w).1 = Ok tt /\
  kv_get (w_proxy (after recv_early w))
    "07-ref-0/ibc/commitments/ports/transfer/channels/channel-8/sequences/2" =
    Some (CommitPacket early_packet).
Proof. vm_compute. repeat split. Qed.
End Witnesses.
