(* ===== verification/Locality.v ===== *)
(** Non-interference between upstreams.  A message sees of the proxy store only
    what lies under the path of its own upstream client and prefix, and changes
    nothing else; so the messages about one upstream give the same results and
    leave the same commitments whatever messages about others are handled in
    between.  The state of the libraries is compared up to an equivalence [R] that
    their calls respect and keep ([unobserved]): a handler may allocate a memory
    store, as the connection handshake does, but leaves nothing that a later call
    could see.  Worlds are compared up to [R] and the equality of the proxy store
    under the path, and a call is local when it is a morphism of that
    equivalence. *)
From stdpp Require Import pretty.
From S2P Require Import Prelude.
From S2P Require Import Lib.
From S2P Require Import Keys.
From S2P Require Import Commitment.
From S2P Require Import Verify.
From S2P Require ProxyClient.
From S2P Require Multiv.
From S2P Require Import Connection.
From S2P Require Import Channel.
From S2P Require Import PacketFlow.
From S2P Require Import Msgs.
From S2P Require Import Server.
From S2P Require Import Claims.
From S2P Require Import RefLib.
From S2P Require Import Dispatch.
From S2P Require Import Scenario.
From S2P Require Import Soundness.
From S2P Require Import ChanSpec.
From S2P Require Import Handshake.

(** ** The calls into the libraries *)

Section Joined.
Context `{T : LibTypes}.

(** Two checks on a memory store made for them, followed by [rest] *)
Definition joined (mk : M ExtState KVStore) (f g : KVStore -> M ExtState unit) : M ExtState unit :=
  let* store := mk in f store ;;* g store.

Lemma mext_joined {A} mk f g (rest : M World A) w :
  (let* store := mext mk in mext (f store) ;;* mext (g store) ;;* rest) w =
  (mext (joined mk f g) ;;* rest) w.
Proof.
  unfold joined, mext, mzoom, mbind. destruct w as [e kv]. simpl.
  destruct (mk e) as [[st|err|p] e1]; [|done..]. simpl.
  destruct (f st e1) as [[u|err|p] e2]; [|done..]. simpl.
  by destruct (g st e2) as [[v|err|p] e3].
Qed.
End Joined.

Section Libraries.
Context `{T : LibTypes, L : !Lib, I : !ClientMethods ClientState, CK : !ClientKeeperI}.
Context (R : relation ExtState).

(** A call into the libraries whose result does not depend on which of the
    [R]-equivalent states it is made in, and which keeps to the class of the
    state *)
Definition quiet_call {A} (m : M ExtState A) : Prop :=
  Proper (R ==> prod_relation (=) R) m /\ forall e, R e (m e).2.

(** The calls that the handlers make: the client keeper's look-ups, the
    verification of a claim by a client of the proxy, and the two verifications of
    the handshake's downstream client on a memory store made for them. *)
Record unobserved : Prop := {
  un_equivalence : Equivalence R;
  un_client up : Proper (R ==> (=)) (ck_GetClientState up);
  un_self h : Proper (R ==> (=)) (ck_GetSelfConsensusState h);
  un_validate c : quiet_call (ck_ValidateSelfClient c);
  un_check target up pfx h proof delay c :
    quiet_call (claim_check target (ck_ClientStore up) pfx h proof delay c);
  un_downstream target cons h pfx proof1 c1 proof2 c2 :
    quiet_call (joined (makeMemStore cons h)
      (fun store => claim_check target store pfx h proof1 0 c1)
      (fun store => claim_check target store pfx h proof2 0 c2))
}.
End Libraries.

Section Locality.
Context `{T : LibTypes, L : !Lib, I : !ClientMethods ClientState, CK : !ClientKeeperI}.
Context `{LL : !LibLaws}.
Context (R : relation ExtState) `{HR : !Equivalence R}.
Context (up b : string).

(** * Worlds that look the same from one upstream *)

Definition same_under : relation World := fun w w' =>
  R (w_ext w) (w_ext w') /\
  forall key, kv_get (w_proxy w) (path_head up b +:+ key) =
              kv_get (w_proxy w') (path_head up b +:+ key).

#[export] Instance same_under_equivalence : Equivalence same_under.
Proof.
  split.
  - by intros w.
  - intros w w' [He Hk]. by split; [symmetry|intros key].
  - intros w1 w2 w3 [He Hk] [He' Hk']. split; [by etransitivity|]. intros key. by rewrite Hk.
Qed.

(** A call that tells no such worlds apart: same result, and worlds that look the
    same again *)
Definition local {A} (m : M World A) : Prop :=
  Proper (same_under ==> prod_relation (=) same_under) m.

Lemma local_pure {A} (o : outcome A) : local (mlift o).
Proof. intros w w' H. by split. Qed.

Lemma local_mfail {A} e : local (A := A) (mfail e).
Proof. apply (local_pure (Err e)). Qed.

Lemma local_mret {A} (a : A) : local (mret a).
Proof. apply (local_pure (Ok a)). Qed.

Lemma local_bind_run {A B} (m : M World A) (f : A -> M World B) :
  local m -> (forall a w w', m w = (Ok a, w') -> local (f a)) -> local (mbind m f).
Proof.
  intros Hm Hf w w' H. apply Hm in H. unfold mbind.
  destruct (m w) as [r v] eqn:E, (m w') as [r' v'], H as [Hr Hv]. simpl in Hr, Hv. subst r'.
  destruct r as [a|e|p]; [by eapply Hf|by split..].
Qed.

Lemma local_bind {A B} (m : M World A) (f : A -> M World B) :
  local m -> (forall a, local (f a)) -> local (mbind m f).
Proof. intros Hm Hf. by apply local_bind_run. Qed.

Lemma local_mmap_err {A} f (m : M World A) : local m -> local (mmap_err f m).
Proof.
  intros Hm w w' H. apply Hm in H. unfold mmap_err.
  destruct (m w), (m w'), H as [Hr Hv]. simpl in Hr, Hv. subst. by split.
Qed.

Lemma local_ext {A} (m m' : M World A) : (forall w, m w = m' w) -> local m' -> local m.
Proof. intros Hm Hl w w' H. rewrite !Hm. by apply Hl. Qed.

(** Calls into the libraries do not see the proxy store. *)
Lemma local_mext {A} (m : M ExtState A) : quiet_call R m -> local (mext m).
Proof.
  intros [Hm _] w w' [He Hk]. unfold mext, mzoom. specialize (Hm _ _ He).
  destruct (m (w_ext w)) as [r e], (m (w_ext w')) as [r' e'], Hm as [Hr He']. by split.
Qed.

Lemma local_joined {A} mk f g (rest : M World A) :
  quiet_call R (joined mk f g) -> local rest ->
  local (let* store := mext mk in mext (f store) ;;* mext (g store) ;;* rest).
Proof.
  intros Hq Hr. apply (local_ext _ _ (mext_joined mk f g rest)).
  apply local_bind; [by apply local_mext|done].
Qed.

Lemma local_mread {A} (f : ExtState -> outcome A) : Proper (R ==> (=)) f -> local (mread f).
Proof. intros Hf w w' [He Hk]. unfold mread. rewrite (Hf _ _ He). by split. Qed.

(** Reads and writes of the store, through a handle for the path *)
Lemma local_Get s key rest : store_key s key = path_head up b +:+ rest -> local (store_Get s key).
Proof. intros Hs w w' [He Hk]. unfold store_Get, mget. rewrite Hs, Hk. by split. Qed.

Lemma local_Set s key rest v :
  store_key s key = path_head up b +:+ rest -> local (store_Set s key v).
Proof.
  intros Hs w w' [He Hk]. unfold store_Set, mput. rewrite Hs. split; [done|].
  split; [done|]. intros key'. simpl.
  destruct (decide (path_head up b +:+ rest = path_head up b +:+ key')) as [<-|Hne].
  - by rewrite !law_get_set_eq.
  - by rewrite !law_get_set_ne.
Qed.

(** The path's handles *)
Lemma local_ProxyStore {A} pfx (f : Store -> M World A) :
  Prefix_Bytes pfx = Ok b ->
  (forall s, (forall key, exists rest, store_key s key = path_head up b +:+ rest) -> local (f s)) ->
  local (mbind (mlift (ProxyStore pfx up)) f).
Proof.
  intros Hb Hf. unfold ProxyStore. rewrite Hb. apply (Hf (PrefixStore RootStore (path_head up b))).
  intros key. exists key. apply law_prefix_key.
Qed.

Lemma local_ProxyClientStore {A} pfx id (f : Store -> M World A) :
  Prefix_Bytes pfx = Ok b ->
  (forall s, (forall key, exists rest, store_key s key = path_head up b +:+ rest) -> local (f s)) ->
  local (mbind (mlift (ProxyClientStore pfx up id)) f).
Proof.
  intros Hb Hf. destruct (ProxyClientStore pfx up id) as [s|e|p] eqn:E.
  - apply Hf. intros key. destruct (ProxyClientStore_key _ _ _ _ key E) as (b' & Hb' & ->).
    assert (b' = b) as -> by congruence. by eexists.
  - apply (local_pure (Err e)).
  - apply (local_pure (Panic p)).
Qed.

End Locality.

(** Name the claim that a verification checks. *)
Ltac quiet_check HU :=
  lazymatch goal with
  | |- quiet_call _ (ck_ValidateSelfClient _) => apply (un_validate _ HU)
  | |- quiet_call _ (cs_VerifyClientState ?t (ck_ClientStore ?u) ?h ?p ?id ?pf ?c) =>
      exact (un_check _ HU t u p h pf 0%N (ClientClaim id c))
  | |- quiet_call _ (cs_VerifyClientConsensusState ?t (ck_ClientStore ?u) ?h ?id ?ch ?p ?pf ?c) =>
      exact (un_check _ HU t u p h pf 0%N (ConsensusClaim id ch c))
  | |- quiet_call _ (cs_VerifyConnectionState ?t (ck_ClientStore ?u) ?h ?p ?pf ?id ?c) =>
      exact (un_check _ HU t u p h pf 0%N (ConnectionClaim id c))
  | |- quiet_call _ (cs_VerifyChannelState ?t (ck_ClientStore ?u) ?h ?p ?pf ?port ?id ?c) =>
      exact (un_check _ HU t u p h pf 0%N (ChannelClaim port id c))
  | |- quiet_call _ (cs_VerifyPacketCommitment ?t (ck_ClientStore ?u) ?h ?d _ ?p ?pf ?port ?id ?n ?v) =>
      exact (un_check _ HU t u p h pf d (PacketClaim port id n v))
  | |- quiet_call _ (cs_VerifyPacketAcknowledgement ?t (ck_ClientStore ?u) ?h ?d _ ?p ?pf ?port ?id ?n ?v) =>
      exact (un_check _ HU t u p h pf d (AckClaim port id n v))
  | |- quiet_call _ (joined (makeMemStore ?cons ?h)
        (fun s1 => cs_VerifyClientState ?t s1 ?h ?p ?id ?pf1 ?c1)
        (fun s2 => cs_VerifyClientConsensusState ?t s2 ?h ?id ?ch ?p ?pf2 ?c2)) =>
      exact (un_downstream _ HU t cons h p pf1 (ClientClaim id c1) pf2 (ConsensusClaim id ch c2))
  end.

(** ** The handlers *)

(** Walk a call down to its reads and writes; [Hpfx] gives the bytes of the prefix. *)
Ltac local_step HU Hpfx :=
  lazymatch goal with
  | |- local _ _ _ (mbind (mlift (ProxyStore _ _)) _) =>
      apply (local_ProxyStore _ _ _ _ _ Hpfx); intros s Hs
  | |- local _ _ _ (mbind (mlift (ProxyClientStore _ _ _)) _) =>
      apply (local_ProxyClientStore _ _ _ _ _ _ Hpfx); intros s Hs
  | Hs : forall key, exists rest, store_key ?s key = _ |- local _ _ _ (store_Get ?s ?key) =>
      by destruct (Hs key) as [rest Hrest]; apply (local_Get _ _ _ _ _ rest)
  | Hs : forall key, exists rest, store_key ?s key = _ |- local _ _ _ (store_Set ?s ?key _) =>
      by destruct (Hs key) as [rest Hrest]; apply (local_Set _ _ _ _ _ rest)
  | |- local _ _ _ (mbind (mext (makeMemStore _ _)) _) =>
      apply local_joined; [quiet_check HU|]
  | |- local _ _ _ (mbind _ _) => apply local_bind; [|intros ?]
  | |- local _ _ _ (mlift _) => apply local_pure
  | |- local _ _ _ (mret _) => apply local_mret
  | |- local _ _ _ (mfail _) => apply local_mfail
  | |- local _ _ _ (mext _) => apply local_mext; quiet_check HU
  | |- local _ _ _ (mread _) => apply local_mread; first [apply (un_client _ HU)|apply (un_self _ HU)]
  | |- local _ _ _ (mmap_err _ _) => apply local_mmap_err
  | |- local _ _ _ (match ?x with _ => _ end) => destruct x
  | |- local _ _ _ ?m => let h := get_head m in unfold h; cbv zeta
  end.

Ltac local_auto HU Hpfx := cbv zeta; repeat local_step HU Hpfx.

Section Handlers.
Context `{T : LibTypes, L : !Lib, I : !ClientMethods ClientState, CK : !ClientKeeperI}.
Context `{LL : !LibLaws}.
Context (R : relation ExtState) (HU : unobserved R).
#[local] Instance R_equivalence : Equivalence R := un_equivalence R HU.
Context (up b : string) (pfx : Prefix) (Hpfx : Prefix_Bytes pfx = Ok b).

Lemma local_produceVerificationArgs k cs h : local R up b (produceVerificationArgs k cs h).
Proof. local_auto HU Hpfx. Qed.

(** The two handshake messages work for the client named in their proxy client. *)
Lemma local_ConnOpenTry k id c dcs dcons pcs p1 p2 p3 h ch p4 p5 ph pch :
  (forall cs, pcs = CSProxy cs -> pcs_UpstreamClientId cs = up) ->
  local R up b (ConnOpenTry k id pfx c dcs dcons pcs p1 p2 p3 h ch p4 p5 ph pch).
Proof.
  intros Hup. apply local_bind_run; [apply local_produceVerificationArgs|].
  intros [[cs cons] u] w w' [Hcs ->]%produceVerificationArgs_up. rewrite (Hup cs Hcs).
  local_auto HU Hpfx.
Qed.

Lemma local_ConnOpenAck k id c dcs dcons pcs p1 p2 p3 h ch p4 p5 ph pch :
  (forall cs, pcs = CSProxy cs -> pcs_UpstreamClientId cs = up) ->
  local R up b (ConnOpenAck k id pfx c dcs dcons pcs p1 p2 p3 h ch p4 p5 ph pch).
Proof.
  intros Hup. apply local_bind_run; [apply local_produceVerificationArgs|].
  intros [[cs cons] u] w w' [Hcs ->]%produceVerificationArgs_up. rewrite (Hup cs Hcs).
  local_auto HU Hpfx.
Qed.
End Handlers.

Section Silence.
Context `{T : LibTypes, L : !Lib, I : !ClientMethods ClientState, CK : !ClientKeeperI}.
Context (R : relation ExtState) (HU : unobserved R).
#[local] Instance R_equivalence_silence : Equivalence R := un_equivalence R HU.

(** ** What a message leaves of the libraries' state *)

Definition ext_kept : relation World := fun w w' => R (w_ext w) (w_ext w').

#[export] Instance ext_kept_preorder : PreOrder ext_kept.
Proof.
  split; [intros w; unfold ext_kept; reflexivity|].
  intros w1 w2 w3 H1 H2. unfold ext_kept in *. by etransitivity.
Qed.

Lemma ext_kept_same w w' : w_ext w' = w_ext w -> ext_kept w w'.
Proof. unfold ext_kept. intros ->. reflexivity. Qed.

Lemma silent_ext {A} (m m' : M World A) : (forall w, m w = m' w) -> steps ext_kept m' -> steps ext_kept m.
Proof. intros Hm Hs w. rewrite Hm. apply Hs. Qed.

Lemma silent_mext {A} (m : M ExtState A) : quiet_call R m -> steps ext_kept (mext m).
Proof.
  intros [_ Hm] w. specialize (Hm (w_ext w)). unfold mext, mzoom.
  by destruct (m (w_ext w)) as [r e].
Qed.

Lemma silent_joined {A} mk f g (rest : M World A) :
  quiet_call R (joined mk f g) -> steps ext_kept rest ->
  steps ext_kept (let* store := mext mk in mext (f store) ;;* mext (g store) ;;* rest).
Proof.
  intros Hq Hr. apply (silent_ext _ _ (mext_joined mk f g rest)).
  apply steps_mbind; [apply _|by apply silent_mext|done].
Qed.

End Silence.

(** Walk a call down to its calls into the libraries, which keep the class of their
    state. *)
Ltac silent_step HU :=
  lazymatch goal with
  | |- steps _ (mbind (mext (makeMemStore _ _)) _) =>
      apply (silent_joined _ HU); [quiet_check HU|]
  | |- steps _ (mbind _ _) => apply steps_mbind; [apply (ext_kept_preorder _ HU)| |intros ?]
  | |- steps _ (mlift _) => intros ?; apply (ext_kept_same _ HU); reflexivity
  | |- steps _ (mret _) => intros ?; apply (ext_kept_same _ HU); reflexivity
  | |- steps _ (mfail _) => intros ?; apply (ext_kept_same _ HU); reflexivity
  | |- steps _ (mread _) => intros ?; apply (ext_kept_same _ HU); reflexivity
  | |- steps _ (store_Get _ _) => intros ?; apply (ext_kept_same _ HU); reflexivity
  | |- steps _ (store_Set _ _ _) => intros ?; apply (ext_kept_same _ HU); reflexivity
  | |- steps _ (mext _) => apply silent_mext; quiet_check HU
  | |- steps _ (mmap_err _ _) => apply steps_mmap_err
  | |- steps _ (match ?x with _ => _ end) => destruct x
  | |- steps _ ?m => let h := get_head m in unfold h; cbv zeta
  end.

Section NonInterference.
Context `{T : LibTypes, L : !Lib, I : !ClientMethods ClientState, CK : !ClientKeeperI}.
Context `{LL : !LibLaws}.
Context (R : relation ExtState) (HU : unobserved R).
#[local] Instance R_equivalence_history : Equivalence R := un_equivalence R HU.

(** A message about the upstream [up] with the prefix [b] *)
Definition about (up b : string) (m : Msg) : Prop :=
  KeyPrefix (upstream_prefix m) = b /\ forall up' pfx, scope m up' pfx -> up' = up.

(** A message about another upstream, or another prefix *)
Definition elsewhere (up b : string) (m : Msg) : Prop :=
  separated_msg m /\ forall up' pfx, scope m up' pfx ->
    no_char "/" up' = true /\ (up', KeyPrefix (upstream_prefix m)) <> (up, b).

Lemma handle_local k up b m : about up b m -> local R up b (handle k m).
Proof.
  intros [Hb Hup].
  assert (Prefix_Bytes (addr (upstream_prefix m)) = Ok b) as Hp
    by (rewrite <- Hb; apply law_merkle_bytes).
  destruct m as [m|m|m|m|m|m|m|m|m|m|m]; simpl in Hp, Hup |- *;
    try (rewrite <- (Hup _ _ (conj eq_refl eq_refl)); clear Hup).
  - local_auto HU Hp.
  - apply local_bind; [apply local_pure|intros dcs].
    apply local_bind; [apply local_pure|intros dcons].
    apply local_bind_run; [apply local_pure|intros pcs w w' [= Hpcs _]].
    apply (local_ConnOpenTry R HU); [exact Hp|]. intros cs ->. eapply Hup. eauto.
  - apply local_bind; [apply local_pure|intros dcs].
    apply local_bind; [apply local_pure|intros dcons].
    apply local_bind_run; [apply local_pure|intros pcs w w' [= Hpcs _]].
    apply (local_ConnOpenAck R HU); [exact Hp|]. intros cs ->. eapply Hup. eauto.
  - local_auto HU Hp.
  - local_auto HU Hp.
  - local_auto HU Hp.
  - local_auto HU Hp.
  - local_auto HU Hp.
  - local_auto HU Hp.
  - local_auto HU Hp.
  - local_auto HU Hp.
Qed.

(** Elsewhere: nothing under the path changes. *)
Lemma elsewhere_untouched k up b m :
  separated up b -> elsewhere up b m ->
  steps (untouched (fun key => exists rest, key = path_head up b +:+ rest)) (handle k m).
Proof.
  intros [Hu Hb] [Hsep Helse].
  apply (steps_handle _ (fun up' pfx _ => scope m up' pfx)); [apply mext_untouched| |done].
  intros up' pfx c m' Hs. apply proxies_untouched. intros key [rest ->] (b' & rest' & Hb' & E).
  destruct (Helse up' pfx Hs) as [Hu' Hne].
  assert (pfx = addr (upstream_prefix m)) as -> by (by destruct m; simpl in Hs; destruct Hs).
  unfold addr in Hb'. rewrite law_merkle_bytes in Hb'. injection Hb' as <-.
  apply path_head_inj in E as (-> & -> & _); done.
Qed.

(** Every message keeps to the class of the libraries' state. *)
Lemma handle_silent k m : steps (ext_kept R) (handle k m).
Proof. destruct m as [m|m|m|m|m|m|m|m|m|m|m]; simpl; cbv zeta; repeat silent_step HU. Qed.

Lemma elsewhere_same k up b m w :
  separated up b -> elsewhere up b m -> same_under R up b (handle k m w).2 w.
Proof.
  intros Hs He. split; [symmetry; apply (handle_silent k m w)|]. intros key.
  apply (elsewhere_untouched k up b m Hs He w). by exists key.
Qed.

(** ** Histories *)

(** A message is handled, or the libraries move on by themselves (a block, an update of
    a light client, another module). *)
Inductive Event :=
| Handle (m : Msg)
| Environment (g : ExtState -> ExtState).

Definition act (k : Keeper) (ev : Event) (w : World) : outcome unit * World :=
  match ev with
  | Handle m => handle k m w
  | Environment g => (Ok tt, mkWorld (g (w_ext w)) (w_proxy w))
  end.

(** The events one after the other, each with its result *)
Fixpoint trace (k : Keeper) (evs : list Event) (w : World) : list (Event * outcome unit) :=
  match evs with
  | [] => []
  | ev :: evs => (ev, (act k ev w).1) :: trace k evs (act k ev w).2
  end.

Fixpoint final (k : Keeper) (evs : list Event) (w : World) : World :=
  match evs with [] => w | ev :: evs => final k evs (act k ev w).2 end.

(** What stays of a history when messages are left out *)
Definition kept (mine : Msg -> bool) (ev : Event) : bool :=
  match ev with Handle m => mine m | Environment _ => true end.

(** What is kept is about the upstream, what is left out about another; and the
    libraries' own moves do not depend on what their calls leave unobserved. *)
Definition admissible (up b : string) (mine : Msg -> bool) (ev : Event) : Prop :=
  match ev with
  | Handle m => if mine m then about up b m else elsewhere up b m
  | Environment g => Proper (R ==> R) g
  end.

Lemma act_local k up b mine ev :
  admissible up b mine ev -> kept mine ev = true -> local R up b (act k ev).
Proof.
  destruct ev as [m|g]; simpl.
  - intros Ha Hm. rewrite Hm in Ha. by apply handle_local.
  - intros Hg _ w w' [He Hk]. split; [done|]. split; [by apply Hg|done].
Qed.

(** A history about one upstream is a morphism for what that upstream sees. *)
Lemma history_local k up b mine evs w w' :
  Forall (fun ev => admissible up b mine ev /\ kept mine ev = true) evs ->
  same_under R up b w w' ->
  trace k evs w = trace k evs w' /\ same_under R up b (final k evs w) (final k evs w').
Proof.
  intros H. revert w w'. induction H as [|ev evs [Ha Hk] _ IH]; intros w w' Hw; simpl; [done|].
  destruct (act_local k up b mine ev Ha Hk w w' Hw) as [-> Hw'].
  destruct (IH _ _ Hw') as [-> Hf]. done.
Qed.

(** * Property *)

(** C9: non-interference of upstreams.  Take any history of messages and of changes
    that the libraries undergo by themselves, and any slash-free upstream client
    and prefix.  Leave out any of the messages about other upstreams or other
    prefixes (themselves slash-free), of all eleven kinds, whether they succeed,
    fail or panic.  Then the messages about the upstream that remain have the same
    results as before, and leave the same commitments under its path: they do not
    depend on the others, their results, or the order in which the two are
    interleaved.  The libraries are assumed not to remember a verification: up to
    an equivalence that their calls do not see through - with what the memory
    stores of the handshake hold left out - they are in the state they were in
    before. *)
Theorem upstreams_do_not_interfere k up b (mine : Msg -> bool) evs w :
  separated up b -> Forall (admissible up b mine) evs ->
  let alone := List.filter (kept mine) evs in
  List.filter (fun r => kept mine r.1) (trace k evs w) = trace k alone w /\
  same_under R up b (final k evs w) (final k alone w).
Proof.
  intros Hs Hms. cbv zeta. revert w. induction Hms as [|ev evs Hm Hms IH]; intros w; simpl; [done|].
  destruct (IH (act k ev w).2) as [Htr Hf].
  destruct (kept mine ev) eqn:E; simpl; [by rewrite Htr|].
  destruct ev as [m|g]; [|done]. simpl in Hm, E, Htr, Hf |- *. rewrite E in Hm.
  assert (Forall (fun ev => admissible up b mine ev /\ kept mine ev = true)
    (List.filter (kept mine) evs)) as Hab.
  { apply Forall_forall. intros x [Hin Hx]%list_elem_of_In%List.filter_In.
    rewrite Forall_forall in Hms. split; [apply Hms; by apply list_elem_of_In|done]. }
  destruct (history_local k up b mine _ _ _ Hab (elsewhere_same k up b m w Hs Hm)) as [Ht' Hf'].
  rewrite Htr, Ht'. split; [done|]. by etransitivity.
Qed.
End NonInterference.

(** * The reference libraries

    Their calls see of the state the clients, the chain's own consensus states and
    the stores of the clients; memory stores are named apart and never reused. *)
Section Reference.
#[local] Existing Instances ref_types ref_lib ref_keeper.

Definition mem_store_name (n : nat) : string := "mem/" +:+ pretty (N.of_nat n).

Definition shared (e e' : RefState) : Prop :=
  rs_clients e = rs_clients e' /\ rs_self e = rs_self e' /\
  forall id, rs_stores e !! client_store_name id = rs_stores e' !! client_store_name id.

#[local] Instance shared_equivalence : Equivalence shared.
Proof.
  split.
  - by intros e.
  - intros e e' (Hc & Hs & Ht). by split_and!.
  - intros e1 e2 e3 (Hc & Hs & Ht) (Hc' & Hs' & Ht').
    split_and!; [congruence..|]. intros id. by rewrite Ht.
Qed.

(** What a verification does to the state: it adds memory stores. *)
Definition grows (e e' : RefState) : Prop :=
  shared e e' /\ rs_next e <= rs_next e' /\
  forall n, n < rs_next e ->
    rs_stores e !! mem_store_name n = rs_stores e' !! mem_store_name n.

#[local] Instance grows_preorder : PreOrder grows.
Proof.
  split; [by intros e|]. intros e1 e2 e3 (Hs & Hn & Hm) (Hs' & Hn' & Hm').
  split; [by etransitivity|]. split; [lia|]. intros n Hlt. rewrite Hm by done. apply Hm'. lia.
Qed.

(** The handles [st] and [st'] read the same from [e] and [e'] on, and nothing else. *)
Definition same_view (st st' : KVStore) (e e' : RefState) : Prop :=
  forall key, exists r,
    (forall e1, grows e e1 -> st_Get st key e1 = (r, e1)) /\
    (forall e1, grows e' e1 -> st_Get st' key e1 = (r, e1)).

Lemma same_view_grows st st' e e' e1 e1' :
  grows e e1 -> grows e' e1' -> same_view st st' e e' -> same_view st st' e1 e1'.
Proof.
  intros H1 H1' Hv key. destruct (Hv key) as (r & Hr & Hr'). exists r.
  split; intros e2 H2; [apply Hr|apply Hr']; by etransitivity.
Qed.

(** Two runs with the same result, that only add memory stores *)
Definition sim {A} (m m' : M RefState A) (e e' : RefState) : Prop :=
  (m e).1 = (m' e').1 /\ grows e (m e).2 /\ grows e' (m' e').2.

Lemma sim_lift {A} (o : outcome A) e e' : sim (mlift o) (mlift o) e e'.
Proof. by split. Qed.

Lemma sim_mret {A} (a : A) e e' : sim (mret a) (mret a) e e'.
Proof. by split. Qed.

Lemma sim_mfail {A} err e e' : sim (A := A) (mfail err) (mfail err) e e'.
Proof. by split. Qed.

Lemma sim_bind {A B} (m m' : M RefState A) (f f' : A -> M RefState B) e e' :
  sim m m' e e' ->
  (forall a e1 e1', grows e e1 -> grows e' e1' -> sim (f a) (f' a) e1 e1') ->
  sim (mbind m f) (mbind m' f') e e'.
Proof.
  intros (Hr & Hg & Hg') Hf. unfold sim, mbind.
  destruct (m e) as [o e1], (m' e') as [o' e1']. simpl in *. subst o'.
  destruct o as [a|err|p]; [|by split..].
  destruct (Hf a e1 e1' Hg Hg') as (Hr & H1 & H1'). split; [done|]. split; by etransitivity.
Qed.

(** What is unpacked or decoded is the same in both runs. *)
Lemma sim_bind_lift {A B} (o : outcome A) (f f' : A -> M RefState B) e e' :
  (forall a, sim (f a) (f' a) e e') -> sim (mbind (mlift o) f) (mbind (mlift o) f') e e'.
Proof. intros Hf. destruct o as [a|err|p]; [apply Hf|by split..]. Qed.

(** A memory store made in both *)
Lemma mem_store_name_inj n n' : mem_store_name n = mem_store_name n' -> n = n'.
Proof.
  intros H. assert (pretty (N.of_nat n) = pretty (N.of_nat n')) as H'.
  { unfold mem_store_name in H. cbn in H. by injection H. }
  apply Nat2N.inj. by apply (inj pretty).
Qed.

Lemma sim_mem_store {B} cons h (f f' : KVStore -> M RefState B) e e' :
  (forall st st' e1 e1', grows e e1 -> grows e' e1' -> same_view st st' e1 e1' ->
     sim (f st) (f' st') e1 e1') ->
  sim (mbind (makeMemStore cons h) f) (mbind (makeMemStore cons h) f') e e'.
Proof.
  intros Hf.
  assert (forall e, exists e1, makeMemStore cons h e = (Ok (ref_store (mem_store_name (rs_next e))), e1) /\
    grows e e1 /\ forall e2, grows e1 e2 ->
      rs_stores e2 !! mem_store_name (rs_next e) =
        Some {[ConsensusStateKey h := Codec.encode (H := ConsensusState_codec) cons]}) as Hmk.
  { clear. intros e. eexists. split; [reflexivity|]. simpl. unfold ref_write, ref_contents. simpl.
    rewrite lookup_insert_eq. simpl. split.
    - split; [split_and!; [done..|]|]; simpl.
      + intros id. by rewrite !lookup_insert_ne by done.
      + split; [lia|]. intros n Hn.
        assert (mem_store_name (rs_next e) <> mem_store_name n) as Hne
          by (intros E%mem_store_name_inj; lia).
        by rewrite !lookup_insert_ne by done.
    - intros e2 (_ & Hn & Hm). specialize (Hm (rs_next e) (le_n _)). rewrite <- Hm.
      simpl. by rewrite lookup_insert_eq. }
  destruct (Hmk e) as (e1 & E & Hg & Hst), (Hmk e') as (e1' & E' & Hg' & Hst').
  unfold sim, mbind. rewrite E, E'.
  destruct (Hf (ref_store (mem_store_name (rs_next e))) (ref_store (mem_store_name (rs_next e')))
    e1 e1' Hg Hg') as (Hr & H1 & H1').
  { intros key. eexists. split; intros e2 H2; simpl; unfold ref_contents;
      [rewrite (Hst e2 H2)|rewrite (Hst' e2 H2)]; reflexivity. }
  split; [done|]. split; by etransitivity.
Qed.

(** What the extractor makes of a value depends on the value only. *)
Lemma extractor_result key r :
  exists o, forall (st : KVStore) (e : RefState), st_Get st key e = (r, e) ->
    st_Get (ProxyClient.NewProxyExtractorStore st) key e = (o, e).
Proof.
  simpl. unfold ProxyClient.proxyExtractorStore_Get.
  assert (forall (g : option bytes -> M RefState (option bytes)) o,
    (forall v, r = Ok v -> forall e, g v e = (o, e)) ->
    exists o', forall (st : KVStore) (e : RefState), st_Get st key e = (r, e) ->
      mbind (st_Get st key) g e = (o', e)) as Hbind.
  { intros g o Hg. destruct r as [v|err|p];
      [exists o|exists (Err err)|exists (Panic p)]; intros st e E; unfold mbind; rewrite E;
      [by apply Hg|done..]. }
  destruct r as [v|err|p]; [|by apply (Hbind _ (Err err))|by apply (Hbind _ (Panic p))].
  destruct (negb (ProxyClient.consensusStateKeyRegexp_Match key)).
  { apply (Hbind _ (Ok v)). by intros v' [= <-]. }
  destruct v as [[|c bz]|]; [apply (Hbind _ (Ok (Some ""))); by intros v' [= <-]| |
    apply (Hbind _ (Ok None)); by intros v' [= <-]].
  destruct (must (UnmarshalConsensusState (String c bz))) as [cs|err|p] eqn:E1;
    [|eapply Hbind; intros v' [= <-] e; unfold mbind, mlift; by rewrite E1..].
  destruct (ProxyClient.assert_ProxyConsensusState cs) as [pcs|err|p] eqn:E2;
    [|eapply Hbind; intros v' [= <-] e; unfold mbind, mlift; by rewrite E1, E2..].
  destruct (ProxyClient.GetProxyConsensusState pcs) as [inner|err|p] eqn:E3;
    [|eapply Hbind; intros v' [= <-] e; unfold mbind, mlift; by rewrite E1, E2, E3..].
  destruct (must (MarshalConsensusState inner)) as [bz'|err|p] eqn:E4;
    eapply Hbind; intros v' [= <-] e; unfold mbind, mlift; by rewrite E1, E2, E3, E4.
Qed.

Lemma extractor_view st st' e e' :
  same_view st st' e e' ->
  same_view (ProxyClient.NewProxyExtractorStore st) (ProxyClient.NewProxyExtractorStore st') e e'.
Proof.
  intros Hv key. destruct (Hv key) as (r & Hr & Hr'), (extractor_result key r) as [o Ho].
  exists o. split; intros e1 H1; apply Ho; auto.
Qed.

(** ** The checks *)

(** The check of any claim on stores with the same view *)
Definition checks_sim (I : ClientMethods ClientState) (target : ClientState) : Prop :=
  forall st st' pfx h proof delay c e e', same_view st st' e e' ->
    sim (claim_check (I := I) target st pfx h proof delay c)
        (claim_check (I := I) target st' pfx h proof delay c) e e'.

Lemma sim_get st st' key e e' : same_view st st' e e' -> sim (st_Get st key) (st_Get st' key) e e'.
Proof. intros Hv. destruct (Hv key) as (r & Hr & Hr'). unfold sim. by rewrite Hr, Hr'. Qed.

Lemma sim_lookup st st' h p key e e' :
  same_view st st' e e' -> sim (ref_lookup st h p key) (ref_lookup st' h p key) e e'.
Proof.
  intros Hv. unfold ref_lookup, ref_root.
  apply sim_bind; [|intros; apply sim_mret].
  apply sim_bind; [by apply sim_get|]. intros [bz|] e1 e1' _ _; [|apply sim_mfail].
  apply sim_bind_lift. intros [c|c]; [apply sim_mfail|apply sim_mret].
Qed.

Lemma sim_member st st' h p key v e e' :
  same_view st st' e e' -> sim (ref_member st h p key v) (ref_member st' h p key v) e e'.
Proof.
  intros Hv. apply sim_bind; [by apply sim_lookup|]. intros o e1 e1' _ _.
  case_match; [apply sim_mret|apply sim_mfail].
Qed.

Lemma sim_absent st st' h p key e e' :
  same_view st st' e e' -> sim (ref_absent st h p key) (ref_absent st' h p key) e e'.
Proof.
  intros Hv. apply sim_bind; [by apply sim_lookup|]. intros o e1 e1' _ _.
  case_match; [apply sim_mret|apply sim_mfail].
Qed.

Section Level.
Context (I : ClientMethods ClientState) (HI : forall target, checks_sim I target).
#[local] Existing Instance I.

Lemma sim_IBC_client q st st' h pfx id pf c e e' :
  same_view st st' e e' ->
  sim (ProxyClient.IBCVerifyClientState q st h pfx id pf c)
      (ProxyClient.IBCVerifyClientState q st' h pfx id pf c) e e'.
Proof.
  intros Hv. apply sim_bind_lift. intros inner.
  apply (HI inner _ _ pfx h pf 0%N (ClientClaim id c)). by apply extractor_view.
Qed.

Lemma sim_IBC_consensus q st st' h id ch pfx pf c e e' :
  same_view st st' e e' ->
  sim (ProxyClient.IBCVerifyClientConsensusState q st h id ch pfx pf c)
      (ProxyClient.IBCVerifyClientConsensusState q st' h id ch pfx pf c) e e'.
Proof.
  intros Hv. apply sim_bind_lift. intros inner.
  apply (HI inner _ _ pfx h pf 0%N (ConsensusClaim id ch c)). by apply extractor_view.
Qed.

Lemma sim_verifyBranches bs q cons e e' :
  sim (Multiv.verifyBranches q cons bs) (Multiv.verifyBranches q cons bs) e e'.
Proof.
  revert q cons e e'. induction bs as [|b bs IH]; intros q cons e e'; [apply sim_mret|].
  apply sim_bind; [|intros [t tc] e1 e1' _ _; apply IH].
  apply sim_bind_lift. intros t. apply sim_bind_lift. intros tc.
  apply (sim_mem_store (ConsProxy cons)). intros st st' e1 e1' _ _ Hv.
  apply sim_bind; [by apply sim_IBC_client|]. intros u e2 e2' H2 H2'.
  apply sim_bind; [|intros; apply sim_mret].
  apply sim_IBC_consensus. by eapply same_view_grows.
Qed.

Lemma sim_verifyProxyState cs st st' h pfx id mp e e' :
  same_view st st' e e' ->
  sim (Multiv.verifyProxyState cs st h pfx id mp) (Multiv.verifyProxyState cs st' h pfx id mp) e e'.
Proof.
  intros Hv. apply sim_bind_lift. intros _.
  apply sim_bind; [case_match; [apply sim_mfail|apply sim_mret]|]. intros _ e1 e1' H1 H1'.
  apply sim_bind_lift. intros q. apply sim_bind_lift. intros inner.
  apply sim_bind.
  { apply (HI inner _ _ pfx h (ClientProof (Head mp)) 0%N (ClientClaim id (CSProxy q))).
    by eapply same_view_grows. }
  intros _ e2 e2' H2 H2'. apply sim_bind_lift. intros tc. apply sim_bind_lift. intros inner'.
  apply sim_bind; [|intros; apply sim_verifyBranches].
  apply (HI inner' _ _ pfx h (ConsensusProof (Head mp)) 0%N
    (ConsensusClaim id (ConsensusHeight (Head mp)) (ConsProxy tc))).
  eapply same_view_grows; [..|exact Hv]; by etransitivity.
Qed.

(** One level of the dispatch *)
Lemma sim_dispatch_on target : checks_sim (dispatch_on ref_client I) target.
Proof.
  intros st st' pfx h proof delay c e e' Hv. destruct target as [cs|cs|x].
  - destruct c; simpl; do 2 (apply sim_bind_lift; intros ?);
      (refine (HI _ _ _ _ _ _ 0%N (ClientClaim _ _) _ _ _) ||
       refine (HI _ _ _ _ _ _ 0%N (ConsensusClaim _ _ _) _ _ _) ||
       refine (HI _ _ _ _ _ _ 0%N (ConnectionClaim _ _) _ _ _) ||
       refine (HI _ _ _ _ _ _ 0%N (ChannelClaim _ _ _) _ _ _) ||
       refine (HI _ _ _ _ _ _ _ (PacketClaim _ _ _ _) _ _ _) ||
       refine (HI _ _ _ _ _ _ _ (AckClaim _ _ _ _) _ _ _) ||
       refine (HI _ _ _ _ _ _ _ (ReceiptAbsenceClaim _ _ _) _ _ _) ||
       refine (HI _ _ _ _ _ _ _ (NextSequenceClaim _ _ _) _ _ _));
      by apply extractor_view.
  - destruct c; simpl.
    + apply sim_bind_lift. intros mp. apply sim_bind; [by apply sim_verifyProxyState|].
      intros [q tc] e1 e1' _ _. apply (sim_mem_store (ConsProxy tc)).
      intros s s' e2 e2' _ _ Hs. by apply sim_IBC_client.
    + apply sim_bind_lift. intros mp. apply sim_bind; [by apply sim_verifyProxyState|].
      intros [q tc] e1 e1' _ _. apply (sim_mem_store (ConsProxy tc)).
      intros s s' e2 e2' _ _ Hs. by apply sim_IBC_consensus.
    + apply sim_bind_lift. intros inner. by apply (HI inner _ _ _ _ _ 0%N (ConnectionClaim _ _)).
    + apply sim_bind_lift. intros inner. by apply (HI inner _ _ _ _ _ 0%N (ChannelClaim _ _ _)).
    + apply sim_bind_lift. intros inner. by apply (HI inner _ _ _ _ _ delay (PacketClaim _ _ _ _)).
    + apply sim_bind_lift. intros inner. by apply (HI inner _ _ _ _ _ delay (AckClaim _ _ _ _)).
    + apply sim_bind_lift. intros inner.
      by apply (HI inner _ _ _ _ _ delay (ReceiptAbsenceClaim _ _ _)).
    + apply sim_bind_lift. intros inner.
      by apply (HI inner _ _ _ _ _ delay (NextSequenceClaim _ _ _)).
  - destruct c; simpl; try (apply sim_bind_lift; intros ?);
      first [by apply sim_member | by apply sim_absent].
Qed.
End Level.

Lemma ref_checks_sim depth target : checks_sim (dispatch ref_client depth) target.
Proof.
  unfold dispatch. revert target. induction depth as [|depth IH]; intros target.
  - intros st st' pfx h proof delay c e e' _. by destruct c.
  - by apply sim_dispatch_on.
Qed.

Lemma client_store_view up e e' : shared e e' -> same_view (ck_ClientStore up) (ck_ClientStore up) e e'.
Proof.
  intros (_ & _ & Hst) key. exists (Ok (ref_contents (client_store_name up) e !! key)).
  split; intros e1 ((_ & _ & Hs) & _); simpl; unfold ref_contents.
  - by rewrite Hs.
  - by rewrite <- Hs, Hst.
Qed.

(** Runs that only add memory stores are not observed. *)
Lemma sim_quiet {A} (m : M RefState A) :
  (forall e e', shared e e' -> sim m m e e') -> quiet_call shared m.
Proof.
  intros Hm. split.
  - intros e e' H. destruct (Hm e e' H) as (Hr & [Hg _] & [Hg' _]). split; [exact Hr|].
    etransitivity; [symmetry; exact Hg|]. etransitivity; [exact H|exact Hg'].
  - intros e. destruct (Hm e e ltac:(done)) as (_ & [Hg _] & _). exact Hg.
Qed.

Lemma ref_unobserved : unobserved (I := ref_iface) shared.
Proof.
  split.
  - apply _.
  - intros up e e' (Hc & _). simpl. by rewrite Hc.
  - intros hh e e' (_ & Hs & _). simpl. by rewrite Hs.
  - intros c. split; [by intros e e' H; destruct c|by intros e; destruct c].
  - intros target up pfx hh proof delay c. apply sim_quiet. intros e e' H.
    apply ref_checks_sim. by apply client_store_view.
  - intros target cons hh pfx p1 c1 p2 c2. apply sim_quiet. intros e e' H.
    apply sim_mem_store. intros st st' e1 e1' _ _ Hv.
    apply sim_bind; [by apply ref_checks_sim|]. intros _ e2 e2' H2 H2'.
    apply ref_checks_sim. by eapply same_view_grows.
Qed.
End Reference.

(** ** Witness: the handshake of Scenario.v, between the messages of a second upstream
    client *)
Section Witness.

(** A second client, with the same contents *)
Definition ext_two : RefState := {|
  rs_clients := <["07-ref-9" := enc_client (CSExt (mkRefClient (h 12)))]> (rs_clients ext0);
  rs_stores := <["client/07-ref-9" := ref_contents "client/07-ref-0" ext0]> (rs_stores ext0);
  rs_self := rs_self ext0;
  rs_next := 0
|}.

(** The second upstream has an OPEN connection, the first none. *)
Definition w_two : World := mkWorld (ext_two : ExtState)
  ({["07-ref-9/ibc/connections/connection-0" := enc_conn (conn_A conn_OPEN "connection-3")]}
     : gmap string string).

Definition chan_try_9 : Msg :=
  ChannelOpenTryMsg (mkMsgProxyChannelOpenTry "07-ref-9" ibc 1 ["connection-0"] "transfer"
    "channel-0" "transfer" "ics20-1" "" (h 11) "relayer").
Definition chan_confirm_9 : Msg :=
  ChannelOpenConfirmMsg (mkMsgProxyChannelOpenConfirm "07-ref-9" ibc "transfer" "channel-0"
    "channel-7" "" (h 12) "relayer").
Definition recv_9 : Msg :=
  RecvPacketMsg (mkMsgProxyRecvPacket "07-ref-9" ibc packet_A "" (h 12) "relayer").

(** Another module makes a client. *)
Definition new_client : ExtState -> ExtState := fun e =>
  mkRefState (<["07-ref-5" := enc_client (CSExt (mkRefClient (h 1)))]> (rs_clients e))
    (<["client/07-ref-5" := ∅]> (rs_stores e)) (rs_self e) (rs_next e).

Lemma new_client_shared : Proper (shared ==> shared) new_client.
Proof.
  intros e e' (Hc & Hs & Hst). unfold new_client. split_and!; simpl; [by rewrite Hc|done|].
  intros id. destruct (decide (client_store_name id = "client/07-ref-5")) as [->|Hne].
  - by rewrite !lookup_insert_eq.
  - by rewrite !lookup_insert_ne by done.
Qed.

Definition two_streams : list Event :=
  [Handle recv_9; Handle conn_try; Handle chan_try_9; Environment new_client;
   Handle conn_confirm; Handle chan_confirm_9; Handle chan_try; Handle recv_9].

Definition second_stream (m : Msg) : bool :=
  match m with
  | ChannelOpenTryMsg m => bool_decide (HOT_UpstreamClientId m = "07-ref-9")
  | ChannelOpenConfirmMsg m => bool_decide (HOC_UpstreamClientId m = "07-ref-9")
  | RecvPacketMsg m => bool_decide (RPK_UpstreamClientId m = "07-ref-9")
  | _ => false
  end.

Lemma conn_try_scope up' pfx : scope conn_try up' pfx -> up' = "07-ref-0".
Proof. intros [(cs & Hcs & ->) _]. vm_compute in Hcs. by injection Hcs as <-. Qed.

Lemma upstreams_do_not_interfere_witness :
  map (fun r => is_ok r.2) (trace proxy_keeper two_streams w_two) =
    [false; true; true; true; true; true; true; true] /\
  List.filter (fun r => kept second_stream r.1) (trace proxy_keeper two_streams w_two) =
    trace proxy_keeper [Handle recv_9; Handle chan_try_9; Environment new_client;
      Handle chan_confirm_9; Handle recv_9] w_two.
Proof.
  split; [vm_compute; reflexivity|].
  refine (proj1 (@upstreams_do_not_interfere _ _ ref_iface _ ref_laws shared ref_unobserved
    proxy_keeper "07-ref-9" "ibc" second_stream two_streams w_two (conj eq_refl eq_refl) _)).
  assert (forall m, separated_msg m ->
    (forall up' pfx, scope m up' pfx -> up' = "07-ref-0") -> elsewhere "07-ref-9" "ibc" m) as Hother.
  { intros m Hm Hup. split; [done|]. intros up' pfx ->%Hup. by split; [|intros [=]]. }
  repeat (apply Forall_cons_2); [..|apply Forall_nil_2]; unfold admissible;
    try lazymatch goal with |- if ?c then _ else _ => let v := eval vm_compute in c in
      change c with v; cbv iota end;
    first [ exact new_client_shared
          | split; [reflexivity|intros up' pfx Hs; exact (proj1 Hs)]
          | apply Hother; [reflexivity|exact conn_try_scope]
          | apply Hother; [reflexivity|intros up' pfx Hs; exact (proj1 Hs)] ].
Defined.
End Witness.
