(* ===== verification/Typed.v ===== *)
(** The store is well typed, and what that buys: over every history of messages,
    the bytes at the path of a connection or a channel decode, and a channel has
    exactly one hop; so in every state reached the handlers neither fail to
    decode what they read nor index an empty list of hops - they panic only when
    a call into the libraries does. *)
From S2P Require Import Prelude.
From S2P Require Import Lib.
From S2P Require Import Keys.
From S2P Require Import Commitment.
From S2P Require Import Verify.
From S2P Require Import Connection.
From S2P Require Import Channel.
From S2P Require Import PacketFlow.
From S2P Require Import Msgs.
From S2P Require Import Server.
From S2P Require Import Claims.
From S2P Require Import RefLib.
From S2P Require Import Dispatch.
From S2P Require Import Scenario.
From S2P Require Import Soundness.
From S2P Require Import ConnSpec.
From S2P Require Import ChanSpec.
From S2P Require Import Handshake.
From S2P Require Import ChannelInv.

Section Typed.
Context `{T : LibTypes, L : !Lib, I : !ClientMethods ClientState, CK : !ClientKeeperI}.
Context `{LL : !LibLaws}.

(** * The typing of the store *)

(** The bytes read at a path: none when the path is free. *)
Definition stored_bytes (kv : ProxyKV) (up b key : string) : option bytes :=
  found_bytes (kv_get kv (path_head up b +:+ key)).

Definition connection_typed (bz : bytes) : Prop :=
  exists c, cdc_UnmarshalConnection bz = Ok c.

Definition channel_typed (bz : bytes) : Prop :=
  exists ch hop, cdc_UnmarshalChannel bz = Ok ch /\ chan_ConnectionHops ch = [hop].

Definition store_typed (w : World) : Prop :=
  forall up b, separated up b ->
    (forall id bz, stored_bytes (w_proxy w) up b (ConnectionKey id) = Some bz ->
       connection_typed bz) /\
    (forall port id bz, stored_bytes (w_proxy w) up b (ChannelKey port id) = Some bz ->
       channel_typed bz).

(** A claim that may be committed: its channel, if any, has one hop. *)
Definition claim_typed (c : Claim) : Prop :=
  match c with
  | ChannelClaim _ _ ch => exists hop, chan_ConnectionHops ch = [hop]
  | _ => True
  end.

Lemma kind_connection c id : claim_key c = ConnectionKey id -> exists i e, c = ConnectionClaim i e.
Proof.
  intros H. destruct c; try (by eexists _, _); by eapply claim_key_not_connection in H.
Qed.

Lemma kind_channel c port id :
  claim_key c = ChannelKey port id -> exists p i ch, c = ChannelClaim p i ch.
Proof.
  intros H. destruct c; try (by eexists _, _, _); by eapply claim_key_not_channel in H.
Qed.

(** Reading a separated path after a commitment *)
Lemma stored_bytes_committed up pfx c w w' up' b' key bz :
  separated_prefix pfx -> no_char "/" up = true -> separated up' b' ->
  committed up pfx c (w_proxy w) (w_proxy w') ->
  stored_bytes (w_proxy w') up' b' key = Some bz ->
  (claim_key c = key /\ claim_value c = Ok bz) \/
  stored_bytes (w_proxy w) up' b' key = Some bz.
Proof.
  intros Hp Hup [Hu' Hb'] (b & v & Hb & Hv & E) Hs. unfold stored_bytes in *.
  rewrite E in Hs.
  destruct (decide (path_head up b +:+ claim_key c = path_head up' b' +:+ key)) as [H|H].
  - left. rewrite <- H, law_get_set_eq in Hs. apply found_bytes_Some in Hs as [[= ->] _].
    by apply path_head_inj in H as (_ & _ & ->); [|by auto..].
  - right. by rewrite law_get_set_ne in Hs.
Qed.

Lemma store_typed_commit up pfx c w w' :
  separated_prefix pfx -> no_char "/" up = true -> claim_typed c ->
  committed up pfx c (w_proxy w) (w_proxy w') -> store_typed w -> store_typed w'.
Proof.
  intros Hp Hup Hc Hk Hw up' b' Hs. destruct (Hw up' b' Hs) as [Hco Hch]. split.
  - intros id bz Hbz. eapply stored_bytes_committed in Hbz as [[Hkey Hv]|?]; [|by eauto..].
    apply kind_connection in Hkey as (i & e & ->). exists e. by apply law_connection_codec.
  - intros port id bz Hbz. eapply stored_bytes_committed in Hbz as [[Hkey Hv]|?]; [|by eauto..].
    apply kind_channel in Hkey as (p & i & ch & ->). destruct Hc as [hop Hhop].
    exists ch, hop. split; [by apply law_channel_codec|done].
Qed.

(** ** Preservation *)

Definition keeps_typed : relation World := fun w w' => store_typed w -> store_typed w'.

#[export] Instance keeps_typed_preorder : PreOrder keeps_typed.
Proof. split; [by intros w ?|]. intros w1 w2 w3 H12 H23 H. by apply H23, H12. Qed.

Lemma same_store_typed w w' : w_proxy w' = w_proxy w -> keeps_typed w w'.
Proof. intros E Hw up b Hs. rewrite E. by apply Hw. Qed.

Lemma claim_keeps_typed up pfx c m :
  separated_prefix pfx /\ claim_kind c <> KChannel -> proxies up pfx c m -> steps keeps_typed m.
Proof.
  intros [Hp Hk] Hm w. destruct (m w) as [r w'] eqn:E.
  apply Hm in E as [[_ E]|(_ & Ha%accepted_up & Hc)]; [by apply same_store_typed|].
  intros Hw. eapply store_typed_commit; [done..| |exact Hc|done]. by destruct c.
Qed.

(** What is stored for a channel that can be read. *)
Lemma stored_channel_typed w up pfx port id ch :
  separated_prefix pfx -> no_char "/" up = true -> store_typed w ->
  stored_channel w up pfx port id ch -> exists hop, chan_ConnectionHops ch = [hop].
Proof.
  intros Hp Hup Hw (b & Hb & Hc). unfold chan_at in Hc.
  destruct (found_bytes _) as [bz|] eqn:E; [|done].
  destruct (Hw up b (conj Hup (Hp b Hb))) as [_ Hch].
  destruct (Hch _ _ _ E) as (ch' & hop & Hu & Hh). rewrite Hu in Hc. injection Hc as <-. eauto.
Qed.

Lemma handle_keeps_typed k m : separated_msg m -> steps keeps_typed (handle k m).
Proof.
  intros Hm. destruct (channel_of m) as [[[up port] id]|] eqn:Hc.
  - intros w Hw. pose proof (separated_msg_prefix m Hm) as Hp.
    destruct (channel_msg_cases k m _ w Hc) as
      [(ch & h & p & [(target & Ht & _) Hk] & Hhops & _)|Hsame];
      [|by eapply same_store_typed].
    apply law_client_id in Ht. eapply store_typed_commit; [exact Hp|exact Ht| |exact Hk|done].
    destruct Hhops as [Hone|(ch0 & Hs & Heq)]; [exact Hone|]. simpl. rewrite Heq.
    by eapply stored_channel_typed.
  - apply other_msg_steps; [apply _| |apply claim_keeps_typed|done..].
    intros A m' w. apply same_store_typed, mext_proxy.
Qed.

(** * Panics *)

(** A panic of a call into the libraries: the client keeper's lookup, the check
    of a claim by a light client, or the encoding of what is committed. *)
Definition external_panic (p : panic) : Prop :=
  (exists up e, ck_GetClientState up e = Panic p) \/
  (exists target store pfx h proof delay c e,
     (claim_check target store pfx h proof delay c e).1 = Panic p) \/
  (exists c, must (claim_value c) = Panic p).

Definition panics_external {A} (m : M World A) (w : World) : Prop :=
  forall p, (m w).1 = Panic p -> external_panic p.

Lemma panics_bind {A B} (m : M World A) (f : A -> M World B) w :
  panics_external m w -> (forall a w', m w = (Ok a, w') -> panics_external (f a) w') ->
  panics_external (mbind m f) w.
Proof.
  intros Hm Hf p. unfold mbind. specialize (Hm p). destruct (m w) as [[a|e|q] w'] eqn:E; simpl in *.
  - by apply (Hf a w').
  - done.
  - intros [= ->]. by apply Hm.
Qed.

Lemma panics_fail {A} e w : panics_external (A := A) (mfail e) w.
Proof. done. Qed.

Lemma panics_guard {A} (b : bool) e (m : M World A) w :
  panics_external m w -> panics_external (if b then mfail e else m) w.
Proof. by destruct b. Qed.

(** A verification, then the commitment of its claim *)
Lemma panics_verify_and_set up pfx b c h proof delay f set w :
  Prefix_Bytes pfx = Ok b ->
  (forall w, set w = mbind (mlift (ProxyStore pfx up))
     (fun s => mbind (mlift (must (claim_value c)))
                 (fun bz => store_Set s (claim_key c) bz)) w) ->
  panics_external (mbind (mbind (targetClient up) (fun target =>
    mmap_err f (mext (claim_check target (ck_ClientStore up) pfx h proof delay c))))
    (fun _ => set)) w.
Proof.
  intros Hb Hset. apply panics_bind.
  - apply panics_bind.
    + intros p. unfold targetClient, mbind, mread.
      destruct (ck_GetClientState up (w_ext w)) as [[cs|]|e|q] eqn:E; try done.
      intros [= ->]. left. by exists up, (w_ext w).
    + intros target w1 _ p. unfold mmap_err, mext, mzoom.
      destruct (claim_check target _ pfx h proof delay c (w_ext w1)) as [[a|e|q] e'] eqn:E; try done.
      intros [= ->]. right. left. exists target, (ck_ClientStore up), pfx, h, proof, delay, c, (w_ext w1).
      by rewrite E.
  - intros [] w1 _ p. rewrite Hset. unfold ProxyStore, mbind, mlift. rewrite Hb. simpl.
    destruct (must (claim_value c)) as [v|e|q] eqn:E; try done.
    intros [= ->]. right. right. by exists c.
Qed.

(** ** Reads *)

Lemma panics_get_connection pfx b up id w :
  Prefix_Bytes pfx = Ok b -> separated up b -> store_typed w ->
  panics_external (GetProxyConnection pfx up id) w.
Proof.
  intros Hb Hs Hw p. unfold GetProxyConnection, ProxyStore, mbind, mlift, store_Get, mget.
  rewrite Hb. simpl. rewrite law_prefix_key. fold (path_head up b).
  destruct (found_bytes _) as [bz|] eqn:E; [|done].
  destruct (proj1 (Hw up b Hs) id bz E) as [c ->]. done.
Qed.

Lemma panics_get_channel pfx b up port id w :
  Prefix_Bytes pfx = Ok b -> separated up b -> store_typed w ->
  panics_external (GetProxyChannel pfx up port id) w.
Proof.
  intros Hb Hs Hw p. unfold GetProxyChannel, ProxyStore, mbind, mlift, store_Get, mget.
  rewrite Hb. simpl. rewrite law_prefix_key. fold (path_head up b).
  destruct (found_bytes _) as [bz|] eqn:E; [|done].
  destruct (proj2 (Hw up b Hs) port id bz E) as (ch & hop & -> & _). done.
Qed.

(** A handler that reads the connection first *)
Lemma panics_on_connection {A} pfx b up id (f : option ConnectionEnd -> M World A) w :
  Prefix_Bytes pfx = Ok b -> separated up b -> store_typed w ->
  (forall o, panics_external (f o) w) ->
  panics_external (mbind (GetProxyConnection pfx up id) f) w.
Proof.
  intros Hb Hs Hw Hf. apply panics_bind; [by eapply panics_get_connection|].
  intros o w' [-> _]%GetProxyConnection_run. apply Hf.
Qed.

(** A handler that reads the channel first finds one hop in it. *)
Lemma panics_on_channel {A} pfx b up port id (f : option Channel -> M World A) w :
  Prefix_Bytes pfx = Ok b -> separated up b -> store_typed w ->
  panics_external (f None) w ->
  (forall ch hop, chan_ConnectionHops ch = [hop] -> panics_external (f (Some ch)) w) ->
  panics_external (mbind (GetProxyChannel pfx up port id) f) w.
Proof.
  intros Hb [Hu Hs] Hw Hn Hf. apply panics_bind; [by eapply panics_get_channel|].
  intros [ch|] w' H.
  - apply GetProxyChannel_some in H as [-> H].
    destruct (stored_channel_typed w up pfx port id ch) as [hop Hhop]; [|done..|by eapply Hf].
    intros b' Hb'. by assert (b' = b) as -> by congruence.
  - by apply GetProxyChannel_run in H as [-> _].
Qed.

Lemma panics_first_hop {A} hops hop (f : string -> M World A) w :
  hops = [hop] -> panics_external (f hop) w -> panics_external (mbind (mlift (first_hop hops)) f) w.
Proof. by intros ->. Qed.

Lemma panics_order {A} o c (m : M World A) w :
  panics_external m w ->
  panics_external (mbind (mlift (validateChannelOrder o c)) (fun _ => m)) w.
Proof.
  intros Hm. apply panics_bind; [|by intros [] w' [= _ <-]].
  intros p. unfold mlift, validateChannelOrder. destruct (conn_Versions c) as [|v [|? ?]]; try done.
  by destruct (negb _).
Qed.

(** The upstream client a message with a single claim names *)
Definition single_upstream (m : Msg) : option string :=
  match m with
  | ClientStateMsg _ | ConnectionOpenTryMsg _ | ConnectionOpenAckMsg _ => None
  | ConnectionOpenConfirmMsg m => Some (COC_UpstreamClientId m)
  | ConnectionOpenFinalizeMsg m => Some (COF_UpstreamClientId m)
  | ChannelOpenTryMsg m => Some (HOT_UpstreamClientId m)
  | ChannelOpenAckMsg m => Some (HOA_UpstreamClientId m)
  | ChannelOpenConfirmMsg m => Some (HOC_UpstreamClientId m)
  | ChannelOpenFinalizeMsg m => Some (HOF_UpstreamClientId m)
  | RecvPacketMsg m => Some (RPK_UpstreamClientId m)
  | AcknowledgePacketMsg m => Some (APK_UpstreamClientId m)
  end.

(** Along the reads and guards of a handler, down to its verification *)
Ltac panics_step Hb Hs Hw :=
  cbv beta iota zeta;
  lazymatch goal with
  | |- panics_external (mfail _) _ => apply panics_fail
  | |- panics_external (if negb _ then _ else _) _ => apply panics_guard
  | |- panics_external (mbind (GetProxyConnection _ _ _) _) _ =>
      apply (panics_on_connection _ _ _ _ _ _ Hb Hs Hw); intros [?|]
  | |- panics_external (mbind (GetProxyChannel _ _ _ _) _) _ =>
      apply (panics_on_channel _ _ _ _ _ _ _ Hb Hs Hw); [|intros ? ? ?]
  | |- panics_external (mbind (mlift (first_hop _)) _) _ => eapply panics_first_hop; [eassumption|]
  | |- panics_external (mbind (mlift (validateChannelOrder _ _)) _) _ => apply panics_order
  | |- panics_external (VerifyAndProxyConnectionState ?up ?pfx ?c ?h ?p ?id) _ =>
      apply (panics_verify_and_set up pfx _ (ConnectionClaim id c) h p 0 _ _ _ Hb); done
  | |- panics_external (VerifyAndProxyChannelState ?up ?pfx ?h ?p ?port ?id ?c) _ =>
      apply (panics_verify_and_set up pfx _ (ChannelClaim port id c) h p 0 _ _ _ Hb); done
  | |- panics_external (VerifyAndProxyPacketCommitment ?up ?pfx ?co ?h ?p ?port ?id ?n ?v) _ =>
      apply (panics_verify_and_set up pfx _ (PacketClaim port id n v) h p
               (conn_DelayPeriod co) _ _ _ Hb); done
  | |- panics_external (VerifyAndProxyPacketAcknowledgement ?up ?pfx ?co ?h ?p ?port ?id ?n ?v) _ =>
      apply (panics_verify_and_set up pfx _ (AckClaim port id n v) h p
               (conn_DelayPeriod co) _ _ _ Hb); done
  end.

(** [hops[0]] behind the test of the length *)
Lemma panics_one_hop {A} hops e (f : string -> M World A) w :
  (forall hop, panics_external (f hop) w) ->
  panics_external (if negb (length hops =? 1)%nat then mfail e
                   else mbind (mlift (first_hop hops)) f) w.
Proof. intros Hf. destruct hops as [|hop [|]]; simpl; [apply panics_fail|apply Hf|apply panics_fail]. Qed.

Lemma handle_panics k m up w :
  single_upstream m = Some up -> no_char "/" up = true -> separated_msg m -> store_typed w ->
  panics_external (handle k m) w.
Proof.
  intros Hm Hup Hsep Hw. set (b := KeyPrefix (upstream_prefix m)).
  assert (Prefix_Bytes (addr (upstream_prefix m)) = Ok b) as Hb by apply law_merkle_bytes.
  assert (separated up b) as Hs by done. clearbody b.
  destruct m as [m|m|m|m|m|m|m|m|m|m|m]; simpl in Hm, Hb |- *; simplify_eq.
  - unfold ProxyConnectionOpenConfirm, ConnOpenConfirm. repeat panics_step Hb Hs Hw.
  - unfold ProxyConnectionOpenFinalize, ConnOpenFinalize. repeat panics_step Hb Hs Hw.
  - apply panics_one_hop. intros hop. repeat panics_step Hb Hs Hw.
  - apply panics_one_hop. intros hop. repeat panics_step Hb Hs Hw.
  - unfold ProxyChannelOpenConfirm, ChanOpenConfirm. repeat panics_step Hb Hs Hw.
  - unfold ProxyChannelOpenFinalize, ChanOpenFinalize. repeat panics_step Hb Hs Hw.
  - unfold ProxyRecvPacket, RecvPacket. repeat panics_step Hb Hs Hw.
  - unfold ProxyAcknowledgePacket, AcknowledgePacket. repeat panics_step Hb Hs Hw.
Qed.

(** * Properties *)

(** C6: type soundness of the store.  Over every history of messages whose
    upstream prefixes have no "/", from a store that is well typed (an empty one,
    for instance), the store stays well typed: what lies at the path of a
    connection or of a channel decodes as one, the channel with exactly one hop.
    And in every state reached, a message that carries a single claim and names a
    client without "/" panics only if a call into the libraries panics: its
    handler always decodes what it reads, and never indexes past the hops. *)
Theorem store_type_soundness k allowed w w' :
  (forall m, allowed m -> separated_msg m) -> reachable k allowed w w' -> store_typed w ->
  store_typed w' /\
  forall m up p, single_upstream m = Some up -> no_char "/" up = true -> separated_msg m ->
    (handle k m w').1 = Panic p -> external_panic p.
Proof.
  intros Hall Hr Hw.
  assert (store_typed w') as Hw'.
  { induction Hr as [w|w1 w2 w3 H _ IH]; [done|]. apply IH.
    destruct H as [m w1 Hm%Hall|w1 e']; [by apply handle_keeps_typed|exact Hw]. }
  split; [done|]. intros m up p Hm Hup Hsep. by eapply handle_panics.
Qed.

End Typed.

(** ** Witness *)
Section Witness.

Lemma w0_typed : store_typed w0.
Proof.
  intros up b _. unfold stored_bytes, w0. simpl. setoid_rewrite lookup_empty. split; done.
Qed.

(** After the whole flow, the channel's bytes decode to a channel of one hop. *)
Lemma store_type_soundness_witness :
  exists bz, stored_bytes (w_proxy flow_end) "07-ref-0" "ibc" (ChannelKey "transfer" "channel-0")
    = Some bz /\ channel_typed bz.
Proof.
  eexists. split; [vm_compute; reflexivity|].
  refine (proj2 (proj1 (@store_type_soundness _ _ _ _ ref_laws proxy_keeper separated_msg w0
    flow_end (fun m Hm => Hm) (run_reachable _ w0 _ whole_flow_separated) w0_typed)
    "07-ref-0" "ibc" _) "transfer" "channel-0" _ _); [split; reflexivity|vm_compute; reflexivity].
Defined.
End Witness.
