(* ===== verification/Progress.v ===== *)
(** Progress: a handshake opened through the proxy can be completed while other
    messages are handled.  As long as the upstream's light client accepts the later
    claims when they are delivered, and no other handshake message resets the
    channel once it is begun, none of the proxy's own guards stands in the way
    from a connection in INIT to a packet on an OPEN channel. *)
From S2P Require Import Prelude.
From S2P Require Import Lib.
From S2P Require Import Keys.
From S2P Require Import Commitment.
From S2P Require Import Verify.
From S2P Require Import Connection.
From S2P Require Import Channel.
From S2P Require Import PacketFlow.
From S2P Require Import Msgs.
From S2P Require Import Server.
From S2P Require Import Claims.
From S2P Require Import RefLib.
From S2P Require Import Dispatch.
From S2P Require Import Scenario.
From S2P Require Import Soundness.
From S2P Require Import ConnSpec.
From S2P Require Import ChanSpec.
From S2P Require Import Handshake.
From S2P Require Import ChannelInv.

Section Progress.
Context `{T : LibTypes, L : !Lib, I : !ClientMethods ClientState, CK : !ClientKeeperI}.
Context `{LL : !LibLaws}.

(** The light client of [up] accepts the claim in the present state of the
    libraries, and what is to be committed can be encoded. *)
Definition accepts (up : string) (pfx : Prefix) (c : Claim) (h : Height) (proof : bytes)
    (delay : N) (w : World) : Prop :=
  (exists target e', ck_GetClientState up (w_ext w) = Ok (Some target) /\
     claim_check target (ck_ClientStore up) pfx h proof delay c (w_ext w) = (Ok tt, e')) /\
  exists v, claim_value c = Ok v.

Lemma accepts_proxied up pfx c h proof delay b w :
  Prefix_Bytes pfx = Ok b -> accepts up pfx c h proof delay w ->
  exists w', proxied up pfx c h proof delay w w'.
Proof.
  intros Hb [(target & e' & Ht & Hc) [v Hv]].
  exists (mkWorld e' (kv_set (path_head up b +:+ claim_key c) v (w_proxy w))).
  split; [by exists target|]. by exists b, v.
Qed.

(** A check by its result *)
Lemma accepts_result up pfx c h proof delay w target :
  ck_GetClientState up (w_ext w) = Ok (Some target) ->
  (claim_check target (ck_ClientStore up) pfx h proof delay c (w_ext w)).1 = Ok tt ->
  is_ok (claim_value c) = true -> accepts up pfx c h proof delay w.
Proof.
  intros Ht Hc Hv. split.
  - exists target. destruct (claim_check _ _ _ _ _ _ _ _) as [r e'] eqn:E. exists e'.
    simpl in Hc. by rewrite <- Hc.
  - destruct (claim_value c) as [v|e|p]; [by exists v|done..].
Qed.

(** ** Messages that leave a channel alone *)

(** [m] has a slash-free prefix and is not a message of the handshake of the
    channel [id] of [port]. *)
Definition quiet (up b port id : string) (m : Msg) : Prop :=
  separated_msg m /\
  forall port' id', channel_of m = Some (up, port', id') ->
    KeyPrefix (upstream_prefix m) = b -> ChannelKey port' id' <> ChannelKey port id.

Lemma quiet_keeps_channel k up b port id m w :
  separated up b -> quiet up b port id m ->
  chan_at (w_proxy (handle k m w).2) up b port id = chan_at (w_proxy w) up b port id.
Proof.
  intros Hs [Hm Hq]. pose proof (separated_msg_prefix m Hm) as Hp.
  destruct (channel_of m) as [[[up' port'] id']|] eqn:Hc;
    [|by apply other_msg_chan_frame].
  destruct (channel_msg_cases k m _ w Hc) as [(ch & h & p & [(target & Ht & _) Hk] & _)|Hsame];
    [|by rewrite Hsame].
  destruct Hk as (b' & v & Hb & _ & E). rewrite E. apply chan_at_set_ne. intros H.
  destruct Hs as [Hu Hb']. apply law_client_id in Ht.
  apply path_head_inj in H as (<- & <- & H); [|by auto..].
  unfold addr in Hb. rewrite law_merkle_bytes in Hb. injection Hb as Hb.
  by apply (Hq port' id' eq_refl Hb).
Qed.

Lemma quiet_history k up b port id w w' :
  separated up b -> reachable k (quiet up b port id) w w' ->
  chan_at (w_proxy w') up b port id = chan_at (w_proxy w) up b port id.
Proof.
  intros Hs. induction 1 as [w|w1 w2 w3 H _ IH]; [done|]. rewrite IH.
  destruct H as [m w1 Hm|w1 e']; [by apply quiet_keeps_channel|done].
Qed.

Lemma quiet_evolves k up b port id w w' :
  reachable k (quiet up b port id) w w' -> conns_evolve w w'.
Proof. apply reachable_evolves. by intros m []. Qed.

(** ** The relayer's messages *)

Context (k : Keeper) (up : string) (pfx : MerklePrefix).
Hypothesis up_separated : separated up (KeyPrefix pfx).

Lemma prefix_here : Prefix_Bytes (addr pfx) = Ok (KeyPrefix pfx).
Proof. apply law_merkle_bytes. Qed.

(** What a commitment under the prefix makes readable *)
Lemma committed_value c w w' :
  committed up (addr pfx) c (w_proxy w) (w_proxy w') ->
  exists v, claim_value c = Ok v /\
    w_proxy w' = kv_set (path_head up (KeyPrefix pfx) +:+ claim_key c) v (w_proxy w).
Proof. intros (b & v & Hb & Hv & E). rewrite prefix_here in Hb. injection Hb as <-. by exists v. Qed.

Lemma committed_conn_at id c w w' :
  committed up (addr pfx) (ConnectionClaim id c) (w_proxy w) (w_proxy w') ->
  conn_at (w_proxy w') up (KeyPrefix pfx) id = Some c.
Proof. intros (v & Hv & ->)%committed_value. by apply conn_at_set_eq. Qed.

Lemma committed_chan_at port chan c w w' :
  committed up (addr pfx) (ChannelClaim port chan c) (w_proxy w) (w_proxy w') ->
  chan_at (w_proxy w') up (KeyPrefix pfx) port chan = Some c.
Proof. intros (v & Hv & ->)%committed_value. by apply chan_at_set_eq. Qed.

Lemma hop_here w id c :
  conn_at (w_proxy w) up (KeyPrefix pfx) id = Some c -> hop_connection w up (addr pfx) id c.
Proof. intros H. exists (KeyPrefix pfx). split; [apply prefix_here|done]. Qed.

Lemma channel_here w port chan c :
  chan_at (w_proxy w) up (KeyPrefix pfx) port chan = Some c ->
  stored_channel w up (addr pfx) port chan c.
Proof. intros H. exists (KeyPrefix pfx). split; [apply prefix_here|done]. Qed.

(** The connection is stored OPEN, with what identifies it as in [c]. *)
Definition opened (id : string) (c : ConnectionEnd) (w : World) : Prop :=
  exists c', conn_at (w_proxy w) up (KeyPrefix pfx) id = Some c' /\ same_identity c c' /\
    conn_State c' = conn_OPEN.

Lemma opened_evolves id c w w' : conns_evolve w w' -> opened id c w -> opened id c w'.
Proof.
  intros He (c' & Hc & Hi & Ho). exists c'. split_and!; [|done..].
  apply (conn_open_stuck c'); [done|]. rewrite <- Hc. by apply He.
Qed.

(** It stays open over a message and a history after it. *)
Lemma opened_after m id c w w' port chan :
  separated_msg m -> opened id c w ->
  reachable k (quiet up (KeyPrefix pfx) port chan) (handle k m w).2 w' -> opened id c w'.
Proof.
  intros Hm Ho Hr. eapply opened_evolves; [by eapply quiet_evolves|].
  eapply opened_evolves; [by apply handle_evolves|done].
Qed.

Definition opened_connection (cid : string) (c : ConnectionEnd) : ConnectionEnd :=
  set_Counterparty_ConnectionId cid (set_State conn_OPEN c).

(** A message that completes the handshake where the connection is still as it was
    leaves it open after any history: either it has to act, or it is too late. *)
Lemma completes_opened m id c c1 w w1 :
  conn_at (w_proxy w) up (KeyPrefix pfx) id = Some c -> conns_evolve w w1 ->
  separated_msg m -> same_identity c c1 -> conn_State c1 = conn_OPEN ->
  (conn_at (w_proxy w1) up (KeyPrefix pfx) id = Some c ->
     exists w', handle k m w1 = (Ok tt, w') /\
       committed up (addr pfx) (ConnectionClaim id c1) (w_proxy w1) (w_proxy w')) ->
  ((handle k m w1).1 = Ok tt \/ opened id c w1) /\ opened id c (handle k m w1).2.
Proof.
  intros Hc He Hm Hid Ho Hrun.
  pose proof (He up (KeyPrefix pfx) id up_separated) as Hev. rewrite Hc in Hev.
  destruct (conn_evolves_identity _ _ c Hev eq_refl) as (c' & Hc' & Hid' & [-> | Ho']).
  - destruct (Hrun Hc') as (w' & -> & Hk). split; [by left|]. exists c1. split_and!; [|done..].
    by eapply committed_conn_at.
  - assert (opened id c w1) as Hopen by (by exists c'). split; [by right|].
    refine (opened_evolves _ _ _ _ _ Hopen). by apply handle_evolves.
Qed.

(** An accepted Confirm opens the connection, unless it is open. *)
Lemma confirm_opens id c cid p h s w w1 :
  conn_at (w_proxy w) up (KeyPrefix pfx) id = Some c -> conn_State c = conn_INIT ->
  conns_evolve w w1 ->
  accepts up (addr pfx) (ConnectionClaim id (opened_connection cid c)) h p 0 w1 ->
  let r := handle k (ConnectionOpenConfirmMsg
    (mkMsgProxyConnectionOpenConfirm id up pfx cid p h s)) w1 in
  (r.1 = Ok tt \/ opened id c w1) /\ opened id c r.2.
Proof.
  intros Hc Hst He Ha r.
  apply (completes_opened _ id c (opened_connection cid c) w); [done..|apply up_separated|done|done|].
  intros Hc1. destruct (accepts_proxied _ _ _ _ _ _ _ _ prefix_here Ha) as [w' Hp].
  exists w'. split; [|apply Hp]. apply ConnOpenConfirm_ok. exists (KeyPrefix pfx), c.
  split; [apply prefix_here|done].
Qed.

(** And so does an accepted Finalize. *)
Lemma finalize_opens id c p h s w w1 :
  conn_at (w_proxy w) up (KeyPrefix pfx) id = Some c -> conn_State c = conn_TRYOPEN ->
  conns_evolve w w1 ->
  accepts up (addr pfx) (ConnectionClaim id (set_State conn_OPEN c)) h p 0 w1 ->
  let r := handle k (ConnectionOpenFinalizeMsg
    (mkMsgProxyConnectionOpenFinalize id up pfx p h s)) w1 in
  (r.1 = Ok tt \/ opened id c w1) /\ opened id c r.2.
Proof.
  intros Hc Hst He Ha r.
  apply (completes_opened _ id c (set_State conn_OPEN c) w); [done..|apply up_separated|done|done|].
  intros Hc1. destruct (accepts_proxied _ _ _ _ _ _ _ _ prefix_here Ha) as [w' Hp].
  exists w'. split; [|apply Hp]. apply ConnOpenFinalize_ok. exists (KeyPrefix pfx), c.
  split; [apply prefix_here|done].
Qed.

(** An accepted ChannelOpenTry on an open connection stores the channel. *)
Definition init_channel (order : Z) (dport hop version : string) : Channel :=
  mkChannel chan_INIT order (mkChanCounterparty dport "") [hop] version.

Lemma try_stores_channel id c order port chan dport version p h s w :
  opened id c w -> order_supported order c ->
  accepts up (addr pfx) (ChannelClaim port chan (init_channel order dport id version)) h p 0 w ->
  exists w', handle k (ChannelOpenTryMsg (mkMsgProxyChannelOpenTry up pfx order [id] port chan
      dport version p h s)) w = (Ok tt, w') /\
    chan_at (w_proxy w') up (KeyPrefix pfx) port chan =
      Some (init_channel order dport id version).
Proof.
  intros (c' & Hc & (_ & Hv & _) & _) Ho Ha.
  destruct (accepts_proxied _ _ _ _ _ _ _ _ prefix_here Ha) as [w' Hp]. exists w'. split.
  - apply ChanOpenTry_ok. exists id, c'. split_and!; [done|by apply hop_here| |exact Hp].
    unfold order_supported in *. by rewrite <- Hv.
  - destruct Hp as [_ Hk]. by eapply committed_chan_at.
Qed.

(** An accepted ChannelOpenConfirm opens it. *)
Definition open_channel (order : Z) (dport dchan hop version : string) : Channel :=
  mkChannel chan_OPEN order (mkChanCounterparty dport dchan) [hop] version.

Lemma confirm_opens_channel id c order port chan dport dchan version p h s w :
  opened id c w ->
  chan_at (w_proxy w) up (KeyPrefix pfx) port chan = Some (init_channel order dport id version) ->
  accepts up (addr pfx) (ChannelClaim port chan (open_channel order dport dchan id version))
    h p 0 w ->
  exists w', handle k (ChannelOpenConfirmMsg (mkMsgProxyChannelOpenConfirm up pfx port chan dchan
      p h s)) w = (Ok tt, w') /\
    chan_at (w_proxy w') up (KeyPrefix pfx) port chan =
      Some (open_channel order dport dchan id version).
Proof.
  intros (c' & Hc & _ & Ho) Hch Ha.
  destruct (accepts_proxied _ _ _ _ _ _ _ _ prefix_here Ha) as [w' Hp]. exists w'. split.
  - apply ChanOpenConfirm_ok. exists (init_channel order dport id version), id, c'.
    split_and!; [by apply channel_here|done|done|by exists []|by apply hop_here|done|exact Hp].
  - destruct Hp as [_ Hk]. by eapply committed_chan_at.
Qed.

(** A packet accepted on it is committed. *)
Lemma packet_commits id c order port chan dport dchan version sq data th tt' p h s w :
  let pkt := mkPacket sq port chan dport dchan data th tt' in
  opened id c w ->
  chan_at (w_proxy w) up (KeyPrefix pfx) port chan =
    Some (open_channel order dport dchan id version) ->
  accepts up (addr pfx) (PacketClaim port chan sq (CommitPacket pkt)) h p (conn_DelayPeriod c) w ->
  exists w', handle k (RecvPacketMsg (mkMsgProxyRecvPacket up pfx pkt p h s)) w = (Ok tt, w') /\
    kv_get (w_proxy w') (path_head up (KeyPrefix pfx) +:+ PacketCommitmentKey port chan sq) =
      Some (CommitPacket pkt).
Proof.
  intros pkt (c' & Hc & (_ & _ & Hd & _) & _) Hch Ha.
  destruct (accepts_proxied _ _ _ _ _ _ _ _ prefix_here Ha) as [w' Hp]. exists w'. split.
  - apply RecvPacket_ok. exists (open_channel order dport dchan id version), id, c'.
    split_and!; [by apply channel_here|done|by exists []|by apply hop_here|].
    simpl. rewrite <- Hd. exact Hp.
  - destruct Hp as [_ (v & [= <-] & ->)%committed_value]. by rewrite law_get_set_eq.
Qed.

(** ** The other direction: a channel opened by the downstream *)

Definition tryopen_channel (order : Z) (dport dchan hop version : string) : Channel :=
  mkChannel chan_TRYOPEN order (mkChanCounterparty dport dchan) [hop] version.

Lemma ack_stores_channel id c order port chan dport dchan version p h s w :
  opened id c w -> order_supported order c ->
  accepts up (addr pfx) (ChannelClaim port chan (tryopen_channel order dport dchan id version))
    h p 0 w ->
  exists w', handle k (ChannelOpenAckMsg (mkMsgProxyChannelOpenAck up pfx order [id] port chan
      dport dchan version p h s)) w = (Ok tt, w') /\
    chan_at (w_proxy w') up (KeyPrefix pfx) port chan =
      Some (tryopen_channel order dport dchan id version).
Proof.
  intros (c' & Hc & (_ & Hv & _) & Hst) Ho Ha.
  destruct (accepts_proxied _ _ _ _ _ _ _ _ prefix_here Ha) as [w' Hp]. exists w'. split.
  - apply ChanOpenAck_ok. exists id, c'. split_and!; [done|by apply hop_here|done| |exact Hp].
    unfold order_supported in *. by rewrite <- Hv.
  - destruct Hp as [_ Hk]. by eapply committed_chan_at.
Qed.

Lemma finalize_opens_channel id c order port chan dport dchan version p h s w :
  opened id c w ->
  chan_at (w_proxy w) up (KeyPrefix pfx) port chan =
    Some (tryopen_channel order dport dchan id version) ->
  accepts up (addr pfx) (ChannelClaim port chan (open_channel order dport dchan id version))
    h p 0 w ->
  exists w', handle k (ChannelOpenFinalizeMsg (mkMsgProxyChannelOpenFinalize up pfx port chan p h s))
      w = (Ok tt, w') /\
    chan_at (w_proxy w') up (KeyPrefix pfx) port chan =
      Some (open_channel order dport dchan id version).
Proof.
  intros (c' & Hc & _ & Ho) Hch Ha.
  destruct (accepts_proxied _ _ _ _ _ _ _ _ prefix_here Ha) as [w' Hp]. exists w'. split.
  - apply ChanOpenFinalize_ok. exists (tryopen_channel order dport dchan id version), id, c'.
    split_and!; [by apply channel_here|done|by exists []|by apply hop_here|done|exact Hp].
  - destruct Hp as [_ Hk]. by eapply committed_chan_at.
Qed.

(** An acknowledgement of a packet that came over it is committed. *)
Lemma acknowledgement_commits id c order port chan dport dchan version pkt ack p h s w :
  pkt_DestinationPort pkt = port -> pkt_DestinationChannel pkt = chan -> opened id c w ->
  chan_at (w_proxy w) up (KeyPrefix pfx) port chan =
    Some (open_channel order dport dchan id version) ->
  accepts up (addr pfx) (AckClaim port chan (pkt_Sequence pkt) ack) h p (conn_DelayPeriod c) w ->
  exists w', handle k (AcknowledgePacketMsg (mkMsgProxyAcknowledgePacket up pfx pkt ack p h s)) w =
      (Ok tt, w') /\
    kv_get (w_proxy w')
      (path_head up (KeyPrefix pfx) +:+ PacketAcknowledgementKey port chan (pkt_Sequence pkt)) =
      Some (CommitAcknowledgement ack).
Proof.
  intros <- <- (c' & Hc & (_ & _ & Hd & _) & _) Hch Ha.
  destruct (accepts_proxied _ _ _ _ _ _ _ _ prefix_here Ha) as [w' Hp]. exists w'. split.
  - apply AcknowledgePacket_ok. exists (open_channel order dport dchan id version), id, c'.
    split_and!; [by apply channel_here|by exists []|by apply hop_here|].
    simpl. rewrite <- Hd. exact Hp.
  - destruct Hp as [_ (v & [= <-] & ->)%committed_value]. by rewrite law_get_set_eq.
Qed.

(** * Properties *)

(** C7: progress.  Let the proxy hold a connection in INIT with a version that
    supports the ordering, under an identifier and a prefix without slashes.  Let
    the relayer deliver, in this order, the connection's Confirm, a channel's Try
    and Confirm and a packet of that channel, each at a moment when the upstream's
    light client accepts its claim.  In between any messages may be handled,
    successful or not, and the libraries may change - with slash-free prefixes, and
    from the channel's Try on without another handshake message for the same
    channel, which could reset it.  Then the Confirm succeeds, or finds the
    connection opened already by an earlier one; the connection is OPEN after it in
    either case; the channel's Try and Confirm and the packet succeed; and in the
    end the packet's commitment is at its place in the proxy store, where the
    downstream looks for it. *)
Theorem relayed_to_the_end id c cid order port chan dport dchan version sq data th tt' signer
    p1 h1 p2 h2 p3 h3 p4 h4 w w1 w2 w3 w4 :
  let b := KeyPrefix pfx in
  let pkt := mkPacket sq port chan dport dchan data th tt' in
  let m1 := ConnectionOpenConfirmMsg
    (mkMsgProxyConnectionOpenConfirm id up pfx cid p1 h1 signer) in
  let m2 := ChannelOpenTryMsg
    (mkMsgProxyChannelOpenTry up pfx order [id] port chan dport version p2 h2 signer) in
  let m3 := ChannelOpenConfirmMsg
    (mkMsgProxyChannelOpenConfirm up pfx port chan dchan p3 h3 signer) in
  let m4 := RecvPacketMsg (mkMsgProxyRecvPacket up pfx pkt p4 h4 signer) in
  conn_at (w_proxy w) up b id = Some c -> conn_State c = conn_INIT -> order_supported order c ->
  reachable k separated_msg w w1 ->
  accepts up (addr pfx) (ConnectionClaim id (opened_connection cid c)) h1 p1 0 w1 ->
  reachable k separated_msg (handle k m1 w1).2 w2 ->
  accepts up (addr pfx) (ChannelClaim port chan (init_channel order dport id version)) h2 p2 0 w2 ->
  reachable k (quiet up b port chan) (handle k m2 w2).2 w3 ->
  accepts up (addr pfx) (ChannelClaim port chan (open_channel order dport dchan id version))
    h3 p3 0 w3 ->
  reachable k (quiet up b port chan) (handle k m3 w3).2 w4 ->
  accepts up (addr pfx) (PacketClaim port chan sq (CommitPacket pkt)) h4 p4 (conn_DelayPeriod c) w4 ->
  ((handle k m1 w1).1 = Ok tt \/ opened id c w1) /\ opened id c (handle k m1 w1).2 /\
  (handle k m2 w2).1 = Ok tt /\ (handle k m3 w3).1 = Ok tt /\ (handle k m4 w4).1 = Ok tt /\
  kv_get (w_proxy (handle k m4 w4).2) (path_head up b +:+ PacketCommitmentKey port chan sq) =
    Some (CommitPacket pkt).
Proof.
  intros b pkt m1 m2 m3 m4 Hc Hst Hord Hr1 Ha1 Hr2 Ha2 Hr3 Ha3 Hr4 Ha4.
  pose proof (confirm_opens id c cid p1 h1 signer w w1 Hc Hst
    (reachable_evolves k _ _ _ (fun _ H => H) Hr1) Ha1) as [Hor1 Ho1]. fold m1 in Hor1, Ho1.
  pose proof (opened_evolves _ _ _ _ (reachable_evolves k _ _ _ (fun _ H => H) Hr2) Ho1) as Ho2.
  destruct (try_stores_channel id c order port chan dport version p2 h2 signer w2 Ho2 Hord Ha2)
    as (w2' & E2 & Hch2). fold m2 in E2.
  pose proof (opened_after m2 id c w2 w3 port chan (proj2 up_separated) Ho2 Hr3) as Ho3.
  apply quiet_history in Hr3; [|done]. rewrite E2 in Hr3. unfold b in Hr3. simpl in Hr3. rewrite Hch2 in Hr3.
  destruct (confirm_opens_channel id c order port chan dport dchan version p3 h3 signer w3 Ho3 Hr3 Ha3)
    as (w3' & E3 & Hch3). fold m3 in E3.
  pose proof (opened_after m3 id c w3 w4 port chan (proj2 up_separated) Ho3 Hr4) as Ho4.
  apply quiet_history in Hr4; [|done]. rewrite E3 in Hr4. unfold b in Hr4. simpl in Hr4. rewrite Hch3 in Hr4.
  destruct (packet_commits id c order port chan dport dchan version sq data th tt' p4 h4 signer w4
    Ho4 Hr4 Ha4) as (w4' & E4 & Hk). fold pkt m4 in E4.
  split; [exact Hor1|]. by rewrite E2, E3, E4.
Qed.

(** C8: progress, the other way round.  Let the proxy hold a connection that the
    downstream opened (in TRYOPEN), under an identifier and a prefix without
    slashes, and let the relayer deliver its Finalize, the Ack and the Finalize of
    a channel and the acknowledgement of a packet that the downstream sent over
    it, each when the upstream's light client accepts its claim.  In between any
    messages may be handled, successful or not, and the libraries may change - with
    slash-free prefixes, and from the channel's Ack on without another handshake
    message for the same channel.  Then the Finalize succeeds, or finds the
    connection opened already; the connection is OPEN after it in either case; the
    later messages succeed; and the acknowledgement's commitment is in the end at
    its place in the proxy store. *)
Theorem acknowledged_to_the_end id c order port chan dport dchan version pkt ack signer
    p1 h1 p2 h2 p3 h3 p4 h4 w w1 w2 w3 w4 :
  let b := KeyPrefix pfx in
  let m1 := ConnectionOpenFinalizeMsg (mkMsgProxyConnectionOpenFinalize id up pfx p1 h1 signer) in
  let m2 := ChannelOpenAckMsg (mkMsgProxyChannelOpenAck up pfx order [id] port chan dport dchan
    version p2 h2 signer) in
  let m3 := ChannelOpenFinalizeMsg
    (mkMsgProxyChannelOpenFinalize up pfx port chan p3 h3 signer) in
  let m4 := AcknowledgePacketMsg (mkMsgProxyAcknowledgePacket up pfx pkt ack p4 h4 signer) in
  pkt_DestinationPort pkt = port -> pkt_DestinationChannel pkt = chan ->
  conn_at (w_proxy w) up b id = Some c -> conn_State c = conn_TRYOPEN -> order_supported order c ->
  reachable k separated_msg w w1 ->
  accepts up (addr pfx) (ConnectionClaim id (set_State conn_OPEN c)) h1 p1 0 w1 ->
  reachable k separated_msg (handle k m1 w1).2 w2 ->
  accepts up (addr pfx) (ChannelClaim port chan (tryopen_channel order dport dchan id version))
    h2 p2 0 w2 ->
  reachable k (quiet up b port chan) (handle k m2 w2).2 w3 ->
  accepts up (addr pfx) (ChannelClaim port chan (open_channel order dport dchan id version))
    h3 p3 0 w3 ->
  reachable k (quiet up b port chan) (handle k m3 w3).2 w4 ->
  accepts up (addr pfx) (AckClaim port chan (pkt_Sequence pkt) ack) h4 p4 (conn_DelayPeriod c) w4 ->
  ((handle k m1 w1).1 = Ok tt \/ opened id c w1) /\ opened id c (handle k m1 w1).2 /\
  (handle k m2 w2).1 = Ok tt /\ (handle k m3 w3).1 = Ok tt /\ (handle k m4 w4).1 = Ok tt /\
  kv_get (w_proxy (handle k m4 w4).2)
    (path_head up b +:+ PacketAcknowledgementKey port chan (pkt_Sequence pkt)) =
    Some (CommitAcknowledgement ack).
Proof.
  intros b m1 m2 m3 m4 Hpp Hpc Hc Hst Hord Hr1 Ha1 Hr2 Ha2 Hr3 Ha3 Hr4 Ha4.
  pose proof (finalize_opens id c p1 h1 signer w w1 Hc Hst
    (reachable_evolves k _ _ _ (fun _ H => H) Hr1) Ha1) as [Hor1 Ho1]. fold m1 in Hor1, Ho1.
  pose proof (opened_evolves _ _ _ _ (reachable_evolves k _ _ _ (fun _ H => H) Hr2) Ho1) as Ho2.
  destruct (ack_stores_channel id c order port chan dport dchan version p2 h2 signer w2 Ho2 Hord Ha2)
    as (w2' & E2 & Hch2). fold m2 in E2.
  pose proof (opened_after m2 id c w2 w3 port chan (proj2 up_separated) Ho2 Hr3) as Ho3.
  apply quiet_history in Hr3; [|done]. rewrite E2 in Hr3. unfold b in Hr3. simpl in Hr3.
  rewrite Hch2 in Hr3.
  destruct (finalize_opens_channel id c order port chan dport dchan version p3 h3 signer w3 Ho3 Hr3 Ha3)
    as (w3' & E3 & Hch3). fold m3 in E3.
  pose proof (opened_after m3 id c w3 w4 port chan (proj2 up_separated) Ho3 Hr4) as Ho4.
  apply quiet_history in Hr4; [|done]. rewrite E3 in Hr4. unfold b in Hr4. simpl in Hr4.
  rewrite Hch3 in Hr4.
  destruct (acknowledgement_commits id c order port chan dport dchan version pkt ack p4 h4 signer w4
    Hpp Hpc Ho4 Hr4 Ha4) as (w4' & E4 & Hk). fold m4 in E4.
  split; [exact Hor1|]. by rewrite E2, E3, E4.
Qed.
End Progress.

(** ** Witness: A's handshake of Scenario.v, with B's in between *)
Section Witness.

Definition w_try : World := run [conn_try] w0.
Definition w_other : World := after conn_ack w_try.
Definition w_open : World := after conn_finalize (after conn_confirm w_other).
Definition w_chan : World := after chan_ack (after chan_try w_open).
Definition w_chan_open : World := after chan_confirm w_chan.

(** The proxy's client of A does not change. *)
Definition client_A : ClientState := CSExt (mkRefClient (h 12)).

Ltac now_accepted := apply (accepts_result _ _ _ _ _ _ _ client_A); vm_compute; reflexivity.

Lemma one_message m (w : World) (allowed : Msg -> Prop) :
  allowed m -> reachable proxy_keeper allowed w (after m w).
Proof. intros H. apply rtc_once. by apply step_msg. Qed.

Lemma relayed_to_the_end_witness :
  (handle proxy_keeper recv w_chan_open).1 = Ok tt /\
  kv_get (w_proxy (after recv w_chan_open))
    "07-ref-0/ibc/commitments/ports/transfer/channels/channel-0/sequences/1" =
    Some (CommitPacket packet_A).
Proof.
  assert (separated "07-ref-0" (KeyPrefix ibc)) as Hsep by (split; reflexivity).
  pose proof (@relayed_to_the_end _ _ _ _ ref_laws proxy_keeper "07-ref-0" ibc Hsep
    "connection-0" (conn_A conn_INIT "") "connection-3" 1 "transfer" "channel-0" "transfer"
    "channel-7" "ics20-1" 1 "data" (h 100) 0 "relayer" "" (h 11) "" (h 11) "" (h 12) "" (h 12)
    w_try w_other w_open w_chan w_chan_open) as H. cbv zeta in H.
  match type of H with _ -> _ -> _ -> _ -> _ -> _ -> _ -> _ -> _ -> _ -> _ -> ?C =>
    assert C as HC end; [apply H; clear H|exact (proj2 (proj2 (proj2 (proj2 HC))))].
  - vm_compute. reflexivity.
  - reflexivity.
  - exists version1. split; vm_compute; reflexivity.
  - apply one_message. reflexivity.
  - now_accepted.
  - apply one_message. reflexivity.
  - now_accepted.
  - apply one_message. split; [reflexivity|]. intros port id [= <- <-] _. vm_compute. discriminate.
  - now_accepted.
  - apply rtc_refl.
  - now_accepted.
Defined.

(** B's handshake, with A's in between *)
Definition w_init : World := run [conn_ack] w0.
Definition w_init' : World := after conn_try w_init.
Definition w_opened : World := after conn_confirm (after conn_finalize w_init').
Definition w_tried : World := after chan_try (after chan_ack_B w_opened).
Definition w_finalized : World := after chan_finalize_B w_tried.

Lemma acknowledged_to_the_end_witness :
  (handle proxy_keeper ack_back w_finalized).1 = Ok tt /\
  kv_get (w_proxy (after ack_back w_finalized))
    "07-ref-0/ibc/acks/ports/transfer/channels/channel-9/sequences/5" =
    Some (CommitAcknowledgement "ok").
Proof.
  assert (separated "07-ref-0" (KeyPrefix ibc)) as Hsep by (split; reflexivity).
  pose proof (@acknowledged_to_the_end _ _ _ _ ref_laws proxy_keeper "07-ref-0" ibc Hsep
    "connection-9" (conn_A conn_TRYOPEN "connection-5") 1 "transfer" "channel-9" "transfer"
    "channel-6" "ics20-1" packet_back "ok" "relayer" "" (h 11) "" (h 11) "" (h 12) "" (h 12)
    w_init w_init' w_opened w_tried w_finalized) as H. cbv zeta in H.
  match type of H with _ -> _ -> _ -> _ -> _ -> _ -> _ -> _ -> _ -> _ -> _ -> _ -> _ -> ?C =>
    assert C as HC end; [apply H; clear H|exact (proj2 (proj2 (proj2 (proj2 HC))))].
  - reflexivity.
  - reflexivity.
  - vm_compute. reflexivity.
  - reflexivity.
  - exists version1. split; vm_compute; reflexivity.
  - apply one_message. reflexivity.
  - now_accepted.
  - apply one_message. reflexivity.
  - now_accepted.
  - apply one_message. split; [reflexivity|]. intros port id [= <- <-] _. vm_compute. discriminate.
  - now_accepted.
  - apply rtc_refl.
  - now_accepted.
Defined.
End Witness.
