(* ===== verification/EndToEnd.v ===== *)
(** From the upstream to the downstream: what a downstream chain accepts through
    its proxy client was accepted, on the proxy, by the upstream's light
    client. *)
From S2P Require Import Prelude.
From S2P Require Import Lib.
From S2P Require Import Keys.
From S2P Require Import ProxyClient.
From S2P Require Import Commitment.
From S2P Require Import Verify.
From S2P Require Import Connection.
From S2P Require Import Msgs.
From S2P Require Import Server.
From S2P Require Import Claims.
From S2P Require Import RefLib.
From S2P Require Import Dispatch.
From S2P Require Import Scenario.
From S2P Require Import ProxySpec.
From S2P Require Import Paths.
From S2P Require Import Soundness.
From S2P Require Import ConnSpec.
From S2P Require Import ChanSpec.
From S2P Require Import Handshake.

(** * Every pair of the store, with its upstream *)

Section Provenance.
Context `{T : LibTypes, L : !Lib, I : !ClientMethods ClientState, CK : !ClientKeeperI}.
Context `{LL : !LibLaws}.

(** [justified] (Claims.v), for a prefix that can be read back from the path. *)
Definition justified_sep (k v : bytes) : Prop :=
  exists up pfx b c, no_char "/" b = true /\ Prefix_Bytes pfx = Ok b /\
    k = path_head up b +:+ claim_key c /\ claim_value c = Ok v /\ accepted up pfx c.

Definition store_justified (w : World) : Prop :=
  forall k v, kv_get (w_proxy w) k = Some v -> justified_sep k v.

Definition keeps_justified : relation World := fun w w' => store_justified w -> store_justified w'.

#[export] Instance keeps_justified_preorder : PreOrder keeps_justified.
Proof. split; [by intros w ?|]. intros w1 w2 w3 H12 H23 H. by apply H23, H12. Qed.

Lemma same_store_justified w w' : w_proxy w' = w_proxy w -> keeps_justified w w'.
Proof. intros E H k v. rewrite E. apply H. Qed.

Lemma claim_justified up pfx c m :
  separated_prefix pfx -> proxies up pfx c m -> steps keeps_justified m.
Proof.
  intros Hp Hm w. destruct (m w) as [r w'] eqn:E.
  apply Hm in E as [[_ E]|(_ & Ha & b & v & Hb & Hv & E)]; [by apply same_store_justified|].
  intros Hw k' v' Hk. simpl in Hk. rewrite E in Hk.
  destruct (decide (path_head up b +:+ claim_key c = k')) as [<-|Hne].
  - rewrite law_get_set_eq in Hk. injection Hk as <-. exists up, pfx, b, c. auto 6.
  - rewrite law_get_set_ne in Hk by done. by apply Hw.
Qed.

Lemma scope_prefix m up pfx : scope m up pfx -> pfx = addr (upstream_prefix m).
Proof. destruct m; simpl; by intros [_ ->]. Qed.

Lemma handle_justified k m : separated_msg m -> steps keeps_justified (handle k m).
Proof.
  intros Hm%separated_msg_prefix.
  apply (steps_handle keeps_justified (fun _ pfx _ => separated_prefix pfx)).
  - intros A m' w. apply same_store_justified, mext_proxy.
  - intros up pfx c m'. apply claim_justified.
  - intros up pfx _ Hs. by rewrite (scope_prefix _ _ _ Hs).
Qed.

Lemma reachable_justified k allowed w w' :
  (forall m, allowed m -> separated_msg m) -> reachable k allowed w w' ->
  store_justified w -> store_justified w'.
Proof.
  intros Hall. induction 1 as [w|w1 w2 w3 H _ IH]; [done|]. intros Hw. apply IH.
  destruct H as [m w1 Hm%Hall|w1 e']; [by apply handle_justified|].
  by eapply same_store_justified, Hw.
Qed.
End Provenance.

Section Delegation.
Context `{T : LibTypes, L : !Lib, CK : !ClientKeeperI}.
Context (X : ClientMethods ExtClientState) (I : ClientMethods ClientState).

(** [claim_check] through the client's own method table, and through the one
    the wrapped state is used with. *)
Abbreviation check_outer := (claim_check (I := dispatch_on X I)).
Abbreviation check_inner := (claim_check (I := I)).

Lemma proxy_claim_check cs inner store pfx h proof delay c e :
  UnpackClientState (pcs_ProxyClientState cs) = Ok inner ->
  check_outer (CSProxy cs) store pfx h proof delay c e =
  mbind (mlift (proxied_prefix cs pfx))
    (fun p => check_inner inner (NewProxyExtractorStore store) p h proof delay c) e.
Proof.
  intros Hi. destruct c; simpl;
    unfold ProxyClient.VerifyClientState, ProxyClient.VerifyClientConsensusState,
      ProxyClient.VerifyConnectionState, ProxyClient.VerifyChannelState,
      ProxyClient.VerifyPacketCommitment, ProxyClient.VerifyPacketAcknowledgement,
      ProxyClient.VerifyPacketReceiptAbsence, ProxyClient.VerifyNextSequenceRecv;
    by rewrite (with_inner cs inner) by done.
Qed.

(** ** The downstream's client of the proxy chain

    [inner] is that client.  [committed_at] is what the consensus state it
    trusts at a height commits to; that the client only accepts what is
    committed there under the path made of the prefix and the ICS-24 key is
    what a light client is for ([inner_sound]), and the path of a MultiPrefix is
    that of its parent prefix with the path prefix and a "/" before the key
    ([multi_prefix]). *)
Context {Path : Type} (apply_prefix : Prefix -> bytes -> Path).
Context (inner : ClientState).
Context (committed_at : KVStore -> Height -> ExtState -> Path -> option bytes).

Definition membership (c : Claim) : bool :=
  match c with ReceiptAbsenceClaim _ _ _ => false | _ => true end.

Hypothesis multi_prefix : forall p path key,
  apply_prefix (MultiPfx p path) key = apply_prefix p (path +:+ "/" +:+ key).
Hypothesis inner_sound : forall store pfx h proof delay c e e',
  membership c = true -> check_inner inner store pfx h proof delay c e = (Ok tt, e') ->
  exists v, claim_value c = Ok v /\
    committed_at store h e (apply_prefix pfx (claim_key c)) = Some v.

(** The consensus state is one of the proxy chain, whose proxy store is [kv]. *)
Definition tracks_store (cs : ProxyCS) (store : KVStore) (h : Height) (e : ExtState)
    (kv : ProxyKV) : Prop :=
  forall key, committed_at (NewProxyExtractorStore store) h e
    (apply_prefix (MerklePfx (pcs_ProxyPrefix cs)) key) = kv_get kv key.

Lemma downstream_reads_store cs store pfx h proof delay c e e' kv :
  UnpackClientState (pcs_ProxyClientState cs) = Ok inner ->
  tracks_store cs store h e kv -> membership c = true ->
  check_outer (CSProxy cs) store pfx h proof delay c e = (Ok tt, e') ->
  exists k v, ProxyKey pfx (pcs_UpstreamClientId cs) (claim_key c) = Ok k /\
    claim_value c = Ok v /\ kv_get kv k = Some v.
Proof.
  intros Hi Ht Hm H. rewrite (proxy_claim_check _ _ _ _ _ _ _ _ _ Hi) in H.
  apply mlift_bind_Ok in H as (p & (b & Hb & [= <-])%obind_Ok & H).
  apply inner_sound in H as (v & Hv & H); [|done].
  rewrite multi_prefix, Ht in H. eexists _, v. split; [|done].
  unfold ProxyKey. rewrite Hb. simpl. by rewrite !app_str_assoc.
Qed.

(** * Properties *)

(** C1: end to end.  Take a proxy whose history, from an empty store or any
    store that is accounted for, is made of messages whose upstream prefixes
    have no "/"; and a downstream whose proxy client wraps a sound client of
    the proxy chain.  When the proxy client accepts a client, consensus,
    connection or channel state, a packet commitment, an acknowledgement or a
    next sequence for the upstream it tracks, the light client that the proxy
    runs under that very identifier accepted a claim with the same ICS-24 path,
    the same value and the same prefix. *)
Theorem downstream_end_to_end `{LL : !LibLaws} (IP : ClientMethods ClientState)
    k allowed w w' cs store pfx b h proof delay c e e' :
  (forall m, allowed m -> separated_msg m) ->
  reachable (I := IP) k allowed w w' -> store_justified (I := IP) w ->
  UnpackClientState (pcs_ProxyClientState cs) = Ok inner ->
  tracks_store cs store h e (w_proxy w') ->
  no_char "/" (pcs_UpstreamClientId cs) = true ->
  Prefix_Bytes pfx = Ok b -> no_char "/" b = true ->
  membership c = true ->
  check_outer (CSProxy cs) store pfx h proof delay c e = (Ok tt, e') ->
  exists pfx' c' v, Prefix_Bytes pfx' = Ok b /\ claim_key c' = claim_key c /\
    claim_value c' = Ok v /\ claim_value c = Ok v /\
    accepted (I := IP) (pcs_UpstreamClientId cs) pfx' c'.
Proof.
  intros Hall Hr Hw Hi Ht Hup Hb Hsep Hm H.
  pose proof (reachable_justified k allowed w w' Hall Hr Hw) as Hj.
  eapply downstream_reads_store in H as (key & v & Hkey & Hv & Hkv); [|done..].
  apply Hj in Hkv as (up' & pfx' & b' & c' & Hs' & Hb' & E & Hv' & Ha).
  apply ProxyKey_head in Hkey as (b0 & Hb0 & ->).
  assert (b0 = b) as -> by congruence.
  apply path_head_inj in E as (<- & <- & E); [|done| |done..].
  - by exists pfx', c', v.
  - by eapply accepted_up.
Qed.

(** What absence is for a light client: nothing is committed under the path. *)
Definition absence_sound : Prop := forall store pfx port id n h proof delay e e',
  check_inner inner store pfx h proof delay (ReceiptAbsenceClaim port id n) e = (Ok tt, e') ->
  committed_at store h e (apply_prefix pfx (PacketReceiptKey port id n)) = None.

(** C11: absence is inverted.  Once the proxy has verified the absence of a
    receipt on the upstream and recorded it, no downstream whose proxy client
    wraps a sound client and sees that state of the proxy store accepts the
    absence any more, whatever the proof: the record is a value at the very path
    whose absence the downstream asks for.  (In the witness it accepted the
    absence as long as the proxy had recorded nothing.) *)
Theorem receipt_absence_inverted `{LL : !LibLaws} (IP : ClientMethods ClientState)
    up pfx conn hu pu port id n w w' cs store h proof delay e e' :
  absence_sound ->
  VerifyAndProxyPacketReceiptAbsence (I := IP) up pfx conn hu pu port id n w = (Ok tt, w') ->
  UnpackClientState (pcs_ProxyClientState cs) = Ok inner -> pcs_UpstreamClientId cs = up ->
  tracks_store cs store h e (w_proxy w') ->
  check_outer (CSProxy cs) store pfx h proof delay (ReceiptAbsenceClaim port id n) e <> (Ok tt, e').
Proof.
  intros Hs Hw Hi Hup Ht H. rewrite (proxy_claim_check _ _ _ _ _ _ _ _ _ Hi) in H.
  apply mlift_bind_Ok in H as (p & (b & Hb & [= <-])%obind_Ok & H).
  apply Hs in H. rewrite multi_prefix, Ht, Hup in H.
  apply VerifyAndProxyPacketReceiptAbsence_proxies in Hw as [[? _]|(_ & _ & b' & v & Hb' & _ & E)];
    [done|].
  assert (b' = b) as -> by congruence. rewrite E in H.
  rewrite !app_str_assoc in H. unfold path_head in H. rewrite !app_str_assoc in H.
  simpl claim_key in H. by rewrite law_get_set_eq in H.
Qed.

End Delegation.

(** ** Witnesses: the reference client is sound, and a downstream that tracks the
    proxy of the whole flow accepts the OPEN connection *)
Section Witnesses.

Definition ref_committed (st : KVStore) (h : Height) (e : RefState) (path : string) :
    option string :=
  match (ref_root st h e).1 with
  | Ok root => (list_to_map root : gmap string string) !! path
  | _ => None
  end.

Lemma ref_member_committed st h p key v e e' :
  ref_member st h p key v e = (Ok tt, e') ->
  ref_committed st h e (RefLib.apply_prefix p key) = Some v.
Proof.
  unfold ref_member, ref_lookup, ref_committed. intros H.
  apply mbind_Ok in H as (o & e1 & (root & e2 & Hr & [= <- _])%mbind_Ok & H).
  rewrite Hr. simpl. destruct (decide (list_to_map (M := gmap string string) root
    !! RefLib.apply_prefix p key = Some v)) as [|Hne]; [done|].
  by rewrite bool_decide_eq_false_2 in H.
Qed.

Lemma ref_client_sound st pfx h proof delay c e e' :
  membership c = true ->
  claim_check (I := dispatch ref_client 5) self_client st pfx h proof delay c e = (Ok tt, e') ->
  exists v, claim_value c = Ok v /\
    ref_committed st h e (RefLib.apply_prefix pfx (claim_key c)) = Some v.
Proof.
  intros Hm H. destruct c; try done; eexists; (split; [reflexivity|]);
    by apply ref_member_committed in H.
Qed.

Definition proxy_entry (key : string) : string := "proxy/" +:+ key.

#[local] Instance proxy_entry_inj : Inj (=) (=) proxy_entry.
Proof. intros a b. apply app_str_inj_l. Qed.

(** What the proxy chain commits to when its proxy store is [kv]. *)
Definition root_of (kv : gmap string string) : list (string * string) :=
  map_to_list (kmap proxy_entry kv : gmap string string).

Lemma store_C_Get root :
  st_Get store_C (ConsensusStateKey (h 5)) (ext_C root) =
    (Ok (Some (enc_cons (wrapped_root root))), ext_C root).
Proof.
  change (st_Get store_C (ConsensusStateKey (h 5)) (ext_C root)) with
    (Ok (default ∅ (({["client/xx-proxy-0" := {[cons_key 5 := enc_cons (wrapped_root root)]}]}
          : gmap string (gmap string string)) !! "client/xx-proxy-0") !! cons_key 5),
     ext_C root).
  rewrite lookup_singleton_eq. simpl. by rewrite lookup_singleton_eq.
Qed.

Lemma ext_C_root root :
  ref_root (NewProxyExtractorStore store_C) (h 5) (ext_C root) = (Ok root, ext_C root).
Proof.
  unfold ref_root. erewrite mbind_run.
  2: { eapply (extractor_Get_wrapped store_C (ConsensusStateKey (h 5)) (ext_C root)
         (enc_cons (wrapped_root root)) (ext_C root)
         (mkProxyConsS (any_cons (ConsExt (T := ref_types) root)))
         (ConsExt (T := ref_types) root)).
       - vm_compute. reflexivity.
       - apply store_C_Get.
       - done.
       - exact (ref_decode_encode (H := ConsensusState_codec) (wrapped_root root)).
       - exact (ref_unpack_pack (H := ConsensusState_codec) "consensus"
           (ConsExt (T := ref_types) root) _ eq_refl).
       - done. }
  unfold mbind, mlift.
  replace (UnmarshalConsensusState _) with (Ok (ConsExt (T := ref_types) root)); [done|].
  symmetry. exact (ref_decode_encode (H := ConsensusState_codec) (ConsExt (T := ref_types) root)).
Qed.

Lemma ext_C_tracks kv :
  tracks_store RefLib.apply_prefix ref_committed proxy_cs store_C (h 5) (ext_C (root_of kv)) kv.
Proof.
  intros key. unfold ref_committed. rewrite ext_C_root. simpl. unfold root_of.
  rewrite list_to_map_to_list. apply (lookup_kmap proxy_entry).
Qed.

Definition e_end : RefState := ext_C (root_of (w_proxy flow_end)).
Definition open_claim : Claim := ConnectionClaim "connection-0" conn_open_A.
Definition check_C (c : Claim) : M RefState unit :=
  claim_check (I := ref_iface) (CSProxy proxy_cs) store_C (addr ibc) (h 5) "" 0 c.

Lemma w0_store_justified : store_justified (I := ref_iface) w0.
Proof. intros k v. simpl. by rewrite lookup_empty. Qed.

Lemma check_C_open : check_C open_claim e_end = (Ok tt, (check_C open_claim e_end).2).
Proof. apply pair_result. vm_compute. reflexivity. Qed.

Lemma downstream_end_to_end_witness :
  check_C open_claim e_end = (Ok tt, (check_C open_claim e_end).2) /\
  exists pfx' c', claim_key c' = "connections/connection-0" /\
    claim_value c' = Ok (enc_conn conn_open_A) /\ accepted (I := ref_iface) "07-ref-0" pfx' c'.
Proof.
  split; [exact check_C_open|].
  destruct (@downstream_end_to_end _ _ _ ref_client (dispatch ref_client 5) _
    RefLib.apply_prefix self_client ref_committed (fun p path key => eq_refl) ref_client_sound
    ref_laws ref_iface proxy_keeper separated_msg w0 flow_end proxy_cs store_C (addr ibc) "ibc"
    (h 5) "" 0%N open_claim e_end (check_C open_claim e_end).2)
    as (pfx' & c' & v & _ & Hk & Hv & Hv' & Ha).
  - exact (fun m Hm => Hm).
  - apply run_reachable, whole_flow_separated.
  - exact w0_store_justified.
  - reflexivity.
  - apply ext_C_tracks.
  - reflexivity.
  - reflexivity.
  - reflexivity.
  - reflexivity.
  - exact check_C_open.
  - exists pfx', c'. split; [exact Hk|]. split; [|exact Ha].
    rewrite Hv. exact (eq_sym Hv').
Defined.

Definition absent : Claim := ReceiptAbsenceClaim "transfer" "channel-0" 9.

Lemma ref_absence_sound :
  absence_sound (dispatch ref_client 5) RefLib.apply_prefix self_client ref_committed.
Proof.
  intros st pfx port id n h proof delay e e' H.
  change (ref_absent st h pfx (PacketReceiptKey port id n) e = (Ok tt, e')) in H.
  unfold ref_absent, ref_lookup, ref_committed in *.
  apply mbind_Ok in H as (o & e1 & (root & e2 & Hr & [= <- _])%mbind_Ok & H).
  rewrite Hr. simpl. by case_bool_decide.
Qed.

(** The downstream accepts the absence while the proxy store is empty, and refuses
    it once the proxy has recorded it. *)
Lemma receipt_absence_inverted_witness :
  (check_C absent (ext_C (root_of (w_proxy w0)))).1 = Ok tt /\
  (absence w0).1 = Ok tt /\
  forall e', check_C absent (ext_C (root_of (w_proxy (absence w0).2))) <> (Ok tt, e').
Proof.
  split; [vm_compute; reflexivity|]. split; [vm_compute; reflexivity|]. intros e'.
  apply (@receipt_absence_inverted _ _ _ ref_client (dispatch ref_client 5) _
    RefLib.apply_prefix self_client ref_committed (fun p path key => eq_refl)
    ref_laws ref_iface "07-ref-0" (addr ibc) (conn_A conn_OPEN "connection-3") (h 12) "" "transfer" "channel-0" 9 w0
    (absence w0).2 proxy_cs store_C (h 5) "" 0%N _ e' ref_absence_sound).
  - apply pair_result. vm_compute. reflexivity.
  - reflexivity.
  - reflexivity.
  - apply ext_C_tracks.
Defined.
End Witnesses.
