(* ===== verification/MsgsSpec.v ===== *)
(** Messages built by the constructors of types/msgs.go, as the message server
    sees them: the states packed are the states the keeper gets back. *)
From S2P Require Import Prelude.
From S2P Require Import Lib.
From S2P Require Import Verify.
From S2P Require Import Connection.
From S2P Require Import Commitment.
From S2P Require Import Msgs.
From S2P Require Import Server.
From S2P Require Import RefLib.
From S2P Require Import Dispatch.
From S2P Require Import Scenario.

Section MsgsSpec.
Context `{T : LibTypes, L : !Lib, I : !ClientMethods ClientState, CK : !ClientKeeperI}.
Context `{LL : !LibLaws}.

Lemma bind_unpacked {S A B} (o : outcome A) (a : A) (f : A -> M S B) s :
  o = Ok a -> mbind (mlift o) f s = f a s.
Proof. by intros ->. Qed.

(** * Properties *)

(** What a transaction's checks before the handler make of a message: its Any values
    are unpacked, it is valid, and its signer is the one account named in it - or
    asking for it panics. *)
Definition admitted (unpacked validated : outcome unit) (signers : outcome (list bytes))
    (signer : string) : Prop :=
  unpacked = Ok tt /\ validated = Ok tt /\
  (forall a, AccAddressFromBech32 signer = Ok a -> signers = Ok [a]) /\
  (forall e, AccAddressFromBech32 signer = Err e -> signers = Panic (PError e)).

Lemma admitted_intro unpacked signer :
  unpacked = Ok tt -> admitted unpacked (Ok tt) (signers_of signer) signer.
Proof.
  intros ->. split_and!; [done..| |]; unfold signers_of; by intros ? ->.
Qed.

Lemma then_accepted (o1 o2 : outcome unit) : (o1 ;;? o2) = Ok tt <-> o1 = Ok tt /\ o2 = Ok tt.
Proof. destruct o1 as [[]| |]; simpl; naive_solver. Qed.

Lemma then_accepted3 (o1 o2 o3 : outcome unit) :
  (o1 ;;? o2 ;;? o3 ;;? Ok tt) = Ok tt <-> o1 = Ok tt /\ o2 = Ok tt /\ o3 = Ok tt.
Proof. rewrite !then_accepted. tauto. Qed.

(** The unpacker, which caches what is packed: it accepts every value that
    UnpackClientState and UnpackConsensusState give back. *)
Context (unpack_client unpack_consensus : option AnyT -> outcome unit).
Hypothesis unpacks_client : forall a c, UnpackClientState a = Ok c -> unpack_client a = Ok tt.
Hypothesis unpacks_consensus :
  forall a c, UnpackConsensusState a = Ok c -> unpack_consensus a = Ok tt.

(** C39: a handshake message built by its constructor is admitted - it unpacks, is
    valid, and is signed by the account of its signer - and reaches the keeper with
    the very arguments of the constructor: packing the client and consensus
    states and unpacking them in the message server is the identity.  For all
    four messages of the handshake.  And no message gets past UnpackInterfaces
    with an Any that the unpacker refuses: it succeeds exactly when every state
    that the message carries is accepted, at its own interface. *)
Theorem new_msg_handshake k id up pfx c dcs dcons pcs cid p1 p2 p3 h ch p4 p5 ph pch signer w :
  (forall m, NewMsgProxyConnectionOpenTry id pfx c dcs dcons pcs p1 p2 p3 h ch p4 p5 ph pch signer
       = Ok m ->
     admitted (MsgProxyConnectionOpenTry_UnpackInterfaces unpack_client unpack_consensus m)
       (MsgProxyConnectionOpenTry_ValidateBasic m) (MsgProxyConnectionOpenTry_GetSigners m) signer /\
     handle k (ConnectionOpenTryMsg m) w =
     ConnOpenTry k id (addr pfx) c dcs dcons pcs p1 p2 p3 h ch p4 p5 ph pch w) /\
  (forall m, NewMsgProxyConnectionOpenAck id pfx c dcs dcons pcs p1 p2 p3 h ch p4 p5 ph pch signer
       = Ok m ->
     admitted (MsgProxyConnectionOpenAck_UnpackInterfaces unpack_client unpack_consensus m)
       (MsgProxyConnectionOpenAck_ValidateBasic m) (MsgProxyConnectionOpenAck_GetSigners m) signer /\
     handle k (ConnectionOpenAckMsg m) w =
     ConnOpenAck k id (addr pfx) c dcs dcons pcs p1 p2 p3 h ch p4 p5 ph pch w) /\
  (forall m, NewMsgProxyConnectionOpenConfirm id up pfx cid p1 h signer = Ok m ->
     admitted (MsgProxyConnectionOpenConfirm_UnpackInterfaces m)
       (MsgProxyConnectionOpenConfirm_ValidateBasic m)
       (MsgProxyConnectionOpenConfirm_GetSigners m) signer /\
     handle k (ConnectionOpenConfirmMsg m) w = ConnOpenConfirm id up (addr pfx) cid p1 h w) /\
  (forall m, NewMsgProxyConnectionOpenFinalize id up pfx p1 h signer = Ok m ->
     admitted (MsgProxyConnectionOpenFinalize_UnpackInterfaces m)
       (MsgProxyConnectionOpenFinalize_ValidateBasic m)
       (MsgProxyConnectionOpenFinalize_GetSigners m) signer /\
     handle k (ConnectionOpenFinalizeMsg m) w = ConnOpenFinalize id up (addr pfx) p1 h w) /\
  (forall m, MsgProxyClientState_UnpackInterfaces unpack_client unpack_consensus m = Ok tt <->
     unpack_client (PCS_ClientState m) = Ok tt /\ unpack_consensus (PCS_ConsensusState m) = Ok tt) /\
  (forall m, MsgProxyConnectionOpenTry_UnpackInterfaces unpack_client unpack_consensus m = Ok tt <->
     unpack_client (COT_DownstreamClientState m) = Ok tt /\
     unpack_consensus (COT_DownstreamConsensusState m) = Ok tt /\
     unpack_client (COT_ProxyClientState m) = Ok tt) /\
  (forall m, MsgProxyConnectionOpenAck_UnpackInterfaces unpack_client unpack_consensus m = Ok tt <->
     unpack_client (COA_DownstreamClientState m) = Ok tt /\
     unpack_consensus (COA_DownstreamConsensusState m) = Ok tt /\
     unpack_client (COA_ProxyClientState m) = Ok tt).
Proof.
  split_and!.
  - intros m (a1 & H1%must_Ok%law_pack_client & (a2 & H2%must_Ok%law_pack_consensus &
      (a3 & H3%must_Ok%law_pack_client & [= <-])%obind_Ok)%obind_Ok)%obind_Ok. split.
    + apply admitted_intro. unfold MsgProxyConnectionOpenTry_UnpackInterfaces. simpl.
      by rewrite (unpacks_client _ _ H1), (unpacks_consensus _ _ H2), (unpacks_client _ _ H3).
    + simpl. unfold ProxyConnectionOpenTry. simpl.
      by rewrite (bind_unpacked _ _ _ _ H1), (bind_unpacked _ _ _ _ H2), (bind_unpacked _ _ _ _ H3).
  - intros m (a1 & H1%must_Ok%law_pack_client & (a2 & H2%must_Ok%law_pack_consensus &
      (a3 & H3%must_Ok%law_pack_client & [= <-])%obind_Ok)%obind_Ok)%obind_Ok. split.
    + apply admitted_intro. unfold MsgProxyConnectionOpenAck_UnpackInterfaces. simpl.
      by rewrite (unpacks_client _ _ H1), (unpacks_consensus _ _ H2), (unpacks_client _ _ H3).
    + simpl. unfold ProxyConnectionOpenAck. simpl.
      by rewrite (bind_unpacked _ _ _ _ H1), (bind_unpacked _ _ _ _ H2), (bind_unpacked _ _ _ _ H3).
  - intros m [= <-]. split; [by apply admitted_intro|done].
  - intros m [= <-]. split; [by apply admitted_intro|done].
  - intros m. apply then_accepted.
  - intros m. apply then_accepted3.
  - intros m. apply then_accepted3.
Qed.

(** A ClientState message built by its constructor asks the keeper for the
    client with the empty identifier, whatever client it was built for: the
    constructor has no counterparty client identifier to set. *)
Theorem new_client_msg_no_counterparty k up pfx cs cons p1 p2 h ch signer m w :
  NewMsgProxyClientState up pfx cs cons p1 p2 h ch signer = Ok m ->
  handle k (ClientStateMsg m) w =
  Keeper_ClientState up (addr pfx) "" cs cons p1 p2 h ch w.
Proof.
  intros (a1 & H1%law_pack_client & (a2 & H2%law_pack_consensus & [= <-])%obind_Ok)%obind_Ok.
  simpl. unfold ProxyClientState. simpl.
  by rewrite (bind_unpacked _ _ _ _ H1), (bind_unpacked _ _ _ _ H2).
Qed.

End MsgsSpec.

(** ** Witnesses *)
Section Witnesses.

(** An unpacker that accepts what it can unpack *)
Definition ref_unpack {A} (unpack : option AnyT -> outcome A) (a : option AnyT) : outcome unit :=
  let? _ := unpack a in Ok tt.

Lemma new_msg_handshake_witness :
  NewMsgProxyConnectionOpenTry "connection-0" ibc (conn_A conn_INIT "") client_B cons_B
    (CSProxy proxy_cs) "" "" "" (h 10) (h 20) "" "" (h 20) (h 5) "relayer" =
    Ok (try_msg "connection-0" (conn_A conn_INIT "")) /\
  MsgProxyConnectionOpenTry_UnpackInterfaces (ref_unpack UnpackClientState)
    (ref_unpack UnpackConsensusState) (try_msg "connection-0" (conn_A conn_INIT "")) = Ok tt /\
  handle proxy_keeper conn_try w0 =
  ConnOpenTry proxy_keeper "connection-0" (addr ibc) (conn_A conn_INIT "") client_B cons_B
    (CSProxy proxy_cs) "" "" "" (h 10) (h 20) "" "" (h 20) (h 5) w0.
Proof.
  assert (NewMsgProxyConnectionOpenTry "connection-0" ibc (conn_A conn_INIT "") client_B cons_B
    (CSProxy proxy_cs) "" "" "" (h 10) (h 20) "" "" (h 20) (h 5) "relayer" =
    Ok (try_msg "connection-0" (conn_A conn_INIT ""))) as H by reflexivity.
  split; [exact H|].
  destruct (proj1 (@new_msg_handshake _ _ ref_iface _ ref_laws (ref_unpack UnpackClientState)
    (ref_unpack UnpackConsensusState)
    ltac:(by unfold ref_unpack; intros a c ->) ltac:(by unfold ref_unpack; intros a c ->)
    proxy_keeper "connection-0" "07-ref-0" ibc
    (conn_A conn_INIT "") client_B cons_B (CSProxy proxy_cs) "connection-3" "" "" "" (h 10) (h 20)
    "" "" (h 20) (h 5) "relayer" w0) _ H) as [[Hu _] Hh].
  split; [exact Hu|exact Hh].
Defined.

Definition built_client_msg : outcome MsgProxyClientState :=
  NewMsgProxyClientState "07-ref-0" ibc client_B cons_B "" "" (h 10) (h 20) "relayer".

Lemma new_client_msg_no_counterparty_witness :
  exists m, built_client_msg = Ok m /\
    handle proxy_keeper (ClientStateMsg m) w0 =
    Keeper_ClientState "07-ref-0" (addr ibc) "" client_B cons_B "" "" (h 10) (h 20) w0.
Proof.
  eexists. split; [reflexivity|].
  apply (@new_client_msg_no_counterparty _ _ ref_iface _ ref_laws _ _ _ _ _ _ _ _ _ "relayer").
  reflexivity.
Defined.
End Witnesses.
